(* ===== verification/_CoqProject ===== *)
-Q . S2P
Prelude.v
GoLib.v
GoFormat.v
GoPath.v
GoTime.v
SabakanQuery.v
K8s.v
Cluster.v
Queue.v
Resource.v
Status.v
Storage.v
StorageProps.v
Reboot.v
RebootProps.v
Metrics.v
Dns.v
Rivers.v
Params.v
NodeFilter.v
Sabakan.v
SabakanProps.v
Integrate.v
Cli.v
CliProps.v
MetricsProps.v
Operators.v
Engine.v
Strategy.v
Survey.v
Pki.v
Clients.v
Files.v
VaultCli.v
Commands.v
Control.v
Loop.v
LocalProxy.v
Samples.v
StrategyTotal.v
SurveyProps.v
PkiProps.v
Lab.v
FilesProps.v
StrategySafety.v
ControlProps.v
VaultCliProps.v
Writes.v
AgentProps.v
StoreTypes.v
LocalProxyProps.v
LabRuns.v
StrategyProps.v
QueueProps.v
NodeAttrs.v
EndpointProps.v
OpRuns.v
Converge.v
Backup.v
