(* ===== verification/Prelude.v ===== *)
(** * CKE: a verification development

    CKE (Cybozu Kubernetes Engine) deploys and maintains Kubernetes clusters.
    Its server runs a loop: it reads the configuration of the cluster and the
    queues from its storage in etcd, surveys the nodes, decides what to do
    ([DecideOps]), and runs the operators it decided on, each of them a
    sequence of commands on nodes, etcd and the API servers.  Users write the
    configuration and the queues with ckecli; an integration with sabakan
    generates the configuration from registered machines.  This development
    models these parts, from the types of the configuration to the rounds of
    the loop and the goroutines around them, and proves what makes decisions
    safe, the stored data well formed and the loop converge.

    ** The files and the code they model (paths under src/)

    Go and Kubernetes:
    - [Prelude]: the effects of Go ([go]: return or panic; [result] and
      [error]), maps ranged over in an arbitrary order ([Runtime]), slices,
      generic lemmas and tactics.
    - [GoLib], [GoFormat], [GoPath], [GoTime]: what the program uses of Go's
      standard library: strings, decimal and hexadecimal numbers, IP addresses
      and CIDRs, MD5, white space, paths, float64 and dates.
    - [K8s]: the Kubernetes types the program computes with.  The functions of
      the Kubernetes libraries (validation of names and labels, conversion and
      merging of component configurations) are the classes [K8sTypes] and
      [K8s], whose laws state their documented behaviour; [sample_types] and
      [sample_k8s] implement them.

    Data and storage:
    - [Cluster]: cluster.go, collections.go, constraints.go.  Records with the
      fields of the structs; [Validate] and all the checks it calls; the
      comparisons [ServiceParams_Equal], [Mount_Equal]; the merges of scheduler,
      proxy and kubelet configurations.
    - [Queue]: reboot.go, repair.go.  Entries of the reboot and repair queues,
      deduplication, counters, and the lookup of repair operations and steps.
    - [Resource]: resource.go.  Order of user-defined resources, the need to
      update them, trusted REST mappings and applying them.
    - [Status]: status.go, phase.go.  What a survey of the cluster found.
    - [Storage]: storage.go, record.go.  The keys in etcd and the operations on
      them, in the monad [sto].  etcd is the class [Etcd], whose laws say what
      reads return and what a transaction does; any request may fail, before or
      after its effect.  Values are represented before they become JSON text.
      The reboot and the repair queue are instances of [QueueEntry], as their
      operations are the same code twice.

    The server:
    - [Survey]: server/get_status.go, op/status.go.  What the server asks the
      nodes, etcd and the API servers, which are the class [Network].
    - [NodeFilter]: server/node_filter.go.  The selections of nodes by status;
      a status missing from the survey is a nil pointer, so that selections
      that read it are of type [go].
    - [Strategy]: server/strategy.go.  [DecideOps] and everything it calls.
    - [Operators]: op/, op/etcd, op/k8s.  [Operator] has one constructor for
      each operator the server creates, [NextCommand] its state machine,
      [Targets] the names it reports.
    - [Params], [Dns]: op/k8s/config.go, op/etcd/common.go, op/clusterdns,
      op/nodedns and the parameters in the operators: command lines, mounts and
      generated configurations of each service.
    - [Engine]: container.go, op/common.  Containers, volumes and images of a
      node, and the files that are read there, through the class [Docker]; the
      commands that use them.
    - [Reboot]: op/reboot_decide.go, op/reboot.go and op/repair_*.go.  The API
      server, the clock, random numbers and external programs are the class
      [Platform]; [s_calls] records the requests that change the cluster.
    - [Pki], [Files]: pki.go, infrastructure.go, kubeconfig.go, op/k8s, op/etcd,
      op/common/mkfiles.go, tools/write_files.  Certificates from Vault (class
      [Vault]), agents, and the files of every service.
    - [Commands]: the other commands of the operators, on etcd and on objects
      of the API server (class [Executor]).
    - [Control]: server/control.go, server/integrator.go.  A round, the records
      of its operators, and the record the previous leader left.
    - [Loop]: server/control.go, server/watch.go.  The goroutines of a leader
      and their channels as steps.
    - [Clients]: agent.go, infrastructure.go.  SSH connections with their
      deadlines, and the clients of the API servers and of etcd.
    - [Metrics]: metrics/.  Gauges and scrapes.

    Around the server:
    - [SabakanQuery], [Sabakan], [Integrate]: sabakan/.  Machines, the generator
      of configurations, the repairer, and a run of the integration.
    - [Cli], [VaultCli], [Backup]: pkg/ckecli/cmd, vault.go,
      server/tidy_certs.go.  The commands on the storage, those that set up
      Vault, and backups of etcd.
    - [LocalProxy]: localproxy/.  kube-proxy and unbound on machines outside
      the cluster.
    - [Rivers]: tools/rivers.  The TCP proxy on the nodes as steps on a shared
      state.

    [Samples], [Lab] and [LabRuns] have concrete clusters and concrete instances
    of every class, at which the witnesses run the model.

    ** The theorems

    - [Cluster], [Queue], [Resource]: validation is sound, comparison is
      equality up to the fields it ignores, sorting sorts, deduplication keeps
      the first entries, counters are exact.
    - [StorageProps]: the operations on the queues implement an abstract queue
      and are safe while several clients register entries; records are bounded.
      [memory_etcd] implements [Etcd].
    - [StoreTypes], with [Writes]: every write of the server, of its sabakan
      integration and of ckecli keeps every key holding a value of its type.
    - [SurveyProps]: a survey changes nothing, does not panic and reports what
      is on the nodes.
    - [StrategyTotal]: on a validated configuration and a status that covers
      its nodes every part of the decision returns.
    - [StrategySafety]: the decision described by rules, [decided], one for
      each way through [DecideOps]; [DecideOps_decided] shows that every
      decision follows a rule, and the lemmas on [decided] are what the
      properties are proved from.
    - [StrategyProps], [QueueProps]: properties of whole decisions: no panics,
      only reachable nodes are touched, one API server at a time, etcd is
      changed only while it is in sync, phases in order, limits of updates,
      reboots and repairs.
    - [RebootProps]: the reboot queue as a state machine, in which API servers
      are rebooted one by one; drains respect protection; what drains leave in
      the queue; how long they back off.
    - [NodeAttrs], [EndpointProps]: what CKE writes to Node objects and to the
      endpoints of services is exact, keeps what others wrote, and settles.
    - [PkiProps], [FilesProps]: certificates are issued with the options they
      were requested with, and services get exactly their files.
    - [ControlProps], [AgentProps]: a round touches only nodes of the
      configuration that answered its survey, its records tell how far each
      operator came, the record of the previous leader is closed, what was
      being done when a round panics, and that commands have agents for their
      nodes.
    - [Loop]: which messages wake the loop, and from which states all
      goroutines of a leader can end.
    - [OpRuns], [Converge]: an operator that starts or restarts a service and
      whose record is completed leaves the service running with the configured
      image and parameters and with its configuration file, so that the next
      survey finds it so and the filters for stopped and for outdated services
      leave the node alone.  The class [HostLaws] has what is assumed of nodes:
      [cat] prints files, containers keep the configuration files of services,
      and YAML is decoded to what was encoded.
    - [SabakanProps], [Integrate]: generated configurations are valid, an
      update keeps nodes and the majority of the control plane, and a run
      stores at most one configuration, which the generator made from the
      machines that the stored query found, as the leader.
    - [CliProps], [VaultCliProps], [Backup]: the commands of ckecli change
      exactly what they are meant to; vault init never replaces an authority,
      rotation keeps the current key; backups are kept in the order of time.
    - [MetricsProps], [Clients], [LocalProxyProps], [Rivers]: scrapes end and
      send exactly the metrics that the stored data give; connections are closed
      and certificates are one a round; the local proxy works on its machine
      only; the proxy knows the connections to its upstreams, through every
      interleaving of its connections with the health check.
    - [QueueProps], [SabakanProps], [PkiProps], [CliProps], [Rivers], [Loop],
      [Clients], [MetricsProps], [Backup] and [LocalProxyProps] also have the
      runs that show defects of the code.

    ** Bounds and fuel

    Loops of the source are structural recursions on the lists they range over,
    except for these.  [parseIPv6Loop] takes 8 rounds, the number of groups of
    an address.  [md5_blocks] takes as many rounds as the padded message has
    blocks, and the functions on texts as many as the text has characters.
    [run_step] of a repair recurs once, when a step needs no
    drain.  The compare-and-swap loops of the storage take a number of rounds as
    an argument; without other clients one is enough.  [commands] asks an
    operator for at most 10 commands; [operators_terminate] shows that more would
    change nothing.  [Inspect] and [imagePull] try three times, as the source
    does.  [rounds] runs a number of rounds of the loop; ten of them make the
    cluster of [LabRuns].  Integers that the source compares with limits are
    [Z], with the wrap-around written out where it happens; slices cut out of
    their bounds panic.

    ** What is not modelled

    - Docker, SSH, Vault, etcd, sabakan, Prometheus and Kubernetes: other
      programs, which are classes with laws where a theorem needs them.  JSON,
      YAML and tar are represented by the values they encode.
    - The campaign for the leadership, renewing the login to Vault, and the
      watch of records for ckecli history: they only wait for other programs.
    - Contexts and time-outs, other than as failed answers; goroutines that
      work on several nodes or groups run one after the other, except in [Loop],
      [Rivers] and the interleavings of [StorageProps] and [RebootProps].
    - Flags, printing, logs, decoding of files, and the commands of ckecli for
      SSH, certificates and images: input and output around the rest.
    - tools/install-cni, make_directories and empty-dir, which copy, make and
      empty directories; the mock of sabakan and the generated resources. *)

From Stdlib Require Import ZArith Ascii String Lia.
From stdpp Require Import base gmap strings list sorting numbers.

Open Scope Z_scope.

(** ** Go's effects

    A Go function of the program either returns or panics; [go] is that
    outcome.  A function that can fail in the Go way returns an [error]
    ([option error], [None] being [nil]) or a pair of a value and an error
    ([result]). *)

Inductive go (A : Type) : Type :=
| Ret (a : A)
| Panic (why : string).
Arguments Ret {A} a.
Arguments Panic {A} why.

(** The sentinel error values of the program, and errors built by
    [errors.New] / [fmt.Errorf]. *)
Inductive error : Type :=
| ErrNotFound
| ErrNoLeader
| ErrRepairProcedureNotFound
| ErrRepairOperationNotFound
| ErrRepairStepOutOfRange
| ErrUnexpected (msg : string).

Inductive result (A : Type) : Type :=
| Ok (a : A)
| Err (e : error).
Arguments Ok {A} a.
Arguments Err {A} e.

Global Instance error_eq_dec : EqDecision error.
Proof. solve_decision. Defined.
Global Instance go_eq_dec {A} `{EqDecision A} : EqDecision (go A).
Proof. solve_decision. Defined.
Global Instance result_eq_dec {A} `{EqDecision A} : EqDecision (result A).
Proof. solve_decision. Defined.

Global Instance go_ret : MRet go := fun A a => Ret a.
Global Instance go_bind : MBind go := fun A B f m =>
  match m with Ret a => f a | Panic w => Panic w end.
Global Instance go_fmap : FMap go := fun A B f m =>
  match m with Ret a => Ret (f a) | Panic w => Panic w end.
Global Instance result_ret : MRet result := fun A a => Ok a.
Global Instance result_bind : MBind result := fun A B f m =>
  match m with Ok a => f a | Err e => Err e end.

Declare Scope cke_scope.
Delimit Scope cke_scope with cke.

(** [if err := a; err != nil { return err }; b] *)
Definition and_then (a b : option error) : option error :=
  match a with Some e => Some e | None => b end.
Notation "a 'else_nil' b" := (and_then a b)
  (at level 60, right associativity) : cke_scope.
Open Scope cke_scope.

(** [if c { return errors.New(msg) }] *)
Definition fail_if (c : bool) (msg : string) : option error :=
  if c then Some (ErrUnexpected msg) else None.

(** A loop whose body returns early on an error. *)
Fixpoint for_each {A} (f : A -> option error) (l : list A) : option error :=
  match l with
  | [] => None
  | x :: l' => f x else_nil for_each f l'
  end.

(** Loops of the program whose body may panic. *)
Fixpoint go_filter {A} (p : A -> go bool) (l : list A) : go (list A) :=
  match l with
  | [] => Ret []
  | x :: l' =>
      b ← p x; rest ← go_filter p l'; Ret (if (b : bool) then x :: rest else rest)
  end.

Fixpoint go_map {A B} (f : A -> go B) (l : list A) : go (list B) :=
  match l with
  | [] => Ret []
  | x :: l' => y ← f x; ys ← go_map f l'; Ret (y :: ys)
  end.

(** [for _, x := range l { if p(x) { return true } }; return false] *)
Fixpoint go_existsb {A} (p : A -> go bool) (l : list A) : go bool :=
  match l with
  | [] => Ret false
  | x :: l' => b ← p x; if (b : bool) then Ret true else go_existsb p l'
  end.

(** [l[:n]] for a non-nil bound check: Go panics outside [0 <= n <= cap]; the
    slices the program truncates have [n <= len]. *)
Definition slice_to {A} (l : list A) (n : Z) : go (list A) :=
  if (n <? 0) || (Z.of_nat (length l) <? n) then Panic "slice bounds out of range"
  else Ret (take (Z.to_nat n) l).

(** [l[i]] *)
Definition index {A} (l : list A) (i : Z) : go A :=
  if i <? 0 then Panic "index out of range"
  else match l !! Z.to_nat i with
       | Some x => Ret x
       | None => Panic "index out of range"
       end.

Definition nil_dereference : string := "invalid memory address or nil pointer dereference".
(** [*p] *)
Definition deref {A} (p : option A) : go A :=
  match p with
  | Some x => Ret x
  | None => Panic nil_dereference
  end.

(** [len(l)] as the Go [int] it is. *)
Definition len {A} (l : list A) : Z := Z.of_nat (length l).

(** ** Machine integers

    [int], [int64] and [time.Duration] are 64-bit two's complement. *)
Definition wrap64 (z : Z) : Z := (z + 2 ^ 63) mod 2 ^ 64 - 2 ^ 63.
Definition int64_range (z : Z) : Prop := - 2 ^ 63 <= z < 2 ^ 63.
Definition mul64 (a b : Z) : Z := wrap64 (a * b).
Definition add64 (a b : Z) : Z := wrap64 (a + b).

(** ** Unspecified orders of the Go runtime and library

    The iteration order of [range] over a map is unspecified, and
    [sort.Slice] is not stable.  Definitions that use them take an arbitrary
    implementation; theorems rely on the documented contract only. *)
Definition sorted_by {A} (less : A -> A -> bool) (l : list A) : Prop :=
  StronglySorted (fun a b => less b a = false) l.

(** The comparison passed to [sort.Slice] is a strict weak order. *)
Record strict_weak_order {A} (less : A -> A -> bool) : Prop := {
  swo_irrefl : forall a, less a a = false;
  swo_trans : forall a b c, less a b = true -> less b c = true -> less a c = true;
  swo_incomp : forall a b c, less b a = false -> less c b = false -> less c a = false
}.

Class Runtime := {
  range : forall {V : Type}, gmap string V -> list (string * V);
  sort_slice : forall {A : Type}, (A -> A -> bool) -> list A -> list A;
  range_perm : forall V (m : gmap string V), range m ≡ₚ map_to_list m;
  sort_slice_perm : forall A (less : A -> A -> bool) l, sort_slice less l ≡ₚ l;
  sort_slice_sorted : forall A (less : A -> A -> bool) l,
    strict_weak_order less -> sorted_by less (sort_slice less l)
}.

(** Insertion sort, the executable implementation the witnesses run. *)
Fixpoint insert_by {A} (less : A -> A -> bool) (x : A) (l : list A) : list A :=
  match l with
  | [] => [x]
  | y :: l' => if less y x then y :: insert_by less x l' else x :: y :: l'
  end.
Definition isort {A} (less : A -> A -> bool) (l : list A) : list A :=
  foldr (insert_by less) [] l.

(** ** Tactics and hints *)
Create HintDb cke.
Create Rewrite HintDb cke_rw.

Ltac bool_hyps :=
  repeat match goal with
    | H : (_ && _)%bool = true |- _ => apply andb_prop in H; destruct H
    | H : (_ || _)%bool = false |- _ => apply orb_false_elim in H; destruct H
    | H : negb _ = true |- _ => apply negb_true_iff in H
    | H : negb _ = false |- _ => apply negb_false_iff in H
    | H : bool_decide _ = true |- _ => apply bool_decide_eq_true in H
    | H : bool_decide _ = false |- _ => apply bool_decide_eq_false in H
    | H : (_ =? _)%string = true |- _ => apply String.eqb_eq in H
    | H : (_ =? _)%string = false |- _ => apply String.eqb_neq in H
    | H : (_ =? _) = true |- _ => apply Z.eqb_eq in H
    | H : (_ =? _) = false |- _ => apply Z.eqb_neq in H
    | H : (_ <? _) = true |- _ => apply Z.ltb_lt in H
    | H : (_ <? _) = false |- _ => apply Z.ltb_ge in H
    | H : (_ <=? _) = true |- _ => apply Z.leb_le in H
    | H : (_ <=? _) = false |- _ => apply Z.leb_gt in H
    end.

(** Case analysis on the innermost [match] / [if] of the goal or of [H]. *)
Ltac case_on x := lazymatch x with
  | context [match ?y with _ => _ end] => case_on y
  | _ => destruct x eqn:?
  end.
Ltac split_match := match goal with
  | |- context [match ?x with _ => _ end] => case_on x
  end.
Ltac split_match_in H := match type of H with
  | context [match ?x with _ => _ end] => case_on x
  end.

Section error_loops.
  Context {A : Type} (f : A -> option error).

Lemma and_then_None a b : and_then a b = None <-> a = None /\ b = None.
Proof. destruct a; simpl; intuition congruence. Qed.

Lemma fail_if_None c msg : fail_if c msg = None <-> c = false.
Proof. destruct c; simpl; intuition congruence. Qed.

Lemma for_each_None l : for_each f l = None <-> Forall (fun x => f x = None) l.
Proof.
  induction l as [|x l IH]; simpl; [by split|].
  rewrite and_then_None, IH, Forall_cons_iff. done.
Qed.

(** A failing loop fails with the error of one of its elements. *)
Lemma for_each_Some l e :
  for_each f l = Some e -> exists x, x ∈ l /\ f x = Some e.
Proof.
  induction l as [|x l IH]; simpl; [done|].
  destruct (f x) eqn:Hx; simpl.
  - intros [= ->]. exists x. split; [apply list_elem_of_here | done].
  - intros (y & ? & ?)%IH. exists y. split; [by apply list_elem_of_further | done].
Qed.
End error_loops.

Section go_loops.
  Context {A B : Type}.
  Implicit Types l : list A.

Lemma go_filter_ret (p : A -> go bool) q l :
  (forall x, x ∈ l -> p x = Ret (q x)) -> go_filter p l = Ret (List.filter q l).
Proof.
  induction l as [|x l IH]; intros Hp; simpl; [done|].
  rewrite (Hp x) by apply list_elem_of_here. simpl.
  rewrite IH by (intros y Hy; apply Hp; by apply list_elem_of_further). done.
Qed.

Lemma go_filter_total (p : A -> go bool) l :
  (forall x, x ∈ l -> exists b, p x = Ret b) ->
  exists r, go_filter p l = Ret r.
Proof.
  induction l as [|x l IH]; intros Hp; simpl; [eauto|].
  destruct (Hp x) as [b ->]; [apply list_elem_of_here|]. simpl.
  destruct IH as [r ->]; [intros y Hy; apply Hp; by apply list_elem_of_further|].
  simpl. eauto.
Qed.

Lemma go_map_ret (f : A -> go B) g l :
  (forall x, x ∈ l -> f x = Ret (g x)) -> go_map f l = Ret (g <$> l).
Proof.
  induction l as [|x l IH]; intros Hf; simpl; [done|].
  rewrite (Hf x) by apply list_elem_of_here. simpl.
  rewrite IH by (intros y Hy; apply Hf; by apply list_elem_of_further). done.
Qed.

Lemma go_existsb_ret (p : A -> go bool) q l :
  (forall x, x ∈ l -> p x = Ret (q x)) -> go_existsb p l = Ret (existsb q l).
Proof.
  induction l as [|x l IH]; intros Hp; simpl; [done|].
  rewrite (Hp x) by apply list_elem_of_here. simpl.
  rewrite IH by (intros y Hy; apply Hp; by apply list_elem_of_further).
  by destruct (q x).
Qed.

Lemma elem_of_filterb (q : A -> bool) l x :
  x ∈ List.filter q l <-> x ∈ l /\ q x = true.
Proof. rewrite !list_elem_of_In. apply filter_In. Qed.

Lemma existsb_elem_of (q : A -> bool) l :
  existsb q l = true <-> exists x, x ∈ l /\ q x = true.
Proof.
  rewrite existsb_exists. split; intros (x & ? & ?); exists x;
    (split; [by apply list_elem_of_In|done]).
Qed.

Lemma existsb_false_elem_of (q : A -> bool) l :
  existsb q l = false <-> forall x, x ∈ l -> q x = false.
Proof.
  induction l as [|y l IH]; simpl; [set_solver|].
  rewrite orb_false_iff, IH. set_solver.
Qed.

Lemma forallb_elem_of (q : A -> bool) l :
  forallb q l = true <-> forall x, x ∈ l -> q x = true.
Proof. rewrite forallb_forall. split; intros H x ?; apply H; by apply list_elem_of_In. Qed.

Lemma filterb_length_le (q : A -> bool) l : (length (List.filter q l) <= length l)%nat.
Proof. induction l; simpl; [done|]. destruct (q a); simpl; lia. Qed.

Lemma filterb_perm (q : A -> bool) l1 l2 :
  l1 ≡ₚ l2 -> List.filter q l1 ≡ₚ List.filter q l2.
Proof.
  induction 1; simpl; repeat case_match; try done.
  - by constructor.
  - by apply Permutation_swap.
  - by etrans.
Qed.

Lemma filterb_sublist (q : A -> bool) l : List.filter q l `sublist_of` l.
Proof. induction l; simpl; [constructor|]. destruct (q a); by constructor. Qed.

(** What a successful [go_filter] kept. *)
Lemma go_filter_inv (p : A -> go bool) l r :
  go_filter p l = Ret r -> forall x, x ∈ r <-> x ∈ l /\ p x = Ret true.
Proof.
  revert r. induction l as [|y l IH]; simpl; intros r.
  { intros [= <-] x. set_solver. }
  destruct (p y) as [b|] eqn:Hy; simpl; [|done].
  destruct (go_filter p l) as [r'|] eqn:Hl; simpl; [|done].
  intros [= <-] x. specialize (IH r' eq_refl x). destruct b.
  - rewrite !elem_of_cons, IH. split; [intros [->|[? ?]]; auto|naive_solver].
  - rewrite elem_of_cons, IH. split; [naive_solver|]. intros [[->|?] ?]; [congruence|auto].
Qed.

Lemma go_filter_sublist (p : A -> go bool) l r : go_filter p l = Ret r -> r `sublist_of` l.
Proof.
  revert r. induction l as [|y l IH]; simpl; intros r; [by intros [= <-]|].
  destruct (p y) as [b|]; simpl; [|done].
  destruct (go_filter p l) as [r'|]; simpl; [|done].
  intros [= <-]. destruct b; constructor; by apply IH.
Qed.

Lemma NoDup_fmap_elem_inj (f : A -> B) l x y :
  NoDup (f <$> l) -> x ∈ l -> y ∈ l -> f x = f y -> x = y.
Proof.
  intros Hnd (i & Hi)%list_elem_of_lookup_1 (j & Hj)%list_elem_of_lookup_1 Heq.
  assert (i = j) as ->; [|congruence].
  eapply (NoDup_lookup (f <$> l)); [done| |].
  - by rewrite list_lookup_fmap, Hi.
  - rewrite list_lookup_fmap, Hj. simpl. by rewrite Heq.
Qed.

Lemma filterb_nil (q : A -> bool) l : List.filter q l = [] <-> forall x, x ∈ l -> q x = false.
Proof.
  split.
  - intros Hl x Hx. destruct (q x) eqn:Hq; [|done]. exfalso.
    assert (x ∈ ([] : list A)) as ?%elem_of_nil; [|done].
    rewrite <- Hl. by apply elem_of_filterb.
  - induction l as [|y l IH]; intros Hl; simpl; [done|].
    rewrite (Hl y) by left. apply IH. intros x Hx. apply Hl. by right.
Qed.

Lemma filterb_NoDup (q : A -> bool) l : NoDup l -> NoDup (List.filter q l).
Proof. intros ?. eapply sublist_NoDup; [done|apply filterb_sublist]. Qed.
End go_loops.

Global Instance filterb_Proper {A} (q : A -> bool) :
  Proper ((≡ₚ) ==> (≡ₚ)) (List.filter q).
Proof. intros l1 l2. apply filterb_perm. Qed.

#[export] Hint Rewrite @and_then_None @fail_if_None @for_each_None : cke_rw.
#[export] Hint Resolve filterb_length_le filterb_sublist filterb_NoDup : cke.

(** ** Outcomes *)

(** A computation that returns. *)
Definition returns {A} (m : go A) : Prop := exists a, m = Ret a.

Lemma bind_Ret_inv {A B} (m : go A) (k : A -> go B) b :
  (m ≫= k) = Ret b -> exists a, m = Ret a /\ k a = Ret b.
Proof. destruct m as [a|]; simpl; [eauto|done]. Qed.

Lemma returns_ret {A} (a : A) : returns (Ret a).
Proof. by exists a. Qed.

Lemma returns_bind {A B} (m : go A) (k : A -> go B) :
  returns m -> (forall a, m = Ret a -> returns (k a)) -> returns (m ≫= k).
Proof. intros [a Ha] Hk. rewrite Ha. by apply Hk. Qed.

Lemma returns_deref {A} (p : option A) : is_Some p -> returns (deref p).
Proof. intros [x ->]. by exists x. Qed.

Lemma returns_go_filter {A} (p : A -> go bool) l :
  (forall x, x ∈ l -> returns (p x)) -> returns (go_filter p l).
Proof. apply go_filter_total. Qed.

Lemma returns_go_existsb {A} (p : A -> go bool) l :
  (forall x, x ∈ l -> returns (p x)) -> returns (go_existsb p l).
Proof.
  induction l as [|x l IH]; intros Hp; simpl; [apply returns_ret|].
  apply returns_bind; [apply Hp; set_solver|]. intros [|] _; [apply returns_ret|].
  apply IH. set_solver.
Qed.

Lemma returns_slice_to {A} (l : list A) n : 0 <= n <= len l -> returns (slice_to l n).
Proof.
  unfold slice_to, len. intros Hn. exists (take (Z.to_nat n) l).
  by rewrite (proj2 (Z.ltb_ge n 0)), (proj2 (Z.ltb_ge _ n)) by lia.
Qed.

Lemma slice_to_inv {A} (l r : list A) n : slice_to l n = Ret r -> r = take (Z.to_nat n) l.
Proof. unfold slice_to. case_match; [done|]. by intros [= <-]. Qed.


(** Opens the successful computation in [H]: one equation per bind. *)
Ltac go_inv H :=
  lazymatch type of H with
  | (mbind _ _ = Ret _) =>
      apply bind_Ret_inv in H;
      let x := fresh "v" in let Hx := fresh "Hv" in
      destruct H as (x & Hx & H); go_inv H
  | (Ret _ = Ret _) => injection H as H; subst
  | _ => idtac
  end.

(** The same, with a case analysis on each [match] at the head. *)
Ltac go_inv_cases H :=
  cbn beta iota zeta in H;
  lazymatch type of H with
  | (mbind _ _ = Ret _) =>
      apply bind_Ret_inv in H;
      let x := fresh "v" in let Hx := fresh "Hv" in
      destruct H as (x & Hx & H); go_inv_cases H
  | ((match ?x with _ => _ end) = Ret _) => destruct x eqn:?; go_inv_cases H
  | (Ret _ = Ret _) => injection H as H; subst
  | (Panic _ = Ret _) => discriminate H
  | _ => idtac
  end.

Ltac go_returns :=
  repeat (cbn beta iota zeta;
          lazymatch goal with
          | |- returns (Ret _) => apply returns_ret
          | |- returns (mbind _ _) => apply returns_bind; [|intros ? ?]
          end).

(** The same, with a case analysis on each [match] at the head. *)
Ltac go_returns_cases :=
  repeat (cbn beta iota zeta;
          lazymatch goal with
          | |- returns (Ret _) => apply returns_ret
          | |- returns (mbind _ _) => apply returns_bind; [|intros ? ?]
          | |- returns (match ?x with _ => _ end) => destruct x eqn:?
          end).

Section ints.
Lemma wrap64_id z : int64_range z -> wrap64 z = z.
Proof. unfold int64_range, wrap64. intros. rewrite Z.mod_small; lia. Qed.

Lemma wrap64_range z : int64_range (wrap64 z).
Proof.
  unfold int64_range, wrap64.
  pose proof (Z.mod_pos_bound (z + 2 ^ 63) (2 ^ 64)). lia.
Qed.

(** Wrapping is arithmetic modulo [2 ^ 64]. *)
Lemma wrap64_mod z k : wrap64 (z + k * 2 ^ 64) = wrap64 z.
Proof.
  unfold wrap64. replace (z + k * 2 ^ 64 + 2 ^ 63) with (z + 2 ^ 63 + k * 2 ^ 64) by lia.
  by rewrite Z.mod_add.
Qed.
End ints.

Section runtime.
  Context {A : Type} (less : A -> A -> bool).

Lemma insert_by_perm x l : insert_by less x l ≡ₚ x :: l.
Proof.
  induction l as [|y l IH]; simpl; [done|].
  destruct (less y x); [|done]. rewrite IH. apply Permutation_swap.
Qed.

Lemma isort_perm l : isort less l ≡ₚ l.
Proof. induction l as [|x l IH]; simpl; [done|]. by rewrite insert_by_perm, IH. Qed.

Lemma insert_by_sorted x l :
  strict_weak_order less -> sorted_by less l -> sorted_by less (insert_by less x l).
Proof.
  intros Hswo. unfold sorted_by. induction 1 as [|y l Hs IH Hy]; simpl.
  - repeat constructor.
  - destruct (less y x) eqn:Hyx; constructor; try done.
    + rewrite insert_by_perm, Forall_cons_iff. split; [|done].
      destruct (less x y) eqn:Hxy; [|done].
      pose proof (swo_trans _ Hswo _ _ _ Hxy Hyx) as Hxx.
      by rewrite (swo_irrefl _ Hswo) in Hxx.
    + by constructor.
    + constructor; [done|]. eapply Forall_impl; [|exact Hy]. simpl. intros z Hz.
      by apply (swo_incomp _ Hswo x y z).
Qed.

Lemma isort_sorted l : strict_weak_order less -> sorted_by less (isort less l).
Proof.
  intros ?. induction l as [|x l IH]; simpl; [constructor|]. by apply insert_by_sorted.
Qed.
End runtime.

Definition std_runtime : Runtime := {|
  range V m := map_to_list m;
  sort_slice A := isort;
  range_perm V m := reflexivity _;
  sort_slice_perm A := isort_perm;
  sort_slice_sorted A := isort_sorted
|}.

Section range.
  Context `{Runtime} {V : Type}.
  Implicit Types m : gmap string V.

Lemma elem_of_range m k v : (k, v) ∈ range m <-> m !! k = Some v.
Proof. by rewrite range_perm, elem_of_map_to_list. Qed.

Lemma range_length m : length (range m) = size m.
Proof. rewrite range_perm. apply length_map_to_list. Qed.

Lemma range_existsb m (p : string * V -> bool) :
  existsb p (range m) = true <-> exists k v, m !! k = Some v /\ p (k, v) = true.
Proof.
  rewrite existsb_elem_of. split.
  - intros ([k v] & Hin & ?). apply elem_of_range in Hin. eauto.
  - intros (k & v & ? & ?). exists (k, v). by rewrite elem_of_range.
Qed.
End range.

(** The outcome of a run, from the second of its parts. *)
Lemma ran {A B} (x : A * B) b : snd x = b -> x = (fst x, b).
Proof. destruct x. by intros <-. Qed.
