(* ===== verification/GoLib.v ===== *)
(** * The parts of the Go standard library the program uses

    Strings ([strings], [path/filepath], [strconv]), the byte-wise order on
    strings that [slices.Sort] uses, and the address parsers of [net] (which
    delegate to [net/netip]). *)

From Stdlib Require Import ZArith Ascii String Lia.
From stdpp Require Import base gmap strings list sorting pretty.
From S2P Require Import Prelude.

(** ** strings, strconv, filepath *)

Definition HasPrefix (s p : string) : bool := String.prefix p s.

Fixpoint str_rev_app (s acc : string) : string :=
  match s with EmptyString => acc | String c s' => str_rev_app s' (String c acc) end.
Definition str_rev (s : string) : string := str_rev_app s EmptyString.

(** [strings.Split(s, sep)] for a one-character separator. *)
Fixpoint Split (s : string) (sep : ascii) : list string :=
  match s with
  | EmptyString => [EmptyString]
  | String c s' =>
      if Ascii.eqb c sep then EmptyString :: Split s' sep
      else match Split s' sep with
           | [] => [String c EmptyString]
           | w :: ws => String c w :: ws
           end
  end.

Fixpoint Join (l : list string) (sep : string) : string :=
  match l with
  | [] => EmptyString
  | [x] => x
  | x :: l' => x +:+ sep +:+ Join l' sep
  end.

(** [filepath.IsAbs] on Unix. *)
Definition IsAbs (p : string) : bool := HasPrefix p "/".

(** [filepath.Ext]: the suffix from the last dot after the last slash. *)
Fixpoint ext_scan (rev_path acc : string) : string :=
  match rev_path with
  | EmptyString => EmptyString
  | String c r =>
      if Ascii.eqb c "/" then EmptyString
      else if Ascii.eqb c "." then String c acc
      else ext_scan r (String c acc)
  end.
Definition Ext (p : string) : string := ext_scan (str_rev p) EmptyString.

(** The regular expression [^[0-9A-Za-z_.-]+$]. *)
Definition filename_char (c : ascii) : bool :=
  let n := nat_of_ascii c in
  ((48 <=? n) && (n <=? 57))%nat || ((65 <=? n) && (n <=? 90))%nat
  || ((97 <=? n) && (n <=? 122))%nat
  || Ascii.eqb c "_" || Ascii.eqb c "." || Ascii.eqb c "-".
Definition match_filename (s : string) : bool :=
  negb (s =? "")%string && forallb filename_char (String.list_ascii_of_string s).

(** [slices.Contains] *)
Definition Contains (l : list string) (s : string) : bool := existsb (String.eqb s) l.

(** [strconv.FormatInt(i, 10)] *)
Definition FormatInt (i : Z) : string := pretty i.

(** ** The byte-wise order of strings *)
Definition str_less (s1 s2 : string) : bool :=
  match String.compare s1 s2 with Lt => true | _ => false end.

(** [slices.Sort] on strings: the order is total, so the result is unique. *)
Definition sort_strings (l : list string) : list string := isort str_less l.

(** [slices.Compact]: drops consecutive repetitions. *)
Fixpoint Compact (l : list string) : list string :=
  match l with
  | x :: ((y :: _) as l') => if (x =? y)%string then Compact l' else x :: Compact l'
  | _ => l
  end.

(** ** net *)

Definition digit_val (c : ascii) : option Z :=
  let n := Z.of_nat (nat_of_ascii c) in
  if (48 <=? n) && (n <=? 57) then Some (n - 48) else None.
Definition hex_val (c : ascii) : option Z :=
  let n := Z.of_nat (nat_of_ascii c) in
  if (48 <=? n) && (n <=? 57) then Some (n - 48)
  else if (97 <=? n) && (n <=? 102) then Some (n - 87)
  else if (65 <=? n) && (n <=? 70) then Some (n - 55)
  else None.

(** [netip.parseIPv4Fields]: [prev_dot] says whether the previous character
    is a dot or the beginning. *)
Fixpoint parseIPv4Fields (s : list ascii) (val digLen : Z) (prev_dot : bool)
    (fields : list Z) : option (list Z) :=
  match s with
  | [] => if Z.of_nat (List.length fields) <? 3 then None else Some (fields ++ [val])
  | c :: s' =>
      match digit_val c with
      | Some d =>
          if (digLen =? 1) && (val =? 0) then None
          else let val' := val * 10 + d in
               if 255 <? val' then None
               else parseIPv4Fields s' val' (digLen + 1) false fields
      | None =>
          if Ascii.eqb c "." then
            if prev_dot || match s' with [] => true | _ => false end then None
            else if Z.of_nat (List.length fields) =? 3 then None
            else parseIPv4Fields s' 0 0 true (fields ++ [val])
          else None
      end
  end.
Definition parseIPv4 (s : list ascii) : option (list Z) := parseIPv4Fields s 0 0 true [].

(** Reads a group of hexadecimal digits: more than four fail. *)
Fixpoint hex_group (s : list ascii) (off : nat) (acc : Z) : option (nat * Z * list ascii) :=
  match s with
  | [] => Some (off, acc, [])
  | c :: s' =>
      match hex_val c with
      | Some d => if (3 <? off)%nat then None else hex_group s' (S off) (acc * 16 + d)
      | None => Some (off, acc, s)
      end
  end.

Definition expand_ellipsis (ip : list Z) (ellipsis : option nat) : option (list Z) :=
  let i := List.length ip in
  match ellipsis with
  | None => if (i <? 16)%nat then None else Some ip
  | Some e =>
      if (i <? 16)%nat then
        Some (take e ip ++ replicate (16 - i) 0 ++ drop e ip)
      else None
  end.

(** The loop of [netip.parseIPv6]; a round consumes two bytes of the address,
    so eight rounds of [fuel] are all the source's [for i < 16] makes. *)
Fixpoint parseIPv6Loop (fuel : nat) (s : list ascii) (ip : list Z) (ellipsis : option nat)
    : option (list Z) :=
  match fuel with
  | O => match s with [] => expand_ellipsis ip ellipsis | _ => None end
  | S fuel' =>
      match hex_group s 0 0 with
      | None => None
      | Some (O, _, _) => None
      | Some (_, acc, rest) =>
          match rest with
          | [] => expand_ellipsis (ip ++ [acc / 256; acc mod 256]) ellipsis
          | c :: rest' =>
              if Ascii.eqb c "." then
                if (match ellipsis with None => negb (List.length ip =? 12)%nat | _ => false end)
                   || (16 <? List.length ip + 4)%nat then None
                else v4 ← parseIPv4 s; expand_ellipsis (ip ++ v4) ellipsis
              else if negb (Ascii.eqb c ":") then None
              else
                let ip' := ip ++ [acc / 256; acc mod 256] in
                match rest' with
                | [] => None
                | c2 :: rest'' =>
                    if Ascii.eqb c2 ":" then
                      match ellipsis with
                      | Some _ => None
                      | None =>
                          match rest'' with
                          | [] => expand_ellipsis ip' (Some (List.length ip'))
                          | _ => parseIPv6Loop fuel' rest'' ip' (Some (List.length ip'))
                          end
                      end
                    else parseIPv6Loop fuel' rest' ip' ellipsis
                end
          end
      end
  end.

Definition parseIPv6 (s : list ascii) : option (list Z) :=
  match s with
  | (":" :: ":" :: [])%char => Some (replicate 16 0)
  | (":" :: ":" :: s')%char => parseIPv6Loop 8 s' [] (Some 0%nat)
  | _ => parseIPv6Loop 8 s [] None
  end.

Inductive Addr : Type := V4 (b : list Z) | V6 (b : list Z).

(** [netip.ParseAddr] for an address without a zone (an IPv6 address with a
    zone is refused by both callers in [net]). *)
Fixpoint parse_addr_scan (s : list ascii) (whole : list ascii) : option Addr :=
  match s with
  | [] => None
  | c :: s' =>
      if Ascii.eqb c "." then V4 <$> parseIPv4 whole
      else if Ascii.eqb c ":" then
        if existsb (Ascii.eqb "%") whole then None else V6 <$> parseIPv6 whole
      else if Ascii.eqb c "%" then None
      else parse_addr_scan s' whole
  end.
Definition ParseAddr (s : string) : option Addr :=
  let l := String.list_ascii_of_string s in parse_addr_scan l l.

Definition As16 (a : Addr) : list Z :=
  match a with
  | V4 b => replicate 10 0 ++ [255; 255] ++ b
  | V6 b => b
  end.
Definition BitLen (a : Addr) : Z := match a with V4 _ => 32 | V6 _ => 128 end.

(** [net.ParseIP]: the 16-byte form, [None] for [nil]. *)
Definition ParseIP (s : string) : option (list Z) := As16 <$> ParseAddr s.

(** [strings.Cut(s, "/")] *)
Fixpoint Cut (s : list ascii) (sep : ascii) : option (list ascii * list ascii) :=
  match s with
  | [] => None
  | c :: s' =>
      if Ascii.eqb c sep then Some ([], s')
      else match Cut s' sep with
           | Some (a, b) => Some (c :: a, b)
           | None => None
           end
  end.

(** [net.dtoi] on a string it must consume entirely. *)
Fixpoint dtoi (s : list ascii) (n : Z) : option Z :=
  match s with
  | [] => Some n
  | c :: s' =>
      d ← digit_val c;
      let n' := n * 10 + d in if 16777215 <=? n' then None else dtoi s' n'
  end.

(** [net.ParseCIDR]: the address and the prefix length. *)
Definition ParseCIDR (s : string) : option (list Z * Z) :=
  '(addr, mask) ← Cut (String.list_ascii_of_string s) "/";
  a ← ParseAddr (String.string_of_list_ascii addr);
  match mask with
  | [] => None
  | _ => n ← dtoi mask 0; if BitLen a <? n then None else Some (As16 a, n)
  end.

(** ** crypto/md5 and the verb [%x] *)

(** The constant and the rotation of each of the 64 rounds. *)
Definition md5_table : list (Z * Z) := [
   (3614090360, 7); (3905402710, 12); (606105819, 17); (3250441966, 22);
   (4118548399, 7); (1200080426, 12); (2821735955, 17); (4249261313, 22);
   (1770035416, 7); (2336552879, 12); (4294925233, 17); (2304563134, 22);
   (1804603682, 7); (4254626195, 12); (2792965006, 17); (1236535329, 22);
   (4129170786, 5); (3225465664, 9); (643717713, 14); (3921069994, 20);
   (3593408605, 5); (38016083, 9); (3634488961, 14); (3889429448, 20);
   (568446438, 5); (3275163606, 9); (4107603335, 14); (1163531501, 20);
   (2850285829, 5); (4243563512, 9); (1735328473, 14); (2368359562, 20);
   (4294588738, 4); (2272392833, 11); (1839030562, 16); (4259657740, 23);
   (2763975236, 4); (1272893353, 11); (4139469664, 16); (3200236656, 23);
   (681279174, 4); (3936430074, 11); (3572445317, 16); (76029189, 23);
   (3654602809, 4); (3873151461, 11); (530742520, 16); (3299628645, 23);
   (4096336452, 6); (1126891415, 10); (2878612391, 15); (4237533241, 21);
   (1700485571, 6); (2399980690, 10); (4293915773, 15); (2240044497, 21);
   (1873313359, 6); (4264355552, 10); (2734768916, 15); (1309151649, 21);
   (4149444226, 6); (3174756917, 10); (718787259, 15); (3951481745, 21)].

Definition w32 (z : Z) : Z := Z.land z 4294967295.
Definition rotl32 (x n : Z) : Z := w32 (Z.lor (Z.shiftl x n) (Z.shiftr x (32 - n))).

(** The [k] low bytes of [z], least significant first, and back. *)
Fixpoint le_bytes (k : nat) (z : Z) : list Z :=
  match k with O => [] | S k' => Z.land z 255 :: le_bytes k' (Z.shiftr z 8) end.
Fixpoint le_word (l : list Z) : Z :=
  match l with [] => 0 | b :: l' => b + 256 * le_word l' end.

Definition md5_pad (msg : list Z) : list Z :=
  let n := List.length msg in
  let zeros := ((64 - (n + 9) mod 64) mod 64)%nat in
  msg ++ [128] ++ replicate zeros 0 ++ le_bytes 8 (8 * Z.of_nat n).

Fixpoint md5_words (fuel : nat) (l : list Z) : list Z :=
  match fuel with O => [] | S f => le_word (take 4 l) :: md5_words f (drop 4 l) end.

Definition md5_state : Type := Z * Z * Z * Z.

Definition md5_round (m : list Z) (st : md5_state * Z) (ks : Z * Z) : md5_state * Z :=
  let '((a, b, c, d), i) := st in
  let '(k, s) := ks in
  let nb := Z.lxor b 4294967295 in
  let nd := Z.lxor d 4294967295 in
  let '(f, g) :=
    if i <? 16 then (Z.lor (Z.land b c) (Z.land nb d), i)
    else if i <? 32 then (Z.lor (Z.land d b) (Z.land nd c), (5 * i + 1) mod 16)
    else if i <? 48 then (Z.lxor b (Z.lxor c d), (3 * i + 5) mod 16)
    else (Z.lxor c (Z.lor b nd), (7 * i) mod 16) in
  let f := w32 (f + a + k + nth (Z.to_nat g) m 0) in
  ((d, w32 (b + rotl32 f s), b, c), i + 1).

Fixpoint md5_blocks (fuel : nat) (l : list Z) (st : md5_state) : md5_state :=
  match fuel with
  | O => st
  | S fuel' =>
      let m := md5_words 16 (take 64 l) in
      let '((a, b, c, d), _) := foldl (md5_round m) (st, 0) md5_table in
      let '(a0, b0, c0, d0) := st in
      md5_blocks fuel' (drop 64 l) (w32 (a0 + a), w32 (b0 + b), w32 (c0 + c), w32 (d0 + d))
  end.

(** [md5.Sum]: one round of [fuel] per 64-byte block of the padded message. *)
Definition md5_Sum (msg : list Z) : list Z :=
  let p := md5_pad msg in
  let '(a, b, c, d) := md5_blocks (List.length p / 64) p
                         (1732584193, 4023233417, 2562383102, 271733878) in
  le_bytes 4 a ++ le_bytes 4 b ++ le_bytes 4 c ++ le_bytes 4 d.

Definition hex_digit (z : Z) : ascii :=
  ascii_of_nat (Z.to_nat (if z <? 10 then 48 + z else 87 + z)).
Definition hex_string (l : list Z) : string :=
  String.string_of_list_ascii (mjoin ((fun b => [hex_digit (b / 16); hex_digit (b mod 16)]) <$> l)).
Definition string_bytes (s : string) : list Z :=
  (fun c => Z.of_nat (nat_of_ascii c)) <$> String.list_ascii_of_string s.
Definition md5_hex (s : string) : string := hex_string (md5_Sum (string_bytes s)).

(** ** The order of strings is a strict total order *)

Lemma ascii_compare_lt_trans a b c :
  Ascii.compare a b = Lt -> Ascii.compare b c = Lt -> Ascii.compare a c = Lt.
Proof.
  unfold Ascii.compare. rewrite !N.compare_lt_iff. lia.
Qed.

Lemma string_compare_lt_trans s1 s2 s3 :
  String.compare s1 s2 = Lt -> String.compare s2 s3 = Lt -> String.compare s1 s3 = Lt.
Proof.
  revert s2 s3. induction s1 as [|a s1 IH]; intros [|b s2] [|c s3]; simpl; try done.
  destruct (Ascii.compare a b) eqn:Hab, (Ascii.compare b c) eqn:Hbc; try done; intros H1 H2.
  - apply Ascii.compare_eq_iff in Hab as ->. rewrite Hbc. by eapply IH.
  - apply Ascii.compare_eq_iff in Hab as ->. by rewrite Hbc.
  - apply Ascii.compare_eq_iff in Hbc as <-. by rewrite Hab.
  - by rewrite (ascii_compare_lt_trans a b c Hab Hbc).
Qed.

Lemma string_compare_refl s : String.compare s s = Eq.
Proof.
  induction s as [|a s IH]; simpl; [done|].
  rewrite IH. unfold Ascii.compare. by rewrite N.compare_refl.
Qed.

Lemma str_less_irrefl s : str_less s s = false.
Proof. unfold str_less. by rewrite string_compare_refl. Qed.

Lemma str_less_trans s1 s2 s3 :
  str_less s1 s2 = true -> str_less s2 s3 = true -> str_less s1 s3 = true.
Proof.
  unfold str_less. destruct (String.compare s1 s2) eqn:H12; try done.
  destruct (String.compare s2 s3) eqn:H23; try done.
  by rewrite (string_compare_lt_trans s1 s2 s3).
Qed.

(** Two strings neither of which is below the other are equal. *)
Lemma str_less_total s1 s2 :
  str_less s1 s2 = false -> str_less s2 s1 = false -> s1 = s2.
Proof.
  unfold str_less. rewrite (String.compare_antisym s2 s1).
  destruct (String.compare s1 s2) eqn:H; simpl; try done.
  intros _ _. by apply String.compare_eq_iff.
Qed.

Lemma str_less_swo : strict_weak_order str_less.
Proof.
  split; [apply str_less_irrefl | apply str_less_trans |].
  intros a b c Hba Hcb. destruct (str_less c a) eqn:Hca; [|done].
  destruct (str_less a b) eqn:Hab.
  - by rewrite (str_less_trans c a b) in Hcb.
  - assert (a = b) as -> by (by apply str_less_total). congruence.
Qed.

Lemma sort_strings_perm l : sort_strings l ≡ₚ l.
Proof. apply isort_perm. Qed.

Lemma sort_strings_sorted l : sorted_by str_less (sort_strings l).
Proof. apply isort_sorted, str_less_swo. Qed.

(** Sorted lists with the same elements are the same list, so sorting forgets
    the order of the input. *)
Lemma sorted_strings_unique l1 l2 :
  sorted_by str_less l1 -> sorted_by str_less l2 -> l1 ≡ₚ l2 -> l1 = l2.
Proof.
  intros H1 H2 Hp. revert Hp. unfold sorted_by in *.
  eapply StronglySorted_unique; try eassumption.
  intros x y Hxy Hyx. by apply str_less_total.
Qed.

Lemma sort_strings_perm_eq l1 l2 : l1 ≡ₚ l2 -> sort_strings l1 = sort_strings l2.
Proof.
  intros Hp. apply sorted_strings_unique; try apply sort_strings_sorted.
  by rewrite !sort_strings_perm.
Qed.

(** ** Compact on sorted lists removes every repetition *)

Lemma elem_of_Compact x l : x ∈ Compact l <-> x ∈ l.
Proof.
  induction l as [|y [|z l] IH]; [done|done|].
  change (Compact (y :: z :: l)) with
    (if (y =? z)%string then Compact (z :: l) else y :: Compact (z :: l)).
  destruct (String.eqb_spec y z) as [->|]; rewrite ?elem_of_cons, IH; set_solver.
Qed.

Lemma Compact_sorted_NoDup l : sorted_by str_less l -> NoDup (Compact l).
Proof.
  induction l as [|y [|z l] IH]; intros Hs; [constructor|apply NoDup_singleton|].
  inversion_clear Hs as [|? ? Hs' Hy].
  change (Compact (y :: z :: l)) with
    (if (y =? z)%string then Compact (z :: l) else y :: Compact (z :: l)).
  destruct (String.eqb_spec y z) as [->|Hne]; [by apply IH|].
  constructor; [|by apply IH]. rewrite elem_of_Compact. intros Hin.
  apply Forall_cons_iff in Hy as [Hyz Hy].
  apply elem_of_cons in Hin as [->|Hin]; [done|].
  inversion_clear Hs' as [|? ? _ Hz]. rewrite Forall_forall in Hz.
  apply Hne, str_less_total; [by apply Hz | done].
Qed.

(** ** Address parsing *)

Example ParseIP_v4 : ParseIP "10.69.0.4" =
  Some (replicate 10 0 ++ [255; 255; 10; 69; 0; 4]).
Proof. reflexivity. Qed.
Example ParseIP_v6 : ParseIP "fd00::1:2" =
  Some ([253; 0] ++ replicate 10 0 ++ [0; 1; 0; 2]).
Proof. reflexivity. Qed.
Example ParseIP_embedded : ParseIP "::ffff:10.69.0.4" = ParseIP "10.69.0.4".
Proof. reflexivity. Qed.
Example ParseIP_refuses :
  ParseIP <$> ["10.0.0.01"; "10.0.0"; "1.2.3.256"; "fe80::1%eth0"; "1::2::3"; "node1"; ""]
  = replicate 7 None.
Proof. reflexivity. Qed.
Example ParseCIDR_ok : snd <$> ParseCIDR "10.68.0.0/16" = Some 16.
Proof. reflexivity. Qed.
Example ParseCIDR_refuses :
  ParseCIDR <$> ["10.68.0.0"; "10.68.0.0/33"; "10.68.0.0/"; "10.68/16"] = replicate 4 None.
Proof. reflexivity. Qed.
Example Split_parts : Split "kube-system/dns" "/" = ["kube-system"; "dns"].
Proof. reflexivity. Qed.
Example md5_empty : md5_hex "" = "d41d8cd98f00b204e9800998ecf8427e".
Proof. vm_compute. reflexivity. Qed.
Example md5_fox : md5_hex "The quick brown fox jumps over the lazy dog" = "9e107d9d372bb6826bd81d3542a419d6".
Proof. vm_compute. reflexivity. Qed.
Example md5_two_blocks : md5_hex "aaaaaaaaaaaaaaaaaaaaaaaaaaaaaaaaaaaaaaaaaaaaaaaaaaaaaaaaaaaaaaaaaaaaaa"
  = "0f5c6c4e740bfcc08c3c26ccb2673d46".
Proof. vm_compute. reflexivity. Qed.
