(* ===== verification/GoFormat.v ===== *)
(** * Text and numbers

    [strings.TrimSpace]; [strconv.ParseInt], its round trip with [strconv.FormatInt], and the verb
    [%016x] of package fmt, which the storage builds the keys of its queues
    with: such keys are ordered like the numbers. *)

From Stdlib Require Import ZArith Ascii String Lia.
From stdpp Require Import base strings list pretty.
From S2P Require Import Prelude GoLib.

(** ** strings.TrimSpace

    The encodings of the characters [unicode.IsSpace] accepts. *)
Definition bytes (l : list nat) : string := String.string_of_list_ascii (ascii_of_nat <$> l).
Definition space_encodings : list string :=
  bytes <$> ([[9]; [10]; [11]; [12]; [13]; [32]; [194; 133]; [194; 160]; [225; 154; 128];
              [226; 128; 168]; [226; 128; 169]; [226; 128; 175]; [226; 129; 159]; [227; 128; 128]]
             ++ ((fun b => [226; 128; b]) <$> seq 128 11))%nat.

(** Drops encodings in [spaces] from the front; each round drops a byte at least. *)
Fixpoint trim_front (fuel : nat) (spaces : list string) (s : string) : string :=
  match fuel with
  | O => s
  | S n => match List.find (HasPrefix s) spaces with
           | Some sp => trim_front n spaces
                          (String.substring (String.length sp)
                             (String.length s - String.length sp) s)
           | None => s
           end
  end.
Definition TrimSpace (s : string) : string :=
  let front := trim_front (String.length s) space_encodings s in
  str_rev (trim_front (String.length front) (str_rev <$> space_encodings) (str_rev front)).

(** ** strconv and fmt *)

(** [strconv.ParseUint(s, 10, 64)] before its range check. *)
Fixpoint parse_digits (s : string) (acc : Z) : option Z :=
  match s with
  | EmptyString => Some acc
  | String c s' => d ← digit_val c; parse_digits s' (10 * acc + d)
  end.
Definition parse_uint (s : string) : option Z :=
  match s with EmptyString => None | _ => parse_digits s 0 end.

(** [strconv.ParseInt(s, 10, 64)]; [None] is a syntax or range error. *)
Definition ParseInt (s : string) : option Z :=
  let '(neg, digits) :=
    match s with
    | String "-" s' => (true, s')
    | String "+" s' => (false, s')
    | _ => (false, s)
    end in
  un ← parse_uint digits;
  if neg : bool then if 2 ^ 63 <? un then None else Some (- un)
  else if 2 ^ 63 <=? un then None else Some un.

(** The [k] lowest hexadecimal digits of a number, the highest first. *)
Fixpoint hex_fixed (k : nat) (z : Z) : string :=
  match k with
  | O => EmptyString
  | S k' => String (hex_digit (z / 16 ^ Z.of_nat k' mod 16)) (hex_fixed k' z)
  end.

(** [fmt.Sprintf("%016x", i)] for an [int64]: the sign counts for the width. *)
Definition hex016 (i : Z) : string :=
  if i <? 0 then
    String "-" (hex_fixed (if - i <? 16 ^ 15 then 15 else 16) (- i))
  else hex_fixed 16 i.

(** ** Decimal numbers *)

Lemma digit_val_pretty (n : N) :
  (n < 10)%N -> digit_val (pretty_N_char n) = Some (Z.of_N n).
Proof.
  intros Hn. destruct n as [|p]; [done|].
  do 4 (destruct p as [p|p|]; try done); lia.
Qed.

(** Reading the digits of [n] in front of [s] reads [n] and then [s]. *)
Lemma parse_pretty_N_go (n : N) s :
  (0 < n)%N ->
  parse_digits (pretty_N_go n s) 0 = parse_digits s (Z.of_N n).
Proof.
  revert s. induction (N.lt_wf_0 n) as [n _ IH]; intros s Hn.
  rewrite pretty_N_go_step by done.
  destruct (decide (n / 10 = 0)%N) as [H0|H0].
  - rewrite H0, pretty_N_go_0. cbn [parse_digits].
    assert (n `mod` 10 = n)%N as ->.
    { apply N.mod_small. apply N.div_small_iff in H0; lia. }
    rewrite digit_val_pretty by (apply N.div_small_iff in H0; lia).
    simpl. f_equal.
  - rewrite IH by (apply N.div_lt || apply N.neq_0_lt_0; lia). cbn [parse_digits].
    rewrite digit_val_pretty by (apply N.mod_lt; lia). simpl. f_equal.
    pose proof (N.div_mod n 10 ltac:(lia)). lia.
Qed.

Lemma parse_uint_pretty (n : N) : parse_uint (pretty n) = Some (Z.of_N n).
Proof.
  destruct (decide (n = 0)%N) as [->|Hn]; [done|].
  pose proof (parse_pretty_N_go n EmptyString ltac:(lia)) as Hp.
  assert (pretty n = pretty_N_go n EmptyString) as -> by (unfold pretty, pretty_N; by case_decide).
  unfold parse_uint. destruct (pretty_N_go n _); [|done]. injection Hp. lia.
Qed.

(** The first character of a decimal number is a digit. *)
Lemma pretty_N_no_sign (n : N) c s : pretty n = String c s -> c <> "-"%char /\ c <> "+"%char.
Proof.
  intros Hp. pose proof (parse_uint_pretty n) as Hu. rewrite Hp in Hu. simpl in Hu.
  split; intros ->; discriminate Hu.
Qed.

(** Reading a formatted number gives the number back. *)
Lemma ParseInt_FormatInt (i : Z) : int64_range i -> ParseInt (FormatInt i) = Some i.
Proof.
  unfold int64_range, ParseInt, FormatInt. intros Hi.
  destruct i as [|p|p]; [done| |].
  - change (pretty (Zpos p)) with (pretty (Npos p)).
    pose proof (parse_uint_pretty (Npos p)) as Hu.
    destruct (pretty (Npos p)) as [|c s] eqn:Hp; [done|].
    pose proof (pretty_N_no_sign _ _ _ Hp) as [Hm Hplus].
    assert ((match c with "-"%char => (true, s) | "+"%char => (false, s)
                     | _ => (false, String c s) end) = (false, String c s)) as ->.
    { destruct c as [[] [] [] [] [] [] [] []]; try done. }
    rewrite Hu. simpl. rewrite (proj2 (Z.leb_gt _ _)) by lia. done.
  - change (pretty (Zneg p)) with (String "-" (pretty (Npos p))). cbn iota beta.
    rewrite parse_uint_pretty. simpl. rewrite (proj2 (Z.ltb_ge _ _)) by lia. done.
Qed.

(** ** Hexadecimal numbers *)

Lemma hex_digit_compare a b :
  0 <= a < 16 -> 0 <= b < 16 -> Ascii.compare (hex_digit a) (hex_digit b) = (a ?= b).
Proof.
  assert (forall z, 0 <= z < 16 ->
            N_of_ascii (hex_digit z) = Z.to_N (if z <? 10 then 48 + z else 87 + z)) as Hd.
  { intros z Hz. unfold hex_digit, ascii_of_nat. rewrite N_ascii_embedding.
    - by destruct (z <? 10); rewrite Z_nat_N.
    - destruct (Z.ltb_spec z 10); lia. }
  intros Ha Hb. unfold Ascii.compare. rewrite !Hd, Z2N.inj_compare by
    (destruct (a <? 10), (b <? 10); lia).
  destruct (Z.ltb_spec a 10), (Z.ltb_spec b 10), (Z.compare_spec a b);
    (apply Z.compare_eq_iff || apply Z.compare_lt_iff || apply Z.compare_gt_iff); lia.
Qed.

(** Numbers of [k] digits are ordered like their texts. *)
Lemma hex_fixed_compare k a b :
  String.compare (hex_fixed k a) (hex_fixed k b)
  = (a mod 16 ^ Z.of_nat k ?= b mod 16 ^ Z.of_nat k).
Proof.
  induction k as [|k IH].
  { by rewrite !Z.mod_1_r. }
  cbn [hex_fixed String.compare].
  rewrite hex_digit_compare, IH by (apply Z.mod_pos_bound; lia).
  set (p := 16 ^ Z.of_nat k) in *. assert (0 < p) as Hp by (apply Z.pow_pos_nonneg; lia).
  replace (16 ^ Z.of_nat (S k)) with (p * 16) by (rewrite Nat2Z.inj_succ, Z.pow_succ_r; lia).
  rewrite !(Z.rem_mul_r _ p 16) by lia.
  pose proof (Z.mod_pos_bound a p Hp). pose proof (Z.mod_pos_bound b p Hp).
  destruct (Z.compare_spec (a / p mod 16) (b / p mod 16)) as [He|Hlt|Hgt].
  - rewrite He. destruct (Z.compare_spec (a mod p) (b mod p)); symmetry;
      (apply Z.compare_eq_iff || apply Z.compare_lt_iff || apply Z.compare_gt_iff); lia.
  - symmetry. apply Z.compare_lt_iff. nia.
  - symmetry. apply Z.compare_gt_iff. nia.
Qed.

Lemma hex016_compare a b :
  0 <= a < 2 ^ 63 -> 0 <= b < 2 ^ 63 -> String.compare (hex016 a) (hex016 b) = (a ?= b).
Proof.
  intros Ha Hb. unfold hex016. rewrite !(proj2 (Z.ltb_ge _ _)) by lia.
  rewrite hex_fixed_compare. by rewrite !Z.mod_small by (change (16 ^ Z.of_nat 16) with (2 ^ 64); lia).
Qed.

Lemma hex016_inj a b :
  0 <= a < 2 ^ 63 -> 0 <= b < 2 ^ 63 -> hex016 a = hex016 b -> a = b.
Proof.
  intros Ha Hb He. pose proof (hex016_compare a b Ha Hb) as Hc.
  rewrite He, string_compare_refl in Hc. by apply Z.compare_eq_iff.
Qed.

(** A common prefix does not change the order. *)
Lemma str_less_prefix p s1 s2 : str_less (p +:+ s1) (p +:+ s2) = str_less s1 s2.
Proof.
  unfold str_less. f_equal. induction p as [|c p IH]; simpl; [done|].
  unfold Ascii.compare. by rewrite N.compare_refl.
Qed.

Lemma str_less_hex016 p a b :
  0 <= a < 2 ^ 63 -> 0 <= b < 2 ^ 63 ->
  str_less (p +:+ hex016 a) (p +:+ hex016 b) = (a <? b).
Proof.
  intros Ha Hb. rewrite str_less_prefix. unfold str_less. by rewrite hex016_compare.
Qed.

Lemma string_app_inj p s1 s2 : p +:+ s1 = p +:+ s2 -> s1 = s2.
Proof. induction p as [|c p IH]; simpl; [done|]. intros [=]. auto. Qed.

Example hex016_42 : hex016 42 = "000000000000002a".
Proof. reflexivity. Qed.
Example hex016_negative : hex016 (-1) = "-000000000000001".
Proof. reflexivity. Qed.
Example ParseInt_refuses :
  ParseInt <$> [""; "-"; "12a"; "9223372036854775808"; " 1"] = replicate 5 None.
Proof. vm_compute. reflexivity. Qed.
Example TrimSpace_lines : TrimSpace (bytes [32; 9; 194; 160] +:+ "true" +:+ bytes [13; 10; 226; 128; 131])%nat = "true".
Proof. vm_compute. reflexivity. Qed.
