(* ===== verification/GoPath.v ===== *)
(** * Paths and addresses of the Go standard library

    [path.Join], [filepath.Clean] and [filepath.Dir] on Unix, and the text of an IP
    address. *)

From Stdlib Require Import ZArith Ascii String Lia.
From stdpp Require Import base gmap strings list.
From S2P Require Import Prelude GoLib.

(** ** path, path/filepath *)

(** The elements of a path without empty elements and dots; [stack] holds those seen
    so far, the last one first. *)
Fixpoint clean_elements (rooted : bool) (elements stack : list string) : list string :=
  match elements with
  | [] => reverse stack
  | e :: rest =>
      if (e =? "")%string || (e =? ".")%string then clean_elements rooted rest stack
      else if (e =? "..")%string then
        match stack with
        | [] => clean_elements rooted rest (if rooted then [] else [e])
        | top :: below =>
            if (top =? "..")%string then clean_elements rooted rest (e :: stack)
            else clean_elements rooted rest below
        end
      else clean_elements rooted rest (e :: stack)
  end.
Definition Clean (p : string) : string :=
  let rooted := HasPrefix p "/" in
  let s := Join (clean_elements rooted (Split p "/") []) "/" in
  if rooted then "/" +:+ s else if (s =? "")%string then "." else s.
(** [filepath.Join], [path.Join] *)
Definition path_Join (elements : list string) : string :=
  match List.filter (fun e => negb (e =? "")%string) elements with
  | [] => ""
  | l => Clean (Join l "/")
  end.
(** [filepath.Dir]: what is before the last slash, cleaned. *)
Definition Dir (p : string) : string :=
  match List.removelast (Split p "/") with
  | [] => Clean ""
  | l => Clean (Join l "/" +:+ "/")
  end.
(** [filepath.Base] of a path without a slash at its end. *)
Definition Base (p : string) : string := List.last (Split p "/") "".

(** ** Addresses *)

(** Groups of 16 bits of an IPv6 address, and the first longest run of at least two
    zeros among them: its start and its end. *)
Fixpoint groups (b : list Z) : list Z :=
  match b with x :: y :: rest => x * 256 + y :: groups rest | _ => [] end.
Fixpoint zeros (g : list Z) : nat :=
  match g with 0 :: rest => S (zeros rest) | _ => O end.
Fixpoint longest_zeros (g : list Z) (i : nat) (best : nat * nat) : nat * nat :=
  match g with
  | [] => best
  | _ :: rest =>
      let n := zeros g in
      longest_zeros rest (S i)
        (if (2 <=? n)%nat && (best.2 - best.1 <? n)%nat then (i, i + n)%nat else best)
  end.
(** The verb [%x]. *)
Fixpoint hex_go (fuel : nat) (z : Z) (acc : string) : string :=
  match fuel with
  | O => acc
  | S fuel => let acc := String (hex_digit (z mod 16)) acc in
              if z / 16 =? 0 then acc else hex_go fuel (z / 16) acc
  end.
Definition group_text (z : Z) : string := hex_go 4 z "".
Definition IPv6_String (b : list Z) : string :=
  let g := groups b in
  let '(i, j) := longest_zeros g 0 (0%nat, 0%nat) in
  if (i =? j)%nat then Join (group_text <$> g) ":"
  else Join (group_text <$> take i g) ":" +:+ "::" +:+ Join (group_text <$> drop j g) ":".
(** [net.IP.String]: an address whose 16-byte form embeds an IPv4 address has the
    dotted form. *)
Definition IP_String (b : list Z) : string :=
  if decide (take 12 b = replicate 10 0 ++ [255; 255]) then Join (FormatInt <$> drop 12 b) "."
  else IPv6_String b.

(** ** Clean absolute paths *)
Definition plain (e : string) : Prop :=
  ~ e ∈ [""; "."; ".."] /\ ~ "/"%char ∈ String.list_ascii_of_string e.
Definition absolute (elements : list string) : string := "/" +:+ Join elements "/".

Lemma Split_plain e : ~ "/"%char ∈ String.list_ascii_of_string e -> Split e "/" = [e].
Proof.
  induction e as [|c e IH]; cbn; [done|]. rewrite not_elem_of_cons. intros [Hc He].
  destruct (Ascii.eqb_spec c "/"); [congruence|]. by rewrite (IH He).
Qed.
Lemma Split_app e s :
  ~ "/"%char ∈ String.list_ascii_of_string e -> Split (e +:+ "/" +:+ s) "/" = e :: Split s "/".
Proof.
  induction e as [|c e IH]; [done|]. cbn [String.list_ascii_of_string].
  rewrite not_elem_of_cons. intros [Hc He].
  change (String c e +:+ "/" +:+ s) with (String c (e +:+ "/" +:+ s)). cbn [Split].
  destruct (Ascii.eqb_spec c "/"); [congruence|]. by rewrite (IH He).
Qed.
Lemma Split_plain_Join l : l <> [] -> Forall plain l -> Split (Join l "/") "/" = l.
Proof.
  induction l as [|e [|e2 l] IH]; [done| |]; intros _ Hp; apply Forall_cons in Hp as [[_ He] Hl].
  - by apply Split_plain.
  - change (Join (e :: e2 :: l) "/") with (e +:+ "/" +:+ Join (e2 :: l) "/").
    rewrite Split_app by done. by rewrite IH.
Qed.
Lemma clean_elements_plain rooted l stack :
  Forall plain l -> clean_elements rooted l stack = reverse stack ++ l.
Proof.
  revert stack. induction l as [|e l IH]; intros stack; cbn [clean_elements]; [by rewrite app_nil_r|].
  intros [[He _] Hl]%Forall_cons. rewrite !not_elem_of_cons in He. destruct He as (E1 & E2 & E3 & _).
  apply String.eqb_neq in E1 as ->, E2 as ->, E3 as ->. cbn.
  rewrite (IH _ Hl), reverse_cons, <- app_assoc. done.
Qed.
Lemma Split_absolute l : Forall plain l -> Split (absolute l) "/" = "" :: (match l with [] => [""] | _ => l end).
Proof.
  intros Hl. unfold absolute. change ("/" +:+ Join l "/") with ("" +:+ "/" +:+ Join l "/").
  rewrite Split_app by (by apply not_elem_of_nil). f_equal. destruct l; [done|]. by apply Split_plain_Join.
Qed.
Lemma rooted_slash s : HasPrefix ("/" +:+ s) "/" = true.
Proof. change ("/" +:+ s) with (String "/" s). by destruct s. Qed.
Lemma rooted_absolute l : HasPrefix (absolute l) "/" = true.
Proof. apply rooted_slash. Qed.
Lemma Clean_absolute l : Forall plain l -> Clean (absolute l) = absolute l.
Proof.
  intros Hl. unfold Clean. rewrite Split_absolute by done.
  rewrite rooted_absolute.
  cbn [clean_elements String.eqb orb].
  destruct l as [|e l]; [done|]. cbv iota. by rewrite clean_elements_plain.
Qed.
Lemma string_app_assoc s1 s2 s3 : s1 +:+ (s2 +:+ s3) = (s1 +:+ s2) +:+ s3.
Proof. induction s1 as [|c s1 IH]; [done|]. by apply (f_equal (String c)). Qed.

Lemma clean_elements_step rooted e l stack :
  plain e -> clean_elements rooted (e :: l) stack = clean_elements rooted l (e :: stack).
Proof.
  intros [He _]. rewrite !not_elem_of_cons in He. destruct He as (E1 & E2 & E3 & _). cbn [clean_elements].
  apply String.eqb_neq in E1 as ->, E2 as ->, E3 as ->. done.
Qed.
Lemma clean_elements_empty rooted l stack :
  clean_elements rooted ("" :: l) stack = clean_elements rooted l stack.
Proof. done. Qed.
Lemma clean_elements_last rooted l stack :
  clean_elements rooted (l ++ [""]) stack = clean_elements rooted l stack.
Proof.
  revert stack. induction l as [|e l IH]; intros stack; cbn [app clean_elements]; [done|].
  rewrite !IH. destruct stack; rewrite ?IH; done.
Qed.
Lemma Split_not_nil s : Split s "/" <> [].
Proof. destruct s as [|c s]; cbn; [done|]. destruct (Ascii.eqb c "/"); [done|]. by destruct (Split s "/"). Qed.
Lemma Split_snoc s : Split (s +:+ "/") "/" = Split s "/" ++ [""].
Proof.
  induction s as [|c s IH]; [done|]. change (String c s +:+ "/") with (String c (s +:+ "/")). cbn [Split].
  rewrite IH. destruct (Ascii.eqb c "/"); [done|].
  destruct (Split s "/") eqn:E; [by apply Split_not_nil in E|done].
Qed.
Lemma join_under e l : absolute [e] +:+ "/" +:+ absolute l = "" +:+ "/" +:+ e +:+ "/" +:+ absolute l.
Proof. unfold absolute at 1. cbn [Join]. by rewrite <- string_app_assoc. Qed.
Lemma absolute_not_empty l : (absolute l =? "")%string = false.
Proof. by apply String.eqb_neq. Qed.

Lemma absolute_under e l :
  plain e -> Forall plain l -> l <> [] -> path_Join [absolute [e]; absolute l] = absolute (e :: l).
Proof.
  intros He Hl Hn. unfold path_Join. cbn [List.filter]. rewrite !absolute_not_empty. cbn [negb Join].
  unfold Clean. rewrite join_under, Split_app by (by apply not_elem_of_nil).
  rewrite Split_app by apply He. rewrite Split_absolute by done. destruct l as [|x l]; [done|]. cbv iota.
  rewrite clean_elements_empty, clean_elements_step, clean_elements_empty, clean_elements_plain by done.
  change ("" +:+ "/" +:+ e +:+ "/" +:+ absolute (x :: l)) with ("/" +:+ e +:+ "/" +:+ absolute (x :: l)).
  by rewrite rooted_slash.
Qed.
Lemma Dir_absolute l e : Forall plain l -> plain e -> Dir (absolute (l ++ [e])) = absolute l.
Proof.
  intros Hl He. unfold Dir. rewrite Split_absolute by (apply Forall_app; split; [done|by constructor]).
  replace (match l ++ [e] with [] => [""] | _ => l ++ [e] end) with (l ++ [e]) by (by destruct l).
  rewrite app_comm_cons, List.removelast_last. cbv iota.
  destruct l as [|x l]; [done|]. change (Join ("" :: x :: l) "/") with (absolute (x :: l)).
  unfold Clean. rewrite Split_snoc, clean_elements_last, Split_absolute by done. cbv iota.
  rewrite clean_elements_empty, clean_elements_plain by done.
  replace (HasPrefix (absolute (x :: l) +:+ "/") "/") with true; [done|].
  unfold absolute. rewrite <- string_app_assoc. symmetry. apply rooted_slash.
Qed.
Lemma Base_absolute l e : Forall plain l -> plain e -> Base (absolute (l ++ [e])) = e.
Proof.
  intros Hl He. unfold Base. rewrite Split_absolute by (apply Forall_app; split; [done|by constructor]).
  replace (match l ++ [e] with [] => [""] | _ => l ++ [e] end) with (l ++ [e]) by (by destruct l).
  by rewrite app_comm_cons, List.last_last.
Qed.

Lemma Join_snoc l e : l <> [] -> Join (l ++ [e]) "/" = Join l "/" +:+ "/" +:+ e.
Proof.
  induction l as [|x [|y l] IH]; [done|done|]. intros _.
  change (Join ((x :: y :: l) ++ [e]) "/") with (x +:+ "/" +:+ Join ((y :: l) ++ [e]) "/").
  rewrite IH by done. change (Join (x :: y :: l) "/") with (x +:+ "/" +:+ Join (y :: l) "/").
  by rewrite !string_app_assoc.
Qed.
Lemma absolute_snoc l e : l <> [] -> absolute (l ++ [e]) = absolute l +:+ "/" +:+ e.
Proof. intros Hl. unfold absolute. by rewrite Join_snoc, string_app_assoc. Qed.
Lemma absolute_suffix l e t : absolute (l ++ [e]) +:+ t = absolute (l ++ [e +:+ t]).
Proof.
  destruct l as [|x l]; [done|]. rewrite !absolute_snoc by done. by rewrite <- !string_app_assoc.
Qed.
Lemma absolute_inj l1 l2 : Forall plain l1 -> Forall plain l2 -> absolute l1 = absolute l2 -> l1 = l2.
Proof.
  intros H1 H2 Heq. apply (f_equal (fun p => Split p "/")) in Heq. rewrite !Split_absolute in Heq by done.
  injection Heq as Heq. destruct l1 as [|x l1], l2 as [|y l2]; try done.
  - apply Forall_cons in H2 as [[H2 _] _]. rewrite !not_elem_of_cons in H2. naive_solver.
  - apply Forall_cons in H1 as [[H1 _] _]. rewrite !not_elem_of_cons in H1. naive_solver.
Qed.

#[export] Instance plain_dec e : Decision (plain e).
Proof. unfold plain. apply _. Defined.
Lemma Join_Split s : Join (Split s "/") "/" = s.
Proof.
  induction s as [|c s IH]; [done|]. cbn [Split]. destruct (Ascii.eqb_spec c "/") as [->|].
  - destruct (Split s "/") eqn:E; [by apply Split_not_nil in E|].
    change (Join ("" :: s0 :: l) "/") with ("/" +:+ Join (s0 :: l) "/"). by rewrite IH.
  - destruct (Split s "/") as [|x [|y l]] eqn:E; [by apply Split_not_nil in E|by rewrite <- IH|].
    rewrite <- IH. done.
Qed.
Lemma Split_is_absolute p l : Split p "/" = "" :: l -> l <> [] -> p = absolute l.
Proof. intros Hs Hl. rewrite <- (Join_Split p), Hs. by destruct l. Qed.
Lemma list_ascii_app s t :
  String.list_ascii_of_string (s +:+ t) = String.list_ascii_of_string s ++ String.list_ascii_of_string t.
Proof. induction s as [|c s IH]; [done|]. by apply (f_equal (cons c)). Qed.
Lemma no_slash_app s t :
  ~ "/"%char ∈ String.list_ascii_of_string s -> ~ "/"%char ∈ String.list_ascii_of_string t ->
  ~ "/"%char ∈ String.list_ascii_of_string (s +:+ t).
Proof. rewrite list_ascii_app, elem_of_app. tauto. Qed.
Lemma plain_app e t : plain e -> ~ "/"%char ∈ String.list_ascii_of_string t -> (2 < String.length (e +:+ t))%nat ->
  plain (e +:+ t).
Proof.
  intros [_ He] Ht Hlen. split.
  - rewrite !not_elem_of_cons. split_and!; [intros E; rewrite E in Hlen; cbn in Hlen; lia..|apply not_elem_of_nil].
  - by apply no_slash_app.
Qed.

(** ** Names of files *)
Lemma suffix_differs (s t : string) : s +:+ String "." t <> s.
Proof. induction s as [|c s IH]; [done|]. intros [= Hs]. by apply IH. Qed.
Lemma filename_plain e : match_filename e = true -> ~ e ∈ ["."; ".."] -> plain e.
Proof.
  unfold match_filename. intros [Hne%negb_true_iff Hall]%andb_prop Hdots. apply String.eqb_neq in Hne. split.
  - rewrite not_elem_of_cons. by split.
  - intros Hin. rewrite List.forallb_forall in Hall. apply list_elem_of_In, Hall in Hin. by vm_compute in Hin.
Qed.
Lemma hex_digit_filename z : 0 <= z < 16 -> filename_char (hex_digit z) = true.
Proof.
  intros Hz. assert (Forall (fun z => filename_char (hex_digit z) = true) (seqZ 0 16)) as Hall
    by (by apply (bool_decide_unpack _)).
  rewrite Forall_forall in Hall. apply Hall, elem_of_seqZ. lia.
Qed.
Lemma le_bytes_range k z : Forall (fun b => 0 <= b < 256) (le_bytes k z).
Proof.
  revert z. induction k as [|k IH]; intros z; cbn [le_bytes]; constructor; [|done].
  change 255 with (Z.ones 8). rewrite Z.land_ones by lia. apply Z.mod_pos_bound. lia.
Qed.
Lemma md5_hex_filename s : forallb filename_char (String.list_ascii_of_string (md5_hex s)) = true.
Proof.
  unfold md5_hex, hex_string. rewrite String.list_ascii_of_string_of_list_ascii.
  assert (Forall (fun b => 0 <= b < 256) (md5_Sum (string_bytes s))) as Hb.
  { unfold md5_Sum. destruct (md5_blocks _ _ _) as [[[a b] c] d].
    repeat (apply Forall_app; split); apply le_bytes_range. }
  apply List.forallb_forall. intros ch Hin. apply list_elem_of_In in Hin.
  apply list_elem_of_join in Hin as (l & Hch & Hl). apply list_elem_of_fmap in Hl as (b & -> & Hbin).
  rewrite Forall_forall in Hb. specialize (Hb _ Hbin).
  rewrite !elem_of_cons, elem_of_nil in Hch. destruct Hch as [->|[->|[]]]; apply hex_digit_filename.
  - split; [apply Z.div_pos; lia|apply Z.div_lt_upper_bound; lia].
  - apply Z.mod_pos_bound. lia.
Qed.

(** ** Examples *)
Example paths_clean :
  (Clean <$> ["/a//b/./c/../d/"; "a/../../b"; "/../x"; ""; "/"]) = ["/a/b/d"; "../b"; "/x"; "."; "/"].
Proof. by vm_compute. Qed.
Example paths_dir : (Dir <$> ["/etc/kubernetes/ca.crt"; "/x"; "x"; "a/b/"]) = ["/etc/kubernetes"; "/"; "."; "a/b"].
Proof. by vm_compute. Qed.
Example addresses_text :
  (option_map IP_String ∘ ParseIP <$> ["10.68.0.1"; "fd00:68::1"; "::"; "1:0:0:2:0:0:0:3"; "::ffff:1.2.3.4"])
  = Some <$> ["10.68.0.1"; "fd00:68::1"; "::"; "1:0:0:2::3"; "1.2.3.4"].
Proof. by vm_compute. Qed.
