(* ===== verification/GoTime.v ===== *)
(** * Floating point numbers and dates

    What the integration with sabakan uses of Go's float64 and of package time:
    IEEE 754 arithmetic as specified by the standard library ([SpecFloat]), the
    length of durations in hours, and dates of the proleptic Gregorian calendar
    in the layouts the program writes. *)

From Stdlib Require Import ZArith Ascii String Lia.
From Stdlib Require Import Floats.SpecFloat.
From stdpp Require Import base strings list.
From S2P Require Import Prelude GoLib.

(** ** float64 *)
Definition float64 : Type := spec_float.

Definition float_prec : Z := 53.
Definition float_emax : Z := 1024.
(** [float64(z)], rounded to nearest even *)
Definition of_int (z : Z) : float64 := binary_normalize float_prec float_emax z 0 false.
Definition fadd : float64 -> float64 -> float64 := SFadd float_prec float_emax.
Definition fmul : float64 -> float64 -> float64 := SFmul float_prec float_emax.
Definition fdiv : float64 -> float64 -> float64 := SFdiv float_prec float_emax.
(** [x < y] *)
Definition fless : float64 -> float64 -> bool := SFltb.
Definition MaxFloat64 : float64 := S754_finite false (2 ^ 53 - 1) 971.

(** [int(x)] discards the fraction; the result for infinities and NaN, which
    depends on the implementation, is the one of amd64. *)
Definition to_int (x : float64) : Z :=
  match x with
  | S754_zero _ => 0
  | S754_finite neg m e =>
      let magnitude := if 0 <=? e then Zpos m * 2 ^ e else Zpos m / 2 ^ (- e) in
      if neg then - magnitude else magnitude
  | _ => - 2 ^ 63
  end.

(** ** Durations *)
Definition nanoseconds_per_hour : Z := 3600 * 10 ^ 9.

(** [t.Sub(u)] is the nearest duration. *)
Definition Sub (t u : Z) : Z := Z.max (- 2 ^ 63) (Z.min (t - u) (2 ^ 63 - 1)).

(** [d.Hours()]; the quotient and the remainder truncate. *)
Definition Hours (d : Z) : float64 :=
  fadd (of_int (Z.quot d nanoseconds_per_hour))
       (fdiv (of_int (Z.rem d nanoseconds_per_hour)) (of_int nanoseconds_per_hour)).

(** ** Dates

    A time is the number of nanoseconds since 1970, UTC, and the offset of its
    zone in seconds. *)
Record Time := mkTime { t_nanoseconds : Z; t_offset : Z }.

(** Seconds since 1970 on the clock of the zone. *)
Definition local_seconds (t : Time) : Z := t_nanoseconds t / 10 ^ 9 + t_offset t.

(** Year, month and day of the day with the given number, 0 being 1970-01-01.
    Years begin in March here, so that leap days are the last days of years. *)
Definition civil (days : Z) : Z * Z * Z :=
  let z := days + 719468 in
  let era := z / 146097 in
  let doe := z mod 146097 in
  let yoe := (doe - doe / 1460 + doe / 36524 - doe / 146096) / 365 in
  let doy := doe - (365 * yoe + yoe / 4 - yoe / 100) in
  let mp := (5 * doy + 2) / 153 in
  let day := doy - (153 * mp + 2) / 5 + 1 in
  let month := if mp <? 10 then mp + 3 else mp - 9 in
  (yoe + era * 400 + (if month <=? 2 then 1 else 0), month, day).

Definition date (t : Time) : Z * Z * Z := civil (local_seconds t / 86400).
Definition Year (t : Time) : Z := let '(year, _, _) := date t in year.

Fixpoint zeros (n : nat) : string :=
  match n with O => "" | S n => "0" +:+ zeros n end.
(** Decimal digits of a number, padded with zeros to a width. *)
Definition padded (width : nat) (z : Z) : string :=
  let digits := FormatInt (Z.abs z) in
  (if z <? 0 then "-" else "") +:+ zeros (width - String.length digits) +:+ digits.

(** [t.Format("2006-01")] *)
Definition FormatMonth (t : Time) : string :=
  let '(year, month, _) := date t in padded 4 year +:+ "-" +:+ padded 2 month.

(** The offset of a zone in [time.RFC3339] *)
Definition FormatZone (offset : Z) : string :=
  if offset =? 0 then "Z"
  else
    let zone := Z.quot offset 60 in
    (if zone <? 0 then "-" else "+")
      +:+ padded 2 (Z.abs zone / 60) +:+ ":" +:+ padded 2 (Z.abs zone mod 60).

(** [t.Format(time.RFC3339)] *)
Definition FormatRFC3339 (t : Time) : string :=
  let '(year, month, day) := date t in
  let s := local_seconds t mod 86400 in
  padded 4 year +:+ "-" +:+ padded 2 month +:+ "-" +:+ padded 2 day +:+ "T"
    +:+ padded 2 (s / 3600) +:+ ":" +:+ padded 2 (s / 60 mod 60) +:+ ":" +:+ padded 2 (s mod 60)
    +:+ FormatZone (t_offset t).

(** ** Examples *)
Example format_epoch : FormatRFC3339 (mkTime 0 0) = "1970-01-01T00:00:00Z".
Proof. vm_compute. reflexivity. Qed.
Example format_leap_day :
  FormatRFC3339 (mkTime (1709221385 * 10 ^ 9) 32400) = "2024-03-01T00:43:05+09:00".
Proof. vm_compute. reflexivity. Qed.
Example format_before_epoch :
  (FormatRFC3339 (mkTime (-1) 0), FormatMonth (mkTime (-1) 0), Year (mkTime (-1) 0))
  = ("1969-12-31T23:59:59Z", "1969-12", 1969).
Proof. vm_compute. reflexivity. Qed.
Example format_zero_time : FormatRFC3339 (mkTime (-62135596800 * 10 ^ 9) 0) = "0001-01-01T00:00:00Z".
Proof. vm_compute. reflexivity. Qed.
Example hours_of_days :
  to_int (fdiv (Hours (Sub (90 * 86400 * 10 ^ 9) 1)) (of_int 24)) = 89.
Proof. vm_compute. reflexivity. Qed.
Example rates_compare : fless (fdiv (of_int 1) (of_int 3)) (fdiv (of_int 2) (of_int 3)) = true.
Proof. vm_compute. reflexivity. Qed.
