(* ===== verification/SabakanQuery.v ===== *)
(** * Machines registered with sabakan (sabakan/query.go)

    The machines that sabakan answers with, and the variables of the queries for
    them.  The request itself, GraphQL over HTTP, is made by the operations in
    [Integrate]. *)

From Stdlib Require Import ZArith Ascii String Lia.
From stdpp Require Import base strings list.
From S2P Require Import Prelude GoLib GoTime.

(** ** States *)
Definition StateUninitialized : string := "UNINITIALIZED".
Definition StateHealthy : string := "HEALTHY".
Definition StateUnhealthy : string := "UNHEALTHY".
Definition StateUnreachable : string := "UNREACHABLE".
Definition StateUpdating : string := "UPDATING".
Definition StateRetiring : string := "RETIRING".
Definition StateRetired : string := "RETIRED".

Definition State_IsValid (s : string) : bool :=
  Contains [StateUninitialized; StateHealthy; StateUnhealthy; StateUnreachable; StateUpdating;
            StateRetiring; StateRetired] s.

(** ** Query variables *)
Record MachineParams := mkMachineParams {
  mp_Labels : list (string * string);
  mp_Racks : list Z;
  mp_Roles : list string;
  mp_States : list string;
  mp_MinDaysBeforeRetire : option Z
}.
Definition MachineParams_IsValid (mp : MachineParams) : option error :=
  for_each (fun state => fail_if (negb (State_IsValid state)) ("invalid state: " +:+ state)) (mp_States mp).

Record QueryVariables := mkQueryVariables {
  qv_Having : option MachineParams;
  qv_NotHaving : option MachineParams
}.
Definition QueryVariables_IsValid (v : QueryVariables) : option error :=
  (match qv_Having v with Some mp => MachineParams_IsValid mp | None => None end)
  else_nil
  (match qv_NotHaving v with Some mp => MachineParams_IsValid mp | None => None end).

(** ** Machines *)
Record MachineSpec := mkMachineSpec {
  ms_Serial : string;
  ms_Labels : list (string * string);
  ms_Rack : Z;
  ms_IndexInRack : Z;
  ms_Role : string;
  ms_IPv4 : list string;
  ms_RegisterDate : Time;
  ms_RetireDate : Time;
  ms_BMC : string                       (** BMC.Type *)
}.
Record MachineStatus := mkMachineStatus { mst_State : string; mst_Duration : float64 }.
Record Machine := mkMachine { m_Spec : MachineSpec; m_Status : MachineStatus }.
