(* ===== verification/K8s.v ===== *)
(** * Interfaces to third-party code

    The objects of the Kubernetes API and of etcd that CKE reads or builds,
    with the fields CKE uses, and the functions of third-party packages
    (apimachinery's validators and [equality.Semantic], sigs.k8s.io/yaml,
    libcni, JSON decoding into Kubernetes' component configurations), which
    are parameters: class [K8sTypes] has the types, class [K8s] the functions
    and the documented behaviour the program relies on. *)

From Stdlib Require Import ZArith String.
From stdpp Require Import base gmap strings list.
From S2P Require Import Prelude.

(** ** k8s.io/api/core/v1 and discovery/v1 *)

Record Taint := mkTaint {
  taint_Key : string;
  taint_Value : string;
  taint_Effect : string
}.
Definition TaintEffectNoSchedule : string := "NoSchedule".
Definition TaintEffectPreferNoSchedule : string := "PreferNoSchedule".
Definition TaintEffectNoExecute : string := "NoExecute".

Record KubeNode := mkKubeNode {
  kn_Name : string;
  kn_Labels : gmap string string;
  kn_Annotations : gmap string string;
  kn_Taints : list Taint;
  kn_Unschedulable : bool;
  kn_Conditions : list (string * string); (** Type, Status *)
  kn_Deleted : bool                       (** DeletionTimestamp is set *)
}.
Definition NodeReady : string := "Ready".
Definition ConditionTrue : string := "True".

Record EndpointSubset := mkEndpointSubset {
  ss_Addresses : list string;             (** the IP of each address *)
  ss_NotReadyAddresses : list string;
  ss_Ports : list (string * Z)            (** Name, Port *)
}.
Record Endpoints := mkEndpoints {
  ep_Namespace : string;
  ep_Name : string;
  ep_Labels : gmap string string;
  ep_Subsets : list EndpointSubset
}.
Record Endpoint := mkEndpoint {
  e_Addresses : list string;
  e_Ready : option bool                   (** Conditions.Ready *)
}.
Record EndpointSlice := mkEndpointSlice {
  eps_Namespace : string;
  eps_Name : string;
  eps_Labels : gmap string string;
  eps_AddressType : string;
  eps_Endpoints : list Endpoint;
  eps_Ports : list (option string * option Z)
}.
Record Service := mkService {
  svc_Ports : list Z;                     (** Spec.Ports[i].Port *)
  svc_Type : string;
  svc_ClusterIP : string
}.
Record ConfigMap := mkConfigMap {
  cm_Name : string;
  cm_Namespace : string;
  cm_Data : gmap string string
}.

(** ** go.etcd.io/etcd/api/v3/etcdserverpb *)
Record Member := mkMember { mem_ID : Z; mem_Name : string; mem_PeerURLs : list string }.

(** ** Types of third-party packages *)
Class K8sTypes := {
  Unstructured : Type;
  LabelSelector : Type;
  Selector : Type;
  FieldPath : Type;
  FieldError : Type;
  (** the fields of the component configurations that CKE never names *)
  KubeletRest : Type;
  SchedulerRest : Type;
  ProxyRest : Type;
  kubelet_rest_zero : KubeletRest;
  scheduler_rest_zero : SchedulerRest;
  proxy_rest_zero : ProxyRest
}.

(** [metav1.TypeMeta] *)
Record TypeMeta := mkTypeMeta { tm_APIVersion : string; tm_Kind : string }.
Definition no_type_meta : TypeMeta := mkTypeMeta "" "".

(** The fields of [KubeletConfiguration] that must not change without a full
    node reboot. *)
Record CgroupFields := mkCgroupFields {
  KubeletCgroups : string;
  SystemCgroups : string;
  CgroupRoot : string;
  CgroupsPerQOS : option bool;
  CgroupDriver : string;
  CPUManagerPolicy : string;
  TopologyManagerPolicy : string;
  QOSReserved : gmap string string;
  SystemReservedCgroup : string;
  KubeReservedCgroup : string
}.
Definition no_cgroup_fields : CgroupFields := mkCgroupFields "" "" "" None "" "" "" ∅ "" "".

Record KubeletAuthentication := mkKubeletAuthentication {
  X509_ClientCAFile : string;
  Webhook_Enabled : option bool;
  Webhook_CacheTTL : Z;
  Anonymous_Enabled : option bool
}.
Definition no_authentication : KubeletAuthentication := mkKubeletAuthentication "" None 0 None.

Record KubeletConfiguration {T : K8sTypes} := mkKubeletConfiguration {
  kc_TypeMeta : TypeMeta;
  kc_ClusterDomain : string;
  kc_RuntimeRequestTimeout : Z;           (** nanoseconds *)
  kc_HealthzBindAddress : string;
  kc_VolumePluginDir : string;
  kc_TLSCertFile : string;
  kc_TLSPrivateKeyFile : string;
  kc_Authentication : KubeletAuthentication;
  kc_AuthorizationMode : string;
  kc_ClusterDNS : list string;
  kc_RegisterWithTaints : list Taint;
  kc_Cgroups : CgroupFields;
  kc_rest : KubeletRest
}.
Arguments mkKubeletConfiguration {T}.
Definition zero_KubeletConfiguration {T : K8sTypes} : KubeletConfiguration :=
  mkKubeletConfiguration no_type_meta "" 0 "" "" "" "" no_authentication "" [] []
    no_cgroup_fields kubelet_rest_zero.

Record KubeSchedulerConfiguration {T : K8sTypes} := mkKubeSchedulerConfiguration {
  sc_TypeMeta : TypeMeta;
  sc_ClientConnection_Kubeconfig : string;
  sc_LeaderElect : option bool;
  sc_rest : SchedulerRest
}.
Arguments mkKubeSchedulerConfiguration {T}.
Definition zero_KubeSchedulerConfiguration {T : K8sTypes} : KubeSchedulerConfiguration :=
  mkKubeSchedulerConfiguration no_type_meta "" None scheduler_rest_zero.

Record KubeProxyConfiguration {T : K8sTypes} := mkKubeProxyConfiguration {
  pc_TypeMeta : TypeMeta;
  pc_HostnameOverride : string;
  pc_MetricsBindAddress : string;
  pc_TCPEstablishedTimeout : option Z;    (** nanoseconds *)
  pc_TCPCloseWaitTimeout : option Z;
  pc_Mode : string;
  pc_ClientConnection_Kubeconfig : string;
  pc_rest : ProxyRest
}.
Arguments mkKubeProxyConfiguration {T}.
Definition zero_KubeProxyConfiguration {T : K8sTypes} : KubeProxyConfiguration :=
  mkKubeProxyConfiguration no_type_meta "" "" None None "" "" proxy_rest_zero.

Definition is_ok {A} (r : result A) : bool := match r with Ok _ => true | Err _ => false end.

(** ** Functions of third-party packages *)
Class K8s {T : K8sTypes} := {
  (** unstructured.Unstructured *)
  GetAPIVersion : Unstructured -> string;
  GetKind : Unstructured -> string;
  (** [UnstructuredContent()[key]] when it is a string *)
  content_string : Unstructured -> string -> option string;

  (** [json.Marshal] of the document followed by [json.Unmarshal] into an
      existing configuration *)
  json_kubelet : Unstructured -> KubeletConfiguration -> result KubeletConfiguration;
  json_scheduler : Unstructured -> KubeSchedulerConfiguration -> result KubeSchedulerConfiguration;
  json_proxy : Unstructured -> KubeProxyConfiguration -> result KubeProxyConfiguration;
  (** Decoding fails for a reason in the document, not in the value it is
      decoded into. *)
  json_kubelet_ok : forall u b1 b2, is_ok (json_kubelet u b1) = is_ok (json_kubelet u b2);
  json_scheduler_ok : forall u b1 b2, is_ok (json_scheduler u b1) = is_ok (json_scheduler u b2);
  json_proxy_ok : forall u b1 b2, is_ok (json_proxy u b1) = is_ok (json_proxy u b2);

  (** [equality.Semantic.DeepEqual] of a configuration and a pointer *)
  kubelet_DeepEqual : KubeletConfiguration -> option KubeletConfiguration -> bool;
  scheduler_DeepEqual : KubeSchedulerConfiguration -> option KubeSchedulerConfiguration -> bool;
  proxy_DeepEqual : KubeProxyConfiguration -> option KubeProxyConfiguration -> bool;
  kubelet_DeepEqual_refl : forall c, kubelet_DeepEqual c (Some c) = true;
  scheduler_DeepEqual_refl : forall c, scheduler_DeepEqual c (Some c) = true;
  proxy_DeepEqual_refl : forall c, proxy_DeepEqual c (Some c) = true;

  (** apimachinery's validation packages *)
  NewPath : list string -> FieldPath;
  Child : FieldPath -> string -> FieldPath;
  Index : FieldPath -> Z -> FieldPath;
  field_Invalid : FieldPath -> string -> string -> FieldError;
  field_Error : FieldError -> error;
  ToAggregate : list FieldError -> error;
  ValidateLabels : gmap string string -> FieldPath -> list FieldError;
  ValidateAnnotations : gmap string string -> FieldPath -> list FieldError;
  ValidateLabelName : string -> FieldPath -> list FieldError;
  IsValidLabelValue : string -> list string;
  IsDNS1123Subdomain : string -> list string;
  LabelSelectorAsSelector : option LabelSelector -> result Selector;
  Matches : Selector -> gmap string string -> bool;

  (** libcni and sigs.k8s.io/yaml *)
  ConfListFromBytes : string -> option error;
  NetworkPluginConfFromBytes : string -> option error;
  yaml_Unmarshal_map : string -> option error
}.

Global Instance Taint_eq_dec : EqDecision Taint.
Proof. solve_decision. Defined.
Global Instance KubeNode_eq_dec : EqDecision KubeNode.
Proof. solve_decision. Defined.
Global Instance EndpointSubset_eq_dec : EqDecision EndpointSubset.
Proof. solve_decision. Defined.
Global Instance Endpoints_eq_dec : EqDecision Endpoints.
Proof. solve_decision. Defined.
Global Instance Endpoint_eq_dec : EqDecision Endpoint.
Proof. solve_decision. Defined.
Global Instance EndpointSlice_eq_dec : EqDecision EndpointSlice.
Proof. solve_decision. Defined.

(** ** A concrete instance, on which the witnesses run: documents are an API
    version and a kind, decoding changes nothing, every validator accepts. *)
Global Instance TypeMeta_eq_dec : EqDecision TypeMeta.
Proof. solve_decision. Defined.
Global Instance CgroupFields_eq_dec : EqDecision CgroupFields.
Proof. solve_decision. Defined.
Global Instance KubeletAuthentication_eq_dec : EqDecision KubeletAuthentication.
Proof. solve_decision. Defined.
Global Instance KubeletConfiguration_eq_dec {T : K8sTypes} `{EqDecision KubeletRest} :
  EqDecision KubeletConfiguration.
Proof. solve_decision. Defined.
Global Instance KubeSchedulerConfiguration_eq_dec {T : K8sTypes} `{EqDecision SchedulerRest} :
  EqDecision KubeSchedulerConfiguration.
Proof. solve_decision. Defined.
Global Instance KubeProxyConfiguration_eq_dec {T : K8sTypes} `{EqDecision ProxyRest} :
  EqDecision KubeProxyConfiguration.
Proof. solve_decision. Defined.

Definition sample_types : K8sTypes := {|
  Unstructured := string * string;
  LabelSelector := string * string;
  Selector := string * string;
  FieldPath := list string;
  FieldError := string;
  KubeletRest := unit; SchedulerRest := unit; ProxyRest := unit;
  kubelet_rest_zero := tt; scheduler_rest_zero := tt; proxy_rest_zero := tt
|}.

Local Obligation Tactic := intros; apply bool_decide_eq_true; reflexivity.
Program Definition sample_k8s : @K8s sample_types := {|
  GetAPIVersion u := fst u;
  GetKind u := snd u;
  content_string _ _ := None;
  json_kubelet _ c := Ok c;
  json_scheduler _ c := Ok c;
  json_proxy _ c := Ok c;
  json_kubelet_ok _ _ _ := eq_refl;
  json_scheduler_ok _ _ _ := eq_refl;
  json_proxy_ok _ _ _ := eq_refl;
  kubelet_DeepEqual c o := @bool_decide (o = Some c)
    (@option_eq_dec _ (@KubeletConfiguration_eq_dec sample_types unit_eq_dec) o (Some c));
  scheduler_DeepEqual c o := @bool_decide (o = Some c)
    (@option_eq_dec _ (@KubeSchedulerConfiguration_eq_dec sample_types unit_eq_dec) o (Some c));
  proxy_DeepEqual c o := @bool_decide (o = Some c)
    (@option_eq_dec _ (@KubeProxyConfiguration_eq_dec sample_types unit_eq_dec) o (Some c));
  NewPath l := l;
  Child p s := p ++ [s];
  Index p _ := p;
  field_Invalid _ v d := v +:+ ": " +:+ d;
  field_Error e := ErrUnexpected e;
  ToAggregate _ := ErrUnexpected "invalid";
  ValidateLabels _ _ := [];
  ValidateAnnotations _ _ := [];
  ValidateLabelName k _ := if (k =? "")%string then ["name part must be non-empty"] else [];
  IsValidLabelValue _ := [];
  IsDNS1123Subdomain _ := [];
  LabelSelectorAsSelector s := Ok (default ("", "") s);
  Matches s m := bool_decide (m !! fst s = Some (snd s));
  ConfListFromBytes _ := None;
  NetworkPluginConfFromBytes _ := None;
  yaml_Unmarshal_map _ := None
|}.
