(* ===== verification/Cluster.v ===== *)
(** * The cluster configuration

    cluster.go (the configuration types, their comparison and validation),
    collections.go and constraints.go. *)

From Stdlib Require Import ZArith Ascii String Lia.
From stdpp Require Import base gmap strings list.
From S2P Require Import Prelude GoLib K8s.

(** ** Nodes and service parameters *)

Record Node := mkNode {
  node_Address : string;
  node_Hostname : string;
  node_User : string;
  node_ControlPlane : bool;
  node_Annotations : gmap string string;
  node_Labels : gmap string string;
  node_Taints : list Taint
}.

Definition Nodename (n : Node) : string :=
  if (String.length (node_Hostname n) =? 0)%nat then node_Address n else node_Hostname n.

Record Mount := mkMount {
  mnt_Source : string;
  mnt_Destination : string;
  mnt_ReadOnly : bool;
  mnt_Propagation : string;               (** BindPropagation *)
  mnt_Label : string                      (** SELinuxLabel *)
}.

Definition Mount_Equal (m o : Mount) : bool :=
  (mnt_Source m =? mnt_Source o)%string
  && (mnt_Destination m =? mnt_Destination o)%string
  && Bool.eqb (mnt_ReadOnly m) (mnt_ReadOnly o).

Record ServiceParams := mkServiceParams {
  ExtraArguments : list string;
  ExtraBinds : list Mount;
  ExtraEnvvar : gmap string string
}.

(** The index loops of collections.go after their length check. *)
Fixpoint equal_at {A} (eq : A -> A -> bool) (l1 l2 : list A) : bool :=
  match l1, l2 with
  | x :: l1', y :: l2' => eq x y && equal_at eq l1' l2'
  | _, _ => true
  end.

Definition compareStrings (s1 s2 : list string) : bool :=
  if negb (length s1 =? length s2)%nat then false else equal_at String.eqb s1 s2.

Definition compareMounts (m1 m2 : list Mount) : bool :=
  if negb (length m1 =? length m2)%nat then false else equal_at Mount_Equal m1 m2.

Definition compareStringMap `{Runtime} (m1 m2 : gmap string string) : bool :=
  if negb (size m1 =? size m2)%nat then false
  else forallb (fun '(k, v) =>
         match m2 !! k with Some v2 => (v =? v2)%string | None => false end) (range m1).

Definition ServiceParams_Equal `{Runtime} (s o : ServiceParams) : bool :=
  compareStrings (ExtraArguments s) (ExtraArguments o)
  && compareMounts (ExtraBinds s) (ExtraBinds o)
  && compareStringMap (ExtraEnvvar s) (ExtraEnvvar o).

(** ** Component parameters *)

Record EtcdParams := mkEtcdParams {
  etcd_ServiceParams : ServiceParams;
  VolumeName : string
}.

Record APIServerParams := mkAPIServerParams {
  api_ServiceParams : ServiceParams;
  AuditLogEnabled : bool;
  AuditLogPolicy : string;
  AuditLogPath : string
}.

Record CNIConfFile := mkCNIConfFile { cni_Name : string; cni_Content : string }.

Record SchedulerParams {T : K8sTypes} := mkSchedulerParams {
  sched_ServiceParams : ServiceParams;
  sched_Config : option Unstructured
}.
Arguments mkSchedulerParams {T}.

Record ProxyParams {T : K8sTypes} := mkProxyParams {
  proxy_ServiceParams : ServiceParams;
  proxy_Disable : bool;
  proxy_Config : option Unstructured
}.
Arguments mkProxyParams {T}.

Record KubeletParams {T : K8sTypes} := mkKubeletParams {
  kubelet_ServiceParams : ServiceParams;
  BootTaints : list Taint;
  kubelet_CNIConfFile : CNIConfFile;
  kubelet_Config : option Unstructured;
  CRIEndpoint : string;
  InPlaceUpdate : bool
}.
Arguments mkKubeletParams {T}.

Record Reboot {T : K8sTypes} := mkReboot {
  rb_RebootCommand : list string;
  rb_BootCheckCommand : list string;
  rb_MaxConcurrentReboots : option Z;
  rb_EvictionTimeoutSeconds : option Z;
  rb_CommandTimeoutSeconds : option Z;
  rb_CommandRetries : option Z;
  rb_CommandInterval : option Z;
  rb_EvictRetries : option Z;
  rb_EvictInterval : option Z;
  rb_ProtectedNamespaces : option LabelSelector;
  rb_ProtectedJobPods : option LabelSelector
}.
Arguments mkReboot {T}.
Definition DefaultRebootEvictionTimeoutSeconds : Z := 600.
Definition DefaultMaxConcurrentReboots : Z := 1.

Record RepairStep := mkRepairStep {
  RepairCommand : list string;
  step_CommandTimeoutSeconds : option Z;
  step_CommandRetries : option Z;
  step_CommandInterval : option Z;
  NeedDrain : bool;
  WatchSeconds : option Z
}.

Record RepairOperation := mkRepairOperation {
  rop_Operation : string;
  RepairSteps : list RepairStep;
  HealthCheckCommand : list string;
  rop_CommandTimeoutSeconds : option Z;
  SuccessCommand : list string;
  SuccessCommandTimeout : option Z
}.

Record RepairProcedure := mkRepairProcedure {
  MachineTypes : list string;
  RepairOperations : list RepairOperation
}.

Record Repair {T : K8sTypes} := mkRepair {
  RepairProcedures : list RepairProcedure;
  rp_MaxConcurrentRepairs : option Z;
  rp_ProtectedNamespaces : option LabelSelector;
  rp_EvictRetries : option Z;
  rp_EvictInterval : option Z;
  rp_EvictionTimeoutSeconds : option Z;
  rp_ProtectedJobPods : option LabelSelector
}.
Arguments mkRepair {T}.
Definition DefaultMaxConcurrentRepairs : Z := 1.
Definition DefaultRepairEvictionTimeoutSeconds : Z := 600.

Record TrustedRESTMapping := mkTrustedRESTMapping {
  trm_Group : string;
  trm_Version : string;
  trm_Kind : string;
  trm_Resource : string;
  trm_Namespaced : bool
}.

Record Options {T : K8sTypes} := mkOptions {
  opt_Etcd : EtcdParams;
  opt_Rivers : ServiceParams;
  opt_EtcdRivers : ServiceParams;
  opt_APIServer : APIServerParams;
  opt_ControllerManager : ServiceParams;
  opt_Scheduler : SchedulerParams;
  opt_Proxy : ProxyParams;
  opt_Kubelet : KubeletParams
}.
Arguments mkOptions {T}.

(** The nodes of the source are pointers.  A nil one comes only from a null in a document; [validateNode]
    dereferences it before anything else looks at the nodes, so that it is not represented here. *)
Record Cluster {T : K8sTypes} := mkCluster {
  c_Name : string;
  c_Nodes : list Node;
  c_TaintCP : bool;
  c_CPTolerations : list string;
  c_ServiceSubnet : string;
  c_DNSServers : list string;
  c_DNSService : string;
  c_Reboot : Reboot;
  c_Repair : Repair;
  c_SpareNodeTaintKey : string;           (** Sabakan.SpareNodeTaintKey *)
  c_Options : Options;
  c_TrustedRESTMappings : list TrustedRESTMapping
}.
Arguments mkCluster {T}.

Record Constraints := mkConstraints {
  ControlPlaneCount : Z;
  MinimumWorkersRate : Z;
  RebootMaximumUnreachable : Z;
  MaximumRepairs : Z;
  RepairRebootingSeconds : Z
}.

Global Instance Node_eq_dec : EqDecision Node.
Proof. solve_decision. Defined.
Global Instance Mount_eq_dec : EqDecision Mount.
Proof. solve_decision. Defined.
Global Instance ServiceParams_eq_dec : EqDecision ServiceParams.
Proof. solve_decision. Defined.

(** ** Filters and constraints *)

Definition filterNodes (nodes : list Node) (f : Node -> bool) : list Node :=
  List.filter f nodes.
Definition ControlPlanes (nodes : list Node) : list Node :=
  filterNodes nodes node_ControlPlane.
Definition Workers (nodes : list Node) : list Node :=
  filterNodes nodes (fun n => negb (node_ControlPlane n)).

Definition Constraints_Check {T : K8sTypes} (c : Constraints) (cluster : Cluster)
    : option error :=
  let cpCount := foldl (fun cnt n => if node_ControlPlane n then cnt + 1 else cnt) 0
                   (c_Nodes cluster) in
  if negb (cpCount =? ControlPlaneCount c)
  then Some (ErrUnexpected "number of control planes is not equal to the constraint")
  else None.

Definition DefaultConstraints : Constraints := mkConstraints 1 80 0 0 0.

(** ** Merging component configurations *)
Section merge.
  Context {T : K8sTypes} {K : K8s}.

Definition SchedulerParams_MergeConfig (p : SchedulerParams)
    (base : KubeSchedulerConfiguration) : result KubeSchedulerConfiguration :=
  match sched_Config p with
  | None => Ok base
  | Some u =>
      if negb (GetAPIVersion u =? "kubescheduler.config.k8s.io/v1")%string then
        Err (ErrUnexpected ("unexpected kube-scheduler API version: " +:+ GetAPIVersion u))
      else if negb (GetKind u =? "KubeSchedulerConfiguration")%string then
        Err (ErrUnexpected ("wrong kind for kube-scheduler config: " +:+ GetKind u))
      else
        cfg ← json_scheduler u base;
        Ok (mkKubeSchedulerConfiguration no_type_meta (sc_ClientConnection_Kubeconfig cfg)
              (sc_LeaderElect cfg) (sc_rest cfg))
  end.

Definition ProxyParams_MergeConfig (p : ProxyParams)
    (base : KubeProxyConfiguration) : result KubeProxyConfiguration :=
  match proxy_Config p with
  | None => Ok base
  | Some u =>
      if negb (GetAPIVersion u =? "kubeproxy.config.k8s.io/v1alpha1")%string then
        Err (ErrUnexpected ("unexpected kube-proxy API version: " +:+ GetAPIVersion u))
      else if negb (GetKind u =? "KubeProxyConfiguration")%string then
        Err (ErrUnexpected ("wrong kind for kube-proxy config: " +:+ GetKind u))
      else
        cfg ← json_proxy u base;
        Ok (mkKubeProxyConfiguration no_type_meta (pc_HostnameOverride cfg)
              (pc_MetricsBindAddress cfg) (pc_TCPEstablishedTimeout cfg)
              (pc_TCPCloseWaitTimeout cfg) (pc_Mode cfg)
              (pc_ClientConnection_Kubeconfig cfg) (pc_rest cfg))
  end.

Definition KubeletParams_MergeConfig (p : KubeletParams)
    (base : KubeletConfiguration) : result KubeletConfiguration :=
  match kubelet_Config p with
  | None => Ok base
  | Some u =>
      if negb (GetAPIVersion u =? "kubelet.config.k8s.io/v1beta1")%string then
        Err (ErrUnexpected ("unexpected kubelet API version: " +:+ GetAPIVersion u))
      else if negb (GetKind u =? "KubeletConfiguration")%string then
        Err (ErrUnexpected ("wrong kind for kubelet config: " +:+ GetKind u))
      else
        cfg ← json_kubelet u base;
        Ok (mkKubeletConfiguration no_type_meta (kc_ClusterDomain cfg)
              (kc_RuntimeRequestTimeout cfg) (kc_HealthzBindAddress cfg)
              (kc_VolumePluginDir cfg) (kc_TLSCertFile cfg) (kc_TLSPrivateKeyFile cfg)
              (kc_Authentication cfg) (kc_AuthorizationMode cfg) (kc_ClusterDNS cfg)
              (kc_RegisterWithTaints cfg) (kc_Cgroups cfg) (kc_rest cfg))
  end.

(** A nil [Config] is dereferenced, and the type assertion fails when the
    document has no string [Mode]. *)
Definition GetMode (p : ProxyParams) : go string :=
  u ← deref (proxy_Config p);
  match content_string u "Mode" with
  | None => Panic "interface conversion: interface {} is nil, not string"
  | Some mode => Ret (if (String.length mode =? 0)%nat then "ipvs" else mode)
  end.

Definition ValidateProxyMode (mode : string) : option error :=
  if (mode =? "userspace")%string || (mode =? "iptables")%string || (mode =? "ipvs")%string
  then None
  else Some (ErrUnexpected ("invalid proxy mode " +:+ mode)).
End merge.

(** ** Validation *)
Section validate.
  Context {T : K8sTypes} {K : K8s}.

Definition validateNodeLabels (n : Node) (fldPath : FieldPath) : option error :=
  match ValidateLabels (node_Labels n) fldPath with
  | [] => None
  | el => Some (ToAggregate el)
  end.

Definition validateNodeAnnotations (n : Node) (fldPath : FieldPath) : option error :=
  match ValidateAnnotations (node_Annotations n) fldPath with
  | [] => None
  | el => Some (ToAggregate el)
  end.

Definition validateTaint (taint : Taint) (fldPath : FieldPath) : option error :=
  let el := ValidateLabelName (taint_Key taint) (Child fldPath "key") in
  let el := match IsValidLabelValue (taint_Value taint) with
            | [] => el
            | msgs => el ++ [field_Invalid (Child fldPath "value") (taint_Value taint)
                               (Join msgs ";")]
            end in
  let el := if (taint_Effect taint =? TaintEffectNoSchedule)%string
               || (taint_Effect taint =? TaintEffectPreferNoSchedule)%string
               || (taint_Effect taint =? TaintEffectNoExecute)%string
            then el
            else el ++ [field_Invalid (Child fldPath "effect") (taint_Effect taint)
                          "invalid effect"] in
  match el with [] => None | _ => Some (ToAggregate el) end.

(** [for i, taint := range taints { err := validateTaint(taint, fldPath.Index(i)) ... }] *)
Fixpoint validate_taints_from (i : Z) (taints : list Taint) (fldPath : FieldPath)
    : option error :=
  match taints with
  | [] => None
  | t :: ts => validateTaint t (Index fldPath i) else_nil validate_taints_from (i + 1) ts fldPath
  end.

Definition validateNodeTaints (n : Node) (fldPath : FieldPath) : option error :=
  validate_taints_from 0 (node_Taints n) fldPath.

Fixpoint toleration_errors (i : Z) (keys : list string) (fldPath : FieldPath)
    : list FieldError :=
  match keys with
  | [] => []
  | k :: ks => ValidateLabelName k (Index fldPath i) ++ toleration_errors (i + 1) ks fldPath
  end.

Definition validateTolerationKeys (keys : list string) (fldPath : FieldPath) : option error :=
  match toleration_errors 0 keys fldPath with
  | [] => None
  | el => Some (ToAggregate el)
  end.

Definition validateNode (n : Node) (isTmpl : bool) (fldPath : FieldPath) : option error :=
  (if isTmpl then
     fail_if (negb (String.length (node_Address n) =? 0)%nat)
       ("address is not empty: " +:+ node_Address n)
   else
     fail_if (match ParseIP (node_Address n) with None => true | _ => false end)
       ("invalid IP address: " +:+ node_Address n))
  else_nil fail_if (String.length (node_User n) =? 0)%nat "user name is empty"
  else_nil validateNodeLabels n (Child fldPath "labels")
  else_nil validateNodeAnnotations n (Child fldPath "annotations")
  else_nil validateNodeTaints n (Child fldPath "taints").

(** The loop over the nodes; [nodeAddressSet] has the addresses seen so far
    and stays empty for a template. *)
Fixpoint validate_nodes_from (i : Z) (isTmpl : bool) (nodeAddressSet : gset string)
    (nodes : list Node) (fldPath : FieldPath) : option error :=
  match nodes with
  | [] => None
  | n :: ns =>
      validateNode n isTmpl (Index fldPath i)
      else_nil fail_if (bool_decide (node_Address n ∈ nodeAddressSet))
        ("duplicate node address: " +:+ node_Address n)
      else_nil validate_nodes_from (i + 1) isTmpl
        (if isTmpl then nodeAddressSet else {[ node_Address n ]} ∪ nodeAddressSet) ns fldPath
  end.

Definition mapping_key (m : TrustedRESTMapping) : string :=
  trm_Group m +:+ "/" +:+ trm_Version m +:+ "/" +:+ trm_Kind m.

Fixpoint validate_mappings_from (i : Z) (seen : gset string)
    (mappings : list TrustedRESTMapping) : option error :=
  match mappings with
  | [] => None
  | m :: ms =>
      let prefix := "trusted_rest_mappings[" +:+ FormatInt i +:+ "]: " in
      fail_if (String.length (trm_Version m) =? 0)%nat (prefix +:+ "version is empty")
      else_nil fail_if (String.length (trm_Kind m) =? 0)%nat (prefix +:+ "kind is empty")
      else_nil fail_if (String.length (trm_Resource m) =? 0)%nat (prefix +:+ "resource is empty")
      else_nil fail_if (bool_decide (mapping_key m ∈ seen))
        (prefix +:+ "duplicate mapping for " +:+ mapping_key m)
      else_nil validate_mappings_from (i + 1) ({[ mapping_key m ]} ∪ seen) ms
  end.
Definition validateTrustedRESTMappings (mappings : list TrustedRESTMapping) : option error :=
  validate_mappings_from 0 ∅ mappings.

(** [p != nil && *p < bound] *)
Definition set_and_lt (p : option Z) (bound : Z) : bool :=
  match p with Some v => v <? bound | None => false end.
Definition set_and_le (p : option Z) (bound : Z) : bool :=
  match p with Some v => v <=? bound | None => false end.

(** [fmt.Errorf("invalid label selector: %w", err)] *)
Definition selector_error (r : result Selector) : option error :=
  match r with
  | Ok _ => None
  | Err (ErrUnexpected m) => Some (ErrUnexpected ("invalid label selector: " +:+ m))
  | Err _ => Some (ErrUnexpected "invalid label selector")
  end.

Definition validateReboot (reboot : Reboot) : option error :=
  fail_if (set_and_le (rb_EvictionTimeoutSeconds reboot) 0)
    "eviction_timeout_seconds must be positive"
  else_nil fail_if (set_and_lt (rb_CommandTimeoutSeconds reboot) 0)
    "command_timeout_seconds must not be negative"
  else_nil fail_if (set_and_lt (rb_CommandRetries reboot) 0)
    "command_retries must not be negative"
  else_nil fail_if (set_and_lt (rb_CommandInterval reboot) 0)
    "command_interval must not be negative"
  else_nil fail_if (set_and_lt (rb_EvictRetries reboot) 0)
    "evict_retries must not be negative"
  else_nil fail_if (set_and_lt (rb_EvictInterval reboot) 0)
    "evict_interval must not be negative"
  else_nil fail_if (set_and_le (rb_MaxConcurrentReboots reboot) 0)
    "max_concurrent_reboots must be positive"
  else_nil selector_error (LabelSelectorAsSelector (rb_ProtectedNamespaces reboot))
  else_nil selector_error (LabelSelectorAsSelector (rb_ProtectedJobPods reboot)).

Definition validateRepair (repair : Repair) : option error :=
  fail_if (set_and_le (rp_MaxConcurrentRepairs repair) 0)
    "max_concurrent_repairs must be positive"
  else_nil fail_if (set_and_lt (rp_EvictRetries repair) 0)
    "evict_retries must not be negative"
  else_nil fail_if (set_and_lt (rp_EvictInterval repair) 0)
    "evict_interval must not be negative"
  else_nil fail_if (set_and_le (rp_EvictionTimeoutSeconds repair) 0)
    "eviction_timeout_seconds must be positive"
  else_nil selector_error (LabelSelectorAsSelector (rp_ProtectedNamespaces repair))
  else_nil selector_error (LabelSelectorAsSelector (rp_ProtectedJobPods repair)).

(** The closure [v] of [validateOptions]. *)
Definition validate_binds (binds : list Mount) : option error :=
  for_each (fun m =>
    fail_if (negb (IsAbs (mnt_Source m))) ("source path must be absolute: " +:+ mnt_Source m)
    else_nil fail_if (negb (IsAbs (mnt_Destination m)))
      ("destination path must be absolute: " +:+ mnt_Destination m)) binds.

Definition error_of {A} (r : result A) : option error :=
  match r with Ok _ => None | Err e => Some e end.

Definition validate_cni (f : CNIConfFile) : option error :=
  fail_if (negb (String.length (cni_Content f) =? 0)%nat && (String.length (cni_Name f) =? 0)%nat)
    "kubelet.cni_conf_file.name should not be empty when kubelet.cni_conf_file.content is not empty"
  else_nil
  (if (String.length (cni_Name f) =? 0)%nat then None
   else
     fail_if (negb (match_filename (cni_Name f))) (cni_Name f +:+ " is invalid as file name")
     else_nil (if (Ext (cni_Name f) =? ".conflist")%string
               then ConfListFromBytes (cni_Content f)
               else NetworkPluginConfFromBytes (cni_Content f))).

Definition validateOptions (opts : Options) : option error :=
  let kubelet := opt_Kubelet opts in
  validate_binds (ExtraBinds (etcd_ServiceParams (opt_Etcd opts)))
  else_nil validate_binds (ExtraBinds (api_ServiceParams (opt_APIServer opts)))
  else_nil validate_binds (ExtraBinds (opt_ControllerManager opts))
  else_nil validate_binds (ExtraBinds (sched_ServiceParams (opt_Scheduler opts)))
  else_nil validate_binds (ExtraBinds (proxy_ServiceParams (opt_Proxy opts)))
  else_nil validate_binds (ExtraBinds (kubelet_ServiceParams kubelet))
  else_nil
  match KubeletParams_MergeConfig kubelet zero_KubeletConfiguration with
  | Err e => Some e
  | Ok kubeletConfig =>
      let fldPath := NewPath ["options"; "kubelet"] in
      (if (0 <? String.length (kc_ClusterDomain kubeletConfig))%nat then
         match IsDNS1123Subdomain (kc_ClusterDomain kubeletConfig) with
         | [] => None
         | msgs => Some (field_Error (field_Invalid (Child fldPath "domain")
                           (kc_ClusterDomain kubeletConfig) (Join msgs ";")))
         end
       else None)
      else_nil fail_if (String.length (CRIEndpoint kubelet) =? 0)%nat
        "kubelet.cri_endpoint should not be empty"
      else_nil validate_cni (kubelet_CNIConfFile kubelet)
      else_nil validate_taints_from 0 (BootTaints kubelet) (Child fldPath "boot_taints")
      else_nil fail_if (AuditLogEnabled (opt_APIServer opts)
                        && (String.length (AuditLogPolicy (opt_APIServer opts)) =? 0)%nat)
        "audit_log_policy should not be empty"
      else_nil (if (String.length (AuditLogPolicy (opt_APIServer opts)) =? 0)%nat then None
                else yaml_Unmarshal_map (AuditLogPolicy (opt_APIServer opts)))
      else_nil error_of (SchedulerParams_MergeConfig (opt_Scheduler opts)
                           zero_KubeSchedulerConfiguration)
      else_nil
      match ProxyParams_MergeConfig (opt_Proxy opts) zero_KubeProxyConfiguration with
      | Err e => Some e
      | Ok p => if (String.length (pc_Mode p) =? 0)%nat then None
                else ValidateProxyMode (pc_Mode p)
      end
  end.

Definition Validate (c : Cluster) (isTmpl : bool) : option error :=
  fail_if (String.length (c_Name c) =? 0)%nat "cluster name is empty"
  else_nil fail_if (match ParseCIDR (c_ServiceSubnet c) with None => true | _ => false end)
    ("invalid CIDR address: " +:+ c_ServiceSubnet c)
  else_nil validate_nodes_from 0 isTmpl ∅ (c_Nodes c) (NewPath ["nodes"])
  else_nil validateTolerationKeys (c_CPTolerations c) (NewPath ["control_plane_tolerations"])
  else_nil for_each (fun a =>
      fail_if (match ParseIP a with None => true | _ => false end) ("invalid IP address: " +:+ a))
    (c_DNSServers c)
  else_nil fail_if ((0 <? String.length (c_DNSService c))%nat
                    && negb (length (Split (c_DNSService c) "/") =? 2)%nat)
    ("invalid DNS service (no namespace?): " +:+ c_DNSService c)
  else_nil validateReboot (c_Reboot c)
  else_nil validateRepair (c_Repair c)
  else_nil validateOptions (c_Options c)
  else_nil validateTrustedRESTMappings (c_TrustedRESTMappings c).
End validate.

(** ** Comparison of service parameters *)

(** What [Mount_Equal] compares. *)
Definition same_mount (m o : Mount) : Prop :=
  mnt_Source m = mnt_Source o /\ mnt_Destination m = mnt_Destination o
  /\ mnt_ReadOnly m = mnt_ReadOnly o.

Lemma Mount_Equal_spec m o : Mount_Equal m o = true <-> same_mount m o.
Proof.
  unfold Mount_Equal, same_mount. rewrite !andb_true_iff, !String.eqb_eq, Bool.eqb_true_iff.
  intuition.
Qed.

Lemma equal_at_spec {A} (eq : A -> A -> bool) l1 l2 :
  length l1 = length l2 ->
  equal_at eq l1 l2 = true <-> Forall2 (fun x y => eq x y = true) l1 l2.
Proof.
  revert l2. induction l1 as [|x l1 IH]; intros [|y l2]; simpl; intros Hl; try done.
  rewrite andb_true_iff, IH by lia. by rewrite Forall2_cons.
Qed.

Lemma compareStrings_spec s1 s2 : compareStrings s1 s2 = true <-> s1 = s2.
Proof.
  unfold compareStrings. destruct (Nat.eqb_spec (length s1) (length s2)) as [Hl|Hl]; simpl.
  - rewrite equal_at_spec by done. split.
    + induction 1 as [|x y l1 l2 Hxy _ IH]; [done|]. apply String.eqb_eq in Hxy as ->.
      f_equal. apply IH. simpl in Hl. lia.
    + intros ->. by apply Forall2_same_length_lookup_2; [|intros i x y; rewrite String.eqb_eq; congruence].
  - split; [done|]. by intros ->.
Qed.

Lemma compareMounts_spec m1 m2 : compareMounts m1 m2 = true <-> Forall2 same_mount m1 m2.
Proof.
  unfold compareMounts. destruct (Nat.eqb_spec (length m1) (length m2)) as [Hl|Hl]; simpl.
  - rewrite equal_at_spec by done.
    split; intros Hf; (eapply Forall2_impl; [exact Hf|]); intros x y; apply Mount_Equal_spec.
  - split; [done|]. intros ?%Forall2_length. done.
Qed.

(** The map comparison does not depend on the iteration order: equal sizes
    and one inclusion give equal maps. *)
Lemma compareStringMap_spec `{Runtime} (m1 m2 : gmap string string) :
  compareStringMap m1 m2 = true <-> m1 = m2.
Proof.
  unfold compareStringMap. destruct (Nat.eqb_spec (size m1) (size m2)) as [Hs|Hs]; simpl;
    [|split; [done|by intros ->]].
  rewrite forallb_elem_of. split.
  - intros Hall. assert (Hsub : m1 ⊆ m2).
    { apply map_subseteq_spec. intros k v Hk. apply elem_of_range in Hk.
      apply Hall in Hk. destruct (m2 !! k) as [v2|]; [|done]. by apply String.eqb_eq in Hk as ->. }
    destruct (decide (m1 = m2)) as [|Hne]; [done|]. exfalso.
    assert (Hstrict : m1 ⊂ m2).
    { split; [done|]. intros Hsup. apply Hne. by apply (anti_symm (⊆)). }
    apply map_subset_size in Hstrict. lia.
  - intros -> [k v] Hk. apply elem_of_range in Hk. rewrite Hk. by rewrite String.eqb_refl.
Qed.

Lemma ServiceParams_Equal_iff `{Runtime} s o :
  ServiceParams_Equal s o = true <->
  ExtraArguments s = ExtraArguments o
  /\ Forall2 same_mount (ExtraBinds s) (ExtraBinds o)
  /\ ExtraEnvvar s = ExtraEnvvar o.
Proof.
  unfold ServiceParams_Equal.
  rewrite !andb_true_iff, compareStrings_spec, compareMounts_spec, compareStringMap_spec.
  intuition.
Qed.

Global Instance same_mount_equiv : Equivalence same_mount.
Proof. split; unfold same_mount; [intros x|intros x y|intros x y z]; intuition congruence. Qed.

(** [Equal] as a relation on parameters: the equivalence under which a running
    service counts as up to date. *)
Definition same_params `{Runtime} (s o : ServiceParams) : Prop :=
  ServiceParams_Equal s o = true.

Global Instance same_params_equiv `{Runtime} : Equivalence same_params.
Proof.
  split; unfold same_params; [intros x|intros x y|intros x y z];
    rewrite !ServiceParams_Equal_iff.
  - split_and!; done.
  - intros (-> & H2 & ->). split_and!; [done| |done]. by symmetry.
  - intros (-> & H2 & ->) (-> & H4 & ->). split_and!; [done| |done]. by etrans.
Qed.

Lemma ServiceParams_Equal_refl `{Runtime} s : ServiceParams_Equal s s = true.
Proof. change (same_params s s). reflexivity. Qed.
#[export] Hint Resolve ServiceParams_Equal_refl : cke.

(** ** What validation guarantees *)
Section validated.
  Context {T : K8sTypes} {K : K8s}.

(** The facts about a validated configuration the rest of the program relies
    on. *)
Record valid_cluster (c : Cluster) : Prop := {
  vc_addresses : NoDup (node_Address <$> c_Nodes c);
  vc_ips : Forall (fun n => is_Some (ParseIP (node_Address n))) (c_Nodes c);
  vc_users : Forall (fun n => node_User n <> "") (c_Nodes c);
  vc_kubelet : forall base, is_ok (KubeletParams_MergeConfig (opt_Kubelet (c_Options c)) base) = true;
  vc_scheduler : forall base, is_ok (SchedulerParams_MergeConfig (opt_Scheduler (c_Options c)) base) = true;
  vc_proxy : forall base, is_ok (ProxyParams_MergeConfig (opt_Proxy (c_Options c)) base) = true;
  vc_repairs : forall m, rp_MaxConcurrentRepairs (c_Repair c) = Some m -> 0 < m;
  vc_reboots : forall m, rb_MaxConcurrentReboots (c_Reboot c) = Some m -> 0 < m;
  vc_mappings : NoDup ((fun m => (trm_Group m, trm_Version m, trm_Kind m)) <$> c_TrustedRESTMappings c);
  vc_dns : c_DNSService c <> "" -> exists ns name, Split (c_DNSService c) "/" = [ns; name]
}.

Lemma length_0_iff s : (String.length s =? 0)%nat = true <-> s = ""%string.
Proof. rewrite Nat.eqb_eq. destruct s; simpl; split; done. Qed.

Lemma validate_nodes_from_ok i seen nodes path :
  validate_nodes_from i false seen nodes path = None ->
  NoDup (node_Address <$> nodes)
  /\ (forall n, n ∈ nodes -> node_Address n ∉ seen)
  /\ Forall (fun n => is_Some (ParseIP (node_Address n)) /\ node_User n <> "") nodes.
Proof.
  revert i seen. induction nodes as [|n nodes IH]; intros i seen; simpl.
  { intros _. split_and!; [constructor|set_solver|constructor]. }
  rewrite !and_then_None, !fail_if_None. intros (Hn & Hseen & (Hnd & Hout & Hall)%IH).
  unfold validateNode in Hn. rewrite !and_then_None, !fail_if_None in Hn.
  destruct Hn as (Hip & Huser & _). bool_hyps. split_and!.
  - constructor; [|done]. rewrite list_elem_of_fmap. intros (n' & Heq & Hin).
    apply (Hout n'); [done|]. set_solver.
  - intros n' [->|Hin]%elem_of_cons; [done|]. pose proof (Hout n' Hin). set_solver.
  - constructor; [|done]. split; [by destruct (ParseIP (node_Address n))|].
    intros Hu%length_0_iff. congruence.
Qed.

(** [mapping_key] is not injective (a group may contain a slash), so two equal
    triples are excluded, and more than those. *)
Lemma validate_mappings_from_ok i seen ms :
  validate_mappings_from i seen ms = None ->
  NoDup (mapping_key <$> ms) /\ (forall m, m ∈ ms -> mapping_key m ∉ seen).
Proof.
  revert i seen. induction ms as [|m ms IH]; intros i seen; simpl.
  { intros _. split; [constructor|set_solver]. }
  rewrite !and_then_None, !fail_if_None. intros (_ & _ & _ & Hseen & (Hnd & Hout)%IH).
  bool_hyps. split.
  - constructor; [|done]. rewrite list_elem_of_fmap. intros (m' & Heq & Hin).
    apply (Hout m'); [done|]. set_solver.
  - intros m' [->|Hin]%elem_of_cons; [done|]. pose proof (Hout m' Hin). set_solver.
Qed.

Lemma merge_kubelet_ok p b1 b2 :
  is_ok (KubeletParams_MergeConfig p b1) = is_ok (KubeletParams_MergeConfig p b2).
Proof.
  unfold KubeletParams_MergeConfig. destruct (kubelet_Config p) as [u|]; [|done].
  do 2 (case_match; [done|]). pose proof (json_kubelet_ok u b1 b2).
  by destruct (json_kubelet u b1), (json_kubelet u b2).
Qed.

Lemma merge_scheduler_ok p b1 b2 :
  is_ok (SchedulerParams_MergeConfig p b1) = is_ok (SchedulerParams_MergeConfig p b2).
Proof.
  unfold SchedulerParams_MergeConfig. destruct (sched_Config p) as [u|]; [|done].
  do 2 (case_match; [done|]). pose proof (json_scheduler_ok u b1 b2).
  by destruct (json_scheduler u b1), (json_scheduler u b2).
Qed.

Lemma merge_proxy_ok p b1 b2 :
  is_ok (ProxyParams_MergeConfig p b1) = is_ok (ProxyParams_MergeConfig p b2).
Proof.
  unfold ProxyParams_MergeConfig. destruct (proxy_Config p) as [u|]; [|done].
  do 2 (case_match; [done|]). pose proof (json_proxy_ok u b1 b2).
  by destruct (json_proxy u b1), (json_proxy u b2).
Qed.

Lemma validateOptions_ok opts :
  validateOptions opts = None ->
  is_ok (KubeletParams_MergeConfig (opt_Kubelet opts) zero_KubeletConfiguration) = true
  /\ is_ok (SchedulerParams_MergeConfig (opt_Scheduler opts) zero_KubeSchedulerConfiguration) = true
  /\ is_ok (ProxyParams_MergeConfig (opt_Proxy opts) zero_KubeProxyConfiguration) = true.
Proof.
  unfold validateOptions. rewrite !and_then_None. intros (_ & _ & _ & _ & _ & _ & H).
  destruct (KubeletParams_MergeConfig _ _); [|done].
  rewrite !and_then_None in H. destruct H as (_ & _ & _ & _ & _ & _ & Hs & Hp).
  split_and!; [done| |].
  - by destruct (SchedulerParams_MergeConfig _ _).
  - by destruct (ProxyParams_MergeConfig _ _).
Qed.

Lemma split_two {A} (l : list A) : (length l =? 2)%nat = true -> exists a b, l = [a; b].
Proof. destruct l as [|a [|b [|c l]]]; simpl; try done. eauto. Qed.

Lemma set_and_le_pos p m : set_and_le p 0 = false -> p = Some m -> 0 < m.
Proof. intros H ->. simpl in H. lia. Qed.

Lemma Validate_ok c : Validate c false = None -> valid_cluster c.
Proof.
  unfold Validate. rewrite !and_then_None, !fail_if_None, for_each_None.
  intros (_ & _ & Hnodes & _ & _ & Hdns & Hrb & Hrp & Hopts & Hmap).
  apply validate_nodes_from_ok in Hnodes as (Hnd & _ & Hall).
  apply Forall_and in Hall as [Hips Husers].
  apply validateOptions_ok in Hopts as (Hk & Hs & Hp).
  apply validate_mappings_from_ok in Hmap as [Hmap _].
  unfold validateReboot, validateRepair in *.
  rewrite !and_then_None, !fail_if_None in Hrb. rewrite !and_then_None, !fail_if_None in Hrp.
  destruct Hrb as (_ & _ & _ & _ & _ & _ & Hrb & _). destruct Hrp as (Hrp & _).
  split; try done.
  - intros base. by rewrite (merge_kubelet_ok _ _ zero_KubeletConfiguration).
  - intros base. by rewrite (merge_scheduler_ok _ _ zero_KubeSchedulerConfiguration).
  - intros base. by rewrite (merge_proxy_ok _ _ zero_KubeProxyConfiguration).
  - intros m. by apply set_and_le_pos.
  - intros m. by apply set_and_le_pos.
  - apply (NoDup_fmap_1 (fun '(g, v, k) => g +:+ "/" +:+ v +:+ "/" +:+ k)).
    by rewrite <- list_fmap_compose.
  - intros Hne. apply split_two. destruct (length (Split _ _) =? 2)%nat; [done|].
    rewrite andb_true_r in Hdns. by destruct (c_DNSService c).
Qed.
End validated.

(** ** A sample configuration, valid for the sample library *)
Definition no_params : ServiceParams := mkServiceParams [] [] ∅.

Definition sample_node (addr : string) (cp : bool) : Node :=
  mkNode addr "" "cybozu" cp ∅ ∅ [].

Definition sample_step : RepairStep := mkRepairStep ["power-cycle"] None None None false (Some 600).
Definition sample_drain_step : RepairStep := mkRepairStep ["reset"] None None None true None.
Definition sample_procedure : RepairProcedure :=
  mkRepairProcedure ["server"]
    [mkRepairOperation "unreachable" [sample_step; sample_drain_step] ["check"] None [] None].

Definition sample_options : @Options sample_types :=
  @mkOptions sample_types (mkEtcdParams no_params "") no_params no_params
    (mkAPIServerParams no_params false "" "") no_params
    (@mkSchedulerParams sample_types no_params None)
    (@mkProxyParams sample_types no_params false None)
    (@mkKubeletParams sample_types no_params [] (mkCNIConfFile "" "") None "/run/k8s.sock" true).

Definition sample_reboot_conf : @Reboot sample_types :=
  @mkReboot sample_types ["reboot"] ["boot-check"] None None None None None None None None None.

Definition sample_repair_conf (max : option Z) : @Repair sample_types :=
  @mkRepair sample_types [sample_procedure] max None None None None None.

Definition sample_cluster (nodes : list Node) (maxRepairs : option Z) : @Cluster sample_types :=
  @mkCluster sample_types "tokyo" nodes true [] "10.68.0.0/16" ["8.8.8.8"] ""
    sample_reboot_conf (sample_repair_conf maxRepairs) "" sample_options [].

Definition sample_nodes : list Node :=
  [sample_node "10.0.0.11" true; sample_node "10.0.0.12" true; sample_node "10.0.0.13" true;
   sample_node "10.0.0.101" false; sample_node "10.0.0.102" false].

(** ** Properties *)

(** C39: a configuration that passes [Validate] has distinct node addresses
    that parse as IP addresses, a user on every node, component configurations
    that can be merged over any base (so the panics of the configuration
    generators are unreachable), positive concurrency limits, at most one
    trusted REST mapping per group, version and kind, and a DNS service name
    of the form namespace/name. *)
Theorem validate_sound {T : K8sTypes} {K : K8s} (c : Cluster)
    (H : Validate c false = None) : valid_cluster c.
Proof. by apply Validate_ok. Qed.

Lemma validate_sound_witness :
  @Validate sample_types sample_k8s (sample_cluster sample_nodes (Some 2)) false = None
  /\ @valid_cluster sample_types sample_k8s (sample_cluster sample_nodes (Some 2)).
Proof.
  split; [vm_compute; reflexivity|].
  apply (@validate_sound sample_types sample_k8s). vm_compute. reflexivity.
Defined.

(** C38: Two sets of service parameters are equal for CKE exactly when the
    arguments are the same in the same order, the binds agree pairwise on
    source, destination and read-only flag, and the environments are the same
    map, whatever order the maps are iterated in. *)
Theorem service_params_equal_spec `{Runtime} (s o : ServiceParams) :
  ServiceParams_Equal s o = true <->
  ExtraArguments s = ExtraArguments o
  /\ Forall2 same_mount (ExtraBinds s) (ExtraBinds o)
  /\ ExtraEnvvar s = ExtraEnvvar o.
Proof. apply ServiceParams_Equal_iff. Qed.

(** A change of the propagation or of the SELinux label of a bind alone is not
    a change for [ServiceParams_Equal]. *)
Theorem propagation_change_is_equal `{Runtime} :
  exists s o, ServiceParams_Equal s o = true
    /\ (mnt_Propagation <$> ExtraBinds s) <> (mnt_Propagation <$> ExtraBinds o)
    /\ (mnt_Label <$> ExtraBinds s) <> (mnt_Label <$> ExtraBinds o).
Proof.
  exists (mkServiceParams [] [mkMount "/a" "/b" false "rshared" "z"] ∅),
         (mkServiceParams [] [mkMount "/a" "/b" false "" ""] ∅).
  split_and!; [|done|done]. apply ServiceParams_Equal_iff.
  split_and!; [done| |done]. repeat constructor.
Qed.
