(* ===== verification/Queue.v ===== *)
(** * Queue entries

    reboot.go and repair.go: the entries of the reboot and the repair queue
    and the functions that inspect them.  Statuses are strings in the source
    (they are read back from JSON), and so they are here. *)

From Stdlib Require Import ZArith String Lia.
From stdpp Require Import base gmap strings list.
From S2P Require Import Prelude GoLib K8s Cluster.

(** Instants are nanoseconds since the Unix epoch; this is Go's zero
    [time.Time], January 1, year 1. *)
Definition zero_time : Z := -62135596800 * 10 ^ 9.

(** [time.Duration(s) * time.Second] *)
Definition seconds (s : Z) : Z := mul64 s (10 ^ 9).

(** ** Reboot queue *)
Definition RebootStatusQueued : string := "queued".
Definition RebootStatusDraining : string := "draining".
Definition RebootStatusRebooting : string := "rebooting".
Definition RebootStatusCancelled : string := "cancelled".
Definition rebootStatuses : list string :=
  [RebootStatusQueued; RebootStatusDraining; RebootStatusRebooting; RebootStatusCancelled].

Record RebootQueueEntry := mkRebootQueueEntry {
  rqe_Index : Z;
  rqe_Node : string;
  rqe_Status : string;
  rqe_LastTransitionTime : Z;
  rqe_DrainBackOffCount : Z;
  rqe_DrainBackOffExpire : Z
}.

Definition NewRebootQueueEntry (node : string) : RebootQueueEntry :=
  mkRebootQueueEntry 0 node RebootStatusQueued zero_time 0 zero_time.

Definition ClusterMember {T : K8sTypes} (entry : RebootQueueEntry) (c : Cluster) : bool :=
  existsb (fun clusterNode => (rqe_Node entry =? node_Address clusterNode)%string) (c_Nodes c).

(** The loop of [DedupRebootQueueEntries]; [nodes] has the nodes seen. *)
Fixpoint dedup_from (nodes : gset string) (entries : list RebootQueueEntry)
    : list RebootQueueEntry :=
  match entries with
  | [] => []
  | entry :: rest =>
      if bool_decide (rqe_Node entry ∈ nodes) then dedup_from nodes rest
      else entry :: dedup_from ({[ rqe_Node entry ]} ∪ nodes) rest
  end.
Definition DedupRebootQueueEntries (entries : list RebootQueueEntry) : list RebootQueueEntry :=
  dedup_from ∅ entries.

(** [ret[key]++]: a missing key counts from zero. *)
Definition incr (key : string) (m : gmap string Z) : gmap string Z :=
  <[ key := add64 (default 0 (m !! key)) 1 ]> m.

Definition CountRebootQueueEntries (entries : list RebootQueueEntry) : gmap string Z :=
  let ret := foldl (fun m status => <[ status := 0 ]> m) ∅ rebootStatuses in
  foldl (fun m entry => incr (rqe_Status entry) m) ret entries.

(** [ret[name][status] = b], where [ret[name]] exists. *)
Definition set_flag (name status : string) (b : bool)
    (m : gmap string (gmap string bool)) : gmap string (gmap string bool) :=
  <[ name := <[ status := b ]> (default ∅ (m !! name)) ]> m.

Definition init_flags (statuses : list string) : gmap string bool :=
  foldl (fun m status => <[ status := false ]> m) ∅ statuses.

Definition BuildNodeRebootStatus (nodes : list Node) (entries : list RebootQueueEntry)
    : gmap string (gmap string bool) :=
  let '(ret, addr2name) :=
    foldl (fun '(ret, addr2name) node =>
             (<[ Nodename node := init_flags rebootStatuses ]> ret,
              <[ node_Address node := Nodename node ]> addr2name))
      (∅, ∅ : gmap string string) nodes in
  foldl (fun ret entry =>
           match addr2name !! rqe_Node entry with
           | None => ret
           | Some name => set_flag name (rqe_Status entry) true ret
           end) ret entries.

(** ** Repair queue *)
Definition RepairStatusQueued : string := "queued".
Definition RepairStatusProcessing : string := "processing".
Definition RepairStatusSucceeded : string := "succeeded".
Definition RepairStatusFailed : string := "failed".
Definition repairStatuses : list string :=
  [RepairStatusQueued; RepairStatusProcessing; RepairStatusSucceeded; RepairStatusFailed].
Definition RepairStepStatusWaiting : string := "waiting".
Definition RepairStepStatusDraining : string := "draining".
Definition RepairStepStatusWatching : string := "watching".

Record RepairQueueEntry := mkRepairQueueEntry {
  rpe_Index : Z;
  rpe_Address : string;
  rpe_Nodename : string;
  rpe_Serial : string;
  rpe_MachineType : string;
  rpe_Operation : string;
  rpe_Status : string;
  rpe_Step : Z;
  rpe_StepStatus : string;
  rpe_Deleted : bool;
  rpe_LastTransitionTime : Z;
  rpe_DrainBackOffCount : Z;
  rpe_DrainBackOffExpire : Z
}.

Definition NewRepairQueueEntry (operation machineType address serial : string)
    : RepairQueueEntry :=
  mkRepairQueueEntry 0 address "" serial machineType operation RepairStatusQueued 0
    RepairStepStatusWaiting false zero_time 0 zero_time.

Definition set_Nodename (e : RepairQueueEntry) (name : string) : RepairQueueEntry :=
  mkRepairQueueEntry (rpe_Index e) (rpe_Address e) name (rpe_Serial e) (rpe_MachineType e)
    (rpe_Operation e) (rpe_Status e) (rpe_Step e) (rpe_StepStatus e) (rpe_Deleted e)
    (rpe_LastTransitionTime e) (rpe_DrainBackOffCount e) (rpe_DrainBackOffExpire e).

(** The first node with the address gives the name; none gives [""]. *)
Definition FillNodename {T : K8sTypes} (entry : RepairQueueEntry) (cluster : Cluster)
    : RepairQueueEntry :=
  match List.find (fun node => (node_Address node =? rpe_Address entry)%string)
          (c_Nodes cluster) with
  | Some node => set_Nodename entry (Nodename node)
  | None => set_Nodename entry ""
  end.

Definition IsInCluster (entry : RepairQueueEntry) : bool :=
  negb (rpe_Nodename entry =? "")%string.

Definition HasFinished (entry : RepairQueueEntry) : bool :=
  (rpe_Status entry =? RepairStatusSucceeded)%string
  || (rpe_Status entry =? RepairStatusFailed)%string.

Definition getMatchingRepairProcedure {T : K8sTypes} (entry : RepairQueueEntry)
    (cluster : Cluster) : result RepairProcedure :=
  match List.find (fun proc => Contains (MachineTypes proc) (rpe_MachineType entry))
          (RepairProcedures (c_Repair cluster)) with
  | Some proc => Ok proc
  | None => Err ErrRepairProcedureNotFound
  end.

Definition GetMatchingRepairOperation {T : K8sTypes} (entry : RepairQueueEntry)
    (cluster : Cluster) : result RepairOperation :=
  proc ← getMatchingRepairProcedure entry cluster;
  match List.find (fun op => (rop_Operation op =? rpe_Operation entry)%string)
          (RepairOperations proc) with
  | Some op => Ok op
  | None => Err ErrRepairOperationNotFound
  end.

(** Indexing with a negative step panics. *)
Definition GetCurrentRepairStep {T : K8sTypes} (entry : RepairQueueEntry)
    (cluster : Cluster) : go (result RepairStep) :=
  match GetMatchingRepairOperation entry cluster with
  | Err e => Ret (Err e)
  | Ok op =>
      if len (RepairSteps op) <=? rpe_Step entry then Ret (Err ErrRepairStepOutOfRange)
      else step ← index (RepairSteps op) (rpe_Step entry); Ret (Ok step)
  end.

Definition CountRepairQueueEntries (entries : list RepairQueueEntry) : gmap string Z :=
  let ret := foldl (fun m status => <[ status := 0 ]> m) ∅ repairStatuses in
  foldl (fun m entry => incr (rpe_Status entry) m) ret entries.

Definition BuildMachineRepairStatus (nodes : list Node) (entries : list RepairQueueEntry)
    : gmap string (gmap string bool) :=
  let ret := foldl (fun (ret : gmap string (gmap string bool)) node =>
                      <[ node_Address node := ∅ ]> ret) ∅ nodes in
  let ret := foldl (fun ret entry =>
                      match ret !! rpe_Address entry with
                      | Some _ => ret
                      | None => <[ rpe_Address entry := ∅ ]> ret
                      end) ret entries in
  let ret := (fun flags => foldl (fun m status => <[ status := false ]> m) flags repairStatuses)
               <$> ret in
  foldl (fun ret entry => set_flag (rpe_Address entry) (rpe_Status entry) true ret) ret entries.

Global Instance RebootQueueEntry_eq_dec : EqDecision RebootQueueEntry.
Proof. solve_decision. Defined.
Global Instance RepairQueueEntry_eq_dec : EqDecision RepairQueueEntry.
Proof. solve_decision. Defined.

(** ** Deduplication *)

Lemma dedup_from_sublist seen es : dedup_from seen es `sublist_of` es.
Proof.
  revert seen. induction es as [|e es IH]; intros seen; simpl; [constructor|].
  case_bool_decide; by constructor.
Qed.

Lemma dedup_from_fresh seen es e : e ∈ dedup_from seen es -> rqe_Node e ∉ seen.
Proof.
  revert seen. induction es as [|e' es IH]; intros seen; simpl; [set_solver|].
  case_bool_decide; [apply IH|]. intros [->|Hin]%elem_of_cons; [done|].
  apply IH in Hin. set_solver.
Qed.

Lemma dedup_from_NoDup seen es : NoDup (rqe_Node <$> dedup_from seen es).
Proof.
  revert seen. induction es as [|e es IH]; intros seen; simpl; [constructor|].
  case_bool_decide; [apply IH|]. simpl. constructor; [|apply IH].
  rewrite list_elem_of_fmap. intros (e' & Heq & Hin%dedup_from_fresh). set_solver.
Qed.

Definition has_node (n : string) (e : RebootQueueEntry) : bool := (rqe_Node e =? n)%string.

Lemma dedup_from_find seen es n :
  n ∉ seen -> List.find (has_node n) (dedup_from seen es) = List.find (has_node n) es.
Proof.
  revert seen. induction es as [|e es IH]; intros seen Hn; simpl; [done|].
  unfold has_node at 2. destruct (String.eqb_spec (rqe_Node e) n) as [<-|Hne].
  - rewrite bool_decide_false by done. simpl. unfold has_node at 1. by rewrite String.eqb_refl.
  - case_bool_decide; [by apply IH|]. simpl. unfold has_node at 1.
    apply String.eqb_neq in Hne as Hb. rewrite Hb. apply IH. set_solver.
Qed.

(** ** Counting by status *)

(** The number of entries with a status. *)
Definition count_status {A} (st : A -> string) (s : string) (es : list A) : Z :=
  len (List.filter (fun e => (st e =? s)%string) es).

Lemma count_status_cons {A} (st : A -> string) s e es :
  count_status st s (e :: es) = (if (st e =? s)%string then 1 else 0) + count_status st s es.
Proof. unfold count_status, len. simpl. case_match; simpl; lia. Qed.

Lemma count_status_nonneg {A} (st : A -> string) s es : 0 <= count_status st s es.
Proof. unfold count_status, len. lia. Qed.

(** A Go counter map: the key is present when it was or an entry has it. *)
Lemma foldl_incr_lookup {A} (st : A -> string) es (m : gmap string Z) s :
  (forall k v, m !! k = Some v -> 0 <= v /\ v + len es < 2 ^ 63) -> len es < 2 ^ 63 ->
  foldl (fun m e => incr (st e) m) m es !! s =
    match m !! s with
    | Some v => Some (v + count_status st s es)
    | None => if 0 <? count_status st s es then Some (count_status st s es) else None
    end.
Proof.
  revert m. induction es as [|e es IH]; intros m Hm Hlen; simpl.
  { unfold count_status, len. simpl. destruct (m !! s); [f_equal; lia|done]. }
  assert (Hl : len (e :: es) = 1 + len es) by (unfold len; simpl; lia).
  assert (0 <= len es) by (unfold len; lia).
  assert (Hw : forall v, 0 <= v -> v + len (e :: es) < 2 ^ 63 -> add64 v 1 = v + 1).
  { intros v ? ?. unfold add64. apply wrap64_id. unfold int64_range. lia. }
  rewrite IH; [|intros k v|lia].
  - rewrite count_status_cons. unfold incr. pose proof (count_status_nonneg st s es).
    destruct (String.eqb_spec (st e) s) as [->|Hne].
    + rewrite lookup_insert_eq. destruct (m !! s) as [v|] eqn:Hs; simpl.
      * rewrite Hw by (apply Hm in Hs; lia). f_equal. lia.
      * rewrite Hw by lia. rewrite (proj2 (Z.ltb_lt _ _)) by lia. done.
    + by rewrite lookup_insert_ne by done.
  - unfold incr. destruct (decide (k = st e)) as [->|Hne].
    + rewrite lookup_insert_eq. intros [= <-]. destruct (m !! st e) as [v|] eqn:Hs; simpl.
      * pose proof (Hm _ _ Hs). rewrite Hw; lia.
      * rewrite Hw; lia.
    + rewrite lookup_insert_ne by done. intros ?%Hm. lia.
Qed.

(** The initialisation loop: each listed status counts zero. *)
Lemma foldl_init_lookup {V} (v : V) (l : list string) (m : gmap string V) s :
  foldl (fun m k => <[ k := v ]> m) m l !! s =
    if bool_decide (s ∈ l) then Some v else m !! s.
Proof.
  revert m. induction l as [|k l IH]; intros m; cbn [foldl].
  - by rewrite bool_decide_false by set_solver.
  - rewrite IH. destruct (decide (s ∈ l)) as [Hin|Hin].
    + rewrite !bool_decide_true by set_solver. done.
    + rewrite (bool_decide_false (s ∈ l)) by done.
      destruct (decide (s = k)) as [->|Hne].
      * by rewrite lookup_insert_eq, bool_decide_true by set_solver.
      * rewrite lookup_insert_ne by done. by rewrite bool_decide_false by set_solver.
Qed.

Lemma count_entries_lookup {A} (st : A -> string) known es s :
  len es < 2 ^ 63 ->
  foldl (fun m e => incr (st e) m) (foldl (fun m status => <[ status := 0 ]> m) ∅ known) es !! s =
    if bool_decide (s ∈ known) || (0 <? count_status st s es)
    then Some (count_status st s es) else None.
Proof.
  intros Hlen. rewrite foldl_incr_lookup; [|intros k v|done].
  - rewrite foldl_init_lookup. case_bool_decide; [done|]. by rewrite lookup_empty.
  - rewrite foldl_init_lookup. case_bool_decide; [|by rewrite lookup_empty].
    intros [= <-]. lia.
Qed.

(** ** The status flags of machines *)

Lemma foldl_set_flag_lookup {A} (name st : A -> string) es m a s :
  (forall e, e ∈ es -> is_Some (m !! name e)) ->
  foldl (fun ret e => set_flag (name e) (st e) true ret) m es !! a ≫= (.!! s) =
    if existsb (fun e => (name e =? a)%string && (st e =? s)%string) es
    then Some true else m !! a ≫= (.!! s).
Proof.
  revert m. induction es as [|e es IH]; intros m Hm; cbn [foldl existsb]; [done|].
  rewrite IH.
  - destruct (existsb _ es); [by rewrite orb_true_r|]. rewrite orb_false_r. unfold set_flag.
    destruct (String.eqb_spec (name e) a) as [<-|Ha]; simpl.
    + rewrite lookup_insert_eq. simpl. destruct (Hm e) as [fl Hfl]; [set_solver|].
      rewrite Hfl. simpl. destruct (String.eqb_spec (st e) s) as [<-|Hs].
      * by rewrite lookup_insert_eq.
      * by rewrite lookup_insert_ne.
    + by rewrite lookup_insert_ne.
  - intros e' He'. unfold set_flag. destruct (decide (name e' = name e)) as [->|Hne].
    + rewrite lookup_insert_eq. eauto.
    + rewrite lookup_insert_ne by done. apply Hm. set_solver.
Qed.

Lemma foldl_insert_empty_lookup (nodes : list Node) (m : gmap string (gmap string bool)) a :
  foldl (fun ret node => <[ node_Address node := ∅ ]> ret) m nodes !! a =
    if bool_decide (a ∈ node_Address <$> nodes) then Some ∅ else m !! a.
Proof.
  revert m. induction nodes as [|n nodes IH]; intros m; cbn [foldl].
  - by rewrite bool_decide_false by set_solver.
  - rewrite IH, fmap_cons. destruct (decide (a ∈ node_Address <$> nodes)) as [Hin|Hin].
    + rewrite !bool_decide_true by set_solver. done.
    + rewrite (bool_decide_false (a ∈ node_Address <$> nodes)) by done.
      destruct (decide (a = node_Address n)) as [->|Hne].
      * by rewrite lookup_insert_eq, bool_decide_true by set_solver.
      * rewrite lookup_insert_ne by done. by rewrite bool_decide_false by set_solver.
Qed.

Lemma foldl_add_missing_lookup (es : list RepairQueueEntry)
    (m : gmap string (gmap string bool)) a :
  foldl (fun ret entry =>
           match ret !! rpe_Address entry with
           | Some _ => ret
           | None => <[ rpe_Address entry := ∅ ]> ret
           end) m es !! a =
    match m !! a with
    | Some fl => Some fl
    | None => if bool_decide (a ∈ rpe_Address <$> es) then Some ∅ else None
    end.
Proof.
  revert m. induction es as [|e es IH]; intros m; cbn [foldl].
  - rewrite bool_decide_false by set_solver. by destruct (m !! a).
  - rewrite IH, fmap_cons. destruct (decide (a = rpe_Address e)) as [->|Hne].
    + destruct (m !! rpe_Address e) eqn:Hm; [by rewrite Hm|].
      rewrite lookup_insert_eq. by rewrite bool_decide_true by set_solver.
    + assert (Hb : bool_decide (a ∈ rpe_Address e :: (rpe_Address <$> es))
                   = bool_decide (a ∈ rpe_Address <$> es)).
      { apply bool_decide_ext. set_solver. }
      rewrite Hb. by destruct (m !! rpe_Address e); [|rewrite lookup_insert_ne by done].
Qed.

(** The map before the flags of the entries are raised: exactly the addresses
    of the nodes and of the entries, with every status lowered. *)
Lemma machine_flags_init nodes es a :
  (fun flags => foldl (fun m status => <[ status := false ]> m) flags repairStatuses) <$>
    foldl (fun ret entry =>
             match ret !! rpe_Address entry with
             | Some _ => ret
             | None => <[ rpe_Address entry := ∅ ]> ret
             end)
      (foldl (fun (ret : gmap string (gmap string bool)) node =>
                <[ node_Address node := ∅ ]> ret) ∅ nodes) es !! a
  = if bool_decide (a ∈ node_Address <$> nodes) || bool_decide (a ∈ rpe_Address <$> es)
    then Some (init_flags repairStatuses) else None.
Proof.
  rewrite foldl_add_missing_lookup, foldl_insert_empty_lookup, lookup_empty.
  by repeat case_bool_decide.
Qed.

(** ** Properties *)

(** Deduplication keeps a subsequence of the queue in which no node
    occurs twice, and the entry it keeps for a node is the first of that
    node's entries in the queue. *)
Theorem dedup_keeps_first_entries (es : list RebootQueueEntry) :
  DedupRebootQueueEntries es `sublist_of` es
  /\ NoDup (rqe_Node <$> DedupRebootQueueEntries es)
  /\ forall n, List.find (has_node n) (DedupRebootQueueEntries es) = List.find (has_node n) es.
Proof.
  unfold DedupRebootQueueEntries. split_and!.
  - apply dedup_from_sublist.
  - apply dedup_from_NoDup.
  - intros n. apply dedup_from_find. set_solver.
Qed.

(** The counters of both queues hold, for every status, the number of
    entries with it; the known statuses are always present and an unknown one
    exactly when an entry has it. *)
Theorem queue_counters_exact (bs : list RebootQueueEntry) (ps : list RepairQueueEntry)
    (s : string) (Hb : len bs < 2 ^ 63) (Hp : len ps < 2 ^ 63) :
  CountRebootQueueEntries bs !! s =
    (if bool_decide (s ∈ rebootStatuses) || (0 <? count_status rqe_Status s bs)
     then Some (count_status rqe_Status s bs) else None)
  /\ CountRepairQueueEntries ps !! s =
    (if bool_decide (s ∈ repairStatuses) || (0 <? count_status rpe_Status s ps)
     then Some (count_status rpe_Status s ps) else None).
Proof. split; by apply count_entries_lookup. Qed.

Definition sample_reboot_queue : list RebootQueueEntry :=
  [NewRebootQueueEntry "10.0.0.1"; NewRebootQueueEntry "10.0.0.2"].

Lemma queue_counters_exact_witness :
  CountRebootQueueEntries sample_reboot_queue !! "queued" = Some 2
  /\ CountRepairQueueEntries [] !! "failed" = Some 0.
Proof.
  split.
  - rewrite (proj1 (queue_counters_exact sample_reboot_queue [] "queued" eq_refl eq_refl)).
    reflexivity.
  - rewrite (proj2 (queue_counters_exact sample_reboot_queue [] "failed" eq_refl eq_refl)).
    reflexivity.
Defined.

(** The flags of an entity: those of the known statuses, if it is [listed], and those of the statuses of
    its entries ([has]), which are raised. *)
Definition flags_of (listed : Prop) (known : list string) (has : string -> Prop) (s : string) (b : bool) : Prop :=
  (has s \/ listed /\ s ∈ known) /\ (b = true <-> has s).

Lemma init_flags_lookup known s : init_flags known !! s = if bool_decide (s ∈ known) then Some false else None.
Proof. unfold init_flags. by rewrite foldl_init_lookup, lookup_empty. Qed.
Lemma raised_flags {A} (name st : A -> string) es m a s b (listed : Prop) known :
  (forall e, e ∈ es -> is_Some (m !! name e)) ->
  (m !! a = if bool_decide (m !! a = None) then None else Some (init_flags known)) ->
  (m !! a <> None <-> listed) ->
  foldl (fun ret e => set_flag (name e) (st e) true ret) m es !! a ≫= (.!! s) = Some b
  <-> flags_of listed known (fun s => exists e, e ∈ es /\ name e = a /\ st e = s) s b.
Proof.
  intros Hm Ha Hl. rewrite foldl_set_flag_lookup by done. unfold flags_of.
  destruct (existsb _ es) eqn:Hex.
  - apply existsb_elem_of in Hex as (e & He & Hes). bool_hyps.
    assert (exists e, e ∈ es /\ name e = a /\ st e = s) as Hin by eauto.
    split; [intros [= <-]; by split; [left|]|]. intros [_ Hb]. by rewrite (proj2 Hb Hin).
  - assert (~ exists e, e ∈ es /\ name e = a /\ st e = s) as Hno.
    { rewrite existsb_false_elem_of in Hex. intros (e & He & <- & <-). specialize (Hex e He).
      by rewrite !String.eqb_refl in Hex. }
    rewrite Ha. case_bool_decide as Hn; cbn; [|rewrite init_flags_lookup; case_bool_decide];
      destruct b; naive_solver.
Qed.

(** The machine status map has exactly the addresses of the nodes and of
    the queue entries, and the flag of a status is raised exactly when an
    entry for that address has the status. *)
Theorem machine_repair_status_exact nodes es a s b :
  BuildMachineRepairStatus nodes es !! a ≫= (.!! s) = Some b
  <-> flags_of (a ∈ node_Address <$> nodes \/ a ∈ rpe_Address <$> es) repairStatuses
        (fun s => exists e, e ∈ es /\ rpe_Address e = a /\ rpe_Status e = s) s b.
Proof.
  unfold BuildMachineRepairStatus. apply raised_flags.
  - intros e He. rewrite lookup_fmap, machine_flags_init.
    rewrite (bool_decide_true (_ ∈ rpe_Address <$> es)) by (apply list_elem_of_fmap; eauto).
    rewrite orb_true_r. eauto.
  - rewrite lookup_fmap, machine_flags_init. by destruct (_ || _).
  - rewrite lookup_fmap, machine_flags_init. repeat case_bool_decide; cbn; naive_solver.
Qed.

(** The name of the last node with an address. *)
Definition name_of (nodes : list Node) (address : string) : option string :=
  Nodename <$> last (List.filter (fun n => (node_Address n =? address)%string) nodes).

Lemma node_tables nodes (ret : gmap string (gmap string bool)) (names : gmap string string) a :
  let '(ret', names') :=
    foldl (fun '(ret, addr2name) node =>
             (<[ Nodename node := init_flags rebootStatuses ]> ret,
              <[ node_Address node := Nodename node ]> addr2name)) (ret, names) nodes in
  ret' !! a = (if bool_decide (a ∈ Nodename <$> nodes) then Some (init_flags rebootStatuses) else ret !! a)
  /\ names' !! a = match name_of nodes a with Some n => Some n | None => names !! a end.
Proof.
  revert ret names. induction nodes as [|n nodes IH]; intros ret names; cbn [foldl].
  { by rewrite bool_decide_false by set_solver. }
  specialize (IH (<[ Nodename n := init_flags rebootStatuses ]> ret) (<[ node_Address n := Nodename n ]> names)).
  destruct (foldl _ _ nodes) as [ret' names']. destruct IH as [-> ->]. split.
  - rewrite fmap_cons. destruct (decide (a ∈ Nodename <$> nodes)) as [Hin|Hin].
    + rewrite !bool_decide_true by set_solver. done.
    + rewrite (bool_decide_false (a ∈ Nodename <$> nodes)) by done.
      destruct (decide (a = Nodename n)) as [->|Hne].
      * by rewrite lookup_insert_eq, bool_decide_true by set_solver.
      * rewrite lookup_insert_ne by done. by rewrite bool_decide_false by set_solver.
  - unfold name_of. cbn [List.filter]. destruct (String.eqb_spec (node_Address n) a) as [<-|Hne].
    + rewrite last_cons. destruct (last _); [done|]. cbn. by rewrite lookup_insert_eq.
    + by rewrite lookup_insert_ne.
Qed.
Lemma name_of_listed nodes a name : name_of nodes a = Some name -> name ∈ Nodename <$> nodes.
Proof.
  unfold name_of. destruct (last _) as [n|] eqn:Hl; [|done]. intros [= <-].
  apply list_elem_of_fmap_2. apply last_Some_elem_of in Hl. by apply elem_of_filterb in Hl as [? _].
Qed.
Lemma foldl_omap_flags (names : gmap string string) es (ret : gmap string (gmap string bool)) :
  foldl (fun ret entry => match names !! rqe_Node entry with
                          | None => ret
                          | Some name => set_flag name (rqe_Status entry) true ret
                          end) ret es
  = foldl (fun ret p => set_flag p.1 p.2 true ret) ret
      (omap (fun e => (fun name => (name, rqe_Status e)) <$> names !! rqe_Node e) es).
Proof.
  revert ret. induction es as [|e es IH]; intros ret; [done|]. cbn. by destruct (names !! rqe_Node e).
Qed.

(** The status map of the nodes has exactly their names, and the flag of a status is raised exactly when
    an entry for the address of the node has the status. *)
Theorem node_reboot_status_exact nodes es name s b :
  BuildNodeRebootStatus nodes es !! name ≫= (.!! s) = Some b
  <-> flags_of (name ∈ Nodename <$> nodes) rebootStatuses
        (fun s => exists e, e ∈ es /\ name_of nodes (rqe_Node e) = Some name /\ rqe_Status e = s) s b.
Proof.
  unfold BuildNodeRebootStatus.
  pose proof (fun a => node_tables nodes ∅ ∅ a) as Ht. destruct (foldl _ (∅, ∅) nodes) as [ret names].
  rewrite foldl_omap_flags, (raised_flags fst snd _ _ _ _ _ (name ∈ Nodename <$> nodes) rebootStatuses).
  - assert (forall s, (exists p, p ∈ omap (fun e => (fun name => (name, rqe_Status e)) <$> names !! rqe_Node e) es
        /\ p.1 = name /\ p.2 = s)
      <-> exists e, e ∈ es /\ name_of nodes (rqe_Node e) = Some name /\ rqe_Status e = s) as Hhas.
    { intros s'. setoid_rewrite list_elem_of_omap. split.
      - intros ([n st] & (e & He & Hn) & <- & <-). exists e. rewrite (proj2 (Ht _)), lookup_empty in Hn.
        destruct (name_of nodes _); naive_solver.
      - intros (e & He & Hn & <-). exists (name, rqe_Status e). split; [|done]. exists e. split; [done|].
        by rewrite (proj2 (Ht _)), Hn. }
    unfold flags_of. by rewrite Hhas.
  - intros p (e & _ & Hn)%list_elem_of_omap. rewrite (proj2 (Ht _)), lookup_empty in Hn.
    destruct (name_of nodes _) as [n|] eqn:Hname; [|done]. injection Hn as <-. cbn [fst].
    rewrite (proj1 (Ht _)), bool_decide_true by (by eapply name_of_listed). eauto.
  - rewrite (proj1 (Ht _)), lookup_empty. by case_bool_decide.
  - rewrite (proj1 (Ht _)), lookup_empty. by case_bool_decide.
Qed.

(** For a non-negative step the current repair step is the one the
    matching operation lists at that position, and past the end it is
    [ErrRepairStepOutOfRange]; it never panics. *)
Theorem current_repair_step_total {T : K8sTypes} (e : RepairQueueEntry) (c : Cluster)
    (Hstep : 0 <= rpe_Step e) :
  GetCurrentRepairStep e c =
    Ret (op ← GetMatchingRepairOperation e c;
         match RepairSteps op !! Z.to_nat (rpe_Step e) with
         | Some step => Ok step
         | None => Err ErrRepairStepOutOfRange
         end).
Proof.
  unfold GetCurrentRepairStep. destruct (GetMatchingRepairOperation e c) as [op|err]; [|done].
  simpl. unfold index, len. destruct (Z.leb_spec (Z.of_nat (length (RepairSteps op))) (rpe_Step e)).
  - by rewrite lookup_ge_None_2 by lia.
  - rewrite (proj2 (Z.ltb_ge _ _)) by lia.
    destruct (lookup_lt_is_Some_2 (RepairSteps op) (Z.to_nat (rpe_Step e))) as [x ->]; [lia|done].
Qed.

Definition sample_repair_entry (addr : string) (step : Z) (st : string) : RepairQueueEntry :=
  mkRepairQueueEntry 7 addr addr "" "server" "unreachable" RepairStatusProcessing step st false
    zero_time 0 zero_time.

Lemma current_repair_step_total_witness :
  @GetCurrentRepairStep sample_types (sample_repair_entry "10.0.0.11" 1 RepairStepStatusWaiting)
    (sample_cluster sample_nodes None) = Ret (Ok sample_drain_step).
Proof.
  rewrite (@current_repair_step_total sample_types
             (sample_repair_entry "10.0.0.11" 1 RepairStepStatusWaiting)
             (sample_cluster sample_nodes None)) by (simpl; lia).
  reflexivity.
Defined.
