(* ===== verification/Resource.v ===== *)
(** * User-defined and built-in Kubernetes resources

    resource.go: when a resource needs an update, the order in which resources
    are created, and the look-up of trusted REST mappings. *)

From Stdlib Require Import ZArith Ascii String Lia.
From stdpp Require Import base gmap strings list sorting pretty.
From S2P Require Import Prelude GoLib K8s Cluster.

Definition AnnotationResourceImage : string := "cke.cybozu.com/image".
Definition AnnotationResourceRevision : string := "cke.cybozu.com/revision".
Definition KindDeployment : string := "Deployment".

Record ResourceDefinition := mkResourceDefinition {
  rd_Key : string;
  rd_Kind : string;
  rd_Namespace : string;
  rd_Name : string;
  rd_Revision : Z;
  rd_Image : string;
  rd_Definition : string
}.

Definition ResourceDefinition_String (d : ResourceDefinition) : string :=
  rd_Key d +:+ "@" +:+ FormatInt (rd_Revision d).

(** status.go: the status of a registered resource. *)
Record ResourceStatus := mkResourceStatus {
  rs_Annotations : gmap string string;
  rs_HasBeenSSA : bool
}.

Definition NeedUpdate (d : ResourceDefinition) (rs : option ResourceStatus) : bool :=
  match rs with
  | None => true
  | Some rs =>
      match rs_Annotations rs !! AnnotationResourceRevision with
      | None => true
      | Some curRev =>
          if negb (curRev =? FormatInt (rd_Revision d))%string then true
          else if (rd_Image d =? "")%string then false
          else match rs_Annotations rs !! AnnotationResourceImage with
               | None => true
               | Some curImage => negb (curImage =? rd_Image d)%string
               end
      end
  end.

Definition rank (d : ResourceDefinition) : Z :=
  if (rd_Kind d =? "Namespace")%string then 10
  else if (rd_Kind d =? "ServiceAccount")%string then 20
  else if (rd_Kind d =? "CustomResourceDefinition")%string then 30
  else if (rd_Kind d =? "ClusterRole")%string then 40
  else if (rd_Kind d =? "ClusterRoleBinding")%string then 50
  else if (rd_Kind d =? "Role")%string then 2000
  else if (rd_Kind d =? "RoleBinding")%string then 2010
  else if (rd_Kind d =? "NetworkPolicy")%string then 2020
  else if (rd_Kind d =? "Secret")%string then 2030
  else if (rd_Kind d =? "ConfigMap")%string then 2040
  else if (rd_Namespace d =? "")%string then 1000
  else 3000.

Definition resource_less (a b : ResourceDefinition) : bool :=
  if rank a =? rank b then str_less (rd_Key a) (rd_Key b) else rank a <? rank b.

Definition SortResources `{Runtime} (res : list ResourceDefinition) : list ResourceDefinition :=
  sort_slice resource_less res.

(** ** REST mappings *)
Record GroupVersionKind := mkGVK { gvk_Group : string; gvk_Version : string; gvk_Kind : string }.

Record RESTMapping := mkRESTMapping {
  rm_Group : string;
  rm_Version : string;
  rm_Resource : string;
  rm_GVK : GroupVersionKind;
  rm_Namespaced : bool                    (** RESTScopeNamespace or RESTScopeRoot *)
}.

Definition gvk_String (g : GroupVersionKind) : string :=
  gvk_Group g +:+ "/" +:+ gvk_Version g +:+ ", Kind=" +:+ gvk_Kind g.

Definition mapping_matches (gvk : GroupVersionKind) (m : TrustedRESTMapping) : bool :=
  (trm_Group m =? gvk_Group gvk)%string && (trm_Version m =? gvk_Version gvk)%string
  && (trm_Kind m =? gvk_Kind gvk)%string.

Definition LookupTrustedRESTMapping (mappings : list TrustedRESTMapping)
    (gvk : GroupVersionKind) : result RESTMapping :=
  match List.find (mapping_matches gvk) mappings with
  | Some m => Ok (mkRESTMapping (trm_Group m) (trm_Version m) (trm_Resource m) gvk
                    (trm_Namespaced m))
  | None => Err (ErrUnexpected ("no trusted REST mapping found for " +:+ gvk_String gvk))
  end.

(** [mapper] is the discovery client's REST mapper. *)
Definition RESTMappingWithFallback (mapper : GroupVersionKind -> result RESTMapping)
    (gvk : GroupVersionKind) (trustedMappings : list TrustedRESTMapping) : result RESTMapping :=
  match mapper gvk with
  | Ok mapping => Ok mapping
  | Err _ => LookupTrustedRESTMapping trustedMappings gvk
  end.

Global Instance ResourceDefinition_eq_dec : EqDecision ResourceDefinition.
Proof. solve_decision. Defined.

(** ** The creation order is a strict weak order *)

Lemma resource_less_swo : strict_weak_order resource_less.
Proof.
  pose proof str_less_swo as [Hi Ht Hn].
  split; unfold resource_less.
  - intros a. by rewrite Z.eqb_refl.
  - intros a b c.
    destruct (Z.eqb_spec (rank a) (rank b)), (Z.eqb_spec (rank b) (rank c)),
      (Z.eqb_spec (rank a) (rank c)); try lia.
    apply Ht.
  - intros a b c.
    destruct (Z.eqb_spec (rank b) (rank a)), (Z.eqb_spec (rank c) (rank b)),
      (Z.eqb_spec (rank c) (rank a)); try lia.
    apply Hn.
Qed.

Lemma resource_less_total a b :
  resource_less a b = false -> resource_less b a = false -> rd_Key a = rd_Key b.
Proof.
  unfold resource_less. destruct (Z.eqb_spec (rank a) (rank b)), (Z.eqb_spec (rank b) (rank a));
    try lia.
  apply str_less_total.
Qed.

(** Two sorted permutations of a list with distinct keys are the same list. *)
Lemma sorted_resources_unique l1 l2 :
  NoDup (rd_Key <$> l1) -> l1 ≡ₚ l2 ->
  sorted_by resource_less l1 -> sorted_by resource_less l2 -> l1 = l2.
Proof.
  intros Hnd Hp H1 H2. revert l2 Hp H2. induction l1 as [|a l1 IH]; intros l2 Hp H2.
  { by apply Permutation_nil in Hp. }
  destruct l2 as [|b l2]; [by apply symmetry, Permutation_nil_cons in Hp|].
  inversion_clear H1 as [|? ? Hs1 Ha]. inversion_clear H2 as [|? ? Hs2 Hb].
  inversion_clear Hnd as [|? ? Hnin Hnd1].
  rewrite Forall_forall in Ha. rewrite Forall_forall in Hb.
  assert (a = b) as ->.
  { assert (Hbin : b ∈ a :: l1) by (rewrite Hp; set_solver).
    assert (Hain : a ∈ b :: l2) by (rewrite <- Hp; set_solver).
    apply elem_of_cons in Hbin as [->|Hbin]; [done|].
    apply elem_of_cons in Hain as [->|Hain]; [done|].
    exfalso. apply Hnin. rewrite (resource_less_total a b); [|by apply Hb|by apply Ha].
    by apply list_elem_of_fmap_2. }
  f_equal. apply IH; try done. by apply Permutation_cons_inv in Hp.
Qed.

(** ** Properties *)

(** Resources are created in the order of [SortResources]: whatever the
    sort implementation does with ties, the result is a permutation of the
    input in which every resource precedes those of a higher rank (and, within
    a rank, of a greater key), and with distinct keys it is the only such
    list. *)
Theorem sort_resources_spec (R1 R2 : Runtime) (res : list ResourceDefinition) :
  @SortResources R1 res ≡ₚ res
  /\ sorted_by resource_less (@SortResources R1 res)
  /\ (NoDup (rd_Key <$> res) -> @SortResources R1 res = @SortResources R2 res).
Proof.
  unfold SortResources. split_and!.
  - apply (@sort_slice_perm R1).
  - apply (@sort_slice_sorted R1), resource_less_swo.
  - intros Hnd. apply sorted_resources_unique.
    + by rewrite (@sort_slice_perm R1).
    + by rewrite (@sort_slice_perm R1), (@sort_slice_perm R2).
    + apply (@sort_slice_sorted R1), resource_less_swo.
    + apply (@sort_slice_sorted R2), resource_less_swo.
Qed.

Definition sample_resources : list ResourceDefinition :=
  [mkResourceDefinition "Deployment/kube-system/cluster-dns" "Deployment" "kube-system"
     "cluster-dns" 1 "" "";
   mkResourceDefinition "Namespace/foo" "Namespace" "" "foo" 3 "" ""].

Lemma sort_resources_spec_witness :
  @SortResources std_runtime sample_resources = rev sample_resources.
Proof.
  assert (Hnd : NoDup (rd_Key <$> sample_resources))
    by (apply (bool_decide_unpack _); vm_compute; exact I).
  refine (eq_trans (proj2 (proj2 (sort_resources_spec std_runtime std_runtime
                                    sample_resources)) Hnd) _).
  reflexivity.
Defined.

(** A resource needs no update exactly when the object carries the
    revision annotation of this very revision and, if the resource has images,
    the annotation of those images; an object annotated with another revision
    always needs one. *)
Theorem need_update_spec (d : ResourceDefinition) (rs : ResourceStatus) :
  (NeedUpdate d (Some rs) = false <->
     rs_Annotations rs !! AnnotationResourceRevision = Some (FormatInt (rd_Revision d))
     /\ (rd_Image d = "" \/ rs_Annotations rs !! AnnotationResourceImage = Some (rd_Image d)))
  /\ (forall rev, rs_Annotations rs !! AnnotationResourceRevision = Some (FormatInt rev) ->
        rev <> rd_Revision d -> NeedUpdate d (Some rs) = true).
Proof.
  unfold NeedUpdate. split.
  - destruct (rs_Annotations rs !! AnnotationResourceRevision) as [rev|]; [|naive_solver].
    destruct (String.eqb_spec rev (FormatInt (rd_Revision d))); simpl; [|naive_solver].
    destruct (String.eqb_spec (rd_Image d) ""); [naive_solver|].
    destruct (rs_Annotations rs !! AnnotationResourceImage) as [img|]; [|naive_solver].
    destruct (String.eqb_spec img (rd_Image d)); naive_solver.
  - intros rev -> Hne.
    destruct (String.eqb_spec (FormatInt rev) (FormatInt (rd_Revision d))) as [Heq|]; [|done].
    exfalso. by apply Hne, (inj pretty).
Qed.

(** Among validated mappings the look-up of a group, version and kind
    unknown to discovery finds exactly the mapping registered for it, and fails
    exactly when none is registered; what discovery finds takes precedence. *)
Theorem trusted_mapping_lookup (ms : list TrustedRESTMapping)
    (Hnd : NoDup ((fun m => (trm_Group m, trm_Version m, trm_Kind m)) <$> ms))
    (mapper : GroupVersionKind -> result RESTMapping) (gvk : GroupVersionKind) :
  match mapper gvk with
  | Ok found => RESTMappingWithFallback mapper gvk ms = Ok found
  | Err _ =>
      (forall m, m ∈ ms -> mkGVK (trm_Group m) (trm_Version m) (trm_Kind m) = gvk ->
         RESTMappingWithFallback mapper gvk ms
         = Ok (mkRESTMapping (trm_Group m) (trm_Version m) (trm_Resource m) gvk
                 (trm_Namespaced m)))
      /\ (is_ok (RESTMappingWithFallback mapper gvk ms) = true ->
          exists m, m ∈ ms /\ mkGVK (trm_Group m) (trm_Version m) (trm_Kind m) = gvk)
  end.
Proof.
  unfold RESTMappingWithFallback, LookupTrustedRESTMapping.
  destruct (mapper gvk); [done|]. destruct (List.find _ ms) as [m'|] eqn:Hf.
  - apply List.find_some in Hf as [Hin Hmt]. apply list_elem_of_In in Hin.
    unfold mapping_matches in Hmt. bool_hyps. destruct gvk as [g v k]; simpl in *; subst.
    split; [|by eauto]. intros m Hm [= Hg Hv Hk].
    rewrite (NoDup_fmap_elem_inj _ ms m m' Hnd Hm Hin); [done|congruence].
  - split; [|done]. intros m Hm <-.
    apply (List.find_none _ _ ) with (x := m) in Hf; [|by apply list_elem_of_In].
    unfold mapping_matches in Hf. simpl in Hf. by rewrite !String.eqb_refl in Hf.
Qed.

Definition sample_mapping : TrustedRESTMapping :=
  mkTrustedRESTMapping "example.com" "v1" "Foo" "foos" true.

Lemma trusted_mapping_lookup_witness :
  RESTMappingWithFallback (fun _ => Err ErrNotFound) (mkGVK "example.com" "v1" "Foo")
    [sample_mapping]
  = Ok (mkRESTMapping "example.com" "v1" "foos" (mkGVK "example.com" "v1" "Foo") true).
Proof.
  refine (proj1 (trusted_mapping_lookup [sample_mapping] _ (fun _ => Err ErrNotFound)
            (mkGVK "example.com" "v1" "Foo")) sample_mapping _ eq_refl).
  - apply NoDup_singleton.
  - apply list_elem_of_here.
Defined.
