(* ===== verification/Status.v ===== *)
(** * The status of the cluster

    status.go and phase.go: what a survey of the nodes, of etcd, of Kubernetes
    and of the queues found. *)

From Stdlib Require Import ZArith String Lia.
From stdpp Require Import base gmap strings list.
From S2P Require Import Prelude GoLib K8s Cluster Queue Resource.

Record EtcdClusterStatus := mkEtcdClusterStatus {
  es_IsHealthy : bool;
  es_Members : gmap string Member;
  es_InSyncMembers : gmap string bool
}.

Record ClusterDNSStatus := mkClusterDNSStatus {
  cd_ConfigMap : option ConfigMap;
  cd_ClusterIP : string
}.

Record KubernetesClusterStatus := mkKubernetesClusterStatus {
  ks_IsControlPlaneReady : bool;
  ks_Nodes : list KubeNode;
  ks_DNSService : option Service;
  ks_ClusterDNS : ClusterDNSStatus;
  ks_NodeDNS : option ConfigMap;          (** NodeDNSStatus.ConfigMap *)
  ks_MasterEndpoints : option Endpoints;
  ks_MasterEndpointSlice : option EndpointSlice;
  ks_EtcdService : option Service;
  ks_EtcdEndpoints : option Endpoints;
  ks_EtcdEndpointSlice : option EndpointSlice;
  ks_ResourceStatuses : gmap string ResourceStatus
}.

(** The inner loop of [IsReady] stops at the first true Ready condition. *)
Definition node_is_ready (n : KubeNode) : bool :=
  existsb (fun '(ty, st) => (ty =? NodeReady)%string && (st =? ConditionTrue)%string)
    (kn_Conditions n).

Definition IsReady {T : K8sTypes} (s : KubernetesClusterStatus) (cluster : Cluster) : bool :=
  if negb (ks_IsControlPlaneReady s) then false
  else
    let clusterNodesSize := len (c_Nodes cluster) in
    if clusterNodesSize =? 0 then false
    else
      let currentReady := foldl (fun cnt n => if node_is_ready n then cnt + 1 else cnt) 0
                            (ks_Nodes s) in
      clusterNodesSize / 2 <? currentReady.

Definition SetResourceStatus (s : KubernetesClusterStatus) (rkey : string)
    (ann : gmap string string) (isManaged : bool) : KubernetesClusterStatus :=
  mkKubernetesClusterStatus (ks_IsControlPlaneReady s) (ks_Nodes s) (ks_DNSService s)
    (ks_ClusterDNS s) (ks_NodeDNS s) (ks_MasterEndpoints s) (ks_MasterEndpointSlice s)
    (ks_EtcdService s) (ks_EtcdEndpoints s) (ks_EtcdEndpointSlice s)
    (<[ rkey := mkResourceStatus ann isManaged ]> (ks_ResourceStatuses s)).

(** ** Nodes *)
Record ServiceStatus := mkServiceStatus {
  ss_Running : bool;
  ss_Image : string;
  ss_BuiltInParams : ServiceParams;
  ss_ExtraParams : ServiceParams
}.
Definition zero_ServiceStatus : ServiceStatus := mkServiceStatus false "" no_params no_params.

Record EtcdStatus := mkEtcdStatus {
  etcd_Service : ServiceStatus;
  etcd_HasData : bool;
  etcd_IsAddedMember : bool
}.

Record KubeComponentStatus := mkKubeComponentStatus {
  kcs_Service : ServiceStatus;
  kcs_IsHealthy : bool
}.

Record SchedulerStatus {T : K8sTypes} := mkSchedulerStatus {
  scs_Service : ServiceStatus;
  scs_IsHealthy : bool;
  scs_Config : option KubeSchedulerConfiguration
}.
Arguments mkSchedulerStatus {T}.

Record KubeletStatus {T : K8sTypes} := mkKubeletStatus {
  kls_Service : ServiceStatus;
  kls_IsHealthy : bool;
  kls_Config : option KubeletConfiguration
}.
Arguments mkKubeletStatus {T}.

Record ProxyStatus {T : K8sTypes} := mkProxyStatus {
  pxs_Service : ServiceStatus;
  pxs_IsHealthy : bool;
  pxs_Config : option KubeProxyConfiguration
}.
Arguments mkProxyStatus {T}.

Record NodeStatus {T : K8sTypes} := mkNodeStatus {
  ns_SSHConnected : bool;
  ns_Etcd : EtcdStatus;
  ns_Rivers : ServiceStatus;
  ns_EtcdRivers : ServiceStatus;
  ns_APIServer : KubeComponentStatus;
  ns_ControllerManager : KubeComponentStatus;
  ns_Scheduler : SchedulerStatus;
  ns_Proxy : ProxyStatus;
  ns_Kubelet : KubeletStatus
}.
Arguments mkNodeStatus {T}.

(** ** Queues and the whole *)
Record RepairQueueStatus := mkRepairQueueStatus {
  rps_Enabled : bool;
  rps_Entries : list RepairQueueEntry;
  rps_RepairCompleted : gmap string bool;
  rps_DrainCompleted : gmap string bool
}.

Record RebootQueueStatus := mkRebootQueueStatus {
  rbs_Enabled : bool;
  rbs_Entries : list RebootQueueEntry;
  rbs_NextCandidates : list RebootQueueEntry;
  rbs_DrainCompleted : list RebootQueueEntry;
  rbs_DrainTimedout : list RebootQueueEntry;
  rbs_RebootDequeued : list RebootQueueEntry;
  rbs_RebootCancelled : list RebootQueueEntry
}.

(** version.go *)
Definition ConfigVersion : string := "2".

Record ClusterStatus {T : K8sTypes} := mkClusterStatus {
  cs_ConfigVersion : string;
  cs_NodeStatuses : gmap string NodeStatus;
  cs_Etcd : EtcdClusterStatus;
  cs_Kubernetes : KubernetesClusterStatus;
  cs_RepairQueue : RepairQueueStatus;
  cs_RebootQueue : RebootQueueStatus
}.
Arguments mkClusterStatus {T}.

(** ** Phases of the server *)
Inductive OperationPhase : Type :=
| PhaseUpgradeAborted
| PhaseUpgrade
| PhaseRivers
| PhaseEtcdBootAborted
| PhaseEtcdBoot
| PhaseEtcdStart
| PhaseEtcdWait
| PhaseK8sStart
| PhaseEtcdMaintain
| PhaseK8sMaintain
| PhaseStopCP
| PhaseRepairMachines
| PhaseUncordonNodes
| PhaseRebootNodes
| PhaseCompleted.

Global Instance OperationPhase_eq_dec : EqDecision OperationPhase.
Proof. solve_decision. Defined.

Definition phase_string (p : OperationPhase) : string :=
  match p with
  | PhaseUpgradeAborted => "upgrade-aborted"
  | PhaseUpgrade => "upgrade"
  | PhaseRivers => "rivers"
  | PhaseEtcdBootAborted => "etcd-boot-aborted"
  | PhaseEtcdBoot => "etcd-boot"
  | PhaseEtcdStart => "etcd-start"
  | PhaseEtcdWait => "etcd-wait"
  | PhaseK8sStart => "k8s-start"
  | PhaseEtcdMaintain => "etcd-maintain"
  | PhaseK8sMaintain => "k8s-maintain"
  | PhaseStopCP => "stop-control-plane"
  | PhaseRepairMachines => "repair-machines"
  | PhaseUncordonNodes => "uncordon-nodes"
  | PhaseRebootNodes => "reboot-nodes"
  | PhaseCompleted => "completed"
  end.

Definition AllOperationPhases : list OperationPhase :=
  [PhaseUpgradeAborted; PhaseUpgrade; PhaseRivers; PhaseEtcdBootAborted; PhaseEtcdBoot;
   PhaseEtcdStart; PhaseEtcdWait; PhaseK8sStart; PhaseEtcdMaintain; PhaseK8sMaintain;
   PhaseStopCP; PhaseRepairMachines; PhaseUncordonNodes; PhaseRebootNodes; PhaseCompleted].

(** ** The most recently read status *)

(** [IsReady]: a counting loop counts. *)
Lemma foldl_count {A} (p : A -> bool) (l : list A) (z : Z) :
  foldl (fun cnt x => if p x then cnt + 1 else cnt) z l = z + len (List.filter p l).
Proof.
  revert z. induction l as [|x l IH]; intros z; cbn [foldl List.filter].
  - unfold len. simpl. lia.
  - rewrite IH. unfold len. destruct (p x); simpl; lia.
Qed.
