(* ===== verification/Storage.v ===== *)
(** * The storage

    storage.go and record.go.  CKE keeps its configuration, its queues and the
    records of its operations in etcd.  etcd itself is the class [Etcd]: its
    state is abstract, and only the documented meaning of its requests is
    assumed.  A request either gives an answer or fails; a failed transaction
    may have been applied or not. *)

From Stdlib Require Import ZArith Ascii String Lia.
From stdpp Require Import base gmap strings list sorting.
From S2P Require Import Prelude GoLib GoFormat GoTime SabakanQuery K8s Cluster Queue Resource Status.

(** ** Records of operations (record.go) *)
Definition StatusNew : string := "new".
Definition StatusRunning : string := "running".
Definition StatusCancelled : string := "cancelled".
Definition StatusCompleted : string := "completed".

(** operation.go *)
Record Command := mkCommand { cmd_Name : string; cmd_Target : string }.

Record OpRecord := mkOpRecord {
  r_ID : Z;
  r_Status : string;
  r_Operation : string;
  r_Command : Command;
  r_Targets : list string;
  r_Info : string;
  r_Error : string;
  r_StartAt : Z;
  r_EndAt : Z
}.

Definition NewRecord (now id : Z) (op : string) (targets : list string) : OpRecord :=
  mkOpRecord id StatusNew op (mkCommand EmptyString EmptyString) targets EmptyString EmptyString
    now zero_time.
Definition Cancel (now : Z) (r : OpRecord) : OpRecord :=
  mkOpRecord (r_ID r) StatusCancelled (r_Operation r) (r_Command r) (r_Targets r) (r_Info r)
    (r_Error r) (r_StartAt r) now.
Definition Complete (now : Z) (r : OpRecord) : OpRecord :=
  mkOpRecord (r_ID r) StatusCompleted (r_Operation r) (r_Command r) (r_Targets r) (r_Info r)
    (r_Error r) (r_StartAt r) now.
Definition SetCommand (c : Command) (r : OpRecord) : OpRecord :=
  mkOpRecord (r_ID r) StatusRunning (r_Operation r) c (r_Targets r) (r_Info r) (r_Error r)
    (r_StartAt r) (r_EndAt r).
Definition SetInfo (i : string) (r : OpRecord) : OpRecord :=
  mkOpRecord (r_ID r) (r_Status r) (r_Operation r) (r_Command r) (r_Targets r) i (r_Error r)
    (r_StartAt r) (r_EndAt r).
Definition SetError (now : Z) (e : string) (r : OpRecord) : OpRecord :=
  mkOpRecord (r_ID r) StatusCancelled (r_Operation r) (r_Command r) (r_Targets r) (r_Info r) e
    (r_StartAt r) now.

(** ** Other stored values (vault.go, phase.go) *)
Record VaultConfig := mkVaultConfig {
  vc_Endpoint : string;
  vc_CACert : string;
  vc_RoleID : string;
  vc_SecretID : string
}.
Record ServerStatus := mkServerStatus { ss_Phase : OperationPhase; ss_Timestamp : Z }.

(** ** etcd *)

(** A value is a text or the JSON encoding of a Go value, represented by the
    value it encodes. *)
Inductive value {T : K8sTypes} : Type :=
| Text (s : string)
| ClusterJSON (c : Cluster)
| ConstraintsJSON (c : Constraints)
| RebootJSON (e : RebootQueueEntry)
| RepairJSON (e : RepairQueueEntry)
| RecordJSON (r : OpRecord)
| VariablesJSON (v : QueryVariables)
| VaultJSON (c : VaultConfig)
| StatusJSON (st : ServerStatus).

Record KV {T : K8sTypes} := mkKV { kv_Value : value; kv_ModRevision : Z }.
Arguments mkKV {T} _ _.

(** Conditions and operations of transactions. *)
Inductive Cmp : Type :=
| KeyExists (key : string)
| ModRevisionIs (key : string) (rev : Z).
Inductive Op {T : K8sTypes} : Type :=
| OpPut (key : string) (v : value)
| OpDelete (key : string)
| OpDeleteRange (from upto : string).

Section store.
  Context {T : K8sTypes}.
  Implicit Types m : gmap string KV.

(** The modification revision of a key that does not exist is 0. *)
Definition mod_revision m (key : string) : Z :=
  match m !! key with Some kv => kv_ModRevision kv | None => 0 end.
Definition cmp_holds m (c : Cmp) : bool :=
  match c with
  | KeyExists key => bool_decide (is_Some (m !! key))
  | ModRevisionIs key rev => mod_revision m key =? rev
  end.
Definition in_range (from upto key : string) : bool :=
  negb (str_less key from) && str_less key upto.
Definition apply_op (rev : Z) m (o : Op) : gmap string KV :=
  match o with
  | OpPut key v => <[ key := mkKV v rev ]> m
  | OpDelete key => delete key m
  | OpDeleteRange from upto => filter (fun kv => in_range from upto (fst kv) = false) m
  end.
(** A transaction that is applied has a revision of its own. *)
Definition applied (ops : list Op) m m' : Prop :=
  exists rev, 0 < rev /\ (forall key kv, m !! key = Some kv -> kv_ModRevision kv < rev)
    /\ m' = foldl (apply_op rev) m ops.

(** The keys with a prefix, in an order and up to a limit if they are given. *)
Definition prefixed (prefix : string) m : list (string * KV) :=
  List.filter (fun kv => HasPrefix (fst kv) prefix) (map_to_list m).
Definition before (descending : bool) (a b : string * KV) : Prop :=
  if descending then str_less (fst b) (fst a) = true else str_less (fst a) (fst b) = true.
Definition listing (prefix : string) (order : option bool) m (l : list (string * KV)) : Prop :=
  l ≡ₚ prefixed prefix m
  /\ match order with Some descending => StronglySorted (before descending) l | None => True end.
End store.

Class Etcd {T : K8sTypes} := {
  etcd : Type;
  kvs : etcd -> gmap string KV;
  etcd_get : string -> etcd -> etcd * option (option KV);
  etcd_prefix : string -> option bool -> Z -> etcd -> etcd * option (list (string * KV));
  etcd_gets : list string -> etcd -> etcd * option (list (option KV));
  etcd_txn : list Cmp -> list Op -> etcd -> etcd * option bool;

  get_spec : forall key d d' r, etcd_get key d = (d', r) ->
    kvs d' = kvs d /\ forall kv, r = Some kv -> kv = kvs d !! key;
  prefix_spec : forall prefix order limit d d' r, etcd_prefix prefix order limit d = (d', r) ->
    kvs d' = kvs d
    /\ forall l, r = Some l -> exists all, listing prefix order (kvs d) all
         /\ l = if 0 <? limit then take (Z.to_nat limit) all else all;
  gets_spec : forall keys d d' r, etcd_gets keys d = (d', r) ->
    kvs d' = kvs d /\ forall l, r = Some l -> l = (fun key => kvs d !! key) <$> keys;
  txn_spec : forall cs ops d d' r, etcd_txn cs ops d = (d', r) ->
    match r with
    | Some true => forallb (cmp_holds (kvs d)) cs = true /\ applied ops (kvs d) (kvs d')
    | Some false => forallb (cmp_holds (kvs d)) cs = false /\ kvs d' = kvs d
    | None => kvs d' = kvs d
              \/ (forallb (cmp_holds (kvs d)) cs = true /\ applied ops (kvs d) (kvs d'))
    end;
  revision_pos : forall d key kv, kvs d !! key = Some kv -> 0 < kv_ModRevision kv
}.

(** ** Keys *)
Definition KeyConfigVersion : string := "config-version".
Definition KeyCluster : string := "cluster".
Definition KeyClusterRevision : string := "cluster-revision".
Definition KeyConstraints : string := "constraints".
Definition KeyRebootsDisabled : string := "reboots/disabled".
Definition KeyRebootsRunning : string := "reboots/running".
Definition KeyRebootsPrefix : string := "reboots/data/".
Definition KeyRebootsWriteIndex : string := "reboots/write-index".
Definition KeyRecords : string := "records/".
Definition KeyRecordID : string := "records".
Definition KeyRepairsDisabled : string := "repairs/disabled".
Definition KeyRepairsPrefix : string := "repairs/data/".
Definition KeyRepairsWriteIndex : string := "repairs/write-index".
Definition KeyResourcePrefix : string := "resource/".
Definition KeySabakanDisabled : string := "sabakan/disabled".
Definition KeyAutoRepairDisabled : string := "auto-repair/disabled".
Definition KeyAutoRepairQueryVariables : string := "auto-repair/query-variables".
Definition KeyCA : string := "ca/".
Definition KeySabakanQueryVariables : string := "sabakan/query-variables".
Definition KeySabakanTemplate : string := "sabakan/template".
Definition KeySabakanURL : string := "sabakan/url".
Definition KeyServiceAccountCert : string := "service-account/certificate".
Definition KeyServiceAccountKey : string := "service-account/key".
Definition KeyStatus : string := "status".
Definition KeyVault : string := "vault".
Definition maxRecords : Z := 1000.

(** ** Operations *)

(** A storage operation returns, panics, or is still in its retry loop when
    the attempts it was given are used up. *)
Inductive outcome (A : Type) : Type :=
| Done (r : result A)
| Panicked (why : string)
| Retrying.
Arguments Done {A} r.
Arguments Panicked {A} why.
Arguments Retrying {A}.

Section storage.
  Context {T : K8sTypes} `{!Etcd}.

Definition sto (A : Type) : Type := etcd -> etcd * outcome A.
Global Instance sto_ret : MRet sto := fun A a d => (d, Done (Ok a)).
Global Instance sto_bind : MBind sto := fun A B k m d =>
  match m d with
  | (d', Done (Ok a)) => k a d'
  | (d', Done (Err e)) => (d', Done (Err e))
  | (d', Panicked w) => (d', Panicked w)
  | (d', Retrying) => (d', Retrying)
  end.
Definition panic {A} (why : string) : sto A := fun d => (d, Panicked why).
Definition throw {A} (e : error) : sto A := fun d => (d, Done (Err e)).

(** Requests; a request that fails gives an error. *)
Definition request {A} (r : etcd -> etcd * option A) : sto A := fun d =>
  match r d with
  | (d', Some a) => (d', Done (Ok a))
  | (d', None) => (d', Done (Err (ErrUnexpected "etcd: request failed")))
  end.
Definition Get (key : string) : sto (option KV) := request (etcd_get key).
Definition GetPrefix (prefix : string) (order : option bool) (limit : Z)
    : sto (list (string * KV)) := request (etcd_prefix prefix order limit).
Definition Txn (cs : list Cmp) (ops : list Op) : sto bool := request (etcd_txn cs ops).
Definition Put (key : string) (v : value) : sto unit := _ ← Txn [] [OpPut key v]; mret tt.

(** [If(KeyExists(leaderKey)).Then(ops).Commit()] *)
Definition as_leader (leaderKey : string) (ops : list Op) : sto unit :=
  succeeded ← Txn [KeyExists leaderKey] ops;
  if (succeeded : bool) then mret tt else throw ErrNoLeader.

Definition malformed {A} : sto A := throw (ErrUnexpected "invalid value").
Definition text_of (kv : KV) : sto string :=
  match kv_Value kv with Text s => mret s | _ => malformed end.

Definition getStringValue (key : string) : sto string :=
  r ← Get key;
  match r with None => throw ErrNotFound | Some kv => text_of kv end.

Definition GetConfigVersion : sto string := fun d =>
  match getStringValue KeyConfigVersion d with
  | (d', Done (Err ErrNotFound)) => (d', Done (Ok "1"))
  | r => r
  end.
Definition PutConfigVersion (leaderKey : string) : sto unit :=
  as_leader leaderKey [OpPut KeyConfigVersion (Text ConfigVersion)].

Definition PutCluster (c : Cluster) : sto unit := Put KeyCluster (ClusterJSON c).
Definition PutClusterWithTemplateRevision (c : Cluster) (rev : Z) (leaderKey : string) : sto unit :=
  as_leader leaderKey [OpPut KeyCluster (ClusterJSON c);
                       OpPut KeyClusterRevision (Text (FormatInt rev))].
Definition cluster_of (kv : KV) : sto Cluster :=
  match kv_Value kv with ClusterJSON c => mret c | _ => malformed end.
Definition GetCluster : sto Cluster :=
  r ← Get KeyCluster;
  match r with None => throw ErrNotFound | Some kv => cluster_of kv end.

(** The transaction without conditions reads both keys at one revision. *)
Definition GetClusterWithRevision : sto (Cluster * Z) :=
  resp ← request (etcd_gets [KeyCluster; KeyClusterRevision]);
  match resp with
  | [None; _] => throw ErrNotFound
  | [Some kv0; r1] =>
      c ← cluster_of kv0;
      match r1 with
      | None => mret (c, 0)
      | Some kv1 =>
          s ← text_of kv1;
          match ParseInt s with Some rev => mret (c, rev) | None => malformed end
      end
  | _ => panic "index out of range"
  end.

Definition PutConstraints (c : Constraints) : sto unit := Put KeyConstraints (ConstraintsJSON c).
Definition GetConstraints : sto Constraints :=
  r ← Get KeyConstraints;
  match r with
  | None => throw ErrNotFound
  | Some kv => match kv_Value kv with ConstraintsJSON c => mret c | _ => malformed end
  end.

Definition PutVaultConfig (c : VaultConfig) : sto unit := Put KeyVault (VaultJSON c).
Definition GetVaultConfig : sto VaultConfig :=
  r ← Get KeyVault;
  match r with
  | None => throw ErrNotFound
  | Some kv => match kv_Value kv with VaultJSON c => mret c | _ => malformed end
  end.

Definition GetCACertificate (name : string) : sto string := getStringValue (KeyCA +:+ name).
Definition PutCACertificate (name pem : string) : sto unit := Put (KeyCA +:+ name) (Text pem).
Definition GetServiceAccountCert : sto string := getStringValue KeyServiceAccountCert.
Definition GetServiceAccountKey : sto string := getStringValue KeyServiceAccountKey.
Definition PutServiceAccountData (leaderKey cert key : string) : sto unit :=
  as_leader leaderKey [OpPut KeyServiceAccountCert (Text cert); OpPut KeyServiceAccountKey (Text key)].

(** The key is bound to a lease, with which etcd removes it; the lease is left
    out. *)
Definition SetStatus (st : ServerStatus) : sto unit := Put KeyStatus (StatusJSON st).
Definition GetStatus : sto ServerStatus :=
  r ← Get KeyStatus;
  match r with
  | None => throw ErrNotFound
  | Some kv => match kv_Value kv with StatusJSON st => mret st | _ => malformed end
  end.

(** Query variables are validated and stored as text by the caller, and decoded
    after they are read. *)
Definition SetSabakanQueryVariables (vars : QueryVariables) : sto unit :=
  Put KeySabakanQueryVariables (VariablesJSON vars).
Definition get_variables (key : string) : sto QueryVariables :=
  r ← Get key;
  match r with
  | None => throw ErrNotFound
  | Some kv => match kv_Value kv with VariablesJSON v => mret v | _ => malformed end
  end.
Definition GetSabakanQueryVariables : sto QueryVariables := get_variables KeySabakanQueryVariables.
Definition SetAutoRepairQueryVariables (vars : QueryVariables) : sto unit :=
  Put KeyAutoRepairQueryVariables (VariablesJSON vars).
Definition GetAutoRepairQueryVariables : sto QueryVariables := get_variables KeyAutoRepairQueryVariables.

Definition SetSabakanTemplate (tmpl : Cluster) : sto unit := Put KeySabakanTemplate (ClusterJSON tmpl).
Definition GetSabakanTemplate : sto (Cluster * Z) :=
  r ← Get KeySabakanTemplate;
  match r with
  | None => throw ErrNotFound
  | Some kv => tmpl ← cluster_of kv; mret (tmpl, kv_ModRevision kv)
  end.
Definition SetSabakanURL (url : string) : sto unit := Put KeySabakanURL (Text url).
Definition GetSabakanURL : sto string := getStringValue KeySabakanURL.

(** The flags that disable parts of CKE. *)
Definition get_flag (key : string) : sto bool :=
  r ← Get key;
  match r with
  | None => mret false
  | Some kv => match kv_Value kv with Text s => mret (s =? "true")%string | _ => mret false end
  end.
Definition put_flag (key : string) (b : bool) : sto unit :=
  Put key (Text (if b then "true" else "false")).
Definition IsSabakanDisabled : sto bool := get_flag KeySabakanDisabled.
Definition EnableSabakan (flag : bool) : sto unit := put_flag KeySabakanDisabled (negb flag).
Definition IsAutoRepairDisabled : sto bool := get_flag KeyAutoRepairDisabled.
Definition EnableAutoRepair (enable : bool) : sto unit :=
  put_flag KeyAutoRepairDisabled (negb enable).
Definition IsRebootQueueDisabled : sto bool := get_flag KeyRebootsDisabled.
Definition EnableRebootQueue (flag : bool) : sto unit := put_flag KeyRebootsDisabled (negb flag).
Definition IsRebootQueueRunning : sto bool := get_flag KeyRebootsRunning.
Definition SetRebootQueueRunning (flag : bool) : sto unit := put_flag KeyRebootsRunning flag.
Definition IsRepairQueueDisabled : sto bool := get_flag KeyRepairsDisabled.
Definition EnableRepairQueue (enable : bool) : sto unit :=
  put_flag KeyRepairsDisabled (negb enable).
End storage.

(** ** Queues

    The reboot queue and the repair queue are kept in the same way; they differ
    in their keys and in the type of their entries. *)
Class QueueEntry {T : K8sTypes} (E : Type) := {
  data_prefix : string;
  write_index : string;
  to_value : E -> value;
  of_value : value -> option E;
  entry_index : E -> Z;
  with_index : Z -> E -> E;
  of_to_value : forall e, of_value (to_value e) = Some e;
  index_with : forall i e, entry_index (with_index i e) = i;
  index_outside : HasPrefix write_index data_prefix = false
}.

Global Program Instance reboot_entry {T : K8sTypes} : QueueEntry RebootQueueEntry := {|
  data_prefix := KeyRebootsPrefix;
  write_index := KeyRebootsWriteIndex;
  to_value := RebootJSON;
  of_value v := match v with RebootJSON e => Some e | _ => None end;
  entry_index := rqe_Index;
  with_index i e := mkRebootQueueEntry i (rqe_Node e) (rqe_Status e) (rqe_LastTransitionTime e)
                      (rqe_DrainBackOffCount e) (rqe_DrainBackOffExpire e)
|}.
Solve Obligations with done.

Global Program Instance repair_entry {T : K8sTypes} : QueueEntry RepairQueueEntry := {|
  data_prefix := KeyRepairsPrefix;
  write_index := KeyRepairsWriteIndex;
  to_value := RepairJSON;
  of_value v := match v with RepairJSON e => Some e | _ => None end;
  entry_index := rpe_Index;
  with_index i e := mkRepairQueueEntry i (rpe_Address e) (rpe_Nodename e) (rpe_Serial e)
                      (rpe_MachineType e) (rpe_Operation e) (rpe_Status e) (rpe_Step e)
                      (rpe_StepStatus e) (rpe_Deleted e) (rpe_LastTransitionTime e)
                      (rpe_DrainBackOffCount e) (rpe_DrainBackOffExpire e)
|}.
Solve Obligations with done.

Section queues.
  Context {T : K8sTypes} `{!Etcd} {E : Type} `{!QueueEntry E}.

Definition entry_key (index : Z) : string := data_prefix +:+ hex016 index.

(** The next index and the revision of the key that has it. *)
Definition read_index : sto (Z * Z) :=
  r ← Get write_index;
  match r with
  | None => mret (0, 0)
  | Some kv =>
      s ← text_of kv;
      match ParseInt s with
      | None => malformed
      | Some value => mret (value, kv_ModRevision kv)
      end
  end.

Definition write_entry (r : E) (writeIndex writeIndexRev : Z) : sto bool :=
  Txn [ModRevisionIs write_index writeIndexRev]
    [OpPut (entry_key writeIndex) (to_value (with_index writeIndex r));
     OpPut write_index (Text (FormatInt (add64 writeIndex 1)))].

(** [goto RETRY], at most [attempts] rounds *)
Fixpoint RegisterEntry (attempts : nat) (r : E) : sto unit :=
  match attempts with
  | O => fun d => (d, Retrying)
  | S n =>
      '(writeIndex, writeIndexRev) ← read_index;
      succeeded ← write_entry r writeIndex writeIndexRev;
      if (succeeded : bool) then mret tt else RegisterEntry n r
  end.

Fixpoint UpdateEntry (attempts : nat) (r : E) : sto unit :=
  match attempts with
  | O => fun d => (d, Retrying)
  | S n =>
      let key := entry_key (entry_index r) in
      resp ← Get key;
      match resp with
      | None => throw ErrNotFound
      | Some kv =>
          succeeded ← Txn [ModRevisionIs key (kv_ModRevision kv)] [OpPut key (to_value r)];
          if (succeeded : bool) then mret tt else UpdateEntry n r
      end
  end.

Definition entry_of (kv : KV) : sto E :=
  match of_value (kv_Value kv) with Some e => mret e | None => malformed end.
Definition GetEntry (index : Z) : sto E :=
  resp ← Get (entry_key index);
  match resp with None => throw ErrNotFound | Some kv => entry_of kv end.

Fixpoint entries_of (l : list (string * KV)) : sto (list E) :=
  match l with
  | [] => mret []
  | (_, kv) :: rest => e ← entry_of kv; es ← entries_of rest; mret (e :: es)
  end.
Definition GetEntries : sto (list E) :=
  l ← GetPrefix data_prefix (Some false) 0; entries_of l.

Definition DeleteEntry (leaderKey : string) (index : Z) : sto unit :=
  as_leader leaderKey [OpDelete (entry_key index)].
End queues.

Section storage_queues.
  Context {T : K8sTypes} `{!Etcd}.

Definition rebootsEntryKey : Z -> string := entry_key (E := RebootQueueEntry).
Definition RegisterRebootsEntry : nat -> RebootQueueEntry -> sto unit := RegisterEntry.
Definition UpdateRebootsEntry : nat -> RebootQueueEntry -> sto unit := UpdateEntry.
Definition GetRebootsEntry : Z -> sto RebootQueueEntry := GetEntry.
Definition GetRebootsEntries : sto (list RebootQueueEntry) := GetEntries.
Definition DeleteRebootsEntry : string -> Z -> sto unit := DeleteEntry (E := RebootQueueEntry).
Definition repairsEntryKey : Z -> string := entry_key (E := RepairQueueEntry).
Definition RegisterRepairsEntry : nat -> RepairQueueEntry -> sto unit := RegisterEntry.
Definition UpdateRepairsEntry : nat -> RepairQueueEntry -> sto unit := UpdateEntry.
Definition GetRepairsEntry : Z -> sto RepairQueueEntry := GetEntry.
Definition GetRepairsEntries : sto (list RepairQueueEntry) := GetEntries.
Definition DeleteRepairsEntry : string -> Z -> sto unit := DeleteEntry (E := RepairQueueEntry).
End storage_queues.

(** ** Records *)
Section records.
  Context {T : K8sTypes} `{!Etcd}.

Definition recordKey (r : OpRecord) : string := KeyRecords +:+ hex016 (r_ID r).

Definition record_of (kv : KV) : sto OpRecord :=
  match kv_Value kv with RecordJSON r => mret r | _ => malformed end.
Fixpoint records_of (l : list (string * KV)) : sto (list OpRecord) :=
  match l with
  | [] => mret []
  | (_, kv) :: rest => r ← record_of kv; rs ← records_of rest; mret (r :: rs)
  end.
(** The newest records first, at most [count] if it is positive. *)
Definition GetRecords (count : Z) : sto (list OpRecord) :=
  l ← GetPrefix KeyRecords (Some true) count; records_of l.

(** The response of a failed transaction is [nil]. *)
Definition delete_range (leaderKey startKey endKey : string) : sto unit := fun d =>
  match etcd_txn [KeyExists leaderKey] [OpDeleteRange startKey endKey] d with
  | (d', None) => (d', Panicked "invalid memory address or nil pointer dereference")
  | (d', Some true) => (d', Done (Ok tt))
  | (d', Some false) => (d', Done (Err ErrNoLeader))
  end.

Definition maintRecords (leaderKey : string) (max : Z) : sto unit :=
  kvs ← GetPrefix KeyRecords (Some false) 0;
  if len kvs <=? max then mret tt
  else
    match kvs, kvs !! Z.to_nat (len kvs - max) with
    | (startKey, _) :: _, Some (endKey, _) => delete_range leaderKey startKey endKey
    | _, _ => panic "index out of range"
    end.

Definition RegisterRecord (leaderKey : string) (r : OpRecord) : sto unit :=
  _ ← as_leader leaderKey [OpPut (recordKey r) (RecordJSON r);
                           OpPut KeyRecordID (Text (FormatInt (add64 (r_ID r) 1)))];
  maintRecords leaderKey maxRecords.

Definition UpdateRecord (leaderKey : string) (r : OpRecord) : sto unit :=
  as_leader leaderKey [OpPut (recordKey r) (RecordJSON r)].

Definition NextRecordID : sto Z :=
  resp ← Get KeyRecordID;
  match resp with
  | None => mret 1
  | Some kv =>
      s ← text_of kv;
      match ParseInt s with Some id => mret id | None => malformed end
  end.

(** ** User-defined resources *)
Definition SetResource (key v : string) : sto unit := Put (KeyResourcePrefix +:+ key) (Text v).
Definition DeleteResource (key : string) : sto unit :=
  _ ← Txn [] [OpDelete (KeyResourcePrefix +:+ key)]; mret tt.
Definition GetResource (key : string) : sto (string * Z) :=
  resp ← Get (KeyResourcePrefix +:+ key);
  match resp with
  | None => throw ErrNotFound
  | Some kv => v ← text_of kv; mret (v, kv_ModRevision kv)
  end.

(** [kv.Key[len(KeyResourcePrefix):]] *)
Definition resource_key (key : string) : string :=
  String.substring (String.length KeyResourcePrefix)
    (String.length key - String.length KeyResourcePrefix) key.
Definition ListResources : sto (list string) :=
  l ← GetPrefix KeyResourcePrefix (Some false) 0; mret ((fun '(key, _) => resource_key key) <$> l).

Definition resource_of (key : string) (kv : KV) : sto ResourceDefinition :=
  definition ← text_of kv;
  match Split key "/" with
  | [kind; name] =>
      mret (mkResourceDefinition key kind EmptyString name (kv_ModRevision kv) EmptyString definition)
  | [kind; namespace; name] =>
      mret (mkResourceDefinition key kind namespace name (kv_ModRevision kv) EmptyString definition)
  | _ => throw (ErrUnexpected ("invalid resource key: " +:+ key))
  end.
Fixpoint resources_of (l : list (string * KV)) : sto (list ResourceDefinition) :=
  match l with
  | [] => mret []
  | (key, kv) :: rest =>
      rc ← resource_of (resource_key key) kv; rcs ← resources_of rest; mret (rc :: rcs)
  end.
Definition GetAllResources `{Runtime} : sto (list ResourceDefinition) :=
  l ← GetPrefix KeyResourcePrefix None 0; rcs ← resources_of l; mret (SortResources rcs).
End records.
