(* ===== verification/StorageProps.v ===== *)
(** * The queues and records of the storage are what they should be

    An abstract queue is a map from indexes to entries and the next index; the
    operations of the storage implement it, also when several clients register
    entries at the same time.  The number of records stays bounded. *)

From Stdlib Require Import ZArith Ascii String Lia.
From stdpp Require Import base gmap strings list sorting.
From S2P Require Import Prelude GoLib GoFormat K8s Cluster Queue Resource Status Storage.

(** ** Requests *)
Section requests.
  Context {T : K8sTypes} `{!Etcd}.

Definition ErrRequest : error := ErrUnexpected "etcd: request failed".

Lemma Get_cases key d :
  exists d', kvs d' = kvs d
    /\ (Get key d = (d', Done (Ok (kvs d !! key))) \/ Get key d = (d', Done (Err ErrRequest))).
Proof.
  unfold Get, request. destruct (etcd_get key d) as [d' r] eqn:Hg.
  apply get_spec in Hg as [Hs Hr]. exists d'. split; [done|].
  destruct r as [kv|]; [left|by right]. by rewrite (Hr kv eq_refl).
Qed.

Lemma GetPrefix_cases prefix order d :
  exists d', kvs d' = kvs d
    /\ ((exists l, GetPrefix prefix order 0 d = (d', Done (Ok l)) /\ listing prefix order (kvs d) l)
        \/ GetPrefix prefix order 0 d = (d', Done (Err ErrRequest))).
Proof.
  unfold GetPrefix, request. destruct (etcd_prefix prefix order 0 d) as [d' r] eqn:Hg.
  apply prefix_spec in Hg as [Hs Hr]. exists d'. split; [done|].
  destruct r as [l|]; [left|by right]. destruct (Hr l eq_refl) as (all & Hall & ->). eauto.
Qed.

(** Whether the conditions of a transaction hold is decided by its answer,
    unless the request fails. *)
Lemma Txn_cases cs ops d :
  let holds := forallb (cmp_holds (kvs d)) cs in
  exists d',
    (Txn cs ops d = (d', Done (Ok true)) /\ holds = true /\ applied ops (kvs d) (kvs d'))
    \/ (Txn cs ops d = (d', Done (Ok false)) /\ holds = false /\ kvs d' = kvs d)
    \/ (Txn cs ops d = (d', Done (Err ErrRequest))
        /\ (kvs d' = kvs d \/ (holds = true /\ applied ops (kvs d) (kvs d')))).
Proof.
  unfold Txn, request. destruct (etcd_txn cs ops d) as [d' r] eqn:Ht.
  pose proof (txn_spec _ _ _ _ _ Ht) as Hs. exists d'. destruct r as [[]|]; naive_solver.
Qed.

Lemma as_leader_cases leaderKey ops d :
  exists d',
    (as_leader leaderKey ops d = (d', Done (Ok tt)) /\ is_Some (kvs d !! leaderKey)
     /\ applied ops (kvs d) (kvs d'))
    \/ (as_leader leaderKey ops d = (d', Done (Err ErrNoLeader)) /\ kvs d !! leaderKey = None
        /\ kvs d' = kvs d)
    \/ (as_leader leaderKey ops d = (d', Done (Err ErrRequest))
        /\ (kvs d' = kvs d \/ (is_Some (kvs d !! leaderKey) /\ applied ops (kvs d) (kvs d')))).
Proof.
  destruct (Txn_cases [KeyExists leaderKey] ops d) as [d' Ht]. exists d'.
  unfold as_leader, mbind, sto_bind. cbn [forallb cmp_holds] in Ht. rewrite andb_true_r in Ht.
  destruct Ht as [(-> & Hh & Ha)|[(-> & Hh & Hs)|[-> Hs]]].
  - left. bool_hyps. done.
  - right; left. bool_hyps. apply eq_None_not_Some in Hh. done.
  - right; right. split; [done|]. destruct Hs as [?|[Hh ?]]; [by left|right]. by bool_hyps.
Qed.
End requests.

(** ** The abstract queue *)
Record queue (E : Type) := mkQueue { q_entries : gmap Z E; q_next : Z }.
Arguments mkQueue {E} _ _.
Arguments q_entries {E} _.
Arguments q_next {E} _.

Section queue_spec.
  Context {T : K8sTypes} `{!Etcd} {E : Type} `{!QueueEntry E}.
  Implicit Types (q : queue E) (m : gmap string KV) (r e : E) (i : Z).

Definition enqueue r q : queue E :=
  mkQueue (<[ q_next q := with_index (q_next q) r ]> (q_entries q)) (q_next q + 1).
Definition replace r q : queue E := mkQueue (<[ entry_index r := r ]> (q_entries q)) (q_next q).
Definition dequeue i q : queue E := mkQueue (delete i (q_entries q)) (q_next q).

(** The store [m] holds the queue [q]. *)
Record stored m q : Prop := {
  st_index : match m !! write_index with
             | None => q_next q = 0
             | Some kv => kv_Value kv = Text (FormatInt (q_next q))
             end;
  st_range : 0 <= q_next q < 2 ^ 63;
  st_entry : forall i e, q_entries q !! i = Some e ->
    0 <= i < q_next q /\ entry_index e = i /\ kv_Value <$> m !! entry_key i = Some (to_value e);
  st_keys : forall key, is_Some (m !! key) -> HasPrefix key data_prefix = true ->
    exists i, is_Some (q_entries q !! i) /\ key = entry_key i
}.

Lemma HasPrefix_app p s : HasPrefix (p +:+ s) p = true.
Proof.
  unfold HasPrefix. induction p as [|c p IH]; simpl; [by destruct s|].
  destruct (ascii_dec c c); [apply IH|done].
Qed.
Lemma entry_key_prefix i : HasPrefix (entry_key i) data_prefix = true.
Proof. apply HasPrefix_app. Qed.
Lemma entry_key_not_index i : entry_key i <> write_index.
Proof. intros He. pose proof (entry_key_prefix i) as Hp. rewrite He in Hp. by rewrite index_outside in Hp. Qed.
Lemma entry_key_inj i j :
  0 <= i < 2 ^ 63 -> 0 <= j < 2 ^ 63 -> entry_key i = entry_key j -> i = j.
Proof. intros Hi Hj He%string_app_inj. by apply hex016_inj. Qed.

Lemma stored_mod_index m q i : stored m q -> is_Some (q_entries q !! i) -> 0 <= i < 2 ^ 63.
Proof.
  intros Hs [e He]. pose proof (st_entry _ _ Hs _ _ He). pose proof (st_range _ _ Hs). lia.
Qed.

(** An entry that is not in the queue is not in the store. *)
Lemma stored_None m q i :
  stored m q -> 0 <= i < 2 ^ 63 -> q_entries q !! i = None -> m !! entry_key i = None.
Proof.
  intros Hs Hi Hn. apply eq_None_not_Some. intros Hk.
  destruct (st_keys _ _ Hs _ Hk (entry_key_prefix i)) as (j & Hj & He).
  assert (i = j) as -> by (apply entry_key_inj; [done|by eapply stored_mod_index|done]).
  rewrite Hn in Hj. by destruct Hj.
Qed.

(** Transactions on the store and operations on the queue. *)
Lemma stored_enqueue m m' q r :
  stored m q -> q_next q < 2 ^ 63 - 1 ->
  applied [OpPut (entry_key (q_next q)) (to_value (with_index (q_next q) r));
           OpPut write_index (Text (FormatInt (add64 (q_next q) 1)))] m m' ->
  stored m' (enqueue r q).
Proof.
  intros Hs Hn (rev & _ & _ & ->). pose proof (st_range _ _ Hs) as Hr.
  assert (add64 (q_next q) 1 = q_next q + 1) as ->.
  { unfold add64, wrap64. rewrite Z.mod_small; lia. }
  unfold enqueue. cbn [foldl apply_op]. constructor; cbn [q_entries q_next]; [|lia| |].
  - by rewrite lookup_insert_eq.
  - intros i e. rewrite lookup_insert_Some. intros [[<- <-]|[Hne He]].
    + rewrite lookup_insert_ne, lookup_insert_eq, index_with by (by apply not_eq_sym, entry_key_not_index).
      split_and!; [lia|lia|done|done].
    + destruct (st_entry _ _ Hs _ _ He) as (Hi & Hx & Hv).
      rewrite !lookup_insert_ne; [split_and!; [lia|lia|done|done]| |].
      * intros Hk. apply Hne. apply entry_key_inj; [lia|lia|done].
      * apply not_eq_sym, entry_key_not_index.
  - intros key [kv Hkv] Hp. rewrite lookup_insert_Some in Hkv.
    destruct Hkv as [[<- _]|[_ Hkv]]; [by rewrite index_outside in Hp|].
    rewrite lookup_insert_Some in Hkv. destruct Hkv as [[<- _]|[_ Hkv]].
    + exists (q_next q). split; [rewrite lookup_insert_eq; by eexists|done].
    + destruct (st_keys _ _ Hs key) as (i & Hi & ->); [by eexists|done|]. exists i.
      split; [|done]. destruct (decide (i = q_next q)) as [->|?];
        [rewrite lookup_insert_eq; by eexists|by rewrite lookup_insert_ne].
Qed.

Lemma stored_replace m m' q r :
  stored m q -> is_Some (q_entries q !! entry_index r) ->
  applied [OpPut (entry_key (entry_index r)) (to_value r)] m m' -> stored m' (replace r q).
Proof.
  intros Hs Hin (rev & _ & _ & ->). pose proof (stored_mod_index _ _ _ Hs Hin) as Hx.
  unfold replace. cbn [foldl apply_op]. constructor; cbn [q_entries q_next].
  - rewrite lookup_insert_ne by apply entry_key_not_index. apply (st_index _ _ Hs).
  - apply (st_range _ _ Hs).
  - intros i e. rewrite lookup_insert_Some. intros [[<- <-]|[Hne He]].
    + rewrite lookup_insert_eq. destruct Hin as [e0 He0].
      by destruct (st_entry _ _ Hs _ _ He0) as (? & ? & ?).
    + destruct (st_entry _ _ Hs _ _ He) as (Hi & Hix & Hv). split_and!; [lia|lia|done|].
      rewrite lookup_insert_ne; [done|]. intros Hk. apply Hne.
      apply entry_key_inj; [done|eapply stored_mod_index; [done|by eexists]|done].
  - intros key [kv Hkv] Hp. rewrite lookup_insert_Some in Hkv. destruct Hkv as [[<- _]|[_ Hkv]].
    + exists (entry_index r). split; [rewrite lookup_insert_eq; by eexists|done].
    + destruct (st_keys _ _ Hs key) as (i & Hi & ->); [by eexists|done|]. exists i.
      split; [|done]. destruct (decide (i = entry_index r)) as [->|?];
        [rewrite lookup_insert_eq; by eexists|by rewrite lookup_insert_ne].
Qed.

Lemma stored_dequeue m m' q i :
  stored m q -> 0 <= i < 2 ^ 63 -> applied [OpDelete (entry_key i)] m m' -> stored m' (dequeue i q).
Proof.
  intros Hs Hx (rev & _ & _ & ->). unfold dequeue. cbn [foldl apply_op].
  constructor; cbn [q_entries q_next].
  - rewrite lookup_delete_ne by apply entry_key_not_index. apply (st_index _ _ Hs).
  - apply (st_range _ _ Hs).
  - intros j e. rewrite lookup_delete_Some. intros [Hne He].
    destruct (st_entry _ _ Hs _ _ He) as (Hi & Hix & Hv). split_and!; [lia|lia|done|].
    rewrite lookup_delete_ne; [done|]. intros Hk. apply Hne.
    apply entry_key_inj; [done|eapply stored_mod_index; [done|by eexists]|done].
  - intros key [kv Hkv] Hp. rewrite lookup_delete_Some in Hkv. destruct Hkv as [Hne Hkv].
    destruct (st_keys _ _ Hs key) as (j & Hj & ->); [by eexists|done|]. exists j.
    split; [|done]. rewrite lookup_delete_ne; [done|]. by intros ->.
Qed.
End queue_spec.

(** ** The storage implements the queue *)
Section queue_refinement.
  Context {T : K8sTypes} `{!Etcd} {E : Type} `{!QueueEntry E}.
  Implicit Types (q : queue E) (r e : E) (i : Z).

Lemma read_index_cases d q :
  stored (kvs d) q ->
  exists d', kvs d' = kvs d
    /\ (read_index d = (d', Done (Ok (q_next q, mod_revision (kvs d) write_index)))
        \/ read_index d = (d', Done (Err ErrRequest))).
Proof.
  intros Hs. destruct (Get_cases write_index d) as (d' & Hd & Hg). exists d'. split; [done|].
  pose proof (st_index _ _ Hs) as Hi. pose proof (st_range _ _ Hs) as Hr.
  unfold read_index, mbind, sto_bind, mod_revision. destruct Hg as [-> | ->]; [left|by right].
  destruct (kvs d !! write_index) as [kv|]; [|by rewrite Hi].
  unfold text_of. rewrite Hi. simpl. unfold mret, sto_ret. rewrite ParseInt_FormatInt; [done|].
  unfold int64_range. lia.
Qed.

Lemma write_entry_cases d r i rev :
  let ops := [OpPut (entry_key i) (to_value (with_index i r));
              OpPut write_index (Text (FormatInt (add64 i 1)))] in
  exists d',
    (write_entry r i rev d = (d', Done (Ok true))
     /\ mod_revision (kvs d) write_index = rev /\ applied ops (kvs d) (kvs d'))
    \/ (write_entry r i rev d = (d', Done (Ok false))
        /\ mod_revision (kvs d) write_index <> rev /\ kvs d' = kvs d)
    \/ (write_entry r i rev d = (d', Done (Err ErrRequest))
        /\ (kvs d' = kvs d
            \/ (mod_revision (kvs d) write_index = rev /\ applied ops (kvs d) (kvs d')))).
Proof.
  unfold write_entry.
  destruct (Txn_cases [ModRevisionIs write_index rev]
              [OpPut (entry_key i) (to_value (with_index i r));
               OpPut write_index (Text (FormatInt (add64 i 1)))] d) as [d' Ht].
  exists d'. cbn [forallb cmp_holds] in Ht. rewrite andb_true_r in Ht.
  destruct Ht as [(-> & Hh & Ha)|[(-> & Hh & Hs)|[-> [Hs|[Hh Ha]]]]]; bool_hyps; naive_solver.
Qed.

(** The operations that change a queue. *)
Inductive queue_op : Type :=
| Register (r : E)
| Update (r : E)
| Dequeue (leaderKey : string) (i : Z).

Definition run_queue_op (attempts : nat) (o : queue_op) : sto unit :=
  match o with
  | Register r => RegisterEntry attempts r
  | Update r => UpdateEntry attempts r
  | Dequeue leaderKey i => DeleteEntry (E := E) leaderKey i
  end.
Definition abstract_op (o : queue_op) q : queue E :=
  match o with
  | Register r => enqueue r q
  | Update r => replace r q
  | Dequeue _ i => dequeue i q
  end.
(** Why an operation is refused. *)
Definition refusal d q (o : queue_op) : option error :=
  match o with
  | Register _ => None
  | Update r => match q_entries q !! entry_index r with Some _ => None | None => Some ErrNotFound end
  | Dequeue leaderKey _ => match kvs d !! leaderKey with Some _ => None | None => Some ErrNoLeader end
  end.
Definition indexes_ok q (o : queue_op) : Prop :=
  match o with
  | Register _ => q_next q < 2 ^ 63 - 1
  | Update r => 0 <= entry_index r < 2 ^ 63
  | Dequeue _ i => 0 <= i < 2 ^ 63
  end.

(** What a run of an operation may do: succeed, be refused, or lose the
    connection before or after the change. *)
Inductive implements d q (o : queue_op) : etcd * outcome unit -> Prop :=
| impl_done d' :
    refusal d q o = None -> stored (kvs d') (abstract_op o q) ->
    implements d q o (d', Done (Ok tt))
| impl_refused d' (err : error) :
    refusal d q o = Some err -> stored (kvs d') q -> implements d q o (d', Done (Err err))
| impl_failed d' :
    stored (kvs d') q \/ (refusal d q o = None /\ stored (kvs d') (abstract_op o q)) ->
    implements d q o (d', Done (Err ErrRequest)).

Lemma register_implements n r d q :
  stored (kvs d) q -> q_next q < 2 ^ 63 - 1 ->
  implements d q (Register r) (RegisterEntry (S n) r d).
Proof.
  intros Hs Hn. cbn [RegisterEntry]. unfold mbind, sto_bind.
  destruct (read_index_cases d q Hs) as (d1 & H1 & [-> | ->]);
    [|apply impl_failed; left; by rewrite H1].
  destruct (write_entry_cases d1 r (q_next q) (mod_revision (kvs d) write_index))
    as (d2 & [(-> & _ & Ha)|[(_ & Hc & _)|[-> Ha]]]).
  - rewrite H1 in Ha. apply impl_done; [done|]. by eapply stored_enqueue.
  - by rewrite H1 in Hc.
  - apply impl_failed. destruct Ha as [H2|[_ Ha]]; [left; by rewrite H2, H1|right].
    rewrite H1 in Ha. split; [done|]. by eapply stored_enqueue.
Qed.

Lemma update_implements n r d q :
  stored (kvs d) q -> 0 <= entry_index r < 2 ^ 63 ->
  implements d q (Update r) (UpdateEntry (S n) r d).
Proof.
  intros Hs Hn. cbn [UpdateEntry]. unfold mbind, sto_bind.
  destruct (Get_cases (entry_key (entry_index r)) d) as (d1 & H1 & [-> | ->]);
    [|apply impl_failed; left; by rewrite H1].
  destruct (q_entries q !! entry_index r) as [e|] eqn:He.
  2:{ rewrite (stored_None _ _ _ Hs Hn He). apply impl_refused; [|by rewrite H1].
      unfold refusal. by rewrite He. }
  pose proof (st_entry _ _ Hs _ _ He) as (_ & _ & Hv).
  destruct (kvs d !! entry_key (entry_index r)) as [kv|] eqn:Hkv; [|done].
  destruct (Txn_cases [ModRevisionIs (entry_key (entry_index r)) (kv_ModRevision kv)]
              [OpPut (entry_key (entry_index r)) (to_value r)] d1) as (d2 & Ht).
  rewrite H1 in Ht. cbn [forallb cmp_holds] in Ht. unfold mod_revision in Ht.
  rewrite Hkv, Z.eqb_refl in Ht. simpl in Ht.
  assert (refusal d q (Update r) = None) as Href by (unfold refusal; by rewrite He).
  destruct Ht as [(-> & _ & Ha)|[(_ & ? & _)|[-> [H2|[_ Ha]]]]]; [| done | |].
  - apply impl_done; [done|]. eapply stored_replace; [done|by eexists|done].
  - apply impl_failed. left. by rewrite H2.
  - apply impl_failed. right. split; [done|]. eapply stored_replace; [done|by eexists|done].
Qed.

Lemma delete_implements leaderKey i d q :
  stored (kvs d) q -> 0 <= i < 2 ^ 63 ->
  implements d q (Dequeue leaderKey i) (DeleteEntry (E := E) leaderKey i d).
Proof.
  intros Hs Hi. unfold DeleteEntry.
  destruct (as_leader_cases leaderKey [OpDelete (entry_key (E := E) i)] d)
    as (d1 & [(-> & [kv Hl] & Ha)|[(-> & Hl & H1)|[-> [H1|([kv Hl] & Ha)]]]]).
  - apply impl_done; [simpl; by rewrite Hl|]. by eapply stored_dequeue.
  - apply impl_refused; [simpl; by rewrite Hl|by rewrite H1].
  - apply impl_failed. left. by rewrite H1.
  - apply impl_failed. right. split; [simpl; by rewrite Hl|]. by eapply stored_dequeue.
Qed.

(** C16: the operations on the queues in etcd implement an abstract queue.
    Registering, updating and deleting an entry do to the stored queue what
    they do to the abstract one; they are refused exactly when the entry to
    update is missing or the leadership is lost, and then change nothing; they
    never panic, and without other clients one round of their compare-and-swap
    loops is enough.  A lost connection leaves the queue as it was or changed. *)
Theorem storage_implements_queue n (o : queue_op) d q :
  stored (kvs d) q -> indexes_ok q o -> implements d q o (run_queue_op (S n) o d).
Proof.
  intros Hs. destruct o as [r|r|leaderKey i]; simpl; intros Hok.
  - by apply register_implements.
  - by apply update_implements.
  - by apply delete_implements.
Qed.
End queue_refinement.

(** ** Reading a queue *)
Section queue_reading.
  Context {T : K8sTypes} `{!Etcd} {E : Type} `{!QueueEntry E}.
  Implicit Types (q : queue E) (r e : E) (i : Z) (l : list (string * KV)).

(** What a key of the queue holds. *)
Definition holds_entry q (kv : string * KV) e : Prop :=
  fst kv = entry_key (entry_index e) /\ q_entries q !! entry_index e = Some e
  /\ kv_Value (snd kv) = to_value e.

Lemma entries_of_holds q l es d :
  Forall2 (holds_entry q) l es -> entries_of l d = (d, Done (Ok es)).
Proof.
  induction 1 as [|[k kv] e l es (_ & _ & Hv) _ IH]; [done|]. simpl in Hv.
  cbn [entries_of]. unfold mbind, sto_bind, entry_of. rewrite Hv, of_to_value. simpl.
  unfold mret, sto_ret. by rewrite IH.
Qed.

Lemma elem_of_prefixed prefix (m : gmap string KV) key kv :
  (key, kv) ∈ prefixed prefix m <-> m !! key = Some kv /\ HasPrefix key prefix = true.
Proof. unfold prefixed. rewrite elem_of_filterb, elem_of_map_to_list. simpl. tauto. Qed.

Lemma listing_holds m q order l :
  stored m q -> listing data_prefix order m l -> exists es, Forall2 (holds_entry q) l es.
Proof.
  intros Hs [Hp _].
  assert (forall x, x ∈ l -> exists e, holds_entry q x e) as Hx.
  { intros [k kv] Hin. rewrite Hp in Hin. apply elem_of_prefixed in Hin as [Hk Hpre].
    destruct (st_keys _ _ Hs k) as (i & [e He] & ->); [by eexists|done|].
    destruct (st_entry _ _ Hs _ _ He) as (_ & <- & Hv). rewrite Hk in Hv. injection Hv as Hv.
    exists e. done. }
  clear Hp. induction l as [|x l IH]; [exists []; constructor|].
  destruct (Hx x) as [e He]; [left|]. destruct IH as [es Hes]; [intros y Hy; apply Hx; by right|].
  exists (e :: es). by constructor.
Qed.

Lemma holds_sorted m q l es :
  stored m q -> Forall2 (holds_entry q) l es -> StronglySorted (before false) l ->
  StronglySorted (fun a b => entry_index a < entry_index b) es.
Proof.
  intros Hs. induction 1 as [|x e l es (Hk & He & _) Hl IH]; intros Hsort; [constructor|].
  inversion_clear Hsort as [|? ? Hl' Hx]. constructor; [by apply IH|].
  apply Forall_forall. intros e' Hin. apply list_elem_of_lookup_1 in Hin as [j Hj].
  destruct (Forall2_lookup_r _ _ _ _ _ Hl Hj) as (x' & Hx' & (Hk' & He' & _)).
  rewrite Forall_forall in Hx. specialize (Hx x' (list_elem_of_lookup_2 _ _ _ Hx')).
  unfold before in Hx. rewrite Hk, Hk' in Hx. unfold entry_key in Hx.
  rewrite str_less_hex016 in Hx; [by apply Z.ltb_lt| |];
    (eapply stored_mod_index; [done|by eexists]).
Qed.

Lemma holds_exact m q order l es e :
  stored m q -> listing data_prefix order m l -> Forall2 (holds_entry q) l es ->
  e ∈ es <-> q_entries q !! entry_index e = Some e.
Proof.
  intros Hs [Hp _] Hl. split.
  - intros [j Hj]%list_elem_of_lookup_1.
    by destruct (Forall2_lookup_r _ _ _ _ _ Hl Hj) as (x & _ & (_ & He & _)).
  - intros He. destruct (st_entry _ _ Hs _ _ He) as (Hi & _ & Hv).
    destruct (m !! entry_key (entry_index e)) as [kv|] eqn:Hk; [|done].
    assert ((entry_key (entry_index e), kv) ∈ l) as [j Hj]%list_elem_of_lookup_1.
    { rewrite Hp. apply elem_of_prefixed. split; [done|]. apply entry_key_prefix. }
    destruct (Forall2_lookup_l _ _ _ _ _ Hl Hj) as (e' & He' & (Hkey & Hq & _)).
    apply entry_key_inj in Hkey; [|by eapply stored_mod_index; [done|by eexists]..].
    assert (e' = e) as -> by (rewrite <- Hkey, He in Hq; by injection Hq).
    by eapply list_elem_of_lookup_2.
Qed.

(** The entries read are those of the queue, in the order of their indexes. *)
Definition in_order q (es : list E) : Prop :=
  StronglySorted (fun a b => entry_index a < entry_index b) es
  /\ forall e, e ∈ es <-> q_entries q !! entry_index e = Some e.

Lemma GetEntries_cases d q :
  stored (kvs d) q ->
  exists d', kvs d' = kvs d
    /\ ((exists es, GetEntries d = (d', Done (Ok es)) /\ in_order q es)
        \/ GetEntries (E := E) d = (d', Done (Err ErrRequest))).
Proof.
  intros Hs. unfold GetEntries, mbind, sto_bind.
  destruct (GetPrefix_cases data_prefix (Some false) d) as (d' & Hd & [(l & -> & Hl)| ->]);
    exists d'; (split; [done|]); [left|by right].
  destruct (listing_holds _ _ _ _ Hs Hl) as [es Hes]. exists es.
  split; [by eapply entries_of_holds|]. split.
  - eapply holds_sorted; [done..|]. apply Hl.
  - intros e. by eapply holds_exact.
Qed.

Lemma sorted_index_unique (l1 l2 : list E) :
  StronglySorted (fun a b => entry_index a < entry_index b) l1 ->
  StronglySorted (fun a b => entry_index a < entry_index b) l2 ->
  (forall e, e ∈ l1 <-> e ∈ l2) -> l1 = l2.
Proof.
  revert l2. induction l1 as [|x l1 IH]; intros [|y l2] H1 H2 He; [done| | |].
  - by destruct (proj1 (elem_of_nil y) (proj2 (He y) ltac:(left))).
  - by destruct (proj1 (elem_of_nil x) (proj1 (He x) ltac:(left))).
  - inversion_clear H1 as [|? ? H1' Hx]. inversion_clear H2 as [|? ? H2' Hy].
    rewrite Forall_forall in Hx, Hy.
    assert (x = y) as ->.
    { destruct (proj1 (elem_of_cons _ _ _) (proj1 (He x) ltac:(left))) as [|Hxy]; [done|].
      destruct (proj1 (elem_of_cons _ _ _) (proj2 (He y) ltac:(left))) as [|Hyx]; [done|].
      specialize (Hx y Hyx). specialize (Hy x Hxy). lia. }
    f_equal. apply IH; [done..|]. intros e. specialize (He e). rewrite !elem_of_cons in He.
    split; intros Hin.
    + destruct (proj1 He (or_intror Hin)) as [-> |]; [|done]. specialize (Hx y Hin). lia.
    + destruct (proj2 He (or_intror Hin)) as [-> |]; [|done]. specialize (Hy y Hin). lia.
Qed.

(** A registered entry comes last. *)
Lemma in_order_enqueue m q r es es' :
  stored m q -> in_order q es -> in_order (enqueue r q) es' ->
  es' = es ++ [with_index (q_next q) r].
Proof.
  intros Hs [Hsort Hin] [Hsort' Hin'].
  assert (q_entries q !! q_next q = None) as Hfree.
  { apply eq_None_not_Some. intros [e He]. pose proof (st_entry _ _ Hs _ _ He). lia. }
  apply sorted_index_unique; [done| |].
  - apply StronglySorted_app_2; [|done|by repeat constructor].
    intros a b Ha ->%list_elem_of_singleton. rewrite index_with.
    apply Hin in Ha. by destruct (st_entry _ _ Hs _ _ Ha) as [[_ ?] _].
  - intros e. rewrite Hin'. unfold enqueue. cbn [q_entries].
    rewrite lookup_insert_Some, elem_of_app, list_elem_of_singleton, Hin. split.
    + intros [[_ He]|[_ He]]; auto.
    + intros [He| ->]; [right|left; by rewrite index_with]. split; [|done].
      intros Hi. rewrite Hi in Hfree. congruence.
Qed.

(** The queues are first in, first out.  Reading a queue gives its entries
    in the order of their indexes, which the text of the keys preserves; an
    entry registered in between appears at the end, with the next index, and
    nothing else changes. *)
Theorem queue_is_fifo n r d q d1 es d2 d3 es' :
  stored (kvs d) q -> q_next q < 2 ^ 63 - 1 ->
  GetEntries d = (d1, Done (Ok es)) -> RegisterEntry (S n) r d1 = (d2, Done (Ok tt)) ->
  GetEntries d2 = (d3, Done (Ok es')) ->
  in_order q es /\ es' = es ++ [with_index (q_next q) r].
Proof.
  intros Hs Hn Hg Hr Hg'.
  destruct (GetEntries_cases d q Hs) as (d1' & Hd1 & [(es0 & He & Ho)|He]); rewrite Hg in He;
    [injection He as <- <-|done].
  rewrite <- Hd1 in Hs. pose proof (register_implements n r d1 q Hs Hn) as Hi.
  rewrite Hr in Hi. inversion Hi as [? _ Hs2 Heq| |]; subst.
  destruct (GetEntries_cases d2 _ Hs2) as (d3' & _ & [(es2 & He & Ho')|He]); rewrite Hg' in He;
    [injection He as <- <-|done].
  split; [done|]. by eapply in_order_enqueue.
Qed.
End queue_reading.

(** ** Concurrent clients

    The server, several instances of the command-line tool and the integration
    with sabakan register entries at the same time; each of their requests is
    atomic, but other requests come between the two of a round.  Meanwhile the
    server deletes entries. *)
Section concurrency.
  Context {T : K8sTypes} `{!Etcd} {E : Type} `{!QueueEntry E}.
  Implicit Types (q : queue E) (r e : E) (i rev : Z) (deleted : gset Z).

(** Where a client is in [RegisterEntry]. *)
Inductive client : Type :=
| Reading (r : E)
| Writing (r : E) (i rev : Z)
| Registered (r : E) (i : Z)
| Failed.
Implicit Types cl : list client.

Definition active (c : client) : bool :=
  match c with Reading _ | Writing _ _ _ => true | _ => false end.
Definition after_read r (o : outcome (Z * Z)) : client :=
  match o with Done (Ok (i, rev)) => Writing r i rev | _ => Failed end.
Definition after_write r i (o : outcome bool) : client :=
  match o with
  | Done (Ok true) => Registered r i
  | Done (Ok false) => Reading r
  | _ => Failed
  end.

Inductive step : etcd * list client * gset Z -> etcd * list client * gset Z -> Prop :=
| step_read d cl deleted j r d' o :
    cl !! j = Some (Reading r) -> read_index (E := E) d = (d', o) ->
    step (d, cl, deleted) (d', <[ j := after_read r o ]> cl, deleted)
| step_write d cl deleted j r i rev d' o :
    cl !! j = Some (Writing r i rev) -> write_entry r i rev d = (d', o) ->
    step (d, cl, deleted) (d', <[ j := after_write r i o ]> cl, deleted)
| step_delete d cl deleted leaderKey i d' o :
    0 <= i < 2 ^ 63 -> DeleteEntry (E := E) leaderKey i d = (d', o) ->
    step (d, cl, deleted) (d', cl, {[ i ]} ∪ deleted).

Definition pending cl : Z := len (List.filter active cl).

(** The store holds a queue, in which the entries of the clients that are done
    are at different indexes; a client about to write has seen the current
    index, or its write will fail. *)
Record consistent d cl deleted q : Prop := {
  cc_stored : stored (kvs d) q;
  cc_room : q_next q + pending cl < 2 ^ 63;
  cc_done : forall j r i, cl !! j = Some (Registered r i) ->
    0 <= i < q_next q /\ (q_entries q !! i = Some (with_index i r) \/ i ∈ deleted);
  cc_distinct : forall j1 j2 r1 r2 i,
    cl !! j1 = Some (Registered r1 i) -> cl !! j2 = Some (Registered r2 i) -> j1 = j2;
  cc_seen : forall j r i rev, cl !! j = Some (Writing r i rev) ->
    rev <= mod_revision (kvs d) write_index
    /\ (rev = mod_revision (kvs d) write_index -> i = q_next q)
}.

Lemma pending_cons c cl : pending (c :: cl) = (if active c then 1 else 0) + pending cl.
Proof. unfold pending, len. simpl. destruct (active c); simpl; lia. Qed.

Lemma pending_insert cl j c c' :
  cl !! j = Some c ->
  pending (<[ j := c' ]> cl)
  = pending cl - (if active c then 1 else 0) + (if active c' then 1 else 0).
Proof.
  revert j. induction cl as [|x cl IH]; intros [|j]; cbn; [done|done| |].
  - intros [= ->]. rewrite !pending_cons. lia.
  - intros Hj. rewrite !pending_cons. etrans; [exact (f_equal (Z.add _) (IH j Hj))|lia].
Qed.

(** A client that ends up neither registered nor about to write. *)
Lemma consistent_drop d d' cl deleted q j c c' :
  consistent d cl deleted q -> cl !! j = Some c -> active c = true ->
  (c' = Failed \/ exists r, c' = Reading r) -> kvs d' = kvs d ->
  consistent d' (<[ j := c' ]> cl) deleted q.
Proof.
  intros [Hs Hroom Hdone Hdist Hseen] Hj Hact Hc' Hd.
  assert (forall k x, <[ j := c' ]> cl !! k = Some x -> x = c' \/ cl !! k = Some x) as Hk.
  { intros k x. rewrite list_lookup_insert_Some. naive_solver. }
  constructor; rewrite ?Hd; [done| | | |].
  - rewrite (pending_insert _ _ _ _ Hj), Hact. destruct (active c'); lia.
  - intros k r i [?|?]%Hk; [naive_solver|eauto].
  - intros k1 k2 r1 r2 i [?|?]%Hk [?|?]%Hk; [naive_solver..|eauto].
  - intros k r i rev [?|?]%Hk; [naive_solver|eauto].
Qed.

Lemma pending_pos cl j c : cl !! j = Some c -> active c = true -> 0 < pending cl.
Proof.
  intros Hj Hc. pose proof (pending_insert cl j c Failed Hj) as Hp. rewrite Hc in Hp. simpl in Hp.
  assert (0 <= pending (<[ j := Failed ]> cl)) by (unfold pending, len; lia). lia.
Qed.

Lemma consistent_read d d' cl deleted q j r :
  consistent d cl deleted q -> cl !! j = Some (Reading r) -> kvs d' = kvs d ->
  consistent d' (<[ j := Writing r (q_next q) (mod_revision (kvs d) write_index) ]> cl) deleted q.
Proof.
  intros [Hs Hroom Hdone Hdist Hseen] Hj Hd.
  assert (forall k x, <[ j := Writing r (q_next q) (mod_revision (kvs d) write_index) ]> cl !! k
            = Some x -> x = Writing r (q_next q) (mod_revision (kvs d) write_index)
                        \/ cl !! k = Some x) as Hk.
  { intros k x. rewrite list_lookup_insert_Some. naive_solver. }
  constructor; rewrite ?Hd; [done| | | |].
  - rewrite (pending_insert _ _ _ _ Hj). simpl. lia.
  - intros k r' i [?|?]%Hk; [done|eauto].
  - intros k1 k2 r1 r2 i [?|?]%Hk [?|?]%Hk; [done..|eauto].
  - intros k r' i rev [[= -> -> ->]|?]%Hk; [done|eauto].
Qed.

(** The new revision of the index is above all the ones seen before. *)
Lemma applied_revision (m m' : gmap string KV) ops s :
  applied (ops ++ [OpPut write_index (Text s)]) m m' ->
  mod_revision m write_index < mod_revision m' write_index.
Proof.
  intros (rev & Hpos & Hmax & ->). rewrite foldl_app. cbn [foldl apply_op].
  unfold mod_revision at 2. rewrite lookup_insert_eq. cbn [kv_ModRevision].
  unfold mod_revision. destruct (m !! write_index) as [kv|] eqn:Hkv; [|done]. by eapply Hmax.
Qed.

Lemma consistent_write d d' cl deleted q j r rev c' :
  consistent d cl deleted q -> cl !! j = Some (Writing r (q_next q) rev) ->
  applied [OpPut (entry_key (q_next q)) (to_value (with_index (q_next q) r));
           OpPut write_index (Text (FormatInt (add64 (q_next q) 1)))] (kvs d) (kvs d') ->
  (c' = Failed \/ c' = Registered r (q_next q)) ->
  consistent d' (<[ j := c' ]> cl) deleted (enqueue r q).
Proof.
  intros [Hs Hroom Hdone Hdist Hseen] Hj Ha Hc'.
  pose proof (pending_pos _ _ _ Hj eq_refl) as Hpos.
  assert (forall k x, <[ j := c' ]> cl !! k = Some x ->
            (k = j /\ x = c') \/ (k <> j /\ cl !! k = Some x)) as Hk.
  { intros k x. rewrite list_lookup_insert_Some. naive_solver. }
  pose proof (applied_revision _ _ [_] _ Ha) as Hrev.
  constructor.
  - eapply stored_enqueue; [done|lia|done].
  - rewrite (pending_insert _ _ _ _ Hj). simpl. destruct Hc' as [->| ->]; simpl; lia.
  - unfold enqueue. cbn [q_next q_entries]. intros k r' i [[_ Hx]|[_ Hx]]%Hk.
    + destruct Hc' as [->|Hc']; [done|]. rewrite Hc' in Hx. injection Hx as -> ->.
      pose proof (st_range _ _ Hs). split; [lia|]. left. by rewrite lookup_insert_eq.
    + destruct (Hdone _ _ _ Hx) as [Hi Hin]. split; [lia|].
      by rewrite lookup_insert_ne by lia.
  - intros k1 k2 r1 r2 i [[-> H1]|[? H1]]%Hk [[-> H2]|[? H2]]%Hk; [done| | |eauto].
    + destruct (Hdone _ _ _ H2). destruct Hc' as [->| ->]; [done|]. injection H1 as -> ->. lia.
    + destruct (Hdone _ _ _ H1). destruct Hc' as [->| ->]; [done|]. injection H2 as -> ->. lia.
  - intros k r' i rev' [[_ Hx]|[_ Hx]]%Hk; [naive_solver|].
    destruct (Hseen _ _ _ _ Hx) as [Hle _]. split; [lia|]. lia.
Qed.

Lemma consistent_delete d d' cl deleted q i :
  consistent d cl deleted q -> 0 <= i < 2 ^ 63 ->
  applied [OpDelete (entry_key (E := E) i)] (kvs d) (kvs d') ->
  consistent d' cl ({[ i ]} ∪ deleted) (dequeue i q).
Proof.
  intros [Hs Hroom Hdone Hdist Hseen] Hi Ha. pose proof (stored_dequeue _ _ _ _ Hs Hi Ha) as Hs'.
  assert (mod_revision (kvs d') write_index = mod_revision (kvs d) write_index) as Hm.
  { destruct Ha as (rev & _ & _ & ->). cbn [foldl apply_op]. unfold mod_revision.
    by rewrite lookup_delete_ne by apply entry_key_not_index. }
  constructor; [done|done| |done|by rewrite Hm].
  intros j r k Hj. destruct (Hdone _ _ _ Hj) as [Hk Hin]. split; [done|].
  destruct (decide (k = i)) as [->|Hne]; [right; set_solver|].
  destruct Hin as [Hin|Hin]; [left|right; set_solver]. by apply lookup_delete_Some.
Qed.

(** What a step does to the queue. *)
Definition evolves q deleted q' : Prop :=
  q' = q \/ (exists r, q' = enqueue r q) \/ (exists i, q' = dequeue i q /\ i ∈ deleted).

Lemma step_consistent d cl deleted d' cl' deleted' q :
  step (d, cl, deleted) (d', cl', deleted') -> consistent d cl deleted q ->
  deleted ⊆ deleted' /\ exists q', consistent d' cl' deleted' q' /\ evolves q deleted' q'.
Proof.
  intros Hstep Hc. unfold evolves. pose proof (cc_stored _ _ _ _ Hc) as Hs.
  inversion Hstep as [? ? ? j r ? o Hj Hr|? ? ? j r i rev ? o Hj Hw|? ? ? lk i ? o Hi Hd]; subst.
  - split; [done|]. exists q. split; [|by left].
    destruct (read_index_cases d q Hs) as (d1 & Hd1 & [He|He]); rewrite Hr in He;
      injection He as <- ->; cbn [after_read].
    + by apply consistent_read.
    + eapply consistent_drop; [done|done|done|by left|done].
  - split; [done|]. destruct (cc_seen _ _ _ _ Hc _ _ _ _ Hj) as [_ Hseen].
    destruct (write_entry_cases d r i rev) as (d1 & [(He & Hm & Ha)|[(He & Hm & Ha)|[He Ha]]]);
      rewrite Hw in He; injection He as <- ->; cbn [after_write].
    + specialize (Hseen (eq_sym Hm)) as ->. exists (enqueue r q).
      split; [eapply consistent_write; [done|done|done|by right]|right; left; by exists r].
    + exists q. split; [|by left]. eapply consistent_drop; [done|done|done|right; by exists r|done].
    + destruct Ha as [Ha|[Hm Ha]].
      * exists q. split; [|by left]. eapply consistent_drop; [done|done|done|by left|done].
      * specialize (Hseen (eq_sym Hm)) as ->. exists (enqueue r q).
        split; [eapply consistent_write; [done|done|done|by left]|right; left; by exists r].
  - split; [set_solver|].
    destruct (as_leader_cases lk [OpDelete (entry_key (E := E) i)] d) as (d1 & Hcase).
    unfold DeleteEntry in Hd. rewrite Hd in Hcase.
    assert (kvs d' = kvs d \/ applied [OpDelete (entry_key (E := E) i)] (kvs d) (kvs d')) as [Hk|Ha].
    { destruct Hcase as [(He & _ & Ha)|[(He & _ & Ha)|[He [Ha|[_ Ha]]]]];
        injection He as <- ->; auto. }
    + exists q. split; [|by left]. destruct Hc as [_ Hroom Hdone Hdist Hseen].
      constructor; rewrite ?Hk; [done|done| |done|done].
      intros j r k Hj. destruct (Hdone _ _ _ Hj) as [? [?|?]]; split; [done|auto|done|].
      right. set_solver.
    + exists (dequeue i q). split; [by eapply consistent_delete|]. right; right. exists i. set_solver.
Qed.

(** What was in the queue stays there unless it is deleted. *)
Definition kept q0 deleted q : Prop :=
  forall i e, q_entries q0 !! i = Some e -> q_entries q !! i = Some e \/ i ∈ deleted.

Lemma kept_evolves m q0 deleted deleted' q q' :
  stored m q -> kept q0 deleted q -> deleted ⊆ deleted' -> evolves q deleted' q' ->
  kept q0 deleted' q'.
Proof.
  intros Hs Hk Hsub Hev i e He. destruct (Hk i e He) as [Hq|Hd]; [|right; set_solver].
  destruct Hev as [->|[[r ->]|(k & -> & Hk')]]; [by left| |].
  - left. unfold enqueue. cbn [q_entries]. rewrite lookup_insert_ne; [done|].
    pose proof (st_entry _ _ Hs _ _ Hq). lia.
  - destruct (decide (i = k)) as [->|Hne]; [by right|left]. by apply lookup_delete_Some.
Qed.

Definition all_start cl : Prop := Forall (fun c => exists r, c = Reading r) cl.

Lemma start_consistent d cl q :
  stored (kvs d) q -> all_start cl -> q_next q + len cl < 2 ^ 63 -> consistent d cl ∅ q.
Proof.
  intros Hs Hall Hroom. unfold all_start in Hall. rewrite Forall_forall in Hall.
  assert (forall j c, cl !! j = Some c -> exists r, c = Reading r) as Hc.
  { intros j c Hj. by eapply Hall, list_elem_of_lookup_2. }
  constructor; [done| |by intros j r i [? [=]]%Hc|by intros j1 j2 r1 r2 i [? [=]]%Hc
               |by intros j r i rev [? [=]]%Hc].
  assert (pending cl <= len cl); [|lia]. unfold pending, len. pose proof (filter_length_le active cl).
  lia.
Qed.

Lemma reachable_consistent d0 cl0 q0 s :
  rtc step (d0, cl0, ∅) s -> consistent d0 cl0 ∅ q0 ->
  let '(d, cl, deleted) := s in exists q, consistent d cl deleted q /\ kept q0 deleted q.
Proof.
  intros Hsteps Hc0. revert s Hsteps. apply rtc_ind_r.
  - exists q0. split; [done|]. intros i e He. by left.
  - intros [[d1 cl1] deleted1] [[d2 cl2] deleted2] _ Hstep (q & Hc & Hk).
    destruct (step_consistent _ _ _ _ _ _ _ Hstep Hc) as (Hsub & q' & Hc' & Hev).
    exists q'. split; [done|]. eapply kept_evolves; [apply (cc_stored _ _ _ _ Hc)|done..].
Qed.

(** C26: registering entries is safe while other clients do the same.  However
    the requests of any number of clients and the deletions of the server are
    interleaved, the store holds a proper queue; clients that are done have got
    different indexes, their entries and the ones that were there before are in
    the queue unless they have been deleted; and a client has to retry only
    because another one has registered an entry in the meantime. *)
Theorem concurrent_registrations d0 cl0 q0 d cl deleted :
  stored (kvs d0) q0 -> all_start cl0 -> q_next q0 + len cl0 < 2 ^ 63 ->
  rtc step (d0, cl0, ∅) (d, cl, deleted) ->
  exists q, stored (kvs d) q /\ kept q0 deleted q
    /\ (forall j r i, cl !! j = Some (Registered r i) ->
          q_entries q !! i = Some (with_index i r) \/ i ∈ deleted)
    /\ (forall j1 j2 r1 r2 i, cl !! j1 = Some (Registered r1 i) ->
          cl !! j2 = Some (Registered r2 i) -> j1 = j2)
    /\ (forall j r i rev d', cl !! j = Some (Writing r i rev) ->
          write_entry r i rev d = (d', Done (Ok false)) ->
          rev < mod_revision (kvs d) write_index).
Proof.
  intros Hs Hall Hroom Hsteps.
  destruct (reachable_consistent _ _ _ _ Hsteps (start_consistent _ _ _ Hs Hall Hroom))
    as (q & Hc & Hk).
  exists q. split_and!; [apply (cc_stored _ _ _ _ Hc)|done| |apply (cc_distinct _ _ _ _ Hc)|].
  - intros j r i Hj. apply (cc_done _ _ _ _ Hc _ _ _ Hj).
  - intros j r i rev d' Hj Hw. destruct (cc_seen _ _ _ _ Hc _ _ _ _ Hj) as [Hle _].
    destruct (write_entry_cases d r i rev) as (d1 & [(He & _)|[(_ & Hm & _)|[He _]]]);
      [rewrite Hw in He; discriminate|lia|rewrite Hw in He; discriminate].
Qed.
End concurrency.

(** ** Records *)
Section record_facts.
  Context {T : K8sTypes} `{!Etcd}.
  Implicit Types (m : gmap string KV) (l : list (string * KV)).

(** What is between two texts with a prefix has the prefix. *)
Lemma between_prefix p a b k : in_range (p +:+ a) (p +:+ b) k = true -> HasPrefix k p = true.
Proof.
  unfold in_range, str_less, HasPrefix. revert k.
  induction p as [|c p IH]; intros k; [by destruct k|].
  change (String c p +:+ a) with (String c (p +:+ a)).
  change (String c p +:+ b) with (String c (p +:+ b)).
  destruct k as [|x k]; [discriminate|]. cbn [String.compare String.prefix].
  intros Hr. destruct (Ascii.compare x c) eqn:Hc; [|done|by rewrite andb_false_r in Hr].
  apply Ascii.compare_eq_iff in Hc as ->. destruct (ascii_dec c c); [|done]. by apply IH.
Qed.

Lemma HasPrefix_split k p : HasPrefix k p = true -> exists s, k = p +:+ s.
Proof.
  unfold HasPrefix. revert k. induction p as [|c p IH]; intros k; [by exists k|].
  destruct k as [|x k]; [done|]. cbn [String.prefix].
  destruct (ascii_dec c x) as [->|]; [|done]. intros [s ->]%IH. by exists s.
Qed.

(** Sorted lists are cut by the range of the keys before an element. *)
Lemma sorted_range l1 x l2 y l3 k kv :
  StronglySorted (before false) (x :: l2) -> x :: l2 = l1 ++ y :: l3 -> (k, kv) ∈ x :: l2 ->
  in_range (fst x) (fst y) k = true <-> (k, kv) ∈ l1.
Proof.
  intros Hsort Heq Hin. assert (str_less k (fst x) = false) as Hx.
  { apply elem_of_cons in Hin as [<-|Hin]; [apply str_less_irrefl|].
    inversion_clear Hsort as [|? ? _ Hx]. rewrite Forall_forall in Hx.
    specialize (Hx _ Hin). unfold before in Hx. simpl in Hx.
    destruct (str_less k (fst x)) eqn:Hk; [|done].
    pose proof (str_less_trans _ _ _ Hk Hx) as Ht. by rewrite str_less_irrefl in Ht. }
  unfold in_range. rewrite Hx. simpl. rewrite Heq in Hsort, Hin.
  apply StronglySorted_app in Hsort as (Hcross & _ & Hsort2). split.
  - intros Hk. apply elem_of_app in Hin as [|Hin]; [done|]. exfalso.
    apply elem_of_cons in Hin as [<-|Hin]; [by rewrite str_less_irrefl in Hk|].
    inversion_clear Hsort2 as [|? ? _ Hy]. rewrite Forall_forall in Hy. specialize (Hy _ Hin).
    unfold before in Hy. simpl in Hy. pose proof (str_less_trans _ _ _ Hk Hy) as Ht.
    by rewrite str_less_irrefl in Ht.
  - intros Hk. apply (Hcross (k, kv) y); [done|left].
Qed.

Lemma listed_prefix m l x :
  l ≡ₚ prefixed KeyRecords m -> x ∈ l -> exists s, fst x = KeyRecords +:+ s.
Proof.
  intros Hp Hx. rewrite Hp in Hx. destruct x as [k kv].
  apply elem_of_prefixed in Hx as [_ Hx]. by apply HasPrefix_split.
Qed.

(** Deleting the range from the first key of a listing up to another one
    deletes the keys listed before that one. *)
Lemma range_deletes m rev l n y :
  listing KeyRecords (Some false) m l -> l !! n = Some y -> forall x l2, l = x :: l2 ->
  forall k, apply_op rev m (OpDeleteRange (fst x) (fst y)) !! k
            = if decide (k ∈ (take n l).*1) then None else m !! k.
Proof.
  intros [Hp Hsort] Hy x l2 Hl k. cbn [apply_op]. pose proof (take_drop_middle _ _ _ Hy) as Hcut.
  assert (forall kv, (k, kv) ∈ l <-> m !! k = Some kv /\ HasPrefix k KeyRecords = true) as Hin
    by (intros kv; rewrite Hp; apply elem_of_prefixed).
  destruct (m !! k) as [kv|] eqn:Hk.
  2:{ rewrite map_lookup_filter, Hk. simpl. by case_decide. }
  rewrite map_lookup_filter, Hk. simpl. rewrite Hl in Hsort.
  assert (in_range (fst x) (fst y) k = true <-> k ∈ (take n l).*1) as Hiff.
  { transitivity ((k, kv) ∈ take n l).
    - destruct (HasPrefix k KeyRecords) eqn:Hpre.
      + eapply (sorted_range _ _ l2); [done|by rewrite Hcut, <- Hl|]. rewrite <- Hl. by apply Hin.
      + split; intros Hr; exfalso.
        * destruct (listed_prefix m l x Hp) as [a Ha]; [rewrite Hl; left|].
          destruct (listed_prefix m l y Hp) as [b Hb]; [by eapply list_elem_of_lookup_2|].
          rewrite Ha, Hb in Hr. apply between_prefix in Hr. congruence.
        * apply subseteq_take, Hin in Hr as [_ ?]. congruence.
    - split; [intros Ht; by apply (list_elem_of_fmap_2 fst _ (k, kv))|].
      intros ([k' kv'] & Hk' & Ht)%list_elem_of_fmap_1. simpl in Hk'. subst k'.
      assert ((k, kv') ∈ l) as [Hkv' _]%Hin; [|by injection Hkv' as <-].
      rewrite <- (take_drop n l). apply elem_of_app. by left. }
  destruct (in_range (fst x) (fst y) k).
  - rewrite decide_True by (by apply Hiff). done.
  - rewrite decide_False; [done|]. intros Hd. by apply Hiff in Hd.
Qed.

(** [m'] is [m], whose records are [l], without its oldest records, so that at
    most [max] of them are left. *)
Definition pruned l (max : Z) m m' : Prop :=
  listing KeyRecords (Some false) m l
    /\ forall k, m' !! k = if decide (k ∈ (take (length l - Z.to_nat max) l).*1) then None
                          else m !! k.

Lemma maintRecords_Ok leaderKey max d d' u :
  0 < max -> maintRecords leaderKey max d = (d', Done (Ok u)) -> exists l, pruned l max (kvs d) (kvs d').
Proof.
  intros Hmax. unfold maintRecords, mbind, sto_bind.
  destruct (GetPrefix_cases KeyRecords (Some false) d) as (d1 & Hd1 & [(l & -> & Hl)| ->]); [|done].
  intros Hr. exists l. split; [done|]. destruct (Z.leb_spec (len l) max) as [Hle|Hgt].
  { injection Hr as <-. intros k. rewrite Hd1. unfold len in Hle.
    replace (length l - Z.to_nat max)%nat with 0%nat by lia.
    case_decide as Hk; [by apply elem_of_nil in Hk|done]. }
  destruct l as [|[startKey v] l2]; [done|]. set (l := (startKey, v) :: l2) in *.
  unfold len, panic in *. replace (Z.to_nat (Z.of_nat (length l) - max))
    with (length l - Z.to_nat max)%nat in Hr by lia.
  destruct (l !! (length l - Z.to_nat max)%nat) as [[endKey v']|] eqn:Hy; [|done].
  unfold delete_range in Hr.
  destruct (etcd_txn [KeyExists leaderKey] [OpDeleteRange startKey endKey] d1)
    as [d2 [[]|]] eqn:Ht; [|done|done]. injection Hr as <-.
  apply txn_spec in Ht as [_ (rev & _ & _ & Ha)]. cbn [foldl] in Ha. rewrite Hd1 in Ha.
  intros k. rewrite Ha. by apply (range_deletes _ _ l _ (endKey, v') Hl Hy (startKey, v) l2).
Qed.

Lemma before_NoDup l : StronglySorted (before false) l -> NoDup l.*1.
Proof.
  induction 1 as [|[k kv] l _ IH Hx]; [constructor|]. rewrite fmap_cons. constructor; [|done].
  intros ([k' kv'] & Hk & Hin)%list_elem_of_fmap_1. simpl in Hk. subst k'.
  rewrite Forall_forall in Hx. specialize (Hx _ Hin). unfold before in Hx. simpl in Hx.
  by rewrite str_less_irrefl in Hx.
Qed.

(** The rest of the listing is the listing of the rest. *)
Lemma pruned_rest l max m m' :
  pruned l max m m' -> prefixed KeyRecords m' ≡ₚ drop (length l - Z.to_nat max) l.
Proof.
  intros ([Hp Hsort] & Hm').
  pose proof (before_NoDup _ Hsort) as Hnd. set (n := (length l - Z.to_nat max)%nat) in *.
  apply NoDup_Permutation.
  - apply filterb_NoDup, NoDup_map_to_list.
  - apply (NoDup_fmap_1 fst). rewrite <- (take_drop n l), fmap_app in Hnd.
    by apply NoDup_app in Hnd as (_ & _ & ?).
  - intros [k kv]. rewrite elem_of_prefixed, Hm'.
    rewrite <- (take_drop n l), fmap_app in Hnd. apply NoDup_app in Hnd as (_ & Hdis & _).
    assert ((k, kv) ∈ l <-> m !! k = Some kv /\ HasPrefix k KeyRecords = true) as Hin
      by (rewrite Hp; apply elem_of_prefixed).
    rewrite <- (take_drop n l), elem_of_app in Hin.
    destruct (decide (k ∈ (take n l).*1)) as [Hk|Hk].
    + split; [naive_solver|]. intros Hd. destruct (Hdis k Hk).
      by apply (list_elem_of_fmap_2 fst _ (k, kv)).
    + rewrite <- Hin. split; [|by right]. intros [Ht|]; [|done]. destruct Hk.
      by apply (list_elem_of_fmap_2 fst _ (k, kv)).
Qed.

(** The store after the transaction of [RegisterRecord]. *)
Definition with_record (rev : Z) (r : OpRecord) m : gmap string KV :=
  <[ KeyRecordID := mkKV (Text (FormatInt (add64 (r_ID r) 1))) rev ]>
    (<[ recordKey r := mkKV (RecordJSON r) rev ]> m).

Lemma RegisterRecord_Ok leaderKey r d d' u :
  RegisterRecord leaderKey r d = (d', Done (Ok u)) ->
  is_Some (kvs d !! leaderKey)
  /\ exists rev l, pruned l maxRecords (with_record rev r (kvs d)) (kvs d').
Proof.
  unfold RegisterRecord, mbind, sto_bind.
  destruct (as_leader_cases leaderKey [OpPut (recordKey r) (RecordJSON r);
              OpPut KeyRecordID (Text (FormatInt (add64 (r_ID r) 1)))] d)
    as (d1 & [(-> & Hl & (rev & _ & _ & Ha))|[(-> & _)|[-> _]]]); [|done|done].
  intros [l Hm]%maintRecords_Ok; [|done]. split; [done|]. exists rev, l.
  cbn [foldl apply_op] in Ha. by rewrite Ha in Hm.
Qed.

Lemma with_record_lookup rev r m key :
  HasPrefix key KeyRecords = true -> key <> recordKey r -> with_record rev r m !! key = m !! key.
Proof.
  intros Hp Hne. unfold with_record. rewrite !lookup_insert_ne; [done|done|].
  by intros <-.
Qed.

(** A record that is removed is older than all that are left. *)
Lemma pruned_oldest l max m m' k k' :
  pruned l max m m' -> is_Some (m !! k) -> m' !! k = None ->
  HasPrefix k' KeyRecords = true -> is_Some (m' !! k') -> str_less k k' = true.
Proof.
  intros Hpr [kv Hk] Hnone Hp' [kv' Hk']. pose proof (pruned_rest _ _ _ _ Hpr) as Hrest.
  destruct Hpr as ([_ Hsort] & Hm'). rewrite Hm' in Hnone.
  destruct (decide _) as [([x v] & -> & Hx)%list_elem_of_fmap_1|]; [|congruence].
  assert ((k', kv') ∈ drop (length l - Z.to_nat max) l) as Hk2.
  { rewrite <- Hrest. by apply elem_of_prefixed. }
  rewrite <- (take_drop (length l - Z.to_nat max) l) in Hsort.
  exact (StronglySorted_app_1_elem_of _ _ _ _ _ Hsort Hx Hk2).
Qed.

(** The newest record is not removed. *)
Lemma pruned_newest l max m m' k :
  0 < max -> pruned l max m m' -> is_Some (m !! k) -> HasPrefix k KeyRecords = true ->
  (forall k', HasPrefix k' KeyRecords = true -> is_Some (m !! k') -> str_less k k' = false) ->
  m' !! k = m !! k.
Proof.
  intros Hmax Hpr Hk Hp Hnew. destruct (m' !! k) as [kv|] eqn:Hm'k.
  { destruct Hpr as [_ Hm']. rewrite Hm' in Hm'k. case_decide; [done|congruence]. }
  exfalso. pose proof Hpr as ([Hperm Hsort] & Hm'). pose proof (pruned_rest _ _ _ _ Hpr) as Hrest.
  destruct (drop (length l - Z.to_nat max) l) as [|[k' kv'] rest] eqn:Hd.
  - assert (l = []) as ->.
    { apply length_zero_iff_nil. pose proof (f_equal length Hd) as Hlen.
      rewrite length_drop in Hlen. simpl in Hlen. lia. }
    destruct Hk as [kv Hk]. assert ((k, kv) ∈ ([] : list (string * KV))) as Hin.
    { rewrite Hperm. by apply elem_of_prefixed. }
    by apply elem_of_nil in Hin.
  - assert ((k', kv') ∈ prefixed KeyRecords m') as [Hk' Hp']%elem_of_prefixed
      by (rewrite Hrest; left).
    assert (is_Some (m !! k')) as Hmk'.
    { rewrite Hm' in Hk'. case_decide; [done|]. by eexists. }
    pose proof (pruned_oldest _ _ _ _ k k' Hpr Hk Hm'k Hp' ltac:(by eexists)) as Hlt.
    rewrite (Hnew k' Hp' Hmk') in Hlt. done.
Qed.

(** C36: registering a record keeps at most a thousand of them.  It succeeds
    only for the leader; the oldest records are removed until a thousand are
    left, the new one is stored if no newer one is there, the next number is
    set, and nothing else in the storage changes. *)
Theorem records_bounded leaderKey r d d' u :
  RegisterRecord leaderKey r d = (d', Done (Ok u)) ->
  is_Some (kvs d !! leaderKey)
  /\ len (prefixed KeyRecords (kvs d')) <= maxRecords
  /\ (forall k k', HasPrefix k KeyRecords = true -> HasPrefix k' KeyRecords = true ->
        is_Some (kvs d !! k) -> kvs d' !! k = None -> is_Some (kvs d' !! k') ->
        str_less k k' = true)
  /\ ((forall k, HasPrefix k KeyRecords = true -> is_Some (kvs d !! k) ->
         str_less (recordKey r) k = false) ->
      kv_Value <$> kvs d' !! recordKey r = Some (RecordJSON r))
  /\ kv_Value <$> kvs d' !! KeyRecordID = Some (Text (FormatInt (add64 (r_ID r) 1)))
  /\ (forall k, HasPrefix k KeyRecords = false -> k <> KeyRecordID -> kvs d' !! k = kvs d !! k).
Proof.
  intros (Hl & rev & l & Hpr)%RegisterRecord_Ok. split; [done|].
  assert (forall k, HasPrefix k KeyRecords = false ->
            kvs d' !! k = with_record rev r (kvs d) !! k) as Hother.
  { intros k Hp. pose proof Hpr as ([Hperm _] & ->). case_decide as Hk; [|done]. exfalso.
    apply list_elem_of_fmap_1 in Hk as ([x v] & -> & Hx%subseteq_take).
    rewrite Hperm in Hx. apply elem_of_prefixed in Hx as [_ Hx]. simpl in Hp. congruence. }
  assert (forall k, is_Some (kvs d !! k) -> is_Some (with_record rev r (kvs d) !! k)) as Hmore.
  { intros k Hk. unfold with_record.
    by repeat (rewrite lookup_insert_is_Some'; right). }
  assert (with_record rev r (kvs d) !! recordKey r = Some (mkKV (RecordJSON r) rev)) as Hrec.
  { unfold with_record. rewrite lookup_insert_ne, lookup_insert_eq; [done|]. done. }
  split_and!.
  - unfold len. rewrite (pruned_rest _ _ _ _ Hpr), length_drop. unfold maxRecords. lia.
  - intros k k' _ Hp' Hk Hn Hk'. eapply pruned_oldest; eauto.
  - intros Hnew. rewrite (pruned_newest l maxRecords _ _ (recordKey r) ltac:(done) Hpr), Hrec; [done|by eexists| |].
    + apply HasPrefix_app.
    + intros k Hp Hk. destruct (decide (k = recordKey r)) as [->|Hne]; [apply str_less_irrefl|].
      rewrite with_record_lookup in Hk by done. by apply Hnew.
  - rewrite Hother by done. unfold with_record. by rewrite lookup_insert_eq.
  - intros k Hp Hne. rewrite Hother by done. unfold with_record.
    rewrite !lookup_insert_ne; [done| |done]. intros <-.
    unfold recordKey in Hp. by rewrite HasPrefix_app in Hp.
Qed.
End record_facts.

(** ** An etcd in memory

    It never fails; a transaction has the revision after the newest one. *)
Section memory_etcd.
  Context {T : K8sTypes}.

Local Abbreviation mem_store := (gmap string (value * positive)).
Definition mem_kvs (d : mem_store) : gmap string KV :=
  (fun '(v, rev) => mkKV v (Zpos rev)) <$> d.
Definition newest (d : mem_store) : positive := map_fold (fun _ '(_, rev) m => Pos.max rev m) 1%positive d.
Definition mem_apply (rev : positive) (d : mem_store) (o : Op) : mem_store :=
  match o with
  | OpPut key v => <[ key := (v, rev) ]> d
  | OpDelete key => delete key d
  | OpDeleteRange from upto => filter (fun kv => in_range from upto (fst kv) = false) d
  end.
Definition mem_txn (cs : list Cmp) (ops : list Op) (d : mem_store) : mem_store * option bool :=
  if forallb (cmp_holds (mem_kvs d)) cs
  then (foldl (mem_apply (Pos.succ (newest d))) d ops, Some true)
  else (d, Some false).
Definition key_less (descending : bool) (a b : string * KV) : bool :=
  if descending then str_less (fst b) (fst a) else str_less (fst a) (fst b).
Definition mem_list (prefix : string) (order : option bool) (d : mem_store) : list (string * KV) :=
  let l := prefixed prefix (mem_kvs d) in
  match order with Some descending => isort (key_less descending) l | None => l end.

Lemma newest_le d key v rev : d !! key = Some (v, rev) -> (rev <= newest d)%positive.
Proof.
  revert key v rev. unfold newest. apply (map_fold_weak_ind (fun m (d : mem_store) =>
    forall key v rev, d !! key = Some (v, rev) -> (rev <= m)%positive)); [done|].
  intros k [v' rev'] d' m _ IH key v rev. rewrite lookup_insert_Some.
  intros [[_ [= -> ->]]|[_ Hd]]; [lia|]. specialize (IH _ _ _ Hd). lia.
Qed.

Lemma mem_apply_kvs rev d o : mem_kvs (mem_apply rev d o) = apply_op (Zpos rev) (mem_kvs d) o.
Proof.
  destruct o as [key v|key|from upto]; unfold mem_kvs; simpl.
  - by rewrite fmap_insert.
  - by rewrite fmap_delete.
  - rewrite map_filter_fmap. f_equal.
Qed.

Lemma mem_applied d ops :
  applied ops (mem_kvs d) (mem_kvs (foldl (mem_apply (Pos.succ (newest d))) d ops)).
Proof.
  exists (Zpos (Pos.succ (newest d))). split_and!; [done| |].
  - intros key kv. unfold mem_kvs. rewrite lookup_fmap_Some.
    intros ([v rev] & <- & Hd%newest_le). simpl. lia.
  - generalize (Pos.succ (newest d)). intros rev. revert d.
    induction ops as [|o ops IH]; intros d; simpl; [done|]. by rewrite IH, mem_apply_kvs.
Qed.

Lemma key_less_swo descending : strict_weak_order (key_less descending).
Proof.
  unfold key_less. split.
  - intros a. destruct descending; apply str_less_irrefl.
  - intros a b c. destruct descending; intros H1 H2; eapply str_less_trans; eauto.
  - intros a b c. destruct descending; intros H1 H2; eapply (swo_incomp _ str_less_swo); eauto.
Qed.

Lemma key_less_before descending (l : list (string * KV)) :
  sorted_by (key_less descending) l -> NoDup l.*1 -> StronglySorted (before descending) l.
Proof.
  induction 1 as [|x l _ IH Hx]; [constructor|]. rewrite fmap_cons.
  intros [Hn Hnd]%NoDup_cons. constructor; [by apply IH|].
  rewrite Forall_forall in Hx |- *. intros y Hy. specialize (Hx y Hy).
  assert (fst x <> fst y) as Hne.
  { intros He. apply Hn. rewrite He. by apply list_elem_of_fmap_2. }
  unfold key_less, before in *.
  destruct descending, (str_less (fst x) (fst y)) eqn:H1, (str_less (fst y) (fst x)) eqn:H2;
    try done; destruct Hne; by apply str_less_total.
Qed.

Lemma mem_list_listing prefix order d :
  listing prefix order (mem_kvs d) (mem_list prefix order d).
Proof.
  unfold mem_list, listing. destruct order as [descending|]; [|done].
  split; [apply isort_perm|]. apply key_less_before; [apply isort_sorted, key_less_swo|].
  rewrite isort_perm. apply (sublist_NoDup _ (map_to_list (mem_kvs d)).*1);
    [apply NoDup_fst_map_to_list|apply fmap_sublist, filterb_sublist].
Qed.

Program Definition memory_etcd : Etcd := {|
  etcd := mem_store;
  kvs := mem_kvs;
  etcd_get key d := (d, Some (mem_kvs d !! key));
  etcd_prefix prefix order limit d :=
    (d, Some (if 0 <? limit then take (Z.to_nat limit) (mem_list prefix order d)
              else mem_list prefix order d));
  etcd_gets keys d := (d, Some ((fun key => mem_kvs d !! key) <$> keys));
  etcd_txn := mem_txn
|}.
Next Obligation. intros key d d' r [= <- <-]. split; [done|]. by intros kv [= <-]. Qed.
Next Obligation.
  intros prefix order limit d d' r [= <- <-]. split; [done|]. intros l [= <-].
  exists (mem_list prefix order d). split; [apply mem_list_listing|done].
Qed.
Next Obligation. intros keys d d' r [= <- <-]. split; [done|]. by intros l [= <-]. Qed.
Next Obligation.
  intros cs ops d d' r. unfold mem_txn.
  destruct (forallb (cmp_holds (mem_kvs d)) cs) eqn:Hc; intros [= <- <-]; [|done].
  split; [done|]. apply mem_applied.
Qed.
Next Obligation.
  intros d key kv. unfold mem_kvs. rewrite lookup_fmap_Some. by intros ([v rev] & <- & _).
Qed.
End memory_etcd.

(** ** Examples *)
#[local] Existing Instance sample_types.
#[local] Existing Instance memory_etcd.

Definition empty_queue : queue RebootQueueEntry := mkQueue ∅ 0.
Lemma stored_empty : stored (kvs (∅ : etcd)) empty_queue.
Proof.
  constructor; [done|done|done|]. by intros key [kv Hk].
Qed.

Lemma storage_implements_queue_witness :
  implements (∅ : etcd) empty_queue (Register (NewRebootQueueEntry "10.0.0.11"))
    (run_queue_op 1 (Register (NewRebootQueueEntry "10.0.0.11")) (∅ : etcd))
  /\ snd (run_queue_op 1 (Register (NewRebootQueueEntry "10.0.0.11")) (∅ : etcd)) = Done (Ok tt).
Proof.
  split; [|vm_compute; reflexivity].
  apply (storage_implements_queue 0 (Register (NewRebootQueueEntry "10.0.0.11")) (∅ : etcd)
           empty_queue); [apply stored_empty|reflexivity].
Defined.

Definition entry_a : RebootQueueEntry := NewRebootQueueEntry "10.0.0.11".
Definition entry_b : RebootQueueEntry := NewRebootQueueEntry "10.0.0.12".
Definition one_entry : etcd := fst (RegisterEntry 1 entry_a (∅ : etcd)).

Lemma queue_is_fifo_witness :
  exists d3 es', GetEntries one_entry = (d3, Done (Ok es'))
    /\ in_order empty_queue [] /\ es' = [] ++ [with_index 0 entry_a].
Proof.
  eexists _, _. split; [vm_compute; reflexivity|].
  eapply (queue_is_fifo 0 entry_a (∅ : etcd) empty_queue ∅ [] one_entry one_entry);
    [apply stored_empty|reflexivity|vm_compute; reflexivity..].
Defined.

(** Two clients read the same index; the second one has to try again. *)
Definition two_entries : etcd := fst (write_entry entry_b 1 2 one_entry).

Lemma two_clients :
  rtc step ((∅ : etcd), [Reading entry_a; Reading entry_b], ∅)
    (two_entries, [Registered entry_a 0; Registered entry_b 1], ∅).
Proof.
  eapply rtc_l; [by apply (step_read _ _ _ 0 entry_a ∅ (Done (Ok (0, 0))))|].
  eapply rtc_l; [by apply (step_read _ _ _ 1 entry_b ∅ (Done (Ok (0, 0))))|].
  eapply rtc_l; [by apply (step_write _ _ _ 0 entry_a 0 0 one_entry (Done (Ok true)))|].
  eapply rtc_l; [by apply (step_write _ _ _ 1 entry_b 0 0 one_entry (Done (Ok false)))|].
  eapply rtc_l; [by apply (step_read _ _ _ 1 entry_b one_entry (Done (Ok (1, 2))))|].
  eapply rtc_l; [by apply (step_write _ _ _ 1 entry_b 1 2 two_entries (Done (Ok true)))|].
  apply rtc_refl.
Qed.

Lemma concurrent_registrations_witness :
  exists q, stored (kvs two_entries) q
    /\ (q_entries q !! 0 = Some (with_index 0 entry_a) \/ 0 ∈ (∅ : gset Z))
    /\ (q_entries q !! 1 = Some (with_index 1 entry_b) \/ 1 ∈ (∅ : gset Z)).
Proof.
  destruct (concurrent_registrations (∅ : etcd) [Reading entry_a; Reading entry_b] empty_queue
              two_entries [Registered entry_a 0; Registered entry_b 1] ∅) as (q & Hs & _ & Hd & _);
    [apply stored_empty|repeat constructor; by eexists|reflexivity|apply two_clients|].
  exists q. split; [exact Hs|]. split; [exact (Hd 0%nat _ _ eq_refl)|exact (Hd 1%nat _ _ eq_refl)].
Defined.

(** A leader registers its first record. *)
Definition leader_store : etcd := {[ "leader/1" := (Text "host", 1%positive) ]}.
Definition first_record : OpRecord := NewRecord 0 1 "upgrade" ["10.0.0.11"].

Lemma records_bounded_witness :
  len (prefixed KeyRecords (kvs (fst (RegisterRecord "leader/1" first_record leader_store))))
  <= maxRecords.
Proof.
  apply (records_bounded "leader/1" first_record leader_store
           (fst (RegisterRecord "leader/1" first_record leader_store)) tt).
  vm_compute. reflexivity.
Defined.
