(* ===== verification/Reboot.v ===== *)
(** * Draining and rebooting nodes

    op/reboot_decide.go, op/reboot.go and the commands of the repair queue
    (op/repair_*.go): which entries of the reboot queue come next, how pods are
    evicted, and what the commands do to the entries.  The API server, the
    clock, random numbers and the programs the operator configures are the
    class [Platform]. *)

From Stdlib Require Import ZArith Ascii String Lia.
From stdpp Require Import base gmap strings list.
From S2P Require Import Prelude GoLib GoFormat K8s Cluster Queue Resource Status Storage.

(** ** Choosing entries *)
Section decide.
  Context {T : K8sTypes}.
  Implicit Types (c : Cluster) (entry : RebootQueueEntry) (rqEntries : list RebootQueueEntry).

Definition status_is (entry : RebootQueueEntry) (status : string) : bool :=
  (rqe_Status entry =? status)%string.
Definition in_progress entry : bool :=
  status_is entry RebootStatusDraining || status_is entry RebootStatusRebooting.

(** The loop sorts the entries of cluster members by status and by whether the
    node is an API server; queued entries that are backing off are left out. *)
Definition ChooseRebootCandidates c (apiServers : string -> bool) (now : Z) rqEntries
    : list RebootQueueEntry :=
  let maxConcurrentReboots := default DefaultMaxConcurrentReboots (rb_MaxConcurrentReboots (c_Reboot c)) in
  let members := List.filter (fun entry => ClusterMember entry c) rqEntries in
  let running := List.filter in_progress members in
  let drainable := List.filter (fun entry =>
    status_is entry RebootStatusQueued && negb (now <? rqe_DrainBackOffExpire entry)) members in
  let apiServerInProgress := existsb (fun entry => apiServers (rqe_Node entry)) running in
  let apiServerDrainable := List.find (fun entry => apiServers (rqe_Node entry)) drainable in
  let workerInProgress := List.filter (fun entry => negb (apiServers (rqe_Node entry))) running in
  let workerDrainable := List.filter (fun entry => negb (apiServers (rqe_Node entry))) drainable in
  if apiServerInProgress then []
  else if (len workerInProgress =? 0) && (len workerDrainable =? 0) then
    match apiServerDrainable with Some entry => [entry] | None => [] end
  else if (len workerInProgress <? maxConcurrentReboots) && (0 <? len workerDrainable)
  then take 1 workerDrainable
  else [].

Definition CheckRebootCancelled rqEntries : list RebootQueueEntry :=
  List.filter (fun entry => status_is entry RebootStatusCancelled) rqEntries.
End decide.

(** ** The platform *)

(** [pod_Controller] is the kind of the controller that owns the pod. *)
Record Pod := mkPod {
  pod_Namespace : string;
  pod_Name : string;
  pod_Labels : gmap string string;
  pod_Phase : string;
  pod_NodeName : string;
  pod_Controller : option string
}.
Record DaemonSet {T : K8sTypes} := mkDaemonSet {
  ds_Namespace : string;
  ds_UpdateStrategy : string;
  ds_Selector : option LabelSelector
}.
Inductive evict_answer : Type := Evicted | EvictNotFound | TooManyRequests | EvictFailed.
Inductive delete_answer : Type := Deleted | DeleteNotFound | DeleteFailed.

(** Requests that change the cluster. *)
Inductive Call : Type :=
| CallEvict (dry : bool) (namespace name : string)
| CallDelete (namespace name : string)
| CallCordon (node : string)
| CallUncordon (node : string)
| CallCommand (command : list string).

Class Platform {T : K8sTypes} := {
  platform : Type;
  now_at : platform -> platform * Z;
  int63n : Z -> platform -> platform * Z;
  run_program : Z -> list string -> platform -> platform * option string;
  connect : platform -> platform * bool;
  pods_on_node : string -> platform -> platform * option (list Pod);
  daemon_sets : platform -> platform * option (list DaemonSet);
  pods_selected : string -> option LabelSelector -> platform -> platform * option (list Pod);
  namespaces_selected : Selector -> platform -> platform * option (list string);
  volumes_in_use : string -> platform -> platform * option bool;
  evict_pod : bool -> string -> string -> platform -> platform * evict_answer;
  delete_pod : string -> string -> platform -> platform * delete_answer;
  cordon_node : string -> platform -> platform * bool;
  uncordon_node : string -> platform -> platform * bool;

  (** [rand.Int63n(n)] is in the half-open interval [0,n). *)
  int63n_range : forall n p, 0 < n -> 0 <= snd (int63n n p) < n
}.

(** ** Computations of a command

    They use the storage and the platform; [s_calls] records the requests that
    change the cluster, in order. *)
Section drain.
  Context {T : K8sTypes} {K : K8s} `{!Etcd} `{!Platform}.

(** [s_agents] are the nodes the server has an agent for. *)
Record sys := mkSys { s_etcd : etcd; s_platform : platform; s_calls : list Call; s_agents : gset string }.
Definition drn (A : Type) : Type := sys -> sys * outcome A.
Global Instance drn_ret : MRet drn := fun A a s => (s, Done (Ok a)).
Global Instance drn_bind : MBind drn := fun A B k m s =>
  match m s with
  | (s', Done (Ok a)) => k a s'
  | (s', Done (Err e)) => (s', Done (Err e))
  | (s', Panicked w) => (s', Panicked w)
  | (s', Retrying) => (s', Retrying)
  end.
Definition throws {A} (e : error) : drn A := fun s => (s, Done (Err e)).
Definition panics {A} (why : string) : drn A := fun s => (s, Panicked why).
(** [err := m(); if err != nil {...}]: the error is a value. *)
Definition attempt {A} (m : drn A) : drn (result A) := fun s =>
  match m s with
  | (s', Done r) => (s', Done (Ok r))
  | (s', Panicked w) => (s', Panicked w)
  | (s', Retrying) => (s', Retrying)
  end.
Definition storage {A} (m : sto A) : drn A := fun s =>
  let '(d, r) := m (s_etcd s) in (mkSys d (s_platform s) (s_calls s) (s_agents s), r).
Definition ask {A} (f : platform -> platform * A) : drn A := fun s =>
  let '(p, a) := f (s_platform s) in (mkSys (s_etcd s) p (s_calls s) (s_agents s), Done (Ok a)).
(** A query of the API server, which may fail. *)
Definition query_api {A} (f : platform -> platform * option A) : drn A :=
  r ← ask f;
  match r with Some a => mret a | None => throws (ErrUnexpected "API request failed") end.
(** A request that changes the cluster. *)
Definition request_api {A} (c : Call) (f : platform -> platform * A) : drn A := fun s =>
  let '(p, a) := f (s_platform s) in (mkSys (s_etcd s) p (s_calls s ++ [c]) (s_agents s), Done (Ok a)).
(** [inf.ReleaseAgent(address)] *)
Definition ReleaseAgent (address : string) : drn unit := fun s =>
  (mkSys (s_etcd s) (s_platform s) (s_calls s) (s_agents s ∖ {[ address ]}), Done (Ok tt)).

Fixpoint for_all {A} (f : A -> drn unit) (l : list A) : drn unit :=
  match l with
  | [] => mret tt
  | x :: rest => _ ← f x; for_all f rest
  end.

(** [inf.K8sClient(ctx, apiserver)] *)
Definition K8sClient : drn unit :=
  ok ← ask connect;
  if (ok : bool) then mret tt else throws (ErrUnexpected "cannot connect to the API server").

(** ** Pods on a node (op/reboot_decide.go) *)

(** [pod.Status.Phase] of a pod owned by a Job that does not count as running. *)
Definition job_not_running (phase : string) : bool :=
  (phase =? "Pending")%string || (phase =? "Succeeded")%string || (phase =? "Failed")%string.

Definition handle_pod (podHandler jobPodHandler : Pod -> drn unit) (pod : Pod) : drn unit :=
  match pod_Controller pod with
  | Some kind =>
      if (kind =? "DaemonSet")%string then mret tt
      else if (kind =? "Job")%string then
        if job_not_running (pod_Phase pod) then mret tt else jobPodHandler pod
      else podHandler pod
  | None => podHandler pod
  end.
Definition enumeratePods (node : string) (podHandler jobPodHandler : Pod -> drn unit) : drn unit :=
  pods ← query_api (pods_on_node node);
  for_all (handle_pod podHandler jobPodHandler) pods.

Definition enumerateOnDeleteDaemonSetPods (node : string) (podHandler : Pod -> drn unit) : drn unit :=
  sets ← query_api daemon_sets;
  for_all (fun ds =>
    if (ds_UpdateStrategy ds =? "OnDelete")%string then
      pods ← query_api (pods_selected (ds_Namespace ds) (ds_Selector ds));
      for_all (fun pod => if (pod_NodeName pod =? node)%string then podHandler pod else mret tt) pods
    else mret tt) sets.

(** [Delete], where a pod that is gone is no error. *)
Definition deletePod (pod : Pod) : drn unit :=
  answer ← request_api (CallDelete (pod_Namespace pod) (pod_Name pod))
             (delete_pod (pod_Namespace pod) (pod_Name pod));
  match answer with
  | Deleted | DeleteNotFound => mret tt
  | DeleteFailed => throws (ErrUnexpected "failed to delete pod")
  end.

(** From [EVICT] on; [retries] is how often the eviction may be repeated. *)
Fixpoint evictPod (retries : nat) (dry : bool) (protected : string -> bool) (pod : Pod) : drn unit :=
  answer ← request_api (CallEvict dry (pod_Namespace pod) (pod_Name pod))
             (evict_pod dry (pod_Namespace pod) (pod_Name pod));
  match answer with
  | Evicted | EvictNotFound => mret tt
  | EvictFailed => throws (ErrUnexpected "failed to evict pod")
  | TooManyRequests =>
      if negb (protected (pod_Namespace pod)) then deletePod pod
      else if dry then throws (ErrUnexpected "failed to evict pod due to PDB")
      else match retries with
           | O => throws (ErrUnexpected "failed to evict pod due to PDB")
           | S n => evictPod n dry protected pod
           end
  end.

(** [labels.Everything()] is [None]. *)
Definition protects_job (selector : option Selector) (pod : Pod) : bool :=
  match selector with Some s => Matches s (pod_Labels pod) | None => true end.

Definition job_selector (protectedJobPodsSpec : option LabelSelector) : drn (option Selector) :=
  match protectedJobPodsSpec with
  | None => mret None
  | Some spec => match LabelSelectorAsSelector (Some spec) with
                 | Ok s => mret (Some s)
                 | Err e => throws e
                 end
  end.

(** [evictCount < attempts] allows [attempts - 1] repetitions. *)
Definition doEvictOrDeleteNodePod (node : string) (protected : string -> bool)
    (protectedJobPodsSpec : option LabelSelector) (attempts : Z) (dry : bool) : drn unit :=
  selector ← job_selector protectedJobPodsSpec;
  enumeratePods node
    (fun pod => if dry && negb (protected (pod_Namespace pod)) then mret tt
                else evictPod (Z.to_nat (attempts - 1)) dry protected pod)
    (fun pod => if protects_job selector pod
                then throws (ErrUnexpected "protected job-managed pod exists")
                else if dry then mret tt else deletePod pod).

Definition dryRunEvictOrDeleteNodePod (node : string) (protected : string -> bool)
    (protectedJobPods : option LabelSelector) : drn unit :=
  doEvictOrDeleteNodePod node protected protectedJobPods 0 true.
Definition evictOrDeleteNodePod (node : string) (protected : string -> bool)
    (protectedJobPods : option LabelSelector) (attempts : Z) : drn unit :=
  doEvictOrDeleteNodePod node protected protectedJobPods attempts false.
Definition deleteOnDeleteDaemonSetPod (node : string) : drn unit :=
  enumerateOnDeleteDaemonSetPods node deletePod.

Definition checkPodDeletion (node : string) : drn unit :=
  enumeratePods node (fun _ => throws (ErrUnexpected "pod exists"))
    (fun _ => throws (ErrUnexpected "job-managed pod exists")).

(** ** Surveying the queues *)

(** [runCommand]; the programs are started with the entry's node as argument. *)
Definition runCommand (timeoutSeconds : Z) (command : list string) : drn string :=
  r ← request_api (CallCommand command) (run_program timeoutSeconds command);
  match r with Some stdout => mret stdout | None => throws (ErrUnexpected "command failed") end.

(** [t.Unix()] *)
Definition Unix (t : Z) : Z := t / 10 ^ 9.

Definition rebootCompleted (c : Cluster) (entry : RebootQueueEntry) : drn bool :=
  r ← attempt (runCommand (default 0 (rb_CommandTimeoutSeconds (c_Reboot c)))
                 (rb_BootCheckCommand (c_Reboot c)
                  ++ [rqe_Node entry; FormatInt (Unix (rqe_LastTransitionTime entry))]));
  match r with
  | Ok stdout => mret (TrimSpace stdout =? "true")%string
  | Err _ => mret false
  end.

Fixpoint filter_by {A} (f : A -> drn bool) (l : list A) : drn (list A) :=
  match l with
  | [] => mret []
  | x :: rest =>
      b ← f x; r ← filter_by f rest; mret (if (b : bool) then x :: r else r)
  end.

Definition CheckRebootDequeue (c : Cluster) (rqEntries : list RebootQueueEntry)
    : drn (list RebootQueueEntry) :=
  filter_by (fun entry =>
    if negb (ClusterMember entry c) then mret true
    else if status_is entry RebootStatusRebooting then rebootCompleted c entry
    else mret false) rqEntries.

(** All pods are gone, and no volume is in use. *)
Definition drain_completed (entry : RebootQueueEntry) : drn bool :=
  r ← attempt (checkPodDeletion (rqe_Node entry));
  match r with
  | Ok _ => inUse ← query_api (volumes_in_use (rqe_Node entry)); mret (negb inUse)
  | Err _ => mret false
  end.

Fixpoint drain_loop (c : Cluster) (t : Z) (rqEntries completed timedout : list RebootQueueEntry)
    : drn (list RebootQueueEntry * list RebootQueueEntry) :=
  match rqEntries with
  | [] => mret (completed, timedout)
  | entry :: rest =>
      if negb (ClusterMember entry c) || negb (status_is entry RebootStatusDraining)
      then drain_loop c t rest completed timedout
      else
        ok ← drain_completed entry;
        if (ok : bool) then drain_loop c t rest (completed ++ [entry]) timedout
        else if rqe_LastTransitionTime entry <? t
        then drain_loop c t rest completed (timedout ++ [entry])
        else drain_loop c t rest completed timedout
  end.
Definition CheckDrainCompletion (c : Cluster) (rqEntries : list RebootQueueEntry)
    : drn (list RebootQueueEntry * list RebootQueueEntry) :=
  _ ← K8sClient;
  now ← ask now_at;
  let evictionTimeoutSeconds :=
    default DefaultRebootEvictionTimeoutSeconds (rb_EvictionTimeoutSeconds (c_Reboot c)) in
  drain_loop c (now + seconds (wrap64 (- evictionTimeoutSeconds))) rqEntries [] [].

Definition GetRebootQueueStatus (c : Cluster) (apiServers : string -> bool)
    : drn RebootQueueStatus :=
  disabled ← storage IsRebootQueueDisabled;
  entries ← storage GetRebootsEntries;
  let entries := DedupRebootQueueEntries entries in
  now ← ask now_at;
  let nextCandidates := ChooseRebootCandidates c apiServers now entries in
  '(drainCompleted, drainTimedout) ← CheckDrainCompletion c entries;
  rebootDequeued ← CheckRebootDequeue c entries;
  mret (mkRebootQueueStatus (negb disabled) entries nextCandidates drainCompleted drainTimedout
          rebootDequeued (CheckRebootCancelled entries)).

Definition DefaultRepairHealthCheckCommandTimeoutSeconds : Z := 30.
Definition isRepairTargetHealthy (c : Cluster) (entry : RepairQueueEntry) : drn bool :=
  match GetMatchingRepairOperation entry c with
  | Err e => throws e
  | Ok op =>
      match HealthCheckCommand op with
      | [] => throws (ErrUnexpected "health check command not defined")
      | _ =>
          stdout ← runCommand (default DefaultRepairHealthCheckCommandTimeoutSeconds
                                 (rop_CommandTimeoutSeconds op))
                     (HealthCheckCommand op ++ [rpe_Address entry]);
          mret (TrimSpace stdout =? "true")%string
      end
  end.

Fixpoint collect (f : RepairQueueEntry -> drn bool) (entries : list RepairQueueEntry)
    (m : gmap string bool) : drn (gmap string bool) :=
  match entries with
  | [] => mret m
  | entry :: rest =>
      b ← f entry; collect f rest (if (b : bool) then <[ rpe_Address entry := true ]> m else m)
  end.

Definition repair_healthy (c : Cluster) (entry : RepairQueueEntry) : drn bool :=
  if HasFinished entry then mret false
  else
    r ← attempt (isRepairTargetHealthy c entry);
    mret (match r with Ok b => b | Err _ => false end).
Definition repair_drained (entry : RepairQueueEntry) : drn bool :=
  if negb ((rpe_Status entry =? RepairStatusProcessing)%string
           && (rpe_StepStatus entry =? RepairStepStatusDraining)%string) then mret false
  else if negb (IsInCluster entry) then mret true
  else
    r ← attempt (checkPodDeletion (rpe_Nodename entry));
    mret (match r with Ok _ => true | Err _ => false end).

Definition GetRepairQueueStatus (c : Cluster) : drn RepairQueueStatus :=
  _ ← K8sClient;
  disabled ← storage IsRepairQueueDisabled;
  entries ← storage GetRepairsEntries;
  let entries := (fun entry => FillNodename entry c) <$> entries in
  repairCompleted ← collect (repair_healthy c) entries ∅;
  drainCompleted ← collect repair_drained entries ∅;
  mret (mkRepairQueueStatus (negb disabled) entries repairCompleted drainCompleted).
End drain.

(** ** Commands (op/reboot.go)

    [cas] is the number of rounds of the compare-and-swap loops of the storage. *)
Section commands.
  Context {T : K8sTypes} {K : K8s} `{!Etcd} `{!Platform} (cas : nat).

Definition drainBackOffBaseSeconds : Z := 300.
Definition drainBackOffMaxSeconds : Z := 1200.

(** [time.Now().Truncate(time.Second).UTC()]; Go truncates from its zero time. *)
Definition truncate_second (t : Z) : Z := t - (t - zero_time) mod 10 ^ 9.
Definition current_time : drn Z := now ← ask now_at; mret (truncate_second now).

(** [1 << n] as an [int64], for [n] that is not negative *)
Definition shift_left_1 (n : Z) : Z := if 64 <=? n then 0 else wrap64 (2 ^ n).
Definition backoff_seconds (count : Z) : Z :=
  let backoffSeconds := mul64 (shift_left_1 (count - 1)) drainBackOffBaseSeconds in
  if drainBackOffMaxSeconds <? backoffSeconds then drainBackOffMaxSeconds else backoffSeconds.

Definition set_status (e : RebootQueueEntry) (status : string) (time : Z) : RebootQueueEntry :=
  mkRebootQueueEntry (rqe_Index e) (rqe_Node e) status time (rqe_DrainBackOffCount e)
    (rqe_DrainBackOffExpire e).
(** The entry a back-off writes, with the random part [r] of the delay. *)
Definition backed_off (e : RebootQueueEntry) (time r : Z) : RebootQueueEntry :=
  let count := add64 (rqe_DrainBackOffCount e) 1 in
  mkRebootQueueEntry (rqe_Index e) (rqe_Node e) RebootStatusQueued time count
    (time + seconds (add64 (backoff_seconds count) r)).

Definition drainBackOff (entry : RebootQueueEntry) : drn unit :=
  etcdEntry ← storage (GetRebootsEntry (rqe_Index entry));
  if status_is etcdEntry RebootStatusCancelled then mret tt
  else
    time ← current_time;
    if add64 (rqe_DrainBackOffCount entry) 1 <? 1 then panics "negative shift amount"
    else
      r ← ask (int63n drainBackOffBaseSeconds);
      storage (UpdateRebootsEntry cas (backed_off entry time r)).

Definition listProtectedNamespaces (ls : option LabelSelector) : drn (string -> bool) :=
  match LabelSelectorAsSelector ls with
  | Err _ => panics "invalid label selector"
  | Ok selector =>
      protected ← query_api (namespaces_selected selector);
      mret (fun namespace => Contains protected namespace)
  end.

Definition cordon (node : string) : drn unit :=
  ok ← request_api (CallCordon node) (cordon_node node);
  if (ok : bool) then mret tt else throws (ErrUnexpected ("failed to cordon node " +:+ node)).

(** The closure of the first loop, up to the dry run. *)
Definition start_drain (protected : string -> bool) (protectedJobPods : option LabelSelector)
    (entry : RebootQueueEntry) : drn unit :=
  _ ← storage (UpdateRebootsEntry cas entry);
  _ ← cordon (rqe_Node entry);
  dryRunEvictOrDeleteNodePod (rqe_Node entry) protected protectedJobPods.

(** First, cordon all nodes; the entries to evict and the nodes that failed. *)
Fixpoint cordon_loop (protected : string -> bool) (protectedJobPods : option LabelSelector)
    (entries : list RebootQueueEntry) : drn (list RebootQueueEntry * list string) :=
  match entries with
  | [] => mret ([], [])
  | entry :: rest =>
      time ← current_time;
      let entry := set_status entry RebootStatusDraining time in
      r ← attempt (start_drain protected protectedJobPods entry);
      match r with
      | Ok _ =>
          '(evictNodes, failed) ← cordon_loop protected protectedJobPods rest;
          mret (entry :: evictNodes, failed)
      | Err _ =>
          _ ← drainBackOff entry;
          '(evictNodes, failed) ← cordon_loop protected protectedJobPods rest;
          mret (evictNodes, rqe_Node entry :: failed)
      end
  end.

(** Next, evict pods on each node. *)
Fixpoint evict_loop (protected : string -> bool) (protectedJobPods : option LabelSelector)
    (attempts : Z) (evictNodes : list RebootQueueEntry) : drn (list string) :=
  match evictNodes with
  | [] => mret []
  | entry :: rest =>
      r ← attempt (evictOrDeleteNodePod (rqe_Node entry) protected protectedJobPods attempts);
      match r with
      | Ok _ => evict_loop protected protectedJobPods attempts rest
      | Err _ =>
          _ ← drainBackOff entry;
          failed ← evict_loop protected protectedJobPods attempts rest;
          mret (rqe_Node entry :: failed)
      end
  end.

(** The nodes notified as failed are the result. *)
Definition rebootDrainStart_Run (entries : list RebootQueueEntry)
    (protectedNamespaces protectedJobPods : option LabelSelector) (evictAttempts : Z)
    : drn (list string) :=
  _ ← K8sClient;
  protected ← listProtectedNamespaces protectedNamespaces;
  '(evictNodes, failed1) ← cordon_loop protected protectedJobPods entries;
  failed2 ← evict_loop protected protectedJobPods evictAttempts evictNodes;
  mret (failed1 ++ failed2).

Fixpoint delete_loop (entries : list RebootQueueEntry) : drn (list string) :=
  match entries with
  | [] => mret []
  | entry :: rest =>
      r ← attempt (deleteOnDeleteDaemonSetPod (rqe_Node entry));
      failed ← delete_loop rest;
      mret (match r with Ok _ => failed | Err _ => rqe_Node entry :: failed end)
  end.
Definition rebootDeleteDaemonSetPod_Run (entries : list RebootQueueEntry) : drn (list string) :=
  _ ← K8sClient; delete_loop entries.

(** [for i := 0; i < attempts; i++]: whether an attempt succeeded. *)
Fixpoint try_command (attempts : nat) (timeout : Z) (command : list string) : drn bool :=
  match attempts with
  | O => mret false
  | S n =>
      r ← attempt (runCommand timeout command);
      match r with Ok _ => mret true | Err _ => try_command n timeout command end
  end.
Definition command_attempts (retries : option Z) : nat :=
  Z.to_nat (match retries with Some r => add64 r 1 | None => 1 end).

(** One goroutine of [rebootRebootCommand]: whether rebooting has been given up. *)
Definition reboot_entry_run (command : list string) (timeoutSeconds retries : option Z)
    (entry : RebootQueueEntry) : drn bool :=
  time ← current_time;
  _ ← storage (UpdateRebootsEntry cas (set_status entry RebootStatusRebooting time));
  _ ← ReleaseAgent (rqe_Node entry);
  ok ← try_command (command_attempts retries) (default 0 timeoutSeconds)
         (command ++ [rqe_Node entry]);
  mret (negb ok).

(** The goroutines one after the other; the first error is returned when all
    of them are done. *)
Fixpoint rebootReboot_Run (command : list string) (timeoutSeconds retries : option Z)
    (entries : list RebootQueueEntry) : drn (list string) :=
  match entries with
  | [] => mret []
  | entry :: rest =>
      r ← attempt (reboot_entry_run command timeoutSeconds retries entry);
      failed ← rebootReboot_Run command timeoutSeconds retries rest;
      match r with
      | Ok given_up => mret (if (given_up : bool) then rqe_Node entry :: failed else failed)
      | Err e => throws e
      end
  end.

Definition rebootDrainTimeout_Run (entries : list RebootQueueEntry) : drn unit :=
  for_all drainBackOff entries.
Definition rebootUncordon_Run (nodeNames : list string) : drn unit :=
  _ ← K8sClient;
  for_all (fun name =>
    ok ← request_api (CallUncordon name) (uncordon_node name);
    if (ok : bool) then mret tt else throws (ErrUnexpected ("failed to uncordon node " +:+ name)))
    nodeNames.
Definition rebootDequeue_Run (leaderKey : string) (entries : list RebootQueueEntry) : drn unit :=
  for_all (fun entry => storage (DeleteRebootsEntry leaderKey (rqe_Index entry))) entries.

(** ** Commands of the repair queue (op/repair_*.go) *)

Definition set_repair_status (e : RepairQueueEntry) (status stepStatus : string) (time : Z)
    : RepairQueueEntry :=
  mkRepairQueueEntry (rpe_Index e) (rpe_Address e) (rpe_Nodename e) (rpe_Serial e)
    (rpe_MachineType e) (rpe_Operation e) status (rpe_Step e) stepStatus (rpe_Deleted e) time
    (rpe_DrainBackOffCount e) (rpe_DrainBackOffExpire e).
Definition repair_backed_off (e : RepairQueueEntry) (time r : Z) : RepairQueueEntry :=
  mkRepairQueueEntry (rpe_Index e) (rpe_Address e) (rpe_Nodename e) (rpe_Serial e)
    (rpe_MachineType e) (rpe_Operation e) RepairStatusProcessing (rpe_Step e)
    RepairStepStatusWaiting (rpe_Deleted e) time (add64 (rpe_DrainBackOffCount e) 1)
    (time + seconds (add64 drainBackOffBaseSeconds r)).

(** [rand.Int63n] panics when its argument is not positive. *)
Definition repairDrainBackOff (entry : RepairQueueEntry) : drn unit :=
  time ← current_time;
  let n := mul64 drainBackOffBaseSeconds (add64 (rpe_DrainBackOffCount entry) 1) in
  if n <=? 0 then panics "invalid argument to Int63n"
  else r ← ask (int63n n); storage (UpdateRepairsEntry cas (repair_backed_off entry time r)).

Definition start_repair_drain (protected : string -> bool) (protectedJobPods : option LabelSelector)
    (entry : RepairQueueEntry) : drn unit :=
  _ ← storage (UpdateRepairsEntry cas entry);
  _ ← dryRunEvictOrDeleteNodePod (rpe_Nodename entry) protected protectedJobPods;
  cordon (rpe_Nodename entry).

Definition repairDrainStart_Run (entry : RepairQueueEntry)
    (protectedNamespaces protectedJobPods : option LabelSelector) (evictAttempts : Z) : drn unit :=
  _ ← K8sClient;
  protected ← listProtectedNamespaces protectedNamespaces;
  time ← current_time;
  let entry := set_repair_status entry RepairStatusProcessing RepairStepStatusDraining time in
  r ← attempt (start_repair_drain protected protectedJobPods entry);
  match r with
  | Err _ => repairDrainBackOff entry
  | Ok _ =>
      r ← attempt (evictOrDeleteNodePod (rpe_Nodename entry) protected protectedJobPods evictAttempts);
      match r with Err _ => repairDrainBackOff entry | Ok _ => mret tt end
  end.

Definition repairDrainTimeout_Run (entry : RepairQueueEntry) : drn unit := repairDrainBackOff entry.

Definition DefaultRepairCommandTimeoutSeconds : Z := 30.
Definition DefaultRepairSuccessCommandTimeoutSeconds : Z := 30.

(** A [SuccessCommand] that is [nil] is the empty list: the configuration is read
    from its JSON text in etcd, where empty commands are omitted. *)
Definition success_command (entry : RepairQueueEntry) (cluster : Cluster) : drn unit :=
  match GetMatchingRepairOperation entry cluster with
  | Err e => throws e
  | Ok op =>
      match SuccessCommand op with
      | [] => mret tt
      | _ =>
          _ ← runCommand (default DefaultRepairSuccessCommandTimeoutSeconds (SuccessCommandTimeout op))
                (SuccessCommand op ++ [rpe_Address entry]);
          mret tt
      end
  end.

Definition repairFinish (entry : RepairQueueEntry) (succeeded : bool) (cluster : Cluster) : drn unit :=
  status ← (if succeeded then
              r ← attempt (success_command entry cluster);
              mret (match r with Ok _ => RepairStatusSucceeded | Err _ => RepairStatusFailed end)
            else mret RepairStatusFailed);
  time ← current_time;
  storage (UpdateRepairsEntry cas (set_repair_status entry status (rpe_StepStatus entry) time)).

Definition repairExecute_Run (entry : RepairQueueEntry) (command : list string)
    (timeoutSeconds retries : option Z) (cluster : Cluster) : drn unit :=
  time ← current_time;
  let entry := set_repair_status entry RepairStatusProcessing RepairStepStatusWatching time in
  _ ← storage (UpdateRepairsEntry cas entry);
  ok ← try_command (command_attempts retries) (default DefaultRepairCommandTimeoutSeconds timeoutSeconds)
         (command ++ [rpe_Address entry]);
  if (ok : bool) then mret tt else repairFinish entry false cluster.

Definition repairDequeue_Run (leaderKey : string) (entry : RepairQueueEntry) : drn unit :=
  storage (DeleteRepairsEntry leaderKey (rpe_Index entry)).
End commands.
