(* ===== verification/RebootProps.v ===== *)
(** * Reboots one by one, careful drains, and back-offs

    The reboot queue as a state machine: the server surveys the queue, decides
    and writes entries back, while users add and cancel entries.  Below that,
    what draining a node does to its pods, and how long drains back off. *)

From Stdlib Require Import ZArith Ascii String Lia.
From stdpp Require Import base gmap strings list sorting.
From S2P Require Import Prelude GoLib GoFormat K8s Cluster Queue Resource Status Storage StorageProps.
From S2P Require Import Reboot.

(** ** Entries of a survey *)
Section survey.
  Implicit Types (e : RebootQueueEntry) (es : list RebootQueueEntry).

Definition by_index es : Prop := StronglySorted (fun a b => rqe_Index a < rqe_Index b) es.

(** In a sorted queue the entries that remain are the first of their nodes. *)
Lemma dedup_from_first es : forall seen e, by_index es -> rqe_Node e ∉ seen ->
  e ∈ dedup_from seen es
  <-> e ∈ es /\ forall x, x ∈ es -> rqe_Node x = rqe_Node e -> rqe_Index e <= rqe_Index x.
Proof.
  induction es as [|y es IH]; intros seen e Hs Hseen; simpl.
  { split; [by intros ?%elem_of_nil|by intros [?%elem_of_nil _]]. }
  inversion_clear Hs as [|? ? Hs' Hy]. rewrite Forall_forall in Hy.
  destruct (decide (rqe_Node y = rqe_Node e)) as [He|Hne].
  - rewrite bool_decide_false by (by rewrite He). rewrite !elem_of_cons. split.
    + intros [->|Hin%dedup_from_fresh]; [|set_solver]. split; [by left|].
      intros x [->|Hx]%elem_of_cons _; [lia|]. specialize (Hy x Hx). lia.
    + intros [[->|Hin] Hmin]; [by left|]. specialize (Hmin y ltac:(left) He). specialize (Hy e Hin). lia.
  - assert (forall seen, rqe_Node e ∉ seen -> e ∈ dedup_from seen es <->
              e ∈ y :: es /\ forall x, x ∈ y :: es -> rqe_Node x = rqe_Node e ->
                                       rqe_Index e <= rqe_Index x) as Hrest.
    { intros seen' Hs2. rewrite (IH seen' e Hs' Hs2), elem_of_cons. split.
      - intros [Hin Hmin]. split; [by right|]. intros x [->|Hx]%elem_of_cons; [done|by apply Hmin].
      - intros [[->|Hin] Hmin]; [done|]. split; [done|]. intros x Hx. apply Hmin. by right. }
    case_bool_decide; [by apply Hrest|]. rewrite elem_of_cons.
    rewrite (Hrest ({[ rqe_Node y ]} ∪ seen)) by set_solver. split; [intros [->|]; done|by right].
Qed.

Lemma dedup_first es e :
  by_index es -> e ∈ DedupRebootQueueEntries es
  <-> e ∈ es /\ forall x, x ∈ es -> rqe_Node x = rqe_Node e -> rqe_Index e <= rqe_Index x.
Proof. intros Hs. apply dedup_from_first; [done|set_solver]. Qed.

Lemma by_index_inj es x y :
  by_index es -> x ∈ es -> y ∈ es -> rqe_Index x = rqe_Index y -> x = y.
Proof.
  induction 1 as [|z es _ IH Hz]; [by intros ?%elem_of_nil|]. rewrite Forall_forall in Hz.
  rewrite !elem_of_cons. intros [->|Hx] [->|Hy] He; [done| | |by apply IH].
  - specialize (Hz y Hy). lia.
  - specialize (Hz x Hx). lia.
Qed.
End survey.

(** ** The life of the queue *)
Section life.
  Context {T : K8sTypes} (c : Cluster) (apis : string -> bool).
  Implicit Types (q : queue RebootQueueEntry) (e : RebootQueueEntry) (es : list RebootQueueEntry).

(** The queue, the entries of the last survey, whether their candidates may
    still be drained, and the next index at the time of the survey. *)
Record life_state := mkLife {
  lf_queue : queue RebootQueueEntry;
  lf_survey : list RebootQueueEntry;
  lf_pending : bool;
  lf_next : Z
}.

Definition candidates (now : Z) es : list RebootQueueEntry :=
  ChooseRebootCandidates c apis now (DedupRebootQueueEntries es).
(** Writing an entry fails when it has been removed. *)
Definition written e q : queue RebootQueueEntry :=
  match q_entries q !! rqe_Index e with Some _ => replace e q | None => q end.

Inductive life_step : life_state -> life_state -> Prop :=
| life_survey q es0 pending next es :
    in_order q es -> life_step (mkLife q es0 pending next) (mkLife q es true (q_next q))
| life_add q es pending next node :
    life_step (mkLife q es pending next)
      (mkLife (enqueue (NewRebootQueueEntry node) q) es pending next)
| life_cancel q es pending next i e :
    q_entries q !! i = Some e ->
    life_step (mkLife q es pending next)
      (mkLife (replace (set_status e RebootStatusCancelled (rqe_LastTransitionTime e)) q)
         es pending next)
(** The commands of the server, on entries of the survey: *)
| life_drain q es next now time e :
    candidates now es = [e] ->
    life_step (mkLife q es true next)
      (mkLife (written (set_status e RebootStatusDraining time) q) es false next)
| life_back_off q es pending next e time r :
    e ∈ es ->
    life_step (mkLife q es pending next) (mkLife (written (backed_off e time r) q) es pending next)
| life_reboot q es pending next e time :
    e ∈ es -> ClusterMember e c = true -> status_is e RebootStatusDraining = true ->
    life_step (mkLife q es pending next)
      (mkLife (written (set_status e RebootStatusRebooting time) q) es pending next)
| life_remove q es pending next i :
    life_step (mkLife q es pending next) (mkLife (dequeue i q) es pending next).

Definition life_start : life_state := mkLife (mkQueue ∅ 0) [] false 0.

Definition max_reboots : Z :=
  default DefaultMaxConcurrentReboots (rb_MaxConcurrentReboots (c_Reboot c)).
Definition busy_entry e : bool := ClusterMember e c && in_progress e.

(** The entries that are or may become busy before the next survey, by index,
    with their nodes: a single API server, or workers up to the limit. *)
Definition safe_busy (busy : gmap Z string) : Prop :=
  (forall i j n m, busy !! i = Some n -> busy !! j = Some m -> apis n = true -> i = j)
  /\ Z.of_nat (size (filter (fun kv => apis (snd kv) = false) busy)) <= max_reboots.

Record life_inv (s : life_state) (busy : gmap Z string) : Prop := {
  li_index : forall i e, q_entries (lf_queue s) !! i = Some e ->
    rqe_Index e = i /\ i < q_next (lf_queue s);
  li_queue : forall i e, q_entries (lf_queue s) !! i = Some e -> busy_entry e = true ->
    busy !! i = Some (rqe_Node e);
  li_survey : forall e, e ∈ lf_survey s -> busy_entry e = true ->
    busy !! rqe_Index e = Some (rqe_Node e);
  li_pending : lf_pending s = true -> forall i n, busy !! i = Some n ->
    exists e, e ∈ lf_survey s /\ rqe_Index e = i /\ rqe_Node e = n /\ busy_entry e = true;
  li_safe : safe_busy busy;
  li_first : forall i n j e, busy !! i = Some n -> q_entries (lf_queue s) !! j = Some e ->
    rqe_Node e = n -> i <= j;
  li_first_survey : lf_pending s = true -> forall i n e, busy !! i = Some n ->
    e ∈ lf_survey s -> rqe_Node e = n -> i <= rqe_Index e;
  li_known : forall j e, q_entries (lf_queue s) !! j = Some e ->
    lf_next s <= j \/ exists e0, e0 ∈ lf_survey s /\ rqe_Index e0 = j /\ rqe_Node e0 = rqe_Node e;
  li_sorted : by_index (lf_survey s);
  li_old : forall e, e ∈ lf_survey s -> rqe_Index e < lf_next s;
  li_next : lf_next s <= q_next (lf_queue s);
  li_busy_old : forall i n, busy !! i = Some n -> i < q_next (lf_queue s)
}.

Lemma busy_member e : busy_entry e = true -> ClusterMember e c = true /\ in_progress e = true.
Proof. apply andb_prop. Qed.

(** Rewriting an entry with its own index and node. *)
Lemma inv_replace q es pending next busy x e :
  life_inv (mkLife q es pending next) busy -> q_entries q !! rqe_Index e = Some x ->
  rqe_Node e = rqe_Node x -> (busy_entry e = true -> busy !! rqe_Index e = Some (rqe_Node e)) ->
  life_inv (mkLife (replace e q) es pending next) busy.
Proof.
  intros [Hix Hq Hs Hp Hsafe Hf Hfs Hk Hso Hold Hn Hbo] Hx Hnode Hbusy. cbn in *.
  assert (forall j y, <[ rqe_Index e := e ]> (q_entries q) !! j = Some y ->
            exists y0, q_entries q !! j = Some y0 /\ rqe_Node y = rqe_Node y0
                       /\ (y = y0 \/ y = e /\ j = rqe_Index e)) as Hl.
  { intros j y. rewrite lookup_insert_Some. intros [[<- <-]|[Hne Hy]]; naive_solver. }
  constructor; cbn; [| |done|done|done| |done| |done|done|done|done].
  - intros j y (y0 & Hy0 & _ & Heq)%Hl. destruct (Hix j y0 Hy0) as [? ?].
    destruct Heq as [->|[-> ->]]; done.
  - intros j y (y0 & Hy0 & Hny & Heq)%Hl Hb. destruct Heq as [->|[-> ->]]; [by apply Hq|by apply Hbusy].
  - intros i n j y Hi (y0 & Hy0 & Hny & _)%Hl Hn'. eapply Hf; [done|done|congruence].
  - intros j y (y0 & Hy0 & Hny & _)%Hl. rewrite Hny. by apply Hk.
Qed.

(** Entries keep their nodes. *)
Lemma known_node q es pending next busy e x :
  life_inv (mkLife q es pending next) busy -> e ∈ es -> q_entries q !! rqe_Index e = Some x ->
  rqe_Node x = rqe_Node e.
Proof.
  intros Hinv He Hx. destruct (li_known _ _ Hinv _ _ Hx) as [Hge|(e0 & He0 & Hi0 & <-)]; cbn in *.
  - pose proof (li_old _ _ Hinv e He) as Hlt. cbn in Hlt. lia.
  - f_equal. eapply by_index_inj; [apply (li_sorted _ _ Hinv)|done|done|congruence].
Qed.

(** Writing back an entry of the survey, with another status. *)
Lemma inv_written q es pending next busy e e' :
  life_inv (mkLife q es pending next) busy -> e ∈ es ->
  rqe_Index e' = rqe_Index e -> rqe_Node e' = rqe_Node e ->
  (busy_entry e' = true -> busy !! rqe_Index e = Some (rqe_Node e)) ->
  life_inv (mkLife (written e' q) es pending next) busy.
Proof.
  intros Hinv He Hi Hn Hb. unfold written. destruct (q_entries q !! rqe_Index e') as [x|] eqn:Hx; [|done].
  eapply inv_replace; [done|done| |by rewrite Hi, Hn].
  rewrite Hn. symmetry. rewrite Hi in Hx. by eapply known_node.
Qed.

Lemma inv_add q es pending next busy node :
  life_inv (mkLife q es pending next) busy ->
  life_inv (mkLife (enqueue (NewRebootQueueEntry node) q) es pending next) busy.
Proof.
  intros [Hix Hq Hs Hp Hsafe Hf Hfs Hk Hso Hold Hn Hbo]. cbn in *.
  constructor; cbn; [| |done|done|done| |done| |done|done|lia|].
  - intros j y. rewrite lookup_insert_Some. intros [[<- <-]|[_ Hy]]; [cbn; lia|].
    destruct (Hix j y Hy). split; [done|lia].
  - intros j y. rewrite lookup_insert_Some. intros [[<- <-]|[_ Hy]]; [|by apply Hq].
    unfold busy_entry. cbn. by rewrite andb_false_r.
  - intros i n j y Hi. rewrite lookup_insert_Some. intros [[<- <-]|[_ Hy]]; [|by eapply Hf].
    intros _. specialize (Hbo _ _ Hi). lia.
  - intros j y. rewrite lookup_insert_Some. intros [[<- <-]|[_ Hy]]; [by left|by apply Hk].
  - intros i n Hi. specialize (Hbo _ _ Hi). lia.
Qed.

Lemma inv_remove q es pending next busy i :
  life_inv (mkLife q es pending next) busy -> life_inv (mkLife (dequeue i q) es pending next) busy.
Proof.
  intros [Hix Hq Hs Hp Hsafe Hf Hfs Hk Hso Hold Hn Hbo]. cbn in *.
  assert (forall j y, delete i (q_entries q) !! j = Some y -> q_entries q !! j = Some y) as Hd
    by (intros j y; rewrite lookup_delete_Some; tauto).
  constructor; cbn; eauto.
Qed.

Lemma safe_subset busy busy' : busy' ⊆ busy -> safe_busy busy -> safe_busy busy'.
Proof.
  intros Hsub [Hone Hmax]. split.
  - intros i j n m Hi Hj. apply (Hone i j n m); by eapply lookup_weaken.
  - etrans; [|exact Hmax]. apply Nat2Z.inj_le, map_subseteq_size, map_subseteq_spec.
    intros i n. rewrite !map_lookup_filter_Some. intros [? Hi]. split; [|done]. by eapply lookup_weaken.
Qed.

Definition busy_of q : gmap Z string :=
  omap (fun e => if busy_entry e then Some (rqe_Node e) else None) (q_entries q).
Lemma busy_of_lookup q i n :
  busy_of q !! i = Some n
  <-> exists e, q_entries q !! i = Some e /\ busy_entry e = true /\ rqe_Node e = n.
Proof.
  unfold busy_of. rewrite lookup_omap. destruct (q_entries q !! i) as [e|]; cbn;
    [|by split; [|intros (? & ? & _)]].
  destruct (busy_entry e) eqn:Hb; split.
  - intros [= <-]. eauto.
  - by intros (e' & [= <-] & _ & <-).
  - done.
  - intros (e' & [= <-] & ? & _). congruence.
Qed.

Lemma inv_survey q es0 pending next busy es :
  life_inv (mkLife q es0 pending next) busy -> in_order q es ->
  exists busy', life_inv (mkLife q es true (q_next q)) busy'.
Proof.
  intros [Hix Hq Hs Hp Hsafe Hf Hfs Hk Hso Hold Hn Hbo] [Hsort Hin]. cbn in *.
  pose proof (busy_of_lookup q) as Hb'. set (busy' := busy_of q) in *.
  assert (busy' ⊆ busy) as Hsub.
  { apply map_subseteq_spec. intros i n (e & He & Hb & <-)%Hb'. by apply Hq. }
  assert (forall i e, q_entries q !! i = Some e -> e ∈ es /\ rqe_Index e = i) as Hes.
  { intros i e He. destruct (Hix i e He) as [Hi _]. split; [|done]. apply Hin. cbn. by rewrite Hi. }
  exists busy'. constructor; cbn.
  - done.
  - intros i e He Hb. apply Hb'. eauto.
  - intros e He Hb. apply Hb'. exists e. split; [by apply Hin|done].
  - intros _ i n (e & He & Hb & <-)%Hb'. destruct (Hes i e He). eauto.
  - by eapply safe_subset.
  - intros i n j e Hi. eapply Hf. by eapply lookup_weaken.
  - intros _ i n e Hi He Hnode. apply Hin in He. eapply Hf; [by eapply lookup_weaken|done|done].
  - intros j e He. right. destruct (Hes j e He). eauto.
  - done.
  - intros e He. apply Hin in He. by destruct (Hix _ _ He).
  - lia.
  - intros i n Hi. eapply Hbo. by eapply lookup_weaken.
Qed.

(** What the choice of a candidate tells about the entries in progress. *)
Lemma candidates_chosen now es e :
  ChooseRebootCandidates c apis now es = [e] ->
  let running := List.filter in_progress (List.filter (fun x => ClusterMember x c) es) in
  e ∈ es /\ (forall x, x ∈ running -> apis (rqe_Node x) = false)
  /\ (if apis (rqe_Node e) then running = []
      else len (List.filter (fun x => negb (apis (rqe_Node x))) running) < max_reboots).
Proof.
  unfold ChooseRebootCandidates. fold max_reboots.
  set (members := List.filter (fun x => ClusterMember x c) es).
  set (running := List.filter in_progress members).
  set (drainable := List.filter _ members). cbn zeta.
  assert (forall x, x ∈ drainable -> x ∈ es) as Hdr.
  { intros x [Hx _]%elem_of_filterb. by apply elem_of_filterb in Hx as [? _]. }
  destruct (existsb _ running) eqn:Hapi; [done|].
  assert (forall x, x ∈ running -> apis (rqe_Node x) = false) as Hno
    by (intros x Hx; exact (proj1 (existsb_false_elem_of _ _) Hapi x Hx)).
  assert (List.filter (fun x => negb (apis (rqe_Node x))) running = running) as Hall.
  { clear -Hno. induction running as [|x l IH]; [done|]. simpl.
    rewrite (Hno x) by left. simpl. f_equal. apply IH. intros y Hy. apply Hno. by right. }
  rewrite Hall. destruct (andb _ _) eqn:H0.
  - destruct (List.find _ drainable) as [x|] eqn:Hf; [|done]. intros [= ->].
    apply List.find_some in Hf as [Hin Hapi']. rewrite Hapi'. split; [by apply Hdr, list_elem_of_In|].
    split; [done|]. bool_hyps. unfold len in *. apply nil_length_inv. lia.
  - destruct (andb (len running <? max_reboots) _) eqn:H1; [|done].
    destruct (List.filter (fun x => negb (apis (rqe_Node x))) drainable) as [|x rest] eqn:Hw; [done|].
    intros [= ->]. bool_hyps.
    assert (e ∈ List.filter (fun x => negb (apis (rqe_Node x))) drainable) as Hin
      by (rewrite Hw; left).
    apply elem_of_filterb in Hin as [Hin Hworker]. bool_hyps. rewrite Hworker.
    split; [by apply Hdr|]. done.
Qed.

(** While candidates are pending, what may be busy is in progress in the survey. *)
Lemma pending_running q es next busy i n :
  life_inv (mkLife q es true next) busy -> busy !! i = Some n ->
  exists x, x ∈ List.filter in_progress (List.filter (fun x => ClusterMember x c)
                                           (DedupRebootQueueEntries es))
            /\ rqe_Index x = i /\ rqe_Node x = n.
Proof.
  intros Hinv Hi. destruct (li_pending _ _ Hinv eq_refl i n Hi) as (x & Hx & <- & <- & Hb).
  apply busy_member in Hb as [Hm Hp]. exists x. split; [|done].
  rewrite !elem_of_filterb. split_and!; [|done|done].
  apply dedup_first; [apply (li_sorted _ _ Hinv)|]. split; [done|].
  intros y Hy Hny. by eapply (li_first_survey _ _ Hinv eq_refl).
Qed.

Lemma map_size_covered {V A} (f : A -> Z) (m : gmap Z V) (l : list A) :
  (forall i v, m !! i = Some v -> exists x, x ∈ l /\ f x = i) -> (size m <= length l)%nat.
Proof.
  intros Hc. rewrite <- length_map_to_list, <- (length_fmap fst), <- (length_fmap f l).
  apply submseteq_length, NoDup_submseteq; [apply NoDup_fst_map_to_list|].
  intros i ([j v] & -> & Hin%elem_of_map_to_list)%list_elem_of_fmap_1.
  destruct (Hc j v Hin) as (x & Hx & <-). by apply (list_elem_of_fmap_2 f).
Qed.

Lemma safe_grow q es next busy now e :
  life_inv (mkLife q es true next) busy -> candidates now es = [e] ->
  safe_busy (<[ rqe_Index e := rqe_Node e ]> busy).
Proof.
  intros Hinv (He & Hno & Hlim)%candidates_chosen.
  set (running := List.filter in_progress _) in *.
  assert (forall i n, busy !! i = Some n -> exists x, x ∈ running /\ rqe_Index x = i /\ rqe_Node x = n)
    as Hb by (intros i n; by eapply pending_running).
  assert (forall i n, busy !! i = Some n -> apis n = false) as Hworkers.
  { intros i n (x & Hx & _ & <-)%Hb. by apply Hno. }
  destruct (apis (rqe_Node e)) eqn:Hapi.
  - assert (busy = ∅) as ->.
    { apply map_empty. intros i. apply eq_None_not_Some. intros [n (x & Hx & _)%Hb].
      rewrite Hlim in Hx. by apply elem_of_nil in Hx. }
    split.
    + intros i j n m [<- _]%lookup_singleton_Some [<- _]%lookup_singleton_Some. done.
    + rewrite insert_empty, map_filter_singleton_False by (cbn; congruence).
      pose proof (li_safe _ _ Hinv) as [_ Hmax]. rewrite map_filter_empty, map_size_empty in Hmax.
      by rewrite map_size_empty.
  - split.
    + intros i j n m Hi. rewrite lookup_insert_Some in Hi.
      destruct Hi as [[_ <-]|[_ Hi]]; [congruence|]. rewrite (Hworkers i n Hi). done.
    + etrans; [|apply Z.le_succ_l, Hlim]. unfold len. rewrite <- Nat2Z.inj_succ. apply Nat2Z.inj_le.
      rewrite map_filter_insert_True, map_size_insert by done.
      etrans; [|apply le_n_S, (map_size_covered rqe_Index (filter (fun kv => apis kv.2 = false) busy))].
      * destruct (filter _ busy !! _); unfold id; lia.
      * intros i n [Hi _]%map_lookup_filter_Some. destruct (Hb i n Hi) as (x & Hx & <- & _).
        exists x. split; [|done]. apply elem_of_filterb. split; [done|]. by rewrite (Hno x Hx).
Qed.

Lemma inv_drain q es next busy now e time :
  life_inv (mkLife q es true next) busy -> candidates now es = [e] ->
  life_inv (mkLife (written (set_status e RebootStatusDraining time) q) es false next)
    (<[ rqe_Index e := rqe_Node e ]> busy).
Proof.
  intros Hinv Hc. pose proof (safe_grow _ _ _ _ _ _ Hinv Hc) as Hsafe.
  apply candidates_chosen in Hc as (He & _). apply dedup_first in He as [He Hmin];
    [|apply (li_sorted _ _ Hinv)].
  apply (inv_written _ _ _ _ _ e); [|done|done|done|by rewrite lookup_insert_eq].
  assert (forall x, q_entries q !! rqe_Index e = Some x -> rqe_Node x = rqe_Node e) as Hnode
    by (intros x; by eapply known_node).
  destruct Hinv as [Hix Hq Hs Hp _ Hf Hfs Hk Hso Hold Hn Hbo]. cbn in *.
  constructor; cbn; [done| | |done|done| |done|done|done|done|done|].
  - intros i x Hx Hb. destruct (decide (i = rqe_Index e)) as [->|Hne].
    + by rewrite lookup_insert_eq, (Hnode x Hx).
    + rewrite lookup_insert_ne by done. by apply Hq.
  - intros x Hx Hb. destruct (decide (rqe_Index x = rqe_Index e)) as [Heq|Hne].
    + assert (x = e) as -> by (by eapply by_index_inj). by rewrite lookup_insert_eq.
    + rewrite lookup_insert_ne by done. by apply Hs.
  - intros i n j y. rewrite lookup_insert_Some. intros [[<- <-]|[_ Hi]] Hy Hny; [|by eapply Hf].
    specialize (Hold e He). destruct (Hk j y Hy) as [?|(e0 & He0 & <- & Hn0)]; [lia|].
    apply Hmin; [done|congruence].
  - intros i n. rewrite lookup_insert_Some. intros [[<- <-]|[_ Hi]]; [|by eapply Hbo].
    specialize (Hold e He). lia.
Qed.

Lemma status_not_busy e status :
  rqe_Status e = status -> status <> RebootStatusDraining -> status <> RebootStatusRebooting ->
  busy_entry e = false.
Proof.
  intros He Hd Hr. unfold busy_entry, in_progress, status_is. rewrite He.
  rewrite (proj2 (String.eqb_neq _ _) Hd), (proj2 (String.eqb_neq _ _) Hr). apply andb_false_r.
Qed.

Lemma step_inv s s' busy : life_step s s' -> life_inv s busy -> exists busy', life_inv s' busy'.
Proof.
  intros Hstep Hinv. destruct Hstep as
    [q es0 pending next es Ho|q es pending next node|q es pending next i e Hi|q es next now time e Hc
    |q es pending next e time r He|q es pending next e time He Hm Hst|q es pending next i].
  - by eapply inv_survey.
  - exists busy. by apply inv_add.
  - exists busy. destruct (li_index _ _ Hinv _ _ Hi) as [Hix _].
    eapply inv_replace; [done|cbn; by rewrite Hix|done|].
    by rewrite (status_not_busy _ RebootStatusCancelled).
  - eexists. by eapply inv_drain.
  - exists busy. apply (inv_written _ _ _ _ _ e); [done|done|done|done|].
    by rewrite (status_not_busy _ RebootStatusQueued).
  - exists busy. apply (inv_written _ _ _ _ _ e); [done|done|done|done|].
    intros _. apply (li_survey _ _ Hinv); [done|]. unfold busy_entry, in_progress.
    by rewrite Hm, Hst.
  - exists busy. by apply inv_remove.
Qed.

Lemma start_inv : 0 <= max_reboots -> life_inv life_start ∅.
Proof.
  intros Hmax.
  assert (forall {V} i (v : V) (P : Prop), (∅ : gmap Z V) !! i = Some v -> P) as He
    by (intros V i v P; by rewrite lookup_empty).
  assert (forall (e : RebootQueueEntry) (P : Prop), e ∈ [] -> P) as Hn by (intros e P ?%elem_of_nil; done).
  constructor; cbn; try (intros; by eapply He); try (intros; by eapply Hn); [|constructor|done].
  split; [intros; by eapply He|]. by rewrite map_filter_empty, map_size_empty.
Qed.

(** C9: API servers are rebooted one by one, and never together with workers.
    However surveys, drains, back-offs, reboots and removals by the server and
    additions and cancellations by users follow each other, when an entry of an
    API server is being drained or rebooted it is the only one; no more than the
    configured number of workers are drained or rebooted at a time; and no node
    is drained or rebooted for two entries at once. *)
Theorem reboots_one_by_one s :
  0 <= max_reboots -> rtc life_step life_start s ->
  let busy i e := q_entries (lf_queue s) !! i = Some e /\ busy_entry e = true in
  (forall i j e1 e2, busy i e1 -> busy j e2 -> apis (rqe_Node e1) = true -> i = j)
  /\ Z.of_nat (size (filter (fun kv => busy_entry (snd kv) = true /\ apis (rqe_Node (snd kv)) = false)
                       (q_entries (lf_queue s)))) <= max_reboots
  /\ (forall i j e1 e2, busy i e1 -> busy j e2 -> rqe_Node e1 = rqe_Node e2 -> i = j).
Proof.
  intros Hmax Hsteps. assert (exists busy, life_inv s busy) as [b Hinv].
  { revert s Hsteps. apply rtc_ind_r; [exists ∅; by apply start_inv|].
    intros s1 s2 _ Hstep [b Hinv]. by eapply step_inv. }
  destruct (li_safe _ _ Hinv) as [Hone Hlim]. cbn zeta. split_and!.
  - intros i j e1 e2 [H1 B1] [H2 B2] Ha. eapply Hone; [by eapply (li_queue _ _ Hinv)..|done].
  - etrans; [|exact Hlim]. apply Nat2Z.inj_le.
    rewrite <- (map_size_fmap rqe_Node). apply map_subseteq_size, map_subseteq_spec. intros i n.
    rewrite lookup_fmap_Some. intros (e & <- & [He [Hb Ha]]%map_lookup_filter_Some).
    apply map_lookup_filter_Some. split; [by apply (li_queue _ _ Hinv)|done].
  - intros i j e1 e2 [H1 B1] [H2 B2] Hn. pose proof (li_queue _ _ Hinv _ _ H1 B1) as Hb1.
    pose proof (li_queue _ _ Hinv _ _ H2 B2) as Hb2.
    pose proof (li_first _ _ Hinv _ _ _ _ Hb1 H2 (eq_sym Hn)).
    pose proof (li_first _ _ Hinv _ _ _ _ Hb2 H1 Hn). lia.
Qed.
End life.

(** ** A logic of requests

    [runs_as m P Q]: all requests of the computation [m] satisfy [P], and when
    it succeeds its result and its requests satisfy [Q]. *)
Section logic.
  Context {T : K8sTypes} {K : K8s} `{!Etcd} `{!Platform}.

Definition runs_as {A} (m : drn A) (P : Call -> Prop) (Q : A -> list Call -> Prop) : Prop :=
  forall s s' r, m s = (s', r) ->
  exists new, s_calls s' = s_calls s ++ new /\ Forall P new /\ forall a, r = Done (Ok a) -> Q a new.

Lemma runs_weaken {A} (m : drn A) (P P' : Call -> Prop) (Q Q' : A -> list Call -> Prop) :
  runs_as m P Q -> (forall c, P c -> P' c) -> (forall a new, Q a new -> Q' a new) -> runs_as m P' Q'.
Proof.
  intros Hm HP HQ s s' r Hr. destruct (Hm s s' r Hr) as (new & Hn & HF & Hok). exists new.
  split_and!; [done|by eapply Forall_impl|]. intros a Ha. by apply HQ, Hok.
Qed.

Lemma runs_quiet {A} (m : drn A) P (Q : A -> Prop) :
  (forall s s' r, m s = (s', r) -> s_calls s' = s_calls s /\ forall a, r = Done (Ok a) -> Q a) ->
  runs_as m P (fun a new => new = [] /\ Q a).
Proof.
  intros Hm s s' r Hr. destruct (Hm s s' r Hr) as [Hs Hok]. exists []. rewrite app_nil_r.
  split_and!; [done|constructor|]. intros a Ha. split; [done|by apply Hok].
Qed.

Lemma runs_ret {A} (a : A) P (Q : A -> list Call -> Prop) : Q a [] -> runs_as (mret a) P Q.
Proof.
  intros HQ s s' r [= <- <-]. exists []. rewrite app_nil_r. split_and!; [done|constructor|].
  by intros b [= <-].
Qed.

Lemma runs_throws {A} e P (Q : A -> list Call -> Prop) : runs_as (throws e) P Q.
Proof. intros s s' r [= <- <-]. exists []. rewrite app_nil_r. split_and!; [done|constructor|done]. Qed.

Lemma runs_bind {A B} (m : drn A) (k : A -> drn B) P Q (R : B -> list Call -> Prop) :
  runs_as m P Q ->
  (forall a new1, Q a new1 -> runs_as (k a) P (fun b new2 => R b (new1 ++ new2))) ->
  runs_as (m ≫= k) P R.
Proof.
  intros Hm Hk s s' r Hr. unfold mbind, drn_bind in Hr.
  destruct (m s) as [s1 [[a|e]|w|]] eqn:Hms;
    destruct (Hm s s1 _ Hms) as (new1 & Hn1 & HF1 & Hok1).
  - destruct (Hk a new1 (Hok1 a eq_refl) s1 s' r Hr) as (new2 & Hn2 & HF2 & Hok2).
    exists (new1 ++ new2). rewrite Hn2, Hn1, app_assoc. split_and!; [done|by apply Forall_app|done].
  - injection Hr as <- <-. by exists new1.
  - injection Hr as <- <-. by exists new1.
  - injection Hr as <- <-. by exists new1.
Qed.

Lemma runs_request {A} c (f : platform -> platform * A) (P : Call -> Prop) :
  P c -> runs_as (request_api c f) P (fun _ new => new = [c]).
Proof.
  intros HP s s' r Hr. unfold request_api in Hr. destruct (f (s_platform s)) as [p a].
  injection Hr as <- <-. exists [c]. split_and!; [done|by constructor|done].
Qed.

Lemma runs_query {A} (f : platform -> platform * option A) P :
  runs_as (query_api f) P (fun _ new => new = []).
Proof.
  intros s s' r Hr. exists []. rewrite app_nil_r. unfold query_api, mbind, drn_bind, ask in Hr.
  destruct (f (s_platform s)) as [p [a|]]; injection Hr as <- <-;
    (split_and!; [done|constructor|done]).
Qed.

(** A loop makes the requests of its rounds; what a round achieves stays. *)
Lemma runs_for_all {A} (f : A -> drn unit) (l : list A) (P : A -> Call -> Prop)
    (D : A -> list Call -> Prop) :
  (forall x new1 new new2, D x new -> D x (new1 ++ new ++ new2)) ->
  (forall x, x ∈ l -> runs_as (f x) (P x) (fun _ new => D x new)) ->
  runs_as (for_all f l) (fun c => exists x, x ∈ l /\ P x c)
    (fun _ new => forall x, x ∈ l -> D x new).
Proof.
  intros Hmono. induction l as [|x l IH]; intros Hf; cbn [for_all].
  { apply runs_ret. by intros y ?%elem_of_nil. }
  apply (runs_bind _ _ _ (fun _ new => D x new)).
  { eapply runs_weaken; [apply (Hf x); left| |done].
    intros c Hc. exists x. split; [left|done]. }
  intros _ new1 Hd. eapply runs_weaken; [apply IH; intros y Hy; apply Hf; by right| |].
  - intros c (y & Hy & Hc). exists y. split; [by right|done].
  - intros [] new2 Hall y [->|Hy]%elem_of_cons.
    + apply (Hmono x [] new1 new2 Hd).
    + pose proof (Hmono y new1 new2 [] (Hall y Hy)) as Hm. by rewrite app_nil_r in Hm.
Qed.
End logic.

(** ** Draining respects protection *)
Section protection.
  Context {T : K8sTypes} {K : K8s} `{!Etcd} `{!Platform}.
  Implicit Types (pod : Pod) (protected : string -> bool) (selector : option Selector).

Definition owned (kind : string) pod : bool :=
  match pod_Controller pod with Some k => (k =? kind)%string | None => false end.
Definition plain pod : bool := negb (owned "DaemonSet" pod) && negb (owned "Job" pod).
Definition running_job pod : bool := owned "Job" pod && negb (job_not_running (pod_Phase pod)).

(** The requests allowed for a pod ... *)
Definition drain_call protected selector (dry : bool) pod (c : Call) : Prop :=
  match c with
  | CallEvict d ns name =>
      d = dry /\ ns = pod_Namespace pod /\ name = pod_Name pod /\ plain pod = true
      /\ (dry = true -> protected ns = true)
  | CallDelete ns name =>
      dry = false /\ ns = pod_Namespace pod /\ name = pod_Name pod
      /\ ((plain pod = true /\ protected ns = false)
          \/ (running_job pod = true /\ protects_job selector pod = false))
  | _ => False
  end.
(** ... and the ones needed for the drain to succeed. *)
Definition drain_done protected selector (dry : bool) pod (new : list Call) : Prop :=
  (plain pod = true ->
     (dry = true /\ protected (pod_Namespace pod) = false)
     \/ CallEvict dry (pod_Namespace pod) (pod_Name pod) ∈ new)
  /\ (running_job pod = true ->
      protects_job selector pod = false
      /\ (dry = false -> CallDelete (pod_Namespace pod) (pod_Name pod) ∈ new)).

Lemma drain_done_mono protected selector dry pod new1 new new2 :
  drain_done protected selector dry pod new ->
  drain_done protected selector dry pod (new1 ++ new ++ new2).
Proof. unfold drain_done. intros [H1 H2]. rewrite !elem_of_app. naive_solver. Qed.

Lemma deletePod_runs pod (P : Call -> Prop) :
  P (CallDelete (pod_Namespace pod) (pod_Name pod)) ->
  runs_as (deletePod pod) P (fun _ new => new = [CallDelete (pod_Namespace pod) (pod_Name pod)]).
Proof.
  intros HP. unfold deletePod. eapply runs_bind; [by apply runs_request|].
  intros answer new1 ->. destruct answer; [by apply runs_ret|by apply runs_ret|apply runs_throws].
Qed.

Lemma evictPod_runs retries dry protected selector pod :
  plain pod = true -> (dry = true -> protected (pod_Namespace pod) = true) ->
  runs_as (evictPod retries dry protected pod) (drain_call protected selector dry pod)
    (fun _ new => CallEvict dry (pod_Namespace pod) (pod_Name pod) ∈ new).
Proof.
  intros Hplain Hdry.
  assert (drain_call protected selector dry pod (CallEvict dry (pod_Namespace pod) (pod_Name pod)))
    as Hev by (repeat split; done).
  assert (forall again,
    runs_as again (drain_call protected selector dry pod)
      (fun _ new => CallEvict dry (pod_Namespace pod) (pod_Name pod) ∈ new) ->
    runs_as
      (if negb (protected (pod_Namespace pod)) then deletePod pod
       else if dry then throws (ErrUnexpected "failed to evict pod due to PDB") else again)
      (drain_call protected selector dry pod) (fun _ _ => True)) as Hmany.
  { intros again Ha. destruct (protected (pod_Namespace pod)) eqn:Hpr; cbn [negb].
    - destruct dry; [apply runs_throws|]. by eapply runs_weaken.
    - eapply runs_weaken; [apply deletePod_runs|done|done]. destruct dry; [by specialize (Hdry eq_refl)|].
      repeat split; [done..|]. left. done. }
  induction retries as [|n IH]; cbn [evictPod];
    (eapply runs_bind; [by apply runs_request|]); intros answer new1 ->;
    (destruct answer; [apply runs_ret; left|apply runs_ret; left| |apply runs_throws]);
    (eapply runs_weaken; [apply Hmany|done|intros [] new _; left]).
  - apply runs_throws.
  - exact IH.
Qed.

Lemma handle_pod_runs protected selector attempts dry pod :
  runs_as
    (handle_pod
       (fun pod => if dry && negb (protected (pod_Namespace pod)) then mret tt
                   else evictPod (Z.to_nat (attempts - 1)) dry protected pod)
       (fun pod => if protects_job selector pod
                   then throws (ErrUnexpected "protected job-managed pod exists")
                   else if dry then mret tt else deletePod pod) pod)
    (drain_call protected selector dry pod)
    (fun _ new => drain_done protected selector dry pod new).
Proof.
  assert (forall d : bool, plain pod = true -> owned "Job" pod = false ->
    runs_as (if d && negb (protected (pod_Namespace pod)) then mret tt
             else evictPod (Z.to_nat (attempts - 1)) d protected pod)
      (drain_call protected selector d pod)
      (fun _ new => drain_done protected selector d pod new)) as Hplain.
  { intros d Hp Hj. destruct (d && negb (protected (pod_Namespace pod))) eqn:Hd.
    - apply runs_ret. bool_hyps. split; [by left|]. unfold running_job. by rewrite Hj.
    - eapply runs_weaken; [apply (evictPod_runs _ _ _ selector); [done|]|done|].
      + intros ->. by destruct (protected _).
      + intros [] new Hin. split; [by right|]. unfold running_job. by rewrite Hj. }
  unfold handle_pod. destruct (pod_Controller pod) as [kind|] eqn:Hc.
  2:{ apply Hplain; unfold plain, owned; by rewrite Hc. }
  destruct (kind =? "DaemonSet")%string eqn:Hds.
  { apply runs_ret. split; [|unfold running_job, owned; rewrite Hc; by apply String.eqb_eq in Hds as ->].
    unfold plain, owned. by rewrite Hc, Hds. }
  destruct (kind =? "Job")%string eqn:Hjob.
  2:{ apply Hplain; unfold plain, owned; by rewrite Hc, ?Hds, Hjob. }
  assert (plain pod = false) as Hnp by (unfold plain, owned; by rewrite Hc, Hds, Hjob).
  assert (owned "Job" pod = true) as Hj by (unfold owned; by rewrite Hc).
  assert (running_job pod = negb (job_not_running (pod_Phase pod))) as Hrun
    by (unfold running_job; by rewrite Hj).
  unfold drain_done. rewrite Hnp, Hrun.
  destruct (job_not_running (pod_Phase pod)); [by apply runs_ret|].
  destruct (protects_job selector pod) eqn:Hsel; [apply runs_throws|].
  destruct dry; [by apply runs_ret|].
  eapply runs_weaken; [apply (deletePod_runs pod (drain_call protected selector false pod))| |].
  - repeat split; [done..|]. by right.
  - done.
  - intros [] new ->. split; [done|]. intros _. split; [done|]. intros _. left.
Qed.

Definition node_pods (node : string) (s : sys) : list Pod :=
  default [] (snd (pods_on_node node (s_platform s))).
Definition chosen_selector (spec : option LabelSelector) : option Selector :=
  match spec with
  | Some sp => match LabelSelectorAsSelector (Some sp) with Ok s => Some s | Err _ => None end
  | None => None
  end.

Lemma job_selector_run spec s :
  job_selector spec s = (s, Done (Ok (chosen_selector spec)))
  \/ exists e, job_selector spec s = (s, Done (Err e)).
Proof.
  unfold job_selector, chosen_selector. destruct spec as [sp|]; [|by left].
  destruct (LabelSelectorAsSelector (Some sp)); [by left|right]. by eexists.
Qed.

(** C17: draining a node respects protection.  Only pods listed on the node are
    touched, and never those of DaemonSets.  A pod that belongs neither to a
    DaemonSet nor to a Job is evicted; it is deleted, when its eviction is refused
    by a disruption budget, only if its namespace is not protected.  A pod of a
    Job is deleted, in whatever namespace, only if it is running and the
    protected_job_pods selector does not match it.  A dry run sends dry evictions only.
    When the drain succeeds, no pod has been left out, and there is no running
    protected Job pod. *)
Theorem drain_respects_protection node protected spec attempts dry s :
  let '(s', r) := doEvictOrDeleteNodePod node protected spec attempts dry s in
  exists new, s_calls s' = s_calls s ++ new
    /\ (forall call, call ∈ new -> exists pod, pod ∈ node_pods node s
          /\ drain_call protected (chosen_selector spec) dry pod call)
    /\ (r = Done (Ok tt) -> forall pod, pod ∈ node_pods node s ->
          drain_done protected (chosen_selector spec) dry pod new).
Proof.
  destruct (doEvictOrDeleteNodePod node protected spec attempts dry s) as [s' r] eqn:Hrun.
  unfold doEvictOrDeleteNodePod, enumeratePods, query_api, mbind, drn_bind, ask in Hrun.
  destruct (job_selector_run spec s) as [Hs|[e Hs]]; rewrite Hs in Hrun.
  2:{ injection Hrun as <- <-. exists []. rewrite app_nil_r.
      split_and!; [done|by intros ? ?%elem_of_nil|done]. }
  unfold node_pods. destruct (pods_on_node node (s_platform s)) as [p [pods|]]; cbn [snd default].
  2:{ injection Hrun as <- <-. exists []. rewrite app_nil_r.
      split_and!; [done|by intros ? ?%elem_of_nil|done]. }
  destruct (runs_for_all _ pods (drain_call protected (chosen_selector spec) dry)
              (drain_done protected (chosen_selector spec) dry)
              (drain_done_mono _ _ _)
              (fun pod _ => handle_pod_runs protected (chosen_selector spec) attempts dry pod)
              _ _ _ Hrun) as (new & Hn & HF & Hok).
  exists new. rewrite Forall_forall in HF. split_and!; [done|done|]. intros ->. by apply (Hok tt).
Qed.
End protection.

(** ** Back-off *)
Section back_off.
  Context {T : K8sTypes}.

Lemma wrap64_small z : int64_range z -> wrap64 z = z.
Proof. unfold int64_range, wrap64. intros Hz. rewrite Z.mod_small; lia. Qed.
Lemma wrap64_multiple k : wrap64 (2 ^ 64 * k) = 0.
Proof.
  unfold wrap64. replace (2 ^ 64 * k + 2 ^ 63) with (2 ^ 63 + k * 2 ^ 64) by lia.
  rewrite Z.mod_add by lia. reflexivity.
Qed.

Lemma backoff_seconds_small count :
  1 <= count <= 55 -> backoff_seconds count = Z.min (300 * 2 ^ (count - 1)) 1200.
Proof.
  intros Hc. unfold backoff_seconds, mul64, shift_left_1, drainBackOffBaseSeconds, drainBackOffMaxSeconds.
  rewrite (proj2 (Z.leb_gt _ _)) by lia.
  assert (0 < 2 ^ (count - 1) <= 2 ^ 54) as Hp.
  { split; [apply Z.pow_pos_nonneg; lia|apply Z.pow_le_mono_r; lia]. }
  rewrite (wrap64_small (2 ^ (count - 1))) by (unfold int64_range; lia).
  rewrite wrap64_small by (unfold int64_range; lia).
  destruct (Z.ltb_spec 1200 (2 ^ (count - 1) * 300)); lia.
Qed.

Lemma backoff_seconds_large count : 63 <= count -> backoff_seconds count = 0.
Proof.
  intros Hc. unfold backoff_seconds, mul64, shift_left_1, drainBackOffBaseSeconds.
  destruct (Z.leb_spec 64 (count - 1)); [reflexivity|].
  assert (count = 63 \/ count = 64) as [-> | ->] by lia; reflexivity.
Qed.

Lemma seconds_small s : 0 <= s <= 10 ^ 9 -> seconds s = 10 ^ 9 * s.
Proof. intros Hs. unfold seconds, mul64. rewrite wrap64_small; unfold int64_range; lia. Qed.

Lemma backed_off_delay e time r b :
  backoff_seconds (add64 (rqe_DrainBackOffCount e) 1) = b -> 0 <= b <= 1200 -> 0 <= r < 300 ->
  rqe_DrainBackOffExpire (backed_off e time r) - time = 10 ^ 9 * (b + r).
Proof.
  intros Hb Hb2 Hr. unfold backed_off. cbn [rqe_DrainBackOffExpire]. rewrite Hb.
  unfold add64. rewrite wrap64_small by (unfold int64_range; lia). rewrite seconds_small by lia. lia.
Qed.

(** How long drains back off.  Up to the 55th failure in a row, an entry is
    left alone for at least five minutes, doubling up to twenty, and for less
    than five minutes on top of that.  But the delay is computed as a shift of
    64-bit numbers before it is limited: from the 63rd failure on it is gone, and
    only the random part is left. *)
Theorem drain_back_off_delay e time r :
  0 <= r < drainBackOffBaseSeconds ->
  let delay := rqe_DrainBackOffExpire (backed_off e time r) - time in
  (0 <= rqe_DrainBackOffCount e < 55 ->
     delay = 10 ^ 9 * (Z.min (300 * 2 ^ rqe_DrainBackOffCount e) 1200 + r)
     /\ 10 ^ 9 * 300 <= delay < 10 ^ 9 * 1500)
  /\ (62 <= rqe_DrainBackOffCount e < 2 ^ 63 - 1 -> delay = 10 ^ 9 * r /\ delay < 10 ^ 9 * 300).
Proof.
  unfold drainBackOffBaseSeconds. intros Hr. cbn zeta. split; intros Hc.
  - assert (0 < 2 ^ rqe_DrainBackOffCount e) by (apply Z.pow_pos_nonneg; lia).
    rewrite (backed_off_delay e time r (Z.min (300 * 2 ^ rqe_DrainBackOffCount e) 1200)); [lia| |lia|done].
    unfold add64. rewrite wrap64_small by (unfold int64_range; lia).
    rewrite backoff_seconds_small by lia. do 3 f_equal. lia.
  - rewrite (backed_off_delay e time r 0); [lia| |lia|done].
    unfold add64. rewrite wrap64_small by (unfold int64_range; lia). by rewrite backoff_seconds_large by lia.
Qed.

Lemma drain_back_off_delay_witness :
  let delay n := rqe_DrainBackOffExpire
    (backed_off (mkRebootQueueEntry 0 "10.0.0.11" RebootStatusDraining 0 n 0) 0 17) - 0 in
  delay 1 = 10 ^ 9 * 617 /\ delay 70 = 10 ^ 9 * 17.
Proof.
  split.
  - apply (drain_back_off_delay (mkRebootQueueEntry 0 "10.0.0.11" RebootStatusDraining 0 1 0) 0 17);
      cbn; unfold drainBackOffBaseSeconds; lia.
  - apply (drain_back_off_delay (mkRebootQueueEntry 0 "10.0.0.11" RebootStatusDraining 0 70 0) 0 17);
      cbn; unfold drainBackOffBaseSeconds; lia.
Defined.
End back_off.

(** ** What the drain command does to the queue *)
Create HintDb quiet.
Section outcome.
  Context {T : K8sTypes} {K : K8s} `{!Etcd} `{!Platform}.
  Implicit Types (q : queue RebootQueueEntry) (e : RebootQueueEntry).

(** Computations that do not use the storage. *)
Definition quiet_store {A} (m : drn A) : Prop := forall s, s_etcd (fst (m s)) = s_etcd s.

Lemma quiet_ret {A} (a : A) : quiet_store (mret a).
Proof. done. Qed.
Lemma quiet_throws {A} (err : error) : quiet_store (throws (A := A) err).
Proof. done. Qed.
Lemma quiet_panics {A} w : quiet_store (panics (A := A) w).
Proof. done. Qed.
Lemma quiet_bind {A B} (m : drn A) (k : A -> drn B) :
  quiet_store m -> (forall a, quiet_store (k a)) -> quiet_store (m ≫= k).
Proof.
  intros Hm Hk s. unfold mbind, drn_bind. specialize (Hm s).
  destruct (m s) as [s1 [[a|e]|w|]]; cbn in *; [|done..]. by rewrite (Hk a s1).
Qed.
Lemma quiet_attempt {A} (m : drn A) : quiet_store m -> quiet_store (attempt m).
Proof. intros Hm s. specialize (Hm s). unfold attempt. by destruct (m s) as [s1 [r|w|]]. Qed.
Lemma quiet_ask {A} (f : platform -> platform * A) : quiet_store (ask f).
Proof. intros s. unfold ask. by destruct (f (s_platform s)). Qed.
Lemma quiet_request {A} c (f : platform -> platform * A) : quiet_store (request_api c f).
Proof. intros s. unfold request_api. by destruct (f (s_platform s)). Qed.
Lemma quiet_query {A} (f : platform -> platform * option A) : quiet_store (query_api f).
Proof. apply quiet_bind; [apply quiet_ask|]. intros [a|]; [apply quiet_ret|apply quiet_throws]. Qed.
Lemma quiet_for_all {A} (f : A -> drn unit) l :
  (forall x, quiet_store (f x)) -> quiet_store (for_all f l).
Proof.
  intros Hf. induction l as [|x l IH]; cbn [for_all]; [apply quiet_ret|].
  apply quiet_bind; [apply Hf|by intros []].
Qed.
#[local] Hint Resolve quiet_ret quiet_throws quiet_panics quiet_bind quiet_attempt quiet_ask
  quiet_request quiet_query quiet_for_all : quiet.
Ltac quiet := repeat (apply quiet_bind; [by eauto 2 with quiet|intros ?]); repeat split_match;
  eauto 3 with quiet.

Lemma quiet_delete pod : quiet_store (deletePod pod).
Proof. unfold deletePod. quiet. Qed.
Lemma quiet_evict retries dry protected pod : quiet_store (evictPod retries dry protected pod).
Proof.
  induction retries as [|n IH]; cbn [evictPod]; (apply quiet_bind; [apply quiet_request|]);
    intros [| | |]; repeat split_match; auto using quiet_ret, quiet_throws, quiet_delete.
Qed.
Lemma quiet_drain node protected spec attempts dry :
  quiet_store (doEvictOrDeleteNodePod node protected spec attempts dry).
Proof.
  apply quiet_bind.
  - unfold job_selector. repeat split_match; auto with quiet.
  - intros selector. apply quiet_bind; [apply quiet_query|]. intros pods. apply quiet_for_all.
    intros pod. unfold handle_pod.
    repeat split_match; auto using quiet_ret, quiet_throws, quiet_delete, quiet_evict.
Qed.

Lemma drn_bind_Ok {A B} (m : drn A) (k : A -> drn B) s s' b :
  (m ≫= k) s = (s', Done (Ok b)) ->
  exists s1 a, m s = (s1, Done (Ok a)) /\ k a s1 = (s', Done (Ok b)).
Proof.
  unfold mbind, drn_bind. destruct (m s) as [s1 [[a|err]|w|]]; [eauto|done..].
Qed.
Lemma drn_bind_run {A B} (m : drn A) (k : A -> drn B) s s' r :
  (m ≫= k) s = (s', Done r) ->
  (exists s1 a, m s = (s1, Done (Ok a)) /\ k a s1 = (s', Done r))
  \/ exists err, m s = (s', Done (Err err)) /\ r = Err err.
Proof.
  unfold mbind, drn_bind. destruct (m s) as [s1 [[a|err]|w|]]; [eauto|naive_solver|done..].
Qed.
Lemma quiet_run {A} (m : drn A) s s' r : quiet_store m -> m s = (s', r) -> s_etcd s' = s_etcd s.
Proof. intros Hq Hm. specialize (Hq s). by rewrite Hm in Hq. Qed.
Lemma storage_run {A} (m : sto A) s s' r :
  storage m s = (s', r) -> m (s_etcd s) = (s_etcd s', r).
Proof. unfold storage. destruct (m (s_etcd s)) as [d r']. by intros [= <- <-]. Qed.

Lemma GetEntry_Ok d d' q i (x y : RebootQueueEntry) :
  stored (kvs d) q -> q_entries q !! i = Some x -> GetEntry i d = (d', Done (Ok y)) ->
  kvs d' = kvs d /\ y = x.
Proof.
  intros Hs Hx. unfold GetEntry, mbind, sto_bind.
  destruct (Get_cases (entry_key (E := RebootQueueEntry) i) d) as (d1 & H1 & [-> | ->]); [|done].
  destruct (st_entry _ _ Hs _ _ Hx) as (_ & _ & Hv). destruct (kvs d !! entry_key i) as [kv|]; [|done].
  apply (inj Some) in Hv. unfold entry_of. rewrite Hv, of_to_value. intros [= <- <-]. done.
Qed.

Lemma Update_Ok n (e : RebootQueueEntry) d d' q x :
  stored (kvs d) q -> q_entries q !! rqe_Index e = Some x ->
  UpdateRebootsEntry (S n) e d = (d', Done (Ok tt)) -> stored (kvs d') (replace e q).
Proof.
  intros Hs Hx Hu. pose proof (update_implements n e d q Hs) as Hi.
  assert (0 <= rqe_Index e < 2 ^ 63) as Hr by (eapply (stored_mod_index _ _ _ Hs); rewrite Hx; by eexists).
  specialize (Hi Hr). unfold UpdateRebootsEntry in Hu. rewrite Hu in Hi. by inversion Hi.
Qed.

(** After an error of the storage the entry is as before or written. *)
Lemma Update_any n (e : RebootQueueEntry) d d' q x r :
  stored (kvs d) q -> q_entries q !! rqe_Index e = Some x ->
  UpdateRebootsEntry (S n) e d = (d', r) ->
  stored (kvs d') q \/ stored (kvs d') (replace e q).
Proof.
  intros Hs Hx Hu. pose proof (update_implements n e d q Hs) as Hi.
  assert (0 <= rqe_Index e < 2 ^ 63) as Hr by (eapply (stored_mod_index _ _ _ Hs); rewrite Hx; by eexists).
  specialize (Hi Hr). unfold UpdateRebootsEntry in Hu. rewrite Hu in Hi. inversion Hi; subst; naive_solver.
Qed.

Lemma drainBackOff_outcome n e s s' q x :
  stored (kvs (s_etcd s)) q -> q_entries q !! rqe_Index e = Some x ->
  drainBackOff (S n) e s = (s', Done (Ok tt)) ->
  (rqe_Status x = RebootStatusCancelled /\ stored (kvs (s_etcd s')) q)
  \/ exists time r, 0 <= r < drainBackOffBaseSeconds
       /\ stored (kvs (s_etcd s')) (replace (backed_off e time r) q).
Proof.
  intros Hs Hx (s1 & y & Hg%storage_run & Hk)%drn_bind_Ok.
  destruct (GetEntry_Ok _ _ _ _ _ _ Hs Hx Hg) as [H1 ->].
  unfold status_is in Hk. destruct (rqe_Status x =? RebootStatusCancelled)%string eqn:Hst.
  { injection Hk as <-. left. apply String.eqb_eq in Hst. by rewrite H1. }
  right. apply drn_bind_Ok in Hk as (s2 & time & Ht & Hk).
  apply quiet_run in Ht; [|unfold current_time; quiet].
  destruct (_ <? 1); [done|]. apply drn_bind_Ok in Hk as (s3 & r & Hr & Hu%storage_run).
  exists time, r. split.
  - unfold ask in Hr. pose proof (int63n_range drainBackOffBaseSeconds (s_platform s2)) as Hi.
    destruct (int63n _ _). injection Hr as <- <-. by apply Hi.
  - apply quiet_run in Hr; [|apply quiet_ask].
    eapply Update_Ok; [|exact Hx|exact Hu]. by rewrite Hr, Ht, H1.
Qed.

Lemma attempt_run {A} (m : drn A) s s' r :
  attempt m s = (s', Done (Ok r)) -> m s = (s', Done r).
Proof. unfold attempt. destruct (m s) as [s1 [r'|w|]]; [|done..]. by intros [= <- <-]. Qed.

(** What becomes of an entry [e] of the command, stored as [x] before. *)
Inductive drain_result e (x : RebootQueueEntry) : RebootQueueEntry -> Prop :=
| drain_going time : drain_result e x (set_status e RebootStatusDraining time)
| drain_backed_off time r :
    0 <= r < drainBackOffBaseSeconds -> drain_result e x (backed_off e time r)
| drain_cancelled : rqe_Status x = RebootStatusCancelled -> drain_result e x x.

(** The queue [q'] is [q] but for the entry at [i], which is [y]. *)
Definition entry_becomes q (i : Z) (y : RebootQueueEntry) q' : Prop :=
  q_next q' = q_next q /\ q_entries q' !! i = Some y
  /\ forall j, j <> i -> q_entries q' !! j = q_entries q !! j.

Lemma becomes_replace q y x :
  q_entries q !! rqe_Index y = Some x -> entry_becomes q (rqe_Index y) y (replace y q).
Proof.
  intros Hx. split; [done|]. unfold replace. cbn. split; [by rewrite lookup_insert_eq|].
  intros j Hj. by rewrite lookup_insert_ne.
Qed.
Lemma becomes_same q i y : q_entries q !! i = Some y -> entry_becomes q i y q.
Proof. by split. Qed.
Lemma becomes_trans q1 q2 q3 i x y :
  entry_becomes q1 i x q2 -> entry_becomes q2 i y q3 -> entry_becomes q1 i y q3.
Proof.
  intros (Hn1 & _ & H1) (Hn2 & Hy & H2). split; [congruence|]. split; [done|].
  intros j Hj. by rewrite H2, H1.
Qed.

Lemma drainBackOff_becomes n e s s' q x :
  stored (kvs (s_etcd s)) q -> q_entries q !! rqe_Index e = Some x ->
  drainBackOff (S n) e s = (s', Done (Ok tt)) ->
  exists q' y, stored (kvs (s_etcd s')) q' /\ entry_becomes q (rqe_Index e) y q'
    /\ ((rqe_Status x = RebootStatusCancelled /\ y = x)
        \/ exists time r, 0 <= r < drainBackOffBaseSeconds /\ y = backed_off e time r).
Proof.
  intros Hs Hx Hd. destruct (drainBackOff_outcome _ _ _ _ _ _ Hs Hx Hd) as [[Hc Hs']|(time & r & Hr & Hs')].
  - exists q, x. split; [done|]. split; [by apply becomes_same|by left].
  - exists (replace (backed_off e time r) q), (backed_off e time r).
    split; [done|]. split; [by apply (becomes_replace q (backed_off e time r) x)|]. eauto 6.
Qed.

(** One entry of the first loop. *)
Lemma start_drain_outcome n protected jobs e s s' r q x :
  stored (kvs (s_etcd s)) q -> q_entries q !! rqe_Index e = Some x ->
  start_drain (S n) protected jobs e s = (s', Done r) ->
  stored (kvs (s_etcd s')) (replace e q) \/ ((exists err, r = Err err) /\ stored (kvs (s_etcd s')) q).
Proof.
  intros Hs Hx [(s1 & [] & Hu%storage_run & Hk)|(err & Hu%storage_run & ->)]%drn_bind_run.
  - left. apply quiet_run in Hk; [rewrite Hk; by eapply Update_Ok|].
    apply quiet_bind; [unfold cordon; quiet|]. intros _. apply quiet_drain.
  - destruct (Update_any _ _ _ _ _ _ _ Hs Hx Hu); [right; eauto|by left].
Qed.

Lemma cordon_step n protected jobs e s s1 s' r q x time :
  stored (kvs (s_etcd s)) q -> q_entries q !! rqe_Index e = Some x ->
  let e1 := set_status e RebootStatusDraining time in
  start_drain (S n) protected jobs e1 s = (s1, Done r) ->
  match r with Ok _ => s' = s1 | Err _ => drainBackOff (S n) e1 s1 = (s', Done (Ok tt)) end ->
  exists q' y, stored (kvs (s_etcd s')) q' /\ entry_becomes q (rqe_Index e) y q'
    /\ drain_result e x y /\ (r = Ok tt -> y = e1).
Proof.
  intros Hs Hx e1 Hstart Hr.
  destruct (start_drain_outcome _ _ _ e1 _ _ _ _ x Hs Hx Hstart) as [Hs1|[[err ->] Hs1]].
  - pose proof (becomes_replace q e1 x Hx) as Hb. destruct r as [[]|err].
    + subst s'. exists (replace e1 q), e1. eauto using drain_result.
    + destruct (drainBackOff_becomes _ _ _ _ _ e1 Hs1 ltac:(apply Hb) Hr) as (q' & y & Hs' & Hb' & Hy).
      exists q', y. split; [done|]. split; [by eapply becomes_trans|].
      destruct Hy as [[? ->]|(t & k & Hk & ->)]; [done|]. split; [|done].
      by apply (drain_backed_off e x t k).
  - destruct (drainBackOff_becomes _ _ _ _ _ x Hs1 Hx Hr) as (q' & y & Hs' & Hb' & Hy).
    exists q', y. split; [done|]. split; [done|].
    destruct Hy as [[? ->]|(t & k & Hk & ->)]; (split; [|done]); [by apply drain_cancelled|].
    by apply (drain_backed_off e x t k).
Qed.

(** The entries of [l] are settled in [q'], and the others are as in [q]. *)
Definition settled (l : list RebootQueueEntry) q q' : Prop :=
  q_next q' = q_next q
  /\ (forall i, i ∉ rqe_Index <$> l -> q_entries q' !! i = q_entries q !! i)
  /\ forall e, e ∈ l -> exists x y, q_entries q !! rqe_Index e = Some x
       /\ q_entries q' !! rqe_Index e = Some y /\ drain_result e x y.

Lemma settled_nil q : settled [] q q.
Proof. split; [done|]. split; [done|]. by intros e ?%elem_of_nil. Qed.
Lemma settled_cons e l q q1 q2 x y :
  rqe_Index e ∉ rqe_Index <$> l -> q_entries q !! rqe_Index e = Some x ->
  entry_becomes q (rqe_Index e) y q1 -> drain_result e x y -> settled l q1 q2 ->
  settled (e :: l) q q2.
Proof.
  intros Hni Hx (Hn1 & Hy & Ho) Hr (Hn2 & Hrest & Hl). split; [congruence|]. split.
  - intros i Hi. rewrite fmap_cons, not_elem_of_cons in Hi. rewrite Hrest by apply Hi. apply Ho, Hi.
  - intros e' [->|He']%elem_of_cons.
    + exists x, y. rewrite Hrest by done. done.
    + destruct (Hl e' He') as (x' & y' & Hx' & Hy' & Hr'). exists x', y'.
      split; [|done]. rewrite <- Ho; [done|]. intros Heq. apply Hni. rewrite <- Heq.
      by apply list_elem_of_fmap_2.
Qed.

(** An iteration of the first loop. *)
Lemma cordon_loop_cons n protected jobs e l s s' nodes failed :
  cordon_loop (S n) protected jobs (e :: l) s = (s', Done (Ok (nodes, failed))) ->
  exists time s1 s2 s3 r nodes' failed',
    let e1 := set_status e RebootStatusDraining time in
    s_etcd s1 = s_etcd s /\ start_drain (S n) protected jobs e1 s1 = (s2, Done r)
    /\ match r with Ok _ => s3 = s2 | Err _ => drainBackOff (S n) e1 s2 = (s3, Done (Ok tt)) end
    /\ cordon_loop (S n) protected jobs l s3 = (s', Done (Ok (nodes', failed')))
    /\ nodes = match r with Ok _ => e1 :: nodes' | Err _ => nodes' end.
Proof.
  intros (s1 & time & Ht & (s2 & r & Hr%attempt_run & Hk)%drn_bind_Ok)%drn_bind_Ok.
  apply quiet_run in Ht; [|unfold current_time; quiet]. destruct r as [u|err].
  - apply drn_bind_Ok in Hk as (s3 & [nodes' failed'] & Hl & [= <- <- <-]).
    exists time, s1, s2, s2, (Ok u), nodes', failed'. done.
  - apply drn_bind_Ok in Hk as (s3 & [] & Hb & (s4 & [nodes' failed'] & Hl & [= <- <- <-])%drn_bind_Ok).
    exists time, s1, s2, s3, (Err err), nodes', failed'. done.
Qed.

(** The entries that go on to the second loop. *)
Definition evicting (l nodes : list RebootQueueEntry) q : Prop :=
  (rqe_Index <$> nodes) ⊆ (rqe_Index <$> l) /\ NoDup (rqe_Index <$> nodes)
  /\ forall y, y ∈ nodes -> rqe_Status y = RebootStatusDraining /\ q_entries q !! rqe_Index y = Some y.

Lemma evicting_skip e l nodes q : evicting l nodes q -> evicting (e :: l) nodes q.
Proof. intros (Hs & Hn & Hy). split; [|done]. intros i Hi. right. by apply Hs. Qed.
Lemma evicting_cons e e1 l nodes q :
  rqe_Index e1 = rqe_Index e -> rqe_Index e ∉ rqe_Index <$> l ->
  rqe_Status e1 = RebootStatusDraining -> q_entries q !! rqe_Index e1 = Some e1 ->
  evicting l nodes q -> evicting (e :: l) (e1 :: nodes) q.
Proof.
  intros Hi Hni Hst Hq (Hs & Hn & Hy). split; [|split].
  - intros i [->|Hin]%elem_of_cons; [rewrite Hi; by left|]. right. by apply Hs.
  - apply NoDup_cons. split; [|done]. rewrite Hi. intros Hin. by apply Hni, Hs.
  - intros y [->|Hin]%elem_of_cons; [done|]. by apply Hy.
Qed.

Lemma cordon_loop_outcome n protected jobs l s s' nodes failed q :
  stored (kvs (s_etcd s)) q -> NoDup (rqe_Index <$> l) ->
  (forall e, e ∈ l -> is_Some (q_entries q !! rqe_Index e)) ->
  cordon_loop (S n) protected jobs l s = (s', Done (Ok (nodes, failed))) ->
  exists q', stored (kvs (s_etcd s')) q' /\ settled l q q' /\ evicting l nodes q'.
Proof.
  revert s q nodes failed. induction l as [|e l IH]; intros s q nodes failed Hs Hnd Hin.
  { intros [= <- <- <-]. exists q. split; [done|]. split; [apply settled_nil|].
    split; [done|]. split; [constructor|]. by intros y ?%elem_of_nil. }
  rewrite fmap_cons in Hnd. apply NoDup_cons in Hnd as [Hni Hnd].
  destruct (Hin e ltac:(left)) as [x Hx].
  intros (time & s1 & s2 & s3 & r & nodes' & failed' & H1 & Hr & H3 & Hl & ->)%cordon_loop_cons.
  rewrite <- H1 in Hs.
  destruct (cordon_step _ _ _ _ _ _ _ _ _ _ _ Hs Hx Hr H3) as (q1 & y & Hs3 & Hb & Hy & Hok).
  destruct (IH s3 q1 nodes' failed' Hs3 Hnd) as (q2 & Hs' & Hset & Hev); [|done|].
  { intros e' He'. destruct Hb as (_ & _ & Ho). rewrite Ho; [apply Hin; by right|].
    intros Heq. apply Hni. rewrite <- Heq. by apply list_elem_of_fmap_2. }
  exists q2. split; [done|]. split; [by eapply settled_cons|].
  destruct r as [[]|err]; [|by apply evicting_skip].
  apply evicting_cons; [done..| |done]. cbn.
  destruct Hset as (_ & Hrest & _). rewrite Hrest by done. rewrite <- Hok by done. apply Hb.
Qed.

(** Draining entries that stay as they are, or back off. *)
Lemma drain_stays e : rqe_Status e = RebootStatusDraining -> drain_result e e e.
Proof.
  intros He. replace e with (set_status e RebootStatusDraining (rqe_LastTransitionTime e)) at 3.
  - apply drain_going.
  - destruct e; unfold set_status; cbn in *. by subst.
Qed.

Lemma evict_loop_outcome n protected jobs attempts l s s' failed q :
  stored (kvs (s_etcd s)) q -> NoDup (rqe_Index <$> l) ->
  (forall y, y ∈ l -> rqe_Status y = RebootStatusDraining /\ q_entries q !! rqe_Index y = Some y) ->
  evict_loop (S n) protected jobs attempts l s = (s', Done (Ok failed)) ->
  exists q', stored (kvs (s_etcd s')) q' /\ settled l q q'.
Proof.
  revert s q failed. induction l as [|e l IH]; intros s q failed Hs Hnd Hin.
  { intros [= <- <-]. exists q. split; [done|]. apply settled_nil. }
  rewrite fmap_cons in Hnd. apply NoDup_cons in Hnd as [Hni Hnd].
  destruct (Hin e ltac:(left)) as [Hst He].
  intros (s1 & r & Hr%attempt_run%quiet_run & Hk)%drn_bind_Ok; [|apply quiet_drain].
  rewrite <- Hr in Hs.
  assert (exists s2 q1 y failed', stored (kvs (s_etcd s2)) q1 /\ entry_becomes q (rqe_Index e) y q1
      /\ drain_result e e y /\ evict_loop (S n) protected jobs attempts l s2 = (s', Done (Ok failed')))
    as (s2 & q1 & y & failed' & Hs2 & Hb & Hy & Hl).
  { destruct r as [u|err].
    - exists s1, q, e, failed. split; [done|]. split; [by apply becomes_same|].
      split; [by apply drain_stays|done].
    - apply drn_bind_Ok in Hk as (s2 & [] & Hd & (s3 & failed' & Hl & [= -> _])%drn_bind_Ok).
      destruct (drainBackOff_becomes _ _ _ _ _ e Hs He Hd) as (q1 & y & Hs2 & Hb & Hy).
      exists s2, q1, y, failed'. split; [done|]. split; [done|]. split; [|done].
      destruct Hy as [[Hc ->]|(t & k & Hk & ->)]; [by rewrite Hst in Hc|by apply drain_backed_off]. }
  destruct (IH s2 q1 failed' Hs2 Hnd) as (q2 & Hs' & Hset); [|done|].
  { intros y' Hy'. destruct Hb as (_ & _ & Ho). rewrite Ho; [apply Hin; by right|].
    intros Heq. apply Hni. rewrite <- Heq. by apply list_elem_of_fmap_2. }
  exists q2. split; [done|]. by eapply settled_cons.
Qed.

Lemma drain_result_trans e x y z :
  rqe_Status y = RebootStatusDraining -> drain_result e x y -> drain_result y y z -> drain_result e x z.
Proof.
  intros Hst H1 H2. destruct H1 as [time|time r Hr|Hc] in Hst, H2 |- *; [|done|by rewrite Hst in Hc].
  destruct H2 as [time'|time' r' Hr'|Hc']; [|by apply (drain_backed_off e x time' r')|done].
  apply (drain_going e x time').
Qed.

Lemma settled_evicting l nodes q q1 q2 :
  settled l q q1 -> evicting l nodes q1 -> settled nodes q1 q2 -> settled l q q2.
Proof.
  intros (Hn1 & Ho1 & H1) (Hsub & _ & Hev) (Hn2 & Ho2 & H2). split; [congruence|]. split.
  - intros i Hi. rewrite Ho2 by (contradict Hi; by apply Hsub). by apply Ho1.
  - intros e He. destruct (H1 e He) as (x & y & Hx & Hy & Hr).
    destruct (decide (rqe_Index e ∈ rqe_Index <$> nodes)) as [Hin|Hni].
    + apply list_elem_of_fmap_1 in Hin as (y' & Hi & Hin).
      destruct (Hev y' Hin) as [Hst Hy']. rewrite <- Hi in Hy'. assert (y' = y) as -> by congruence.
      destruct (H2 y Hin) as (y1 & z & Hy1 & Hz & Hr2). rewrite <- Hi in Hy1, Hz.
      assert (y1 = y) as -> by congruence.
      exists x, z. split; [done|]. split; [done|]. by eapply drain_result_trans.
    + exists x, y. split; [done|]. split; [by rewrite Ho2|done].
Qed.

(** C23: what the command that starts drains leaves in the queue of etcd.  Each
    entry it was given is stored as draining, or as queued again with one more
    failure and a delay, or was cancelled meanwhile and is left alone; no other
    entry is touched, whatever the API server answers and however long the
    evictions fail. *)
Theorem drain_start_outcome n entries namespaces jobs attempts s s' failed q :
  stored (kvs (s_etcd s)) q -> NoDup (rqe_Index <$> entries) ->
  (forall e, e ∈ entries -> is_Some (q_entries q !! rqe_Index e)) ->
  rebootDrainStart_Run (S n) entries namespaces jobs attempts s = (s', Done (Ok failed)) ->
  exists q', stored (kvs (s_etcd s')) q' /\ settled entries q q'.
Proof.
  intros Hs Hnd Hin (s1 & [] & Hc & (s2 & protected & Hp & Hk)%drn_bind_Ok)%drn_bind_Ok.
  apply quiet_run in Hc; [|unfold K8sClient; quiet].
  apply quiet_run in Hp; [|unfold listProtectedNamespaces; quiet].
  apply drn_bind_Ok in Hk as (s3 & [nodes failed1] & Hl & (s4 & failed2 & He & [= -> _])%drn_bind_Ok).
  rewrite <- Hc, <- Hp in Hs.
  destruct (cordon_loop_outcome _ _ _ _ _ _ _ _ _ Hs Hnd Hin Hl) as (q1 & Hs3 & Hset & Hev).
  destruct (evict_loop_outcome _ _ _ _ _ _ _ _ _ Hs3 ltac:(apply Hev) ltac:(apply Hev) He)
    as (q2 & Hs4 & Hset2).
  exists q2. split; [done|]. by eapply settled_evicting.
Qed.
End outcome.

(** ** Examples *)
#[local] Existing Instance sample_types.
#[local] Existing Instance sample_k8s.
#[local] Existing Instance memory_etcd.

Definition sample_members : Cluster := sample_cluster sample_nodes (Some 2).
Definition sample_apis (node : string) : bool := (node =? "10.0.0.11")%string.
Definition queued_worker : RebootQueueEntry := NewRebootQueueEntry "10.0.0.101".
Definition queued_api : RebootQueueEntry := NewRebootQueueEntry "10.0.0.11".
Definition draining_worker : RebootQueueEntry := set_status queued_worker RebootStatusDraining 0.

(** A worker and an API server are queued, and the worker is drained. *)
Definition sample_life : life_state :=
  mkLife (written draining_worker (enqueue (with_index 1 queued_api) (enqueue queued_worker (mkQueue ∅ 0))))
    [queued_worker] false 1.
Lemma sample_life_reached : rtc (life_step sample_members sample_apis) life_start sample_life.
Proof.
  eapply rtc_l; [apply (life_add _ _ _ _ _ _ "10.0.0.101")|].
  eapply rtc_l; [apply (life_survey _ _ _ _ _ _ [queued_worker])|].
  { split; [repeat constructor|]. intros e. rewrite list_elem_of_singleton. cbn. split.
    - by intros ->.
    - intros Hi. apply lookup_insert_Some in Hi as [[_ <-]|[_ Hi]]; [done|].
      by rewrite lookup_empty in Hi. }
  eapply rtc_l; [apply (life_add _ _ _ _ _ _ "10.0.0.11")|].
  eapply rtc_l; [by apply (life_drain _ _ _ _ _ 0 0 queued_worker)|].
  apply rtc_refl.
Qed.

Lemma reboots_one_by_one_witness :
  q_entries (lf_queue sample_life) !! 0 = Some draining_worker
  /\ busy_entry sample_members draining_worker = true
  /\ Z.of_nat (size (filter (fun kv => busy_entry sample_members (snd kv) = true
                                      /\ sample_apis (rqe_Node (snd kv)) = false)
                     (q_entries (lf_queue sample_life)))) <= 1.
Proof.
  split; [vm_compute; reflexivity|]. split; [vm_compute; reflexivity|].
  apply (reboots_one_by_one sample_members sample_apis sample_life);
    [vm_compute; discriminate|apply sample_life_reached].
Defined.

(** A platform with a clock, on which each node runs the same pod; the API
    server answers the first evictions with "too many requests". *)
Program Definition sample_platform : Platform := {|
  platform := Z * nat;
  now_at '(t, n) := ((t + 10 ^ 9, n), t);
  int63n _ p := (p, 0);
  run_program _ _ p := (p, Some "");
  connect p := (p, true);
  pods_on_node node p :=
    (p, Some [mkPod "default" "web" ∅ "Running" node (Some "ReplicaSet")]);
  daemon_sets p := (p, Some []);
  pods_selected _ _ p := (p, Some []);
  namespaces_selected _ p := (p, Some ["default"]);
  volumes_in_use _ p := (p, Some false);
  evict_pod _ _ _ '(t, n) := match n with O => ((t, n), Evicted) | S n => ((t, n), TooManyRequests) end;
  delete_pod _ _ p := (p, Deleted);
  cordon_node _ p := (p, true);
  uncordon_node _ p := (p, true)
|}.
Next Obligation. intros n p Hn. cbn. lia. Qed.
#[local] Existing Instance sample_platform.

(** The drain of a node whose pods cannot be evicted backs off. *)
Definition queue_store : etcd := fst (RegisterEntry 1 queued_worker (∅ : etcd)).
Definition one_queued : queue RebootQueueEntry := enqueue queued_worker (mkQueue ∅ 0).
Lemma one_queued_stored : stored (kvs queue_store) one_queued.
Proof.
  assert (implements (∅ : etcd) empty_queue (Register queued_worker)
            (RegisterEntry 1 queued_worker (∅ : etcd))) as Hi
    by (apply register_implements; [apply stored_empty|done]).
  unfold queue_store. by inversion Hi.
Qed.

Definition before_drain : sys := mkSys queue_store (10 ^ 18, 5%nat) [] ∅.
Definition after_drain : sys * outcome (list string) :=
  rebootDrainStart_Run 1 [queued_worker] None None 1 before_drain.

Lemma drain_start_outcome_witness :
  snd after_drain = Done (Ok ["10.0.0.101"])
  /\ exists q', stored (kvs (s_etcd (fst after_drain))) q' /\ settled [queued_worker] one_queued q'.
Proof.
  split; [vm_compute; reflexivity|].
  apply (drain_start_outcome 0 [queued_worker] None None 1 before_drain
           (fst after_drain) ["10.0.0.101"] one_queued).
  - apply one_queued_stored.
  - repeat constructor; set_solver.
  - intros e ->%list_elem_of_singleton. by eexists.
  - apply (ran after_drain). vm_compute. reflexivity.
Defined.
