(* ===== verification/Metrics.v ===== *)
(** * Metrics (metrics/)

    What a server reports to Prometheus: the gauges it sets while it works, and the metrics that
    are computed from the storage when they are asked for.  The source sends metrics through a
    channel, from a goroutine for each group; here they are a list, whose order means nothing.
    Values are whole numbers.  The handler, descriptions and logs are left out. *)

From Stdlib Require Import ZArith Ascii String Lia.
From stdpp Require Import base gmap strings list.
From S2P Require Import Prelude GoLib K8s Cluster Queue Status Storage Reboot.

(** ** Metrics and gauges (metrics/metrics.go) *)
Record Metric := mkMetric {
  mt_name : string;
  mt_labels : list string;
  mt_value : Z
}.
(** The global variables. *)
Record gauges := mkGauges {
  g_isLeader : bool;
  g_leader : Z;
  g_operationPhase : gmap string Z;
  g_operationPhaseTimestamp : Z;
  g_sabakanSuccessful : Z;
  g_sabakanTimestamp : Z;
  g_sabakanWorkers : gmap string Z;
  g_sabakanUnusedMachines : Z
}.
Definition initial_gauges : gauges := mkGauges false 0 ∅ 0 0 0 ∅ 0.
(** [prometheus.BuildFQName] *)
Definition fq_name (name : string) : string := "cke_" +:+ name.

(** ** Updates (metrics/updater.go) *)
Definition UpdateLeader (flag : bool) (g : gauges) : gauges :=
  mkGauges flag (if flag then 1 else 0) (g_operationPhase g) (g_operationPhaseTimestamp g)
    (g_sabakanSuccessful g) (g_sabakanTimestamp g) (g_sabakanWorkers g) (g_sabakanUnusedMachines g).
Definition UpdateOperationPhase (phase : OperationPhase) (ts : Z) (g : gauges) : gauges :=
  mkGauges (g_isLeader g) (g_leader g)
    (foldl (fun m labelPhase => <[ phase_string labelPhase := if bool_decide (labelPhase = phase) then 1 else 0 ]> m)
       (g_operationPhase g) AllOperationPhases)
    (Unix ts) (g_sabakanSuccessful g) (g_sabakanTimestamp g) (g_sabakanWorkers g) (g_sabakanUnusedMachines g).
Definition UpdateSabakanIntegration `{Runtime} (isSuccessful : bool) (workersByRole : gmap string Z)
    (unusedMachines ts : Z) (g : gauges) : gauges :=
  if negb isSuccessful then
    mkGauges (g_isLeader g) (g_leader g) (g_operationPhase g) (g_operationPhaseTimestamp g)
      0 (Unix ts) (g_sabakanWorkers g) (g_sabakanUnusedMachines g)
  else
    mkGauges (g_isLeader g) (g_leader g) (g_operationPhase g) (g_operationPhaseTimestamp g)
      1 (Unix ts)
      (foldl (fun m '(role, num) => <[ role := num ]> m) (g_sabakanWorkers g) (range workersByRole))
      unusedMachines.

(** ** Collection (metrics/collector.go) *)
Section collector.
  Context {T : K8sTypes} `{Runtime} `{!Etcd}.

Definition alwaysAvailable (g : gauges) : sto bool := mret true.
Definition isOperationPhaseAvailable (g : gauges) : sto bool := mret (g_isLeader g).
Definition isNodeAvailable (g : gauges) : sto bool := mret (g_isLeader g).
Definition isSabakanIntegrationAvailable (g : gauges) : sto bool :=
  if negb (g_isLeader g) then mret false
  else disabled ← IsSabakanDisabled; mret (negb disabled).

Definition flag_value (b : bool) : Z := if b then 1 else 0.
(** A gauge, a vector of gauges with one label, and one with two. *)
Definition gauge (name : string) (value : Z) : list Metric := [mkMetric (fq_name name) [] value].
Definition gauge_vec (name : string) (values : gmap string Z) : list Metric :=
  (fun '(label, value) => mkMetric (fq_name name) [label] value) <$> range values.
Definition status_vec (name : string) (statuses : gmap string (gmap string bool)) : list Metric :=
  List.flat_map (fun '(node, flags) =>
    (fun '(status, matches) => mkMetric (fq_name name) [node; status] (flag_value matches)) <$> range flags)
    (range statuses).

(** An error is logged, and nothing is sent. *)
Definition or_nothing (m : sto (list Metric)) : sto (list Metric) := fun d =>
  match m d with (d', Done (Err _)) => (d', Done (Ok [])) | r => r end.

Definition collectReboot : sto (list Metric) := or_nothing (
  disabled ← IsRebootQueueDisabled;
  running ← IsRebootQueueRunning;
  rqEntries ← GetRebootsEntries;
  cluster ← GetCluster;
  let itemCounts := CountRebootQueueEntries rqEntries in
  let nodeStatus := BuildNodeRebootStatus (c_Nodes cluster) rqEntries in
  mret (gauge "reboot_queue_enabled" (flag_value (negb disabled))
        ++ gauge "reboot_queue_entries" (len rqEntries)
        ++ gauge "reboot_queue_running" (flag_value running)
        ++ gauge_vec "reboot_queue_items" itemCounts
        ++ status_vec "node_reboot_status" nodeStatus)).
Definition entry_info (entry : RepairQueueEntry) : Metric :=
  mkMetric (fq_name "repair_queue_entries")
    [FormatInt (rpe_Index entry); rpe_Address entry; rpe_Operation entry; rpe_Status entry;
     FormatInt (rpe_Step entry)] 1.
Definition collectRepair : sto (list Metric) := or_nothing (
  repairQueueDisabled ← IsRepairQueueDisabled;
  autoRepairDisabled ← IsAutoRepairDisabled;
  entries ← GetRepairsEntries;
  cluster ← GetCluster;
  let itemCounts := CountRepairQueueEntries entries in
  let machineStatus := BuildMachineRepairStatus (c_Nodes cluster) entries in
  mret (gauge "repair_queue_enabled" (flag_value (negb repairQueueDisabled))
        ++ gauge "auto_repair_enabled" (flag_value (negb autoRepairDisabled))
        ++ gauge_vec "repair_queue_items" itemCounts
        ++ status_vec "machine_repair_status" machineStatus
        ++ (entry_info <$> entries))).
Definition nodeMetricsCollector_Collect : sto (list Metric) :=
  reboot ← collectReboot; repair ← collectRepair; mret (reboot ++ repair).

(** A group of metrics is collected if it is available; an error is logged. *)
Definition collect_group (isAvailable : sto bool) (collect : sto (list Metric)) : sto (list Metric) :=
  or_nothing (available ← isAvailable; if (available : bool) then collect else mret []).
Definition Collect (g : gauges) : sto (list Metric) :=
  leader ← collect_group (alwaysAvailable g) (mret (gauge "leader" (g_leader g)));
  phase ← collect_group (isOperationPhaseAvailable g)
    (mret (gauge_vec "operation_phase" (g_operationPhase g)
           ++ gauge "operation_phase_timestamp_seconds" (g_operationPhaseTimestamp g)));
  node ← collect_group (isNodeAvailable g) nodeMetricsCollector_Collect;
  sabakan ← collect_group (isSabakanIntegrationAvailable g)
    (mret (gauge "sabakan_integration_successful" (g_sabakanSuccessful g)
           ++ gauge "sabakan_integration_timestamp_seconds" (g_sabakanTimestamp g)
           ++ gauge_vec "sabakan_workers" (g_sabakanWorkers g)
           ++ gauge "sabakan_unused_machines" (g_sabakanUnusedMachines g)));
  mret (leader ++ phase ++ node ++ sabakan).
End collector.
