(* ===== verification/Dns.v ===== *)
(** * DNS configuration

    op/clusterdns/clusterdns.go and op/nodedns/nodedns.go: the ConfigMaps of
    CoreDNS and of unbound.  The text templates are written out; a trim marker
    of a template removes the white space before it. *)

From Stdlib Require Import Ascii String.
From stdpp Require Import base gmap strings list.
From S2P Require Import Prelude GoLib K8s.

Definition ClusterDNSAppName : string := "cluster-dns".
Definition NodeDNSAppName : string := "node-dns".

(** A double quote, and pieces of a text joined by it. *)
Definition dq : string := String (ascii_of_nat 34) EmptyString.
Definition dq_join (l : list string) : string := String.concat dq l.

Definition clusterDNSTemplate (domain upstreams : string) : string :=
".:1053 {
    errors
    health
    ready
    log . {combined} {
        class denial error
    }
    kubernetes " +:+ domain +:+ " in-addr.arpa ip6.arpa {
      pods verified" +:+
(if (upstreams =? "")%string then "" else "
      fallthrough in-addr.arpa ip6.arpa") +:+ "
    }" +:+
(if (upstreams =? "")%string then "" else "
    forward . " +:+ upstreams) +:+ "
    prometheus :9153
    cache 30
    reload
    loadbalance
}
".

Definition clusterdns_ConfigMap (domain : string) (dnsServers : list string) : ConfigMap :=
  mkConfigMap ClusterDNSAppName "kube-system"
    {[ "Corefile" := clusterDNSTemplate domain (Join dnsServers " ") ]}.

(** op/nodedns: the text of [unboundConfigTemplateText] before the first use of
    the domain, between it and the control interface, and so on. *)
Definition unbound_head : string := dq_join [
"
server:
  do-daemonize: no
  interface: 0.0.0.0
  interface-automatic: yes
  access-control: 0.0.0.0/0 allow
  chroot: ";
EmptyString;
"
  username: ";
EmptyString;
"
  directory: ";
"/etc/unbound";
"
  logfile: ";
EmptyString;
"
  use-syslog: no
  log-time-ascii: yes
  log-queries: no
  log-replies: yes
  log-local-actions: yes
  log-servfail: yes
  num-threads: 4
  incoming-num-tcp: 1000
  outgoing-num-tcp: 1000
  num-queries-per-thread: 4096
  outgoing-range: 8192
  rrset-roundrobin: yes
  extended-statistics: yes
  rrset-cache-size: 256m
  rrset-cache-slabs: 4
  msg-cache-size: 256m
  msg-cache-slabs: 4
  infra-cache-slabs: 4
  key-cache-slabs: 4
  so-rcvbuf: 4m
  pidfile: ";
"/tmp/unbound.pid";
"
  infra-host-ttl: 60
  prefetch: yes
  tcp-upstream: yes
  so-reuseport: yes
  local-zone: ";
"10.in-addr.arpa.";
" transparent
  local-zone: ";
"168.192.in-addr.arpa.";
" transparent
  local-zone: ";
"16.172.in-addr.arpa.";
" transparent
  local-zone: ";
"17.172.in-addr.arpa.";
" transparent
  local-zone: ";
"18.172.in-addr.arpa.";
" transparent
  local-zone: ";
"19.172.in-addr.arpa.";
" transparent
  local-zone: ";
"20.172.in-addr.arpa.";
" transparent
  local-zone: ";
"21.172.in-addr.arpa.";
" transparent
  local-zone: ";
"22.172.in-addr.arpa.";
" transparent
  local-zone: ";
"23.172.in-addr.arpa.";
" transparent
  local-zone: ";
"24.172.in-addr.arpa.";
" transparent
  local-zone: ";
"25.172.in-addr.arpa.";
" transparent
  local-zone: ";
"26.172.in-addr.arpa.";
" transparent
  local-zone: ";
"27.172.in-addr.arpa.";
" transparent
  local-zone: ";
"28.172.in-addr.arpa.";
" transparent
  local-zone: ";
"29.172.in-addr.arpa.";
" transparent
  local-zone: ";
"30.172.in-addr.arpa.";
" transparent
  local-zone: ";
"31.172.in-addr.arpa.";
" transparent
  root-hints: ";
"/usr/local/unbound/etc/unbound/root.hints";
"
  trust-anchor-file: ";
"/usr/local/unbound/etc/unbound/root.key";
"
  domain-insecure: ";
EmptyString].
Definition unbound_insecure : string := dq_join [
EmptyString;
"
  domain-insecure: ";
"10.in-addr.arpa.";
"
  domain-insecure: ";
"168.192.in-addr.arpa.";
"
  domain-insecure: ";
"16.172.in-addr.arpa.";
"
  domain-insecure: ";
"17.172.in-addr.arpa.";
"
  domain-insecure: ";
"18.172.in-addr.arpa.";
"
  domain-insecure: ";
"19.172.in-addr.arpa.";
"
  domain-insecure: ";
"20.172.in-addr.arpa.";
"
  domain-insecure: ";
"21.172.in-addr.arpa.";
"
  domain-insecure: ";
"22.172.in-addr.arpa.";
"
  domain-insecure: ";
"23.172.in-addr.arpa.";
"
  domain-insecure: ";
"24.172.in-addr.arpa.";
"
  domain-insecure: ";
"25.172.in-addr.arpa.";
"
  domain-insecure: ";
"26.172.in-addr.arpa.";
"
  domain-insecure: ";
"27.172.in-addr.arpa.";
"
  domain-insecure: ";
"28.172.in-addr.arpa.";
"
  domain-insecure: ";
"29.172.in-addr.arpa.";
"
  domain-insecure: ";
"30.172.in-addr.arpa.";
"
  domain-insecure: ";
"31.172.in-addr.arpa.";
"
remote-control:
  control-enable: yes
  control-interface: "].
Definition unbound_stub : string := dq_join [
"
  control-use-cert: no
stub-zone:
  name: ";
EmptyString].

Definition unbound_conf (clusterIP domain : string) (upstreams : list string)
    (localControl : bool) : string :=
  unbound_head +:+ domain +:+ unbound_insecure
  +:+ (if localControl then " /var/run/unbound/unbound.sock " else " 127.0.0.1 ")
  +:+ unbound_stub +:+ domain
  +:+ dq_join [
EmptyString;
"
  stub-addr: "] +:+ clusterIP
  +:+ dq_join [
"
forward-zone:
  name: ";
"in-addr.arpa.";
"
  forward-addr: "] +:+ clusterIP
  +:+ dq_join [
"
forward-zone:
  name: ";
"ip6.arpa.";
"
  forward-addr: "] +:+ clusterIP
  +:+ match upstreams with
      | [] => EmptyString
      | _ => dq_join [
"
forward-zone:
  name: ";
".";
EmptyString]
             +:+ String.concat EmptyString
                   ((fun u => "
  forward-addr: " +:+ u) <$> upstreams)
      end
  +:+ "
".

Definition nodedns_ConfigMap (clusterIP domain : string) (dnsServers : list string)
    (localControl : bool) : ConfigMap :=
  mkConfigMap NodeDNSAppName "kube-system"
    {[ "unbound.conf" := unbound_conf clusterIP domain dnsServers localControl ]}.
