(* ===== verification/Rivers.v ===== *)
(** * The TCP proxy on the nodes (tools/rivers)

    rivers passes each connection on to one of its upstreams, the API servers or the members of
    etcd, that is healthy, and closes the connections to an upstream that is no longer so.  Each
    connection has a goroutine, and so has each upstream while its health is checked; they work on
    a shared state, and a step of one of them is what it does at once: under the lock of an
    upstream, on its atomic flag, or with one connection.  Copying data is left out. *)

From Stdlib Require Import ZArith Ascii String Lia.
From stdpp Require Import base gmap sets strings list.
From S2P Require Import Prelude GoLib.

(** ** Upstreams (main.go) *)
Record Upstream := mkUpstream {
  up_address : string;
  up_health : bool;
  up_conns : gset nat
}.
(** Where [handleConnection] is: it goes through the shuffled upstreams ([Choosing]), dials one of
    them with the others left to try, has the connection, copies data with the connection registered,
    has been cut off by the health check, has taken the connection out, or is over. *)
Inductive phase : Type :=
| Choosing (ups : list nat)
| Dialing (u : nat) (ups : list nat)
| Dialed (u : nat)
| Proxying (u : nat)
| Shut (u : nat)
| Leaving (u : nat)
| Ended.
#[export] Instance phase_eq_dec : EqDecision phase := ltac:(solve_decision).
(** Where the goroutine of an upstream is in a round of health checks: it dials the upstream, has found
    it to be down and is about to take its connections, closes those that are left, or is done. *)
Inductive checker : Type :=
| Checking
| Swapping
| Closing (conns : gset nat)
| Checked.
Record rivers := mkRivers {
  rv_upstreams : list Upstream;
  rv_conns : gmap nat phase;
  rv_checks : list checker;
  rv_first : bool
}.

Definition IsHealthy (u : Upstream) : bool := up_health u.
Definition set_health (b : bool) (u : Upstream) : Upstream := mkUpstream (up_address u) b (up_conns u).
Definition set_conns (cs : gset nat) (u : Upstream) : Upstream := mkUpstream (up_address u) (up_health u) cs.

Definition on_upstream (i : nat) (f : Upstream -> Upstream) (r : rivers) : rivers :=
  mkRivers (alter f i (rv_upstreams r)) (rv_conns r) (rv_checks r) (rv_first r).
Definition set_phase (c : nat) (p : phase) (r : rivers) : rivers :=
  mkRivers (rv_upstreams r) (<[ c := p ]> (rv_conns r)) (rv_checks r) (rv_first r).
Definition set_check (i : nat) (k : checker) (r : rivers) : rivers :=
  mkRivers (rv_upstreams r) (rv_conns r) (<[ i := k ]> (rv_checks r)) (rv_first r).

Definition conns_of (r : rivers) (i : nat) : gset nat :=
  match rv_upstreams r !! i with Some u => up_conns u | None => ∅ end.
Definition healthy (r : rivers) (i : nat) : bool :=
  match rv_upstreams r !! i with Some u => IsHealthy u | None => false end.
Definition closing_of (r : rivers) (i : nat) : gset nat :=
  match rv_checks r !! i with Some (Closing conns) => conns | _ => ∅ end.

(** [SetHealthy]: the flag is stored; for [false], the connections are then taken under the lock, and
    after that each of them is closed. *)
Definition SetHealthy (b : bool) (i : nat) (r : rivers) : rivers :=
  set_check i (if b then Checked else Swapping) (on_upstream i (set_health b) r).
Definition swap_conns (i : nat) (r : rivers) : rivers :=
  set_check i (Closing (conns_of r i)) (on_upstream i (set_conns ∅) r).
(** The function registered with a connection closes it, unless that has happened. *)
Definition cut_off (p : phase) : phase := match p with Proxying i => Shut i | p => p end.
Definition close_conn (c i : nat) (r : rivers) : rivers :=
  set_check i (Closing (closing_of r i ∖ {[ c ]}))
    (mkRivers (rv_upstreams r) (alter cut_off c (rv_conns r)) (rv_checks r) (rv_first r)).
Definition AddConn (c i : nat) (r : rivers) : rivers :=
  on_upstream i (fun u => set_conns ({[ c ]} ∪ up_conns u) u) r.
Definition RemoveConn (c i : nat) (r : rivers) : rivers :=
  on_upstream i (fun u => set_conns (up_conns u ∖ {[ c ]}) u) r.

(** ** Health checks (health.go)

    The goroutine of an upstream after its dial, which ends with [answer]; [None] is a cancelled
    context.  Only this goroutine stores the flag of the upstream. *)
Definition doHealthCheck (answer : option bool) (i : nat) (r : rivers) : rivers :=
  match answer with
  | None => set_check i Checked r
  | Some true => if rv_first r || negb (healthy r i) then SetHealthy true i r else set_check i Checked r
  | Some false => if rv_first r || healthy r i then SetHealthy false i r else set_check i Checked r
  end.
(** [wg.Wait] and the next tick. *)
Definition next_round (r : rivers) : rivers :=
  mkRivers (rv_upstreams r) (rv_conns r) ((fun _ => Checking) <$> rv_checks r) false.

(** ** Connections (server.go) *)

(** [randomUpstream]: the next of the shuffled upstreams is dialed if it is healthy; the dial succeeds,
    or the next one is tried. *)
Definition try_upstream (r : rivers) (ups : list nat) : phase :=
  match ups with
  | [] => Ended
  | i :: rest => if negb (healthy r i) then Choosing rest else Dialing i rest
  end.
Definition dial_ended (ok : bool) (i : nat) (rest : list nat) : phase := if ok then Dialed i else Choosing rest.

(** The steps of [handleConnection] and of the health checker. *)
Inductive rivers_step : rivers -> rivers -> Prop :=
| step_accept c ups r :
    rv_conns r !! c = None -> ups ≡ₚ seq 0 (length (rv_upstreams r)) -> rivers_step r (set_phase c (Choosing ups) r)
| step_try c ups r : rv_conns r !! c = Some (Choosing ups) -> rivers_step r (set_phase c (try_upstream r ups) r)
| step_dial c i rest ok r :
    rv_conns r !! c = Some (Dialing i rest) -> rivers_step r (set_phase c (dial_ended ok i rest) r)
| step_add c i r :
    rv_conns r !! c = Some (Dialed i) -> rivers_step r (set_phase c (Proxying i) (AddConn c i r))
| step_remove c i r :
    rv_conns r !! c = Some (Proxying i) \/ rv_conns r !! c = Some (Shut i) ->
    rivers_step r (set_phase c (Leaving i) (RemoveConn c i r))
| step_leave c i r : rv_conns r !! c = Some (Leaving i) -> rivers_step r (set_phase c Ended r)
| step_check answer i r : rv_checks r !! i = Some Checking -> rivers_step r (doHealthCheck answer i r)
| step_swap i r : rv_checks r !! i = Some Swapping -> rivers_step r (swap_conns i r)
| step_close c i conns r :
    rv_checks r !! i = Some (Closing conns) -> c ∈ conns -> rivers_step r (close_conn c i r)
| step_closed i r : rv_checks r !! i = Some (Closing ∅) -> rivers_step r (set_check i Checked r)
| step_round r : Forall (fun k => k = Checked) (rv_checks r) -> rivers_step r (next_round r).

(** [run]: all upstreams start without connections and as unhealthy, and the first round of checks. *)
Definition run_rivers (addresses : list string) : rivers :=
  mkRivers ((fun a => mkUpstream a false ∅) <$> addresses) ∅ ((fun _ => Checking) <$> addresses) true.

(** ** Connections and upstreams *)
Lemma lookup_alter_some {A} (f : A -> A) i j (l : list A) : is_Some (alter f i l !! j) <-> is_Some (l !! j).
Proof.
  destruct (decide (i = j)) as [<-|Hne]; [by rewrite list_lookup_alter_eq, fmap_is_Some|by rewrite list_lookup_alter_ne].
Qed.
Lemma conns_of_alter f i j r :
  conns_of (on_upstream i f r) j
  = if decide (i = j) then match rv_upstreams r !! i with Some u => up_conns (f u) | None => ∅ end else conns_of r j.
Proof.
  unfold conns_of, on_upstream. cbn. destruct (decide (i = j)) as [<-|Hne].
  - rewrite list_lookup_alter_eq. by destruct (rv_upstreams r !! i).
  - by rewrite list_lookup_alter_ne.
Qed.
Lemma closing_of_set i k k0 j r :
  rv_checks r !! i = Some k0 ->
  closing_of (set_check i k r) j
  = if decide (i = j) then match k with Closing conns => conns | _ => ∅ end else closing_of r j.
Proof.
  intros Hi. unfold closing_of, set_check. cbn. destruct (decide (i = j)) as [<-|Hne].
  - by rewrite list_lookup_insert_eq by (by eapply lookup_lt_Some).
  - by rewrite list_lookup_insert_ne.
Qed.

(** A connection passed on to an upstream, and after that. *)
Definition past (i : nat) (p : phase) : Prop := p = Proxying i \/ p = Shut i \/ p = Leaving i \/ p = Ended.
(** The upstreams a connection may be passed on to. *)
Definition targets (p : phase) : list nat :=
  match p with
  | Choosing ups => ups
  | Dialing i ups => i :: ups
  | Dialed i | Proxying i | Shut i | Leaving i => [i]
  | Ended => []
  end.
Record consistent (r : rivers) : Prop := {
  cs_known : forall c p i, rv_conns r !! c = Some p -> i ∈ targets p -> is_Some (rv_upstreams r !! i);
  cs_conns : forall c i, c ∈ conns_of r i <-> rv_conns r !! c = Some (Proxying i) /\ c ∉ closing_of r i;
  cs_closing : forall c i, c ∈ closing_of r i -> exists p, rv_conns r !! c = Some p /\ past i p
}.

(** Steps of a connection that is not registered, before or after. *)
Lemma consistent_phase r c p :
  consistent r -> (forall i, rv_conns r !! c <> Some (Proxying i)) -> (forall i, p <> Proxying i) ->
  (forall i, i ∈ targets p -> is_Some (rv_upstreams r !! i)) ->
  (forall i p0, rv_conns r !! c = Some p0 -> past i p0 -> past i p) -> consistent (set_phase c p r).
Proof.
  intros [Hk Hc Hcl] Hold Hp Hu Hpast. split; cbn.
  - intros c' p' i. destruct (decide (c = c')) as [<-|Hne].
    + rewrite lookup_insert_eq. intros [= <-]. apply Hu.
    + rewrite lookup_insert_ne by done. apply Hk.
  - intros c' i. change (conns_of (set_phase c p r) i) with (conns_of r i).
    change (closing_of (set_phase c p r) i) with (closing_of r i). rewrite Hc.
    destruct (decide (c = c')) as [<-|Hne].
    + rewrite lookup_insert_eq. naive_solver.
    + by rewrite lookup_insert_ne.
  - intros c' i (p0 & Hp0 & H0)%Hcl. destruct (decide (c = c')) as [<-|Hne].
    + exists p. rewrite lookup_insert_eq. eauto.
    + exists p0. by rewrite lookup_insert_ne.
Qed.
(** Steps of a checker that leave connections alone and close nothing. *)
Lemma consistent_same r r' :
  rv_conns r' = rv_conns r -> (forall i, conns_of r' i = conns_of r i) ->
  (forall i, closing_of r' i = closing_of r i) ->
  (forall i, is_Some (rv_upstreams r' !! i) <-> is_Some (rv_upstreams r !! i)) -> consistent r -> consistent r'.
Proof.
  intros Ec Ei El Eu [Hk Hc Hcl]. split.
  - intros c p i. rewrite Ec, Eu. apply Hk.
  - intros c i. by rewrite Ec, Ei, El.
  - intros c i. rewrite Ec, El. apply Hcl.
Qed.
Lemma consistent_check i k k0 r :
  rv_checks r !! i = Some k0 -> closing_of r i = ∅ -> (forall conns, k <> Closing conns) ->
  consistent r -> consistent (set_check i k r).
Proof.
  intros Hi He Hk. apply consistent_same; [done..| |done].
  intros j. rewrite (closing_of_set _ _ _ _ _ Hi). case_decide; [|done]. subst. rewrite He. destruct k; naive_solver.
Qed.
Lemma consistent_health b i r : consistent r -> consistent (on_upstream i (set_health b) r).
Proof.
  apply consistent_same; [done| |done|].
  - intros j. rewrite conns_of_alter. case_decide; [|done]. subst. unfold conns_of. by destruct (rv_upstreams r !! j).
  - intros j. cbn. apply lookup_alter_some.
Qed.
Lemma checking_closes_none i k r :
  rv_checks r !! i = Some k -> (forall conns, k <> Closing conns) -> closing_of r i = ∅.
Proof. intros Hi Hk. unfold closing_of. rewrite Hi. destruct k; naive_solver. Qed.
Lemma consistent_doHealthCheck answer i r :
  rv_checks r !! i = Some Checking -> consistent r -> consistent (doHealthCheck answer i r).
Proof.
  intros Hi Hr. pose proof (checking_closes_none _ _ _ Hi ltac:(done)) as He.
  assert (forall b, consistent (SetHealthy b i r)) as Hset.
  { intros b. unfold SetHealthy. eapply consistent_check; [exact Hi|exact He|by destruct b|by apply consistent_health]. }
  assert (consistent (set_check i Checked r)) as Hdone by (eapply consistent_check; [exact Hi|exact He|done|done]).
  unfold doHealthCheck. destruct answer as [[]|]; [| |done]; case_match; auto.
Qed.

(** The connection registers and leaves. *)
Lemma targets_insert c c' p p' i r :
  (forall i, i ∈ targets p -> is_Some (rv_upstreams r !! i)) ->
  (forall c p i, rv_conns r !! c = Some p -> i ∈ targets p -> is_Some (rv_upstreams r !! i)) ->
  <[ c := p ]> (rv_conns r) !! c' = Some p' -> i ∈ targets p' -> is_Some (rv_upstreams r !! i).
Proof.
  intros Hp Hk. destruct (decide (c = c')) as [<-|Hne].
  - rewrite lookup_insert_eq. intros [= <-]. apply Hp.
  - rewrite lookup_insert_ne by done. apply Hk.
Qed.
Lemma consistent_add c i r :
  consistent r -> rv_conns r !! c = Some (Dialed i) -> consistent (set_phase c (Proxying i) (AddConn c i r)).
Proof.
  intros [Hk Hc Hcl] Hd. destruct (Hk c _ i Hd ltac:(left)) as [u Hu]. split.
  - intros c' p' j Hl Hin. apply lookup_alter_some.
    eapply (targets_insert c c' (Proxying i)); [|exact Hk|exact Hl|exact Hin].
    intros j' ->%list_elem_of_singleton. by eexists.
  - intros c' j. change (closing_of (set_phase c (Proxying i) (AddConn c i r)) j) with (closing_of r j).
    change (conns_of (set_phase c (Proxying i) (AddConn c i r)) j) with (conns_of (AddConn c i r) j).
    unfold AddConn. rewrite conns_of_alter, Hu. cbn. pose proof (Hc c' j) as Hcj. unfold conns_of in Hcj.
    destruct (decide (c = c')) as [<-|Hne].
    + assert (c ∉ closing_of r j) as Hn.
      { intros (p & Hp & Hpast)%Hcl. rewrite Hd in Hp. injection Hp as <-. unfold past in Hpast. naive_solver. }
      rewrite lookup_insert_eq. rewrite Hd in Hcj. case_decide; subst; [set_solver|]. naive_solver.
    + rewrite lookup_insert_ne by done. case_decide; subst; [rewrite Hu in Hcj; set_solver|exact Hcj].
  - intros c' j (p & Hp & Hpast)%Hcl. exists p. split; [|done]. cbn. rewrite lookup_insert_ne; [done|].
    intros <-. rewrite Hd in Hp. injection Hp as <-. unfold past in Hpast. naive_solver.
Qed.
Lemma consistent_remove c i r :
  consistent r -> rv_conns r !! c = Some (Proxying i) \/ rv_conns r !! c = Some (Shut i) ->
  consistent (set_phase c (Leaving i) (RemoveConn c i r)).
Proof.
  intros [Hk Hc Hcl] Hd.
  assert (is_Some (rv_upstreams r !! i)) as [u Hu] by (destruct Hd as [Hd|Hd]; apply (Hk c _ i Hd); left).
  split.
  - intros c' p' j Hl Hin. apply lookup_alter_some.
    eapply (targets_insert c c' (Leaving i)); [|exact Hk|exact Hl|exact Hin].
    intros j' ->%list_elem_of_singleton. by eexists.
  - intros c' j. change (closing_of (set_phase c (Leaving i) (RemoveConn c i r)) j) with (closing_of r j).
    change (conns_of (set_phase c (Leaving i) (RemoveConn c i r)) j) with (conns_of (RemoveConn c i r) j).
    unfold RemoveConn. rewrite conns_of_alter, Hu. cbn. pose proof (Hc c' j) as Hcj. unfold conns_of in Hcj.
    destruct (decide (c = c')) as [<-|Hne].
    + rewrite lookup_insert_eq. case_decide; subst; [set_solver|]. split; [|by intros [? _]].
      intros Hin. apply Hcj in Hin as [Hin _]. destruct Hd; congruence.
    + rewrite lookup_insert_ne by done. case_decide; subst; [rewrite Hu in Hcj; set_solver|exact Hcj].
  - intros c' j (p & Hp & Hpast)%Hcl. cbn. destruct (decide (c = c')) as [<-|Hne].
    + exists (Leaving i). rewrite lookup_insert_eq. split; [done|]. rewrite Hp in Hd.
      unfold past in *. naive_solver.
    + exists p. by rewrite lookup_insert_ne.
Qed.

(** The connections are taken, and closed. *)
Lemma consistent_swap i r : rv_checks r !! i = Some Swapping -> consistent r -> consistent (swap_conns i r).
Proof.
  intros Hi [Hk Hc Hcl]. pose proof (checking_closes_none _ _ _ Hi ltac:(done)) as He.
  assert (forall j, closing_of (swap_conns i r) j = if decide (i = j) then conns_of r i else closing_of r j) as Hclosing.
  { intros j. unfold swap_conns. rewrite (closing_of_set _ _ Swapping); [|exact Hi]. by case_decide. }
  assert (forall j, conns_of (swap_conns i r) j = if decide (i = j) then ∅ else conns_of r j) as Hconns.
  { intros j. change (conns_of (swap_conns i r) j) with (conns_of (on_upstream i (set_conns ∅) r) j).
    rewrite conns_of_alter. case_decide; [|done]. by destruct (rv_upstreams r !! i). }
  split.
  - intros c p j Hp Hj. apply lookup_alter_some. by eapply Hk.
  - intros c j. rewrite Hclosing, Hconns. change (rv_conns (swap_conns i r)) with (rv_conns r).
    case_decide; [subst|apply Hc]. rewrite Hc, He. set_solver.
  - intros c j. rewrite Hclosing. case_decide; [subst|apply Hcl]. intros [Hp _]%Hc.
    exists (Proxying j). split; [done|]. by left.
Qed.
Lemma lookup_cut c c' r conns i :
  rv_conns (close_conn c i r) !! c' = (if decide (c = c') then cut_off <$> rv_conns r !! c' else rv_conns r !! c')
  /\ (rv_checks r !! i = Some (Closing conns) -> forall j,
      closing_of (close_conn c i r) j = if decide (i = j) then conns ∖ {[ c ]} else closing_of r j).
Proof.
  split.
  - cbn. case_decide as Hd; [subst; apply lookup_alter_eq|by apply lookup_alter_ne].
  - intros Hi j. unfold close_conn. rewrite (closing_of_set _ _ (Closing conns)); [|exact Hi].
    case_decide; [|done]. unfold closing_of. by rewrite Hi.
Qed.
Lemma consistent_close c i conns r :
  rv_checks r !! i = Some (Closing conns) -> c ∈ conns -> consistent r -> consistent (close_conn c i r).
Proof.
  intros Hi Hin [Hk Hc Hcl]. pose proof (fun c' => proj1 (lookup_cut c c' r conns i)) as Hcut.
  pose proof (proj2 (lookup_cut c c r conns i) Hi) as Hclosing.
  assert (closing_of r i = conns) as Hconns by (unfold closing_of; by rewrite Hi).
  assert (exists p, rv_conns r !! c = Some p /\ past i p) as (p0 & Hp0 & Hpast) by (apply Hcl; by rewrite Hconns).
  assert (past i (cut_off p0) /\ forall j, cut_off p0 <> Proxying j) as [Hpast' Hno].
  { unfold past in *. destruct Hpast as [->|[->|[->| ->]]]; cbn; split; auto; done. }
  split.
  - intros c' p j. rewrite Hcut. case_decide as Hd; [subst|apply Hk]. rewrite Hp0. intros [= <-] Hj.
    apply (Hk c' p0); [done|]. by destruct p0.
  - intros c' j. rewrite Hcut, Hclosing. change (conns_of (close_conn c i r) j) with (conns_of r j). rewrite Hc.
    destruct (decide (c = c')) as [<-|Hne].
    + rewrite Hp0. cbn. split; [|intros [[= Hp] _]; by destruct (Hno j)]. intros [[= ->] Hn].
      assert (j = i) as -> by (unfold past in Hpast; naive_solver). by rewrite Hconns in Hn.
    + case_decide; subst; set_solver.
  - intros c' j Hj. rewrite Hclosing in Hj. rewrite Hcut.
    assert (c' ∈ closing_of r j) as (p & Hp & Hpj)%Hcl by (case_decide; subst; set_solver).
    destruct (decide (c = c')) as [<-|Hd]; [|eauto]. rewrite Hp0 in Hp |- *. injection Hp as <-. eexists. split; [done|].
    unfold past in *. destruct Hpj as [->|[->|[->| ->]]]; cbn; auto.
Qed.

Lemma consistent_try c ups r :
  consistent r -> rv_conns r !! c = Some (Choosing ups) -> consistent (set_phase c (try_upstream r ups) r).
Proof.
  intros Hr Hp. pose proof (fun i => cs_known r Hr c _ i Hp) as Hk. cbn [targets] in Hk.
  apply consistent_phase; [done|congruence|by destruct ups as [|i ups]; cbn; [|destruct (negb _)]| |].
  - intros i Hi. apply Hk. destruct ups as [|j ups]; cbn in Hi; [by apply elem_of_nil in Hi|].
    destruct (negb _); cbn in Hi; [by right|done].
  - intros i p0 Hp0. rewrite Hp in Hp0. injection Hp0 as <-. unfold past. naive_solver.
Qed.
Lemma consistent_dial c i rest ok r :
  consistent r -> rv_conns r !! c = Some (Dialing i rest) -> consistent (set_phase c (dial_ended ok i rest) r).
Proof.
  intros Hr Hp. pose proof (fun i => cs_known r Hr c _ i Hp) as Hk. cbn [targets] in Hk.
  apply consistent_phase; [done|congruence|by destruct ok| |].
  - intros j Hj. apply Hk. destruct ok; cbn in Hj; set_solver.
  - intros j p0 Hp0. rewrite Hp in Hp0. injection Hp0 as <-. unfold past. naive_solver.
Qed.
Lemma consistent_step r r' : rivers_step r r' -> consistent r -> consistent r'.
Proof.
  intros Hstep Hr.
  destruct Hstep as [c ups r Hn Hups|c ups r Hp|c i rest ok r Hp|c i r Hd|c i r Hd|c i r Hd|answer i r Hi|i r Hi
                    |c i conns r Hi Hin|i r Hi|r Hall].
  - apply consistent_phase; [done|congruence|done| |congruence]. intros i Hi. cbn in Hi.
    rewrite Hups, elem_of_seq in Hi. apply lookup_lt_is_Some. lia.
  - by apply consistent_try.
  - by apply consistent_dial.
  - by apply consistent_add.
  - by apply consistent_remove.
  - apply consistent_phase; [done|congruence|done|by intros j ?%elem_of_nil|]. intros j p0 _ _. unfold past. auto.
  - by apply consistent_doHealthCheck.
  - by apply consistent_swap.
  - by eapply consistent_close.
  - eapply consistent_check; [exact Hi|unfold closing_of; by rewrite Hi|done|done].
  - revert Hr. apply consistent_same; [done..| |done]. intros i. unfold closing_of. cbn. rewrite list_lookup_fmap.
    destruct (rv_checks r !! i) as [k|] eqn:Hi; [|done]. cbn.
    rewrite Forall_lookup in Hall. by rewrite (Hall i k Hi).
Qed.
Lemma consistent_start addresses : consistent (run_rivers addresses).
Proof.
  assert (forall i, conns_of (run_rivers addresses) i = ∅) as He.
  { intros i. unfold conns_of. cbn. rewrite list_lookup_fmap. by destruct (addresses !! i). }
  assert (forall i, closing_of (run_rivers addresses) i = ∅) as Hl.
  { intros i. unfold closing_of. cbn. rewrite list_lookup_fmap. by destruct (addresses !! i). }
  split; [done| |].
  - intros c i. rewrite He. split; [set_solver|]. by intros [? _].
  - intros c i. rewrite Hl. set_solver.
Qed.
Lemma consistent_steps r r' : rtc rivers_step r r' -> consistent r -> consistent r'.
Proof. induction 1; eauto using consistent_step. Qed.

(** ** Once taken, a connection is proxied only until it is closed *)
Definition doomed (c i : nat) (r : rivers) : Prop :=
  exists p, rv_conns r !! c = Some p /\ past i p /\ (p = Proxying i -> c ∈ closing_of r i).

Lemma doomed_phase c i c' p r :
  doomed c i r -> (forall p0, rv_conns r !! c' = Some p0 -> past i p0 -> past i p) ->
  (forall i, p <> Proxying i) -> doomed c i (set_phase c' p r).
Proof.
  intros (p0 & Hp0 & Hpast & Hcl) Hp Hn. unfold doomed. cbn. destruct (decide (c' = c)) as [->|Hne].
  - exists p. rewrite lookup_insert_eq. split; [done|]. split; [eauto|]. intros ->. by destruct (Hn i).
  - exists p0. by rewrite lookup_insert_ne.
Qed.
Lemma doomed_check c i j k k0 r :
  doomed c i r -> rv_checks r !! j = Some k0 ->
  closing_of r j ⊆ (match k with Closing conns => conns | _ => ∅ end) -> doomed c i (set_check j k r).
Proof.
  intros (p & Hp & Hpast & Hcl) Hj Hsub. exists p. split; [done|]. split; [done|]. intros ->.
  rewrite (closing_of_set _ _ _ _ _ Hj). specialize (Hcl eq_refl). case_decide; subst; set_solver.
Qed.
Lemma doomed_upstream c i j f r : doomed c i r -> doomed c i (on_upstream j f r).
Proof. done. Qed.
Lemma doomed_step c i r r' : rivers_step r r' -> consistent r -> doomed c i r -> doomed c i r'.
Proof.
  intros Hstep Hr Hd.
  destruct Hstep as [c' ups r Hn Hups|c' ups r Hp|c' j rest ok r Hp|c' j r Hp|c' j r Hp|c' j r Hp|answer j r Hj|j r Hj
                    |c' j conns r Hj Hin|j r Hj|r Hall].
  - apply doomed_phase; [done|congruence|done].
  - apply doomed_phase; [done| |by destruct ups; cbn; [|destruct (negb _)]]. intros p0 Hp0.
    rewrite Hp in Hp0. injection Hp0 as <-. unfold past. naive_solver.
  - apply doomed_phase; [done| |by destruct ok]. intros p0 Hp0.
    rewrite Hp in Hp0. injection Hp0 as <-. unfold past. naive_solver.
  - destruct Hd as (p & Hpc & Hpast & Hcl). exists p. cbn. rewrite lookup_insert_ne; [done|]. intros ->.
    rewrite Hp in Hpc. injection Hpc as <-. unfold past in Hpast. naive_solver.
  - apply doomed_phase; [by apply doomed_upstream| |done]. intros p0 Hp0 Hpast. cbn in Hp0. rewrite Hp0 in Hp.
    unfold past in *. naive_solver.
  - apply doomed_phase; [done| |done]. intros p0 _ _. unfold past. auto.
  - pose proof (checking_closes_none _ _ _ Hj ltac:(done)) as He. unfold doHealthCheck, SetHealthy.
    destruct answer as [[]|]; repeat case_match;
      (eapply doomed_check; [done|exact Hj|]); unfold closing_of in *; cbn; by rewrite He.
  - pose proof (checking_closes_none _ _ _ Hj ltac:(done)) as He.
    eapply doomed_check; [done|exact Hj|]. unfold closing_of in *. cbn. rewrite He. set_solver.
  - destruct Hd as (p & Hp & Hpast & Hcl). destruct (lookup_cut c' c r conns j) as [Hcut Hclosing].
    specialize (Hclosing Hj). unfold doomed. rewrite Hcut. destruct (decide (c' = c)) as [->|Hne].
    + rewrite Hp. eexists. split; [done|]. split; [unfold past in *; destruct Hpast as [->|[->|[->| ->]]]; cbn; auto|].
      intros Hbad. by destruct p.
    + exists p. split; [done|]. split; [done|]. intros ->. rewrite Hclosing. specialize (Hcl eq_refl).
      case_decide; [subst|done]. unfold closing_of in Hcl. rewrite Hj in Hcl. set_solver.
  - eapply doomed_check; [done|exact Hj|]. unfold closing_of. by rewrite Hj.
  - destruct Hd as (p & Hp & Hpast & Hcl). exists p. split; [done|]. split; [done|]. intros ->.
    specialize (Hcl eq_refl). unfold closing_of in Hcl. destruct (rv_checks r !! i) as [k|] eqn:Hi; [|set_solver].
    rewrite Forall_lookup in Hall. rewrite (Hall i k Hi) in Hcl. set_solver.
Qed.
Lemma doomed_steps c i r r' : rtc rivers_step r r' -> consistent r -> doomed c i r -> doomed c i r'.
Proof. induction 1; eauto using doomed_step, consistent_step. Qed.

(** C27: However the goroutines of the connections and of the health checks interleave, an upstream of
    rivers knows exactly the connections that are proxied to it and are not about to be closed by its
    health check, and only connections that were proxied to it are ever closed for it.  When the
    health check of an upstream takes the connections, each connection proxied to the upstream at
    that moment is proxied only until it is closed, and none of them is once the check is over. *)
Theorem rivers_conns_exact addresses r :
  rtc rivers_step (run_rivers addresses) r ->
  (forall c i, c ∈ conns_of r i <-> rv_conns r !! c = Some (Proxying i) /\ c ∉ closing_of r i)
  /\ (forall c i, c ∈ closing_of r i -> exists p, rv_conns r !! c = Some p /\ past i p)
  /\ (forall i c r', rv_checks r !! i = Some Swapping -> rv_conns r !! c = Some (Proxying i) ->
        rtc rivers_step (swap_conns i r) r' ->
        (rv_conns r' !! c = Some (Proxying i) -> c ∈ closing_of r' i)
        /\ (rv_checks r' !! i = Some Checked -> rv_conns r' !! c <> Some (Proxying i))).
Proof.
  intros Hr. pose proof (consistent_steps _ _ Hr (consistent_start addresses)) as Hc.
  split; [apply (cs_conns r Hc)|]. split; [apply (cs_closing r Hc)|].
  intros i c r' Hi Hp Hsteps.
  assert (doomed c i (swap_conns i r)) as Hd.
  { exists (Proxying i). split; [done|]. split; [by left|]. intros _. unfold swap_conns.
    rewrite (closing_of_set _ _ Swapping), decide_True by done. apply (cs_conns r Hc). split; [done|].
    rewrite (checking_closes_none _ _ _ Hi) by done. set_solver. }
  destruct (doomed_steps _ _ _ _ Hsteps (consistent_swap _ _ Hi Hc) Hd) as (p & Hp' & _ & Hcl).
  split; [intros Hp''; apply Hcl; congruence|]. intros Hk Hp''.
  assert (c ∈ closing_of r' i) as Hin by (apply Hcl; congruence). unfold closing_of in Hin. rewrite Hk in Hin. set_solver.
Qed.

(** One connection to one upstream, which becomes unhealthy between the dial and [AddConn]. *)
Definition late_connection : rivers :=
  let r1 := doHealthCheck (Some true) 0 (run_rivers ["10.0.0.1:6443"]) in
  let r2 := set_phase 7 (Choosing [0%nat]) r1 in
  let r3 := set_phase 7 (try_upstream r2 [0%nat]) r2 in
  let r4 := set_phase 7 (dial_ended true 0 []) r3 in
  let r5 := doHealthCheck (Some false) 0 (next_round r4) in
  let r6 := set_check 0 Checked (swap_conns 0 r5) in
  set_phase 7 (Proxying 0) (AddConn 7 0 r6).
Lemma late_connection_reachable : rtc rivers_step (run_rivers ["10.0.0.1:6443"]) late_connection.
Proof.
  unfold late_connection. eapply rtc_l; [by apply (step_check (Some true) 0)|].
  eapply rtc_l; [by apply (step_accept 7 [0%nat])|].
  eapply rtc_l; [by apply (step_try 7 [0%nat])|].
  eapply rtc_l; [by apply (step_dial 7 0 [] true)|].
  eapply rtc_l; [apply step_round; by repeat constructor|].
  eapply rtc_l; [by apply (step_check (Some false) 0)|].
  eapply rtc_l; [by apply (step_swap 0)|].
  eapply rtc_l; [by apply (step_closed 0)|].
  eapply rtc_l; [by apply (step_add 7 0)|]. apply rtc_refl.
Qed.

(** A connection dialed before a health check fails but registered after the check has taken
    the connections of its upstream stays open: rivers reaches a state where no check is going
    on and a connection is proxied to an upstream it knows to be unhealthy, and the later failing
    checks of that upstream change nothing. *)
Theorem rivers_keeps_late_connection :
  exists r c, rtc rivers_step (run_rivers ["10.0.0.1:6443"]) r
    /\ rv_conns r !! c = Some (Proxying 0) /\ healthy r 0 = false /\ rv_checks r = [Checked]
    /\ doHealthCheck (Some false) 0 (next_round r) = mkRivers (rv_upstreams r) (rv_conns r) (rv_checks r) false.
Proof.
  exists late_connection, 7%nat. split; [exact late_connection_reachable|].
  by repeat split; vm_compute.
Qed.

(** A registered connection when the health check fails. *)
Definition failing_check : rivers :=
  doHealthCheck (Some false) 0 (next_round (set_phase 7 (Proxying 0) (AddConn 7 0
    (set_phase 7 (dial_ended true 0 []) (let r := set_phase 7 (Choosing [0%nat])
       (doHealthCheck (Some true) 0 (run_rivers ["10.0.0.1:6443"])) in set_phase 7 (try_upstream r [0%nat]) r))))).
Lemma failing_check_reachable : rtc rivers_step (run_rivers ["10.0.0.1:6443"]) failing_check.
Proof.
  unfold failing_check. eapply rtc_l; [by apply (step_check (Some true) 0)|].
  eapply rtc_l; [by apply (step_accept 7 [0%nat])|].
  eapply rtc_l; [by apply (step_try 7 [0%nat])|].
  eapply rtc_l; [by apply (step_dial 7 0 [] true)|].
  eapply rtc_l; [by apply (step_add 7 0)|].
  eapply rtc_l; [apply step_round; by repeat constructor|].
  eapply rtc_l; [by apply (step_check (Some false) 0)|]. apply rtc_refl.
Qed.
Lemma rivers_conns_exact_witness :
  rv_conns (swap_conns 0 failing_check) !! 7%nat = Some (Proxying 0)
  /\ 7%nat ∈ closing_of (swap_conns 0 failing_check) 0.
Proof.
  split; [reflexivity|].
  apply (rivers_conns_exact ["10.0.0.1:6443"] failing_check failing_check_reachable);
    [reflexivity|reflexivity|apply rtc_refl|reflexivity].
Defined.
