(* ===== verification/Params.v ===== *)
(** * Parameters of the services

    The command lines and binds CKE runs each service with (op/rivers_boot.go,
    op/etcd/common.go, op/k8s/*_boot.go, op/k8s/apiserver_restart.go) and the
    component configurations it generates (op/k8s/config.go). *)

From Stdlib Require Import ZArith Ascii String Lia.
From stdpp Require Import base gmap strings list.
From S2P Require Import Prelude GoLib K8s Cluster Status.

(** ** Constants (op/constants.go, images.go) *)
Definition EtcdImage : string := "ghcr.io/cybozu/etcd:3.6.11.1".
Definition KubernetesImage : string := "ghcr.io/cybozu/kubernetes:1.35.5.1".
Definition ToolsImage : string := "ghcr.io/cybozu-go/cke-tools:1.35.0".

Definition RiversContainerName : string := "rivers".
Definition EtcdRiversContainerName : string := "etcd-rivers".
Definition RiversUpstreamPort : Z := 6443.
Definition RiversListenPort : Z := 16443.
Definition EtcdRiversUpstreamPort : Z := 2379.
Definition EtcdRiversListenPort : Z := 12379.

Definition SchedulerConfigPath : string := "/etc/kubernetes/scheduler/config.yml".
Definition SchedulerKubeConfigPath : string := "/etc/kubernetes/scheduler/kubeconfig".
Definition ControllerManagerKubeConfigPath : string :=
  "/etc/kubernetes/controller-manager/kubeconfig".
Definition proxyKubeconfigPath : string := "/etc/kubernetes/proxy/kubeconfig".
Definition proxyConfigPath : string := "/etc/kubernetes/proxy/config.yml".
Definition encryptionConfigFile : string := "/etc/kubernetes/apiserver/encryption.yml".

(** [filepath.Join] of a clean directory and a file name. *)
Definition EtcdPKIPath (p : string) : string := "/etc/etcd/pki/" +:+ p.
Definition K8sPKIPath (p : string) : string := "/etc/kubernetes/pki/" +:+ p.

Definition LabelShared : string := "z".
Definition LabelPrivate : string := "Z".
Definition PropagationShared : string := "shared".
Definition PropagationRShared : string := "rshared".

(** ** Command lines *)

Definition RiversParams (upstreams : list Node) (upstreamPort listenPort : Z) : ServiceParams :=
  let ups := (fun n => node_Address n +:+ ":" +:+ FormatInt upstreamPort) <$> upstreams in
  mkServiceParams
    ["rivers";
     "--upstreams=" +:+ Join ups ",";
     "--listen=" +:+ "127.0.0.1:" +:+ FormatInt listenPort]
    [] ∅.

Definition etcd_BuiltInParams (node : Node) (initialCluster : list string) (state : string)
    : ServiceParams :=
  let addr := node_Address node in
  let args :=
    ["--name=" +:+ addr;
     "--listen-peer-urls=https://0.0.0.0:2380";
     "--listen-client-urls=https://0.0.0.0:2379";
     "--advertise-client-urls=https://" +:+ addr +:+ ":2379";
     "--cert-file=" +:+ EtcdPKIPath "server.crt";
     "--key-file=" +:+ EtcdPKIPath "server.key";
     "--client-cert-auth=true";
     "--trusted-ca-file=" +:+ EtcdPKIPath "ca-client.crt";
     "--peer-cert-file=" +:+ EtcdPKIPath "peer.crt";
     "--peer-key-file=" +:+ EtcdPKIPath "peer.key";
     "--peer-client-cert-auth=true";
     "--peer-trusted-ca-file=" +:+ EtcdPKIPath "ca-peer.crt";
     "--enable-pprof=true";
     "--feature-gates=InitialCorruptCheck=true,CompactHashCheck=true";
     "--corrupt-check-time=3h"] in
  let args :=
    match initialCluster with
    | [] => args
    | _ => args ++
        ["--initial-advertise-peer-urls=https://" +:+ addr +:+ ":2380";
         "--initial-cluster=" +:+ Join initialCluster ",";
         "--initial-cluster-token=cke";
         "--initial-cluster-state=" +:+ state]
    end in
  mkServiceParams args [mkMount "/etc/etcd/pki" "/etc/etcd/pki" true "" LabelPrivate] ∅.

Definition machine_id_mount : Mount := mkMount "/etc/machine-id" "/etc/machine-id" true "" "".
Definition kubernetes_mount : Mount :=
  mkMount "/etc/kubernetes" "/etc/kubernetes" true "" LabelShared.

Definition admissionPlugins : list string := ["NodeRestriction"; "DenyServiceExternalIPs"].
Definition CNAPIServer : string := "front-proxy-client".

Definition auditPolicyFilePath (policy : string) : string :=
  "/etc/kubernetes/apiserver/audit-policy-" +:+ md5_hex policy +:+ ".yaml".

(** [k8s.APIServerParams] *)
Definition apiserver_params (advertiseAddress serviceSubnet : string) (auditLogEnabled : bool)
    (auditLogPolicy auditLogPath clusterDomain : string) : ServiceParams :=
  let args :=
    ["kube-apiserver";
     "--allow-privileged";
     "--etcd-servers=https://127.0.0.1:12379";
     "--etcd-cafile=" +:+ K8sPKIPath "etcd-ca.crt";
     "--etcd-certfile=" +:+ K8sPKIPath "apiserver-etcd-client.crt";
     "--etcd-keyfile=" +:+ K8sPKIPath "apiserver-etcd-client.key";
     "--etcd-compaction-interval=5m";
     "--bind-address=0.0.0.0";
     "--client-ca-file=" +:+ K8sPKIPath "ca.crt";
     "--tls-cert-file=" +:+ K8sPKIPath "apiserver.crt";
     "--tls-private-key-file=" +:+ K8sPKIPath "apiserver.key";
     "--kubelet-certificate-authority=" +:+ K8sPKIPath "ca.crt";
     "--kubelet-client-certificate=" +:+ K8sPKIPath "apiserver.crt";
     "--kubelet-client-key=" +:+ K8sPKIPath "apiserver.key";
     "--enable-admission-plugins=" +:+ Join admissionPlugins ",";
     "--service-account-issuer=https://kubernetes.default.svc." +:+ clusterDomain;
     "--service-account-key-file=" +:+ K8sPKIPath "service-account.crt";
     "--service-account-signing-key-file=" +:+ K8sPKIPath "service-account.key";
     "--service-account-lookup";
     "--requestheader-client-ca-file=" +:+ K8sPKIPath "aggregation-ca.crt";
     "--requestheader-allowed-names=" +:+ CNAPIServer;
     "--requestheader-extra-headers-prefix=X-Remote-Extra-";
     "--requestheader-group-headers=X-Remote-Group";
     "--requestheader-username-headers=X-Remote-User";
     "--proxy-client-cert-file=" +:+ K8sPKIPath "aggregation.crt";
     "--proxy-client-key-file=" +:+ K8sPKIPath "aggregation.key";
     "--authorization-mode=Node,RBAC";
     "--advertise-address=" +:+ advertiseAddress;
     "--endpoint-reconciler-type=none";
     "--service-cluster-ip-range=" +:+ serviceSubnet;
     "--encryption-provider-config=" +:+ encryptionConfigFile;
     "--feature-gates=CoordinatedLeaderElection=true";
     "--runtime-config=coordination.k8s.io/v1beta1=true"] in
  let args :=
    if auditLogEnabled then
      args ++ ["--audit-log-path=" +:+ (if (auditLogPath =? "")%string then "-" else auditLogPath)]
           ++ ["--audit-policy-file=" +:+ auditPolicyFilePath auditLogPolicy]
    else args in
  mkServiceParams args [machine_id_mount; kubernetes_mount] ∅.

Definition ControllerManagerParams (clusterName serviceSubnet : string) : ServiceParams :=
  mkServiceParams
    ["kube-controller-manager";
     "--cluster-name=" +:+ clusterName;
     "--service-cluster-ip-range=" +:+ serviceSubnet;
     "--kubeconfig=" +:+ ControllerManagerKubeConfigPath;
     "--authentication-kubeconfig=" +:+ ControllerManagerKubeConfigPath;
     "--authorization-kubeconfig=" +:+ ControllerManagerKubeConfigPath;
     "--tls-cert-file=" +:+ K8sPKIPath "apiserver.crt";
     "--tls-private-key-file=" +:+ K8sPKIPath "apiserver.key";
     "--root-ca-file=" +:+ K8sPKIPath "ca.crt";
     "--service-account-private-key-file=" +:+ K8sPKIPath "service-account.key";
     "--use-service-account-credentials=true"]
    [machine_id_mount; kubernetes_mount] ∅.

(** [k8s.SchedulerParams] *)
Definition scheduler_params : ServiceParams :=
  mkServiceParams
    ["kube-scheduler";
     "--config=" +:+ SchedulerConfigPath;
     "--authentication-kubeconfig=" +:+ SchedulerKubeConfigPath;
     "--authorization-kubeconfig=" +:+ SchedulerKubeConfigPath;
     "--tls-cert-file=" +:+ K8sPKIPath "apiserver.crt";
     "--tls-private-key-file=" +:+ K8sPKIPath "apiserver.key"]
    [machine_id_mount; kubernetes_mount] ∅.

(** [k8s.ProxyParams] *)
Definition proxy_params : ServiceParams :=
  mkServiceParams
    ["kube-proxy"; "--config=" +:+ proxyConfigPath]
    [machine_id_mount; kubernetes_mount; mkMount "/lib/modules" "/lib/modules" true "" ""] ∅.

Section generators.
  Context {T : K8sTypes} {K : K8s}.

Definition KubeletServiceParams (n : Node) (params : KubeletParams) : ServiceParams :=
  let args :=
    ["kubelet";
     "--config=/etc/kubernetes/kubelet/config.yml";
     "--kubeconfig=/etc/kubernetes/kubelet/kubeconfig";
     "--hostname-override=" +:+ Nodename n] in
  let args :=
    if (String.length (CRIEndpoint params) =? 0)%nat then args
    else args ++ ["--container-runtime-endpoint=" +:+ CRIEndpoint params] in
  mkServiceParams args
    [machine_id_mount;
     mkMount "/etc/os-release" "/etc/os-release" true "" "";
     kubernetes_mount;
     mkMount "/var/lib/kubelet" "/var/lib/kubelet" false PropagationRShared LabelShared;
     mkMount "/var/lib/docker" "/var/lib/docker" false "" LabelPrivate;
     mkMount "/opt/volume/bin" "/opt/volume/bin" false PropagationShared LabelShared;
     mkMount "/var/log/pods" "/var/log/pods" false "" LabelShared;
     mkMount "/var/log/containers" "/var/log/containers" false "" LabelShared;
     mkMount "/run" "/run" false "" "";
     mkMount "/sys" "/sys" false "" "";
     mkMount "/dev" "/dev" false "" "";
     mkMount "/opt/cni/bin" "/opt/cni/bin" true "" LabelShared;
     mkMount "/etc/cni/net.d" "/etc/cni/net.d" true "" LabelShared;
     mkMount "/var/lib/cni" "/var/lib/cni" false "" LabelShared] ∅.

(** ** Component configurations *)

(** [if err != nil { panic(err) }] *)
Definition must {A} (r : result A) : go A :=
  match r with
  | Ok a => Ret a
  | Err (ErrUnexpected m) => Panic m
  | Err _ => Panic "error"
  end.

Definition GenerateSchedulerConfiguration (params : SchedulerParams)
    : go KubeSchedulerConfiguration :=
  c ← must (SchedulerParams_MergeConfig params zero_KubeSchedulerConfiguration);
  Ret (mkKubeSchedulerConfiguration (sc_TypeMeta c) SchedulerKubeConfigPath (Some true)
         (sc_rest c)).

Definition hour : Z := 3600 * 10 ^ 9.

Definition GenerateProxyConfiguration (params : ProxyParams) (n : Node)
    : go KubeProxyConfiguration :=
  let base := mkKubeProxyConfiguration no_type_meta (Nodename n) "0.0.0.0"
                (Some (24 * hour)) (Some (1 * hour)) "" "" proxy_rest_zero in
  c ← must (ProxyParams_MergeConfig params base);
  Ret (mkKubeProxyConfiguration (pc_TypeMeta c) (pc_HostnameOverride c)
         (pc_MetricsBindAddress c) (pc_TCPEstablishedTimeout c) (pc_TCPCloseWaitTimeout c)
         (pc_Mode c) proxyKubeconfigPath (pc_rest c)).

(** [taintIndex]: for each key the last position it has in the list. *)
Definition taint_index (taints : list Taint) : gmap string nat :=
  fst (foldl (fun '(m, i) t => (<[ taint_Key t := i ]> m, S i)) (∅, 0%nat) taints).

(** The loop over the boot taints: overwrite at the index, or append.  The
    index map is not updated by an append. *)
Definition add_boot_taints (taintIndex : gmap string nat) (registered boot : list Taint)
    : list Taint :=
  foldl (fun reg t =>
           match taintIndex !! taint_Key t with
           | Some i => <[ i := t ]> reg
           | None => reg ++ [t]
           end) registered boot.

Definition GenerateKubeletConfiguration (params : KubeletParams) (nodeAddress : string)
    (running : option KubeletConfiguration) : go KubeletConfiguration :=
  let base := mkKubeletConfiguration no_type_meta "cluster.local" (15 * 60 * 10 ^ 9) "0.0.0.0"
                "/opt/volume/bin" "" "" no_authentication "" [] [] no_cgroup_fields
                kubelet_rest_zero in
  c ← must (KubeletParams_MergeConfig params base);
  let taints := add_boot_taints (taint_index (kc_RegisterWithTaints c))
                  (kc_RegisterWithTaints c) (BootTaints params) in
  let cgroups := match running with Some r => kc_Cgroups r | None => kc_Cgroups c end in
  Ret (mkKubeletConfiguration (kc_TypeMeta c) (kc_ClusterDomain c)
         (kc_RuntimeRequestTimeout c) (kc_HealthzBindAddress c) (kc_VolumePluginDir c)
         (K8sPKIPath "kubelet.crt") (K8sPKIPath "kubelet.key")
         (mkKubeletAuthentication (K8sPKIPath "ca.crt") (Some true) 0 None)
         "Webhook" [nodeAddress] taints cgroups (kc_rest c)).
End generators.

(** op/etcd.go *)
Definition EtcdVolumeName (e : EtcdParams) : string :=
  if (String.length (VolumeName e) =? 0)%nat then "etcd-cke" else VolumeName e.

Section generators_ok.
  Context {T : K8sTypes} {K : K8s}.

(** On a validated configuration the generators do not panic. *)
Lemma GenerateKubeletConfiguration_ok c addr running :
  valid_cluster c ->
  exists cfg, GenerateKubeletConfiguration (opt_Kubelet (c_Options c)) addr running = Ret cfg.
Proof.
  intros Hv. unfold GenerateKubeletConfiguration.
  match goal with |- context [KubeletParams_MergeConfig ?p ?b] =>
    pose proof (vc_kubelet _ Hv b); destruct (KubeletParams_MergeConfig p b) end; [|done].
  simpl. eauto.
Qed.

Lemma GenerateSchedulerConfiguration_ok c :
  valid_cluster c ->
  exists cfg, GenerateSchedulerConfiguration (opt_Scheduler (c_Options c)) = Ret cfg.
Proof.
  intros Hv. unfold GenerateSchedulerConfiguration.
  match goal with |- context [SchedulerParams_MergeConfig ?p ?b] =>
    pose proof (vc_scheduler _ Hv b); destruct (SchedulerParams_MergeConfig p b) end; [|done].
  simpl. eauto.
Qed.

Lemma GenerateProxyConfiguration_ok c n :
  valid_cluster c ->
  exists cfg, GenerateProxyConfiguration (opt_Proxy (c_Options c)) n = Ret cfg.
Proof.
  intros Hv. unfold GenerateProxyConfiguration.
  match goal with |- context [ProxyParams_MergeConfig ?p ?b] =>
    pose proof (vc_proxy _ Hv b); destruct (ProxyParams_MergeConfig p b) end; [|done].
  simpl. eauto.
Qed.

(** The cluster domain does not depend on the address or on the running
    configuration. *)
Lemma GenerateKubeletConfiguration_running params addr running cfg :
  GenerateKubeletConfiguration params addr running = Ret cfg ->
  kc_ClusterDNS cfg = [addr]
  /\ (forall r, running = Some r -> kc_Cgroups cfg = kc_Cgroups r)
  /\ GenerateKubeletConfiguration params addr (Some cfg) = Ret cfg.
Proof.
  unfold GenerateKubeletConfiguration.
  destruct (must _) as [c|]; simpl; [|done]. intros [= <-]. simpl.
  split_and!; [done|by intros r ->|]. by destruct running.
Qed.
End generators_ok.
