(* ===== verification/NodeFilter.v ===== *)
(** * Node filters

    server/node_filter.go: selections of nodes, etcd members and Kubernetes
    Node objects by their status.  A node without an entry in [NodeStatuses]
    makes the source dereference a nil pointer, so the filters live in [go]. *)

From Stdlib Require Import ZArith Ascii String Lia.
From stdpp Require Import base gmap strings list.
From S2P Require Import Prelude GoLib K8s Cluster Queue Resource Status Params.

Definition CKELabelMaster : string := "cke.cybozu.com/master".
Definition CKETaintMaster : string := "cke.cybozu.com/master".
Definition CKEAnnotationReboot : string := "cke.cybozu.com/reboot".

(** [strings.Contains(s, sub)] *)
Fixpoint str_contains (s sub : string) : bool :=
  String.prefix sub s
  || match s with EmptyString => false | String _ s' => str_contains s' sub end.

Section node_filter.
  Context {T : K8sTypes} {K : K8s} `{Runtime}.

Record NodeFilter := mkNodeFilter {
  nf_cluster : Cluster;
  nf_status : ClusterStatus;
  nf_nodeMap : gmap string Node;
  nf_addressMap : gmap string string;
  nf_cp : list Node
}.

Definition NewNodeFilter (cluster : Cluster) (status : ClusterStatus) : NodeFilter :=
  let '(nodeMap, addressMap, cp) :=
    foldl (fun '(nodeMap, addressMap, cp) n =>
             (<[ node_Address n := n ]> nodeMap,
              (if (String.length (node_Hostname n) =? 0)%nat then addressMap
               else <[ node_Hostname n := node_Address n ]> addressMap),
              if node_ControlPlane n then cp ++ [n] else cp))
      (∅ : gmap string Node, ∅ : gmap string string, []) (c_Nodes cluster) in
  mkNodeFilter cluster status nodeMap addressMap cp.

Implicit Types nf : NodeFilter.

Definition nodeStatus nf (n : Node) : option NodeStatus :=
  cs_NodeStatuses (nf_status nf) !! node_Address n.

Definition InCluster nf (address : string) : bool :=
  match nf_nodeMap nf !! address with Some _ => true | None => false end.

Definition AllNodes nf : list Node := c_Nodes (nf_cluster nf).
Definition ControlPlaneNodes nf : list Node := nf_cp nf.

(** The loop shared by the filters: append the targets whose status satisfies
    the condition. *)
Definition filter_status nf (p : NodeStatus -> bool) (targets : list Node) : go (list Node) :=
  go_filter (fun n => st ← deref (nodeStatus nf n); Ret (p st)) targets.

(** The [switch] shared by the filters of outdated services: a stopped service
    is excluded; a different image, built-in or extra parameter is outdated. *)
Definition service_outdated (image : string) (builtIn extra : ServiceParams)
    (st : ServiceStatus) : bool :=
  if negb (ss_Running st) then false
  else negb (image =? ss_Image st)%string
       || negb (ServiceParams_Equal builtIn (ss_BuiltInParams st))
       || negb (ServiceParams_Equal extra (ss_ExtraParams st)).

Definition RiversStopped nf (targets : list Node) : go (list Node) :=
  filter_status nf (fun st => negb (ss_Running (ns_Rivers st))) targets.

Definition RiversOutdated nf (targets : list Node) : go (list Node) :=
  let currentBuiltIn := RiversParams (ControlPlaneNodes nf) RiversUpstreamPort RiversListenPort in
  let currentExtra := opt_Rivers (c_Options (nf_cluster nf)) in
  filter_status nf (fun st =>
    service_outdated ToolsImage currentBuiltIn currentExtra (ns_Rivers st)) targets.

Definition EtcdRiversStopped nf (targets : list Node) : go (list Node) :=
  filter_status nf (fun st => negb (ss_Running (ns_EtcdRivers st))) targets.

Definition EtcdRiversOutdated nf (targets : list Node) : go (list Node) :=
  let currentBuiltIn := RiversParams (ControlPlaneNodes nf) EtcdRiversUpstreamPort
                          EtcdRiversListenPort in
  let currentExtra := opt_EtcdRivers (c_Options (nf_cluster nf)) in
  filter_status nf (fun st =>
    service_outdated ToolsImage currentBuiltIn currentExtra (ns_EtcdRivers st)) targets.

(** ** etcd *)

Definition EtcdBootstrapped nf : go bool :=
  go_existsb (fun n => st ← deref (nodeStatus nf n); Ret (etcd_HasData (ns_Etcd st)))
    (ControlPlaneNodes nf).

(** [m[k]] of a [map[string]bool]: a missing key reads as [false]. *)
Definition lookup_bool (m : gmap string bool) (k : string) : bool := default false (m !! k).

Definition EtcdIsGood nf : bool :=
  let st := cs_Etcd (nf_status nf) in
  if negb (es_IsHealthy st) then false
  else forallb (fun '(k, _) => lookup_bool (es_InSyncMembers st) k) (range (es_Members st)).

(** The loop of [EtcdIsGoodForRepair]: [None] is its early [return false]. *)
Fixpoint count_in_sync nf (members : list (string * bool)) (inSyncCP : Z) : go (option Z) :=
  match members with
  | [] => Ret (Some inSyncCP)
  | (address, inSync) :: rest =>
      if (inSync : bool) then count_in_sync nf rest (inSyncCP + 1)
      else match nf_nodeMap nf !! address with
           | None => Ret None
           | Some n =>
               if negb (node_ControlPlane n) then Ret None
               else st ← deref (nodeStatus nf n);
                    if ns_SSHConnected st then Ret None else count_in_sync nf rest inSyncCP
           end
  end.

Definition EtcdIsGoodForRepair nf (controlPlaneCount : Z) : go bool :=
  let st := cs_Etcd (nf_status nf) in
  if negb (es_IsHealthy st) then Ret false
  else
    r ← count_in_sync nf (range (es_InSyncMembers st)) 0;
    match r with
    | None => Ret false
    | Some inSyncCP => Ret (controlPlaneCount - 1 <=? inSyncCP)
    end.

Definition EtcdStopped nf (targets : list Node) : go (list Node) :=
  go_filter (fun n =>
    match es_Members (cs_Etcd (nf_status nf)) !! node_Address n with
    | None => if es_IsHealthy (cs_Etcd (nf_status nf)) then Ret false
              else st ← deref (nodeStatus nf n);
                   Ret (negb (ss_Running (etcd_Service (ns_Etcd st)))
                        && etcd_IsAddedMember (ns_Etcd st))
    | Some _ => st ← deref (nodeStatus nf n);
                Ret (negb (ss_Running (etcd_Service (ns_Etcd st)))
                     && etcd_IsAddedMember (ns_Etcd st))
    end) targets.

Definition EtcdNonClusterMembers nf (healthy : bool) : list Member :=
  let st := cs_Etcd (nf_status nf) in
  snd <$> List.filter (fun '(k, _) =>
            negb (InCluster nf k) && Bool.eqb (lookup_bool (es_InSyncMembers st) k) healthy)
          (range (es_Members st)).

Definition EtcdNonCPMembers nf (healthy : bool) : list Node * list Z :=
  let st := cs_Etcd (nf_status nf) in
  let pairs := omap (fun '(k, v) =>
                 match nf_nodeMap nf !! k with
                 | None => None
                 | Some n => if node_ControlPlane n then None
                             else if negb (Bool.eqb (lookup_bool (es_InSyncMembers st) k) healthy)
                                  then None
                                  else Some (n, mem_ID v)
                 end) (range (es_Members st)) in
  (fst <$> pairs, snd <$> pairs).

Definition EtcdUnstartedMembers nf : list Node :=
  omap (fun '(k, v) =>
          match nf_nodeMap nf !! k with
          | None => None
          | Some n => if negb (node_ControlPlane n) then None
                      else if (0 <? String.length (mem_Name v))%nat then None
                      else Some n
          end) (range (es_Members (cs_Etcd (nf_status nf)))).

Fixpoint unmarked_members nf (l : list (string * bool)) : go (list Node) :=
  match l with
  | [] => Ret []
  | (k, v) :: rest =>
      if negb v then unmarked_members nf rest
      else match nf_nodeMap nf !! k with
           | None => unmarked_members nf rest
           | Some n =>
               if negb (node_ControlPlane n) then unmarked_members nf rest
               else st ← deref (nodeStatus nf n);
                    if etcd_IsAddedMember (ns_Etcd st) then unmarked_members nf rest
                    else ns ← unmarked_members nf rest; Ret (n :: ns)
           end
  end.
Definition EtcdUnmarkedMembers nf : go (list Node) :=
  unmarked_members nf (range (es_InSyncMembers (cs_Etcd (nf_status nf)))).

Definition EtcdNewMembers nf : list Node :=
  List.filter (fun n => match es_Members (cs_Etcd (nf_status nf)) !! node_Address n with
                        | Some _ => false
                        | None => true
                        end) (ControlPlaneNodes nf).

Definition drop_initial (args : list string) : list string :=
  List.filter (fun s => negb (HasPrefix s "--initial-")) args.

Definition etcdEqualParams (running current : ServiceParams) : bool :=
  ServiceParams_Equal
    (mkServiceParams (drop_initial (ExtraArguments running)) (ExtraBinds running)
       (ExtraEnvvar running))
    (mkServiceParams (drop_initial (ExtraArguments current)) (ExtraBinds current)
       (ExtraEnvvar current)).

Definition EtcdOutdatedMembers nf : go (list Node) :=
  let currentExtra := etcd_ServiceParams (opt_Etcd (c_Options (nf_cluster nf))) in
  go_filter (fun n =>
    st ← deref (nodeStatus nf n);
    let svc := etcd_Service (ns_Etcd st) in
    Ret (ss_Running svc
         && (negb (EtcdImage =? ss_Image svc)%string
             || negb (etcdEqualParams (ss_BuiltInParams svc) (etcd_BuiltInParams n [] "new"))
             || negb (etcdEqualParams (ss_ExtraParams svc) currentExtra))))
    (ControlPlaneNodes nf).

(** ** API servers *)

Fixpoint first_healthy nf (nodes : list Node) : go (option Node) :=
  match nodes with
  | [] => Ret None
  | n :: rest => st ← deref (nodeStatus nf n);
                 if kcs_IsHealthy (ns_APIServer st) then Ret (Some n) else first_healthy nf rest
  end.
Definition HealthyAPIServer nf : go (option Node) := first_healthy nf (ControlPlaneNodes nf).

Definition APIServerHealthy nf (targets : list Node) : go (list Node) :=
  filter_status nf (fun st => kcs_IsHealthy (ns_APIServer st)) targets.
Definition APIServerUnhealthy nf (targets : list Node) : go (list Node) :=
  filter_status nf (fun st => negb (kcs_IsHealthy (ns_APIServer st))) targets.
Definition APIServerStopped nf (targets : list Node) : go (list Node) :=
  filter_status nf (fun st => negb (ss_Running (kcs_Service (ns_APIServer st)))) targets.

Definition APIServerOutdated nf (targets : list Node) : go (list Node) :=
  let currentExtra := opt_APIServer (c_Options (nf_cluster nf)) in
  kubeletConfig ← GenerateKubeletConfiguration (opt_Kubelet (c_Options (nf_cluster nf)))
                    "0.0.0.0" None;
  go_filter (fun n =>
    st ← deref (nodeStatus nf n);
    let currentBuiltIn := apiserver_params (node_Address n) (c_ServiceSubnet (nf_cluster nf))
          (AuditLogEnabled currentExtra) (AuditLogPolicy currentExtra)
          (AuditLogPath currentExtra) (kc_ClusterDomain kubeletConfig) in
    Ret (service_outdated KubernetesImage currentBuiltIn (api_ServiceParams currentExtra)
           (kcs_Service (ns_APIServer st)))) targets.

(** ** Other control plane components *)

Definition ControllerManagerStopped nf (targets : list Node) : go (list Node) :=
  filter_status nf (fun st => negb (ss_Running (kcs_Service (ns_ControllerManager st)))) targets.

Definition ControllerManagerOutdated nf (targets : list Node) : go (list Node) :=
  let currentBuiltIn := ControllerManagerParams (c_Name (nf_cluster nf))
                          (c_ServiceSubnet (nf_cluster nf)) in
  let currentExtra := opt_ControllerManager (c_Options (nf_cluster nf)) in
  filter_status nf (fun st => service_outdated KubernetesImage currentBuiltIn currentExtra
                                (kcs_Service (ns_ControllerManager st))) targets.

Definition SchedulerStopped nf (targets : list Node) : go (list Node) :=
  filter_status nf (fun st => negb (ss_Running (scs_Service (ns_Scheduler st)))) targets.

Definition SchedulerOutdated nf (targets : list Node) (params : SchedulerParams)
    : go (list Node) :=
  let currentExtra := sched_ServiceParams (opt_Scheduler (c_Options (nf_cluster nf))) in
  currentConfig ← GenerateSchedulerConfiguration params;
  filter_status nf (fun st =>
    let svc := scs_Service (ns_Scheduler st) in
    service_outdated KubernetesImage scheduler_params currentExtra svc
    || (ss_Running svc
        && negb (scheduler_DeepEqual currentConfig (scs_Config (ns_Scheduler st))))) targets.

(** ** Kubelet *)

Definition KubeletStopped nf (targets : list Node) : go (list Node) :=
  filter_status nf (fun st => negb (ss_Running (kls_Service (ns_Kubelet st)))) targets.

Definition existsNodeResource nf (name : string) : bool :=
  existsb (fun kn => (kn_Name kn =? name)%string) (ks_Nodes (cs_Kubernetes (nf_status nf))).

(** The map [registered] has exactly the names of the Node objects. *)
Definition RegisteredNodes nf (targets : list Node) : list Node :=
  List.filter (fun n => existsNodeResource nf (Nodename n)) targets.

(** [break] at the first argument with the prefix. *)
Definition runtime_endpoint (args : list string) : string :=
  match List.find (fun arg => HasPrefix arg "--container-runtime-endpoint=") args with
  | Some arg => arg
  | None => ""
  end.
Definition kubeletRuntimeChanged (running current : ServiceParams) : bool :=
  negb (runtime_endpoint (ExtraArguments running)
        =? runtime_endpoint (ExtraArguments current))%string.

Definition KubeletOutdated nf (targets : list Node) : go (list Node) :=
  let currentOpts := opt_Kubelet (c_Options (nf_cluster nf)) in
  let currentExtra := kubelet_ServiceParams currentOpts in
  go_filter (fun n =>
    st ← deref (nodeStatus nf n);
    let kst := ns_Kubelet st in
    let svc := kls_Service kst in
    currentConfig ← GenerateKubeletConfiguration currentOpts (node_Address n) (kls_Config kst);
    let currentBuiltIn := KubeletServiceParams n currentOpts in
    Ret (ss_Running svc
         && negb (kubeletRuntimeChanged (ss_BuiltInParams svc) currentBuiltIn)
         && (service_outdated KubernetesImage currentBuiltIn currentExtra svc
             || negb (kubelet_DeepEqual currentConfig (kls_Config kst))))) targets.

Definition KubeletUnrecognized nf (targets : list Node) : go (list Node) :=
  go_filter (fun n =>
    st ← deref (nodeStatus nf n);
    Ret (ss_Running (kls_Service (ns_Kubelet st)) && negb (existsNodeResource nf (Nodename n))))
    targets.

Definition NonClusterNodes nf : list KubeNode :=
  List.filter (fun member =>
    let address := default (kn_Name member) (nf_addressMap nf !! kn_Name member) in
    negb (InCluster nf address)) (ks_Nodes (cs_Kubernetes (nf_status nf))).

(** ** Proxy *)

Definition ProxyStopped nf (targets : list Node) : go (list Node) :=
  if proxy_Disable (opt_Proxy (c_Options (nf_cluster nf))) then Ret []
  else filter_status nf (fun st => negb (ss_Running (pxs_Service (ns_Proxy st)))) targets.

Definition ProxyRunningUnexpectedly nf (targets : list Node) : go (list Node) :=
  if negb (proxy_Disable (opt_Proxy (c_Options (nf_cluster nf)))) then Ret []
  else filter_status nf (fun st => ss_Running (pxs_Service (ns_Proxy st))) targets.

Definition ProxyOutdated nf (targets : list Node) (params : ProxyParams) : go (list Node) :=
  if proxy_Disable (opt_Proxy (c_Options (nf_cluster nf))) then Ret []
  else
    let currentExtra := proxy_ServiceParams (opt_Proxy (c_Options (nf_cluster nf))) in
    go_filter (fun n =>
      st ← deref (nodeStatus nf n);
      currentConfig ← GenerateProxyConfiguration params n;
      let svc := pxs_Service (ns_Proxy st) in
      Ret (service_outdated KubernetesImage proxy_params currentExtra svc
           || (ss_Running svc
               && negb (proxy_DeepEqual currentConfig (pxs_Config (ns_Proxy st)))))) targets.

(** ** Attributes of Node objects *)

Definition isInternal (name : string) (n : Node) : bool :=
  if (name =? CKEAnnotationReboot)%string then false
  else if HasPrefix name "cke.cybozu.com/" then true
  else if str_contains name ".cke.cybozu.com/" then true
  else if existsb (fun '(k, _) => HasPrefix k "node-role.kubernetes.io/" && (name =? k)%string)
            (range (node_Labels n)) then true
  else (name =? "node-role.kubernetes.io/master")%string
       || (name =? "node-role.kubernetes.io/control-plane")%string.

(** [curTaints[taint.Key] = taint] for each taint in order. *)
Definition taint_map (taints : list Taint) : gmap string Taint :=
  foldl (fun m t => <[ taint_Key t := t ]> m) ∅ taints.

(** [for k, v := range want { cv, ok := have[k]; if !ok || v != cv { return true } }] *)
Definition missing_entry (want have : gmap string string) : bool :=
  existsb (fun '(k, v) => match have !! k with
                          | Some cv => negb (v =? cv)%string
                          | None => true
                          end) (range want).

Definition has_key {V} (m : gmap string V) (k : string) : bool :=
  match m !! k with Some _ => true | None => false end.

Definition nodeIsOutdated (n : Node) (current : KubeNode) (taintCP : bool) : bool :=
  let labels := kn_Labels current in
  let curTaints := taint_map (kn_Taints current) in
  let nTaints := taint_map (node_Taints n) in
  if missing_entry (node_Labels n) labels then true
  else if existsb (fun '(k, _) => isInternal k n && negb (k =? CKELabelMaster)%string
                                  && negb (has_key (node_Labels n) k)) (range labels) then true
  else if (if node_ControlPlane n
           then match labels !! CKELabelMaster with
                | Some cv => negb (cv =? "true")%string
                | None => true
                end
           else has_key labels CKELabelMaster) then true
  else if missing_entry (node_Annotations n) (kn_Annotations current) then true
  else if existsb (fun '(k, _) => isInternal k n && negb (has_key (node_Annotations n) k))
            (range (kn_Annotations current)) then true
  else if existsb (fun t => match curTaints !! taint_Key t with
                            | None => true
                            | Some cv => negb (taint_Value t =? taint_Value cv)%string
                                         || negb (taint_Effect t =? taint_Effect cv)%string
                            end) (node_Taints n) then true
  else if existsb (fun t => isInternal (taint_Key t) n
                            && negb (taint_Key t =? CKETaintMaster)%string
                            && negb (has_key nTaints (taint_Key t))) (kn_Taints current) then true
  else if taintCP && node_ControlPlane n
       then match curTaints !! CKETaintMaster with
            | Some t => negb (taint_Effect t =? TaintEffectPreferNoSchedule)%string
            | None => true
            end
       else has_key curTaints CKETaintMaster.

(** Drops the internal keys: [for k, v := range m { if isInternal(k, n) { continue }; ... }] *)
Definition drop_internal (n : Node) (m : gmap string string) : gmap string string :=
  foldl (fun acc '(k, v) => if isInternal k n then acc else <[ k := v ]> acc) ∅ (range m).

(** The body of the loop of [OutdatedAttrsNodes]: the attributes the Node
    object is updated to.  [maps.Copy(dst, src)] overwrites. *)
Definition updated_attrs (n : Node) (current : KubeNode) (taintCP : bool) : KubeNode :=
  let labels := node_Labels n ∪ drop_internal n (kn_Labels current) in
  let labels := if node_ControlPlane n then <[ CKELabelMaster := "true" ]> labels else labels in
  let annotations := node_Annotations n ∪ drop_internal n (kn_Annotations current) in
  let nTaints : gset string := list_to_set (taint_Key <$> node_Taints n) in
  let taints := node_Taints n ++
    List.filter (fun t => negb (isInternal (taint_Key t) n
                                || bool_decide (taint_Key t ∈ nTaints))) (kn_Taints current) in
  let taints := if taintCP && node_ControlPlane n
                then taints ++ [mkTaint CKETaintMaster "" TaintEffectPreferNoSchedule]
                else taints in
  mkKubeNode (kn_Name current) labels annotations taints (kn_Unschedulable current)
    (kn_Conditions current) (kn_Deleted current).

(** [curNodes]: the last object of each name. *)
Definition node_objects nf : gmap string KubeNode :=
  foldl (fun m cn => <[ kn_Name cn := cn ]> m) ∅ (ks_Nodes (cs_Kubernetes (nf_status nf))).

(** The loop works on one deep copy per name, which it updates in place and
    collects by pointer: the names collected, and the final copies. *)
Fixpoint outdated_loop (taintCP : bool) (curNodes : gmap string KubeNode) (nodes : list Node)
    : gmap string KubeNode * list string :=
  match nodes with
  | [] => (curNodes, [])
  | n :: rest =>
      match curNodes !! Nodename n with
      | None => outdated_loop taintCP curNodes rest
      | Some current =>
          if nodeIsOutdated n current taintCP then
            let '(final, names) :=
              outdated_loop taintCP (<[ Nodename n := updated_attrs n current taintCP ]> curNodes)
                rest in
            (final, Nodename n :: names)
          else outdated_loop taintCP curNodes rest
      end
  end.
Definition OutdatedAttrsNodes nf : list KubeNode :=
  let '(final, names) := outdated_loop (c_TaintCP (nf_cluster nf)) (node_objects nf) (AllNodes nf) in
  omap (fun name => final !! name) names.

Definition CordonedNodes nf : list KubeNode :=
  List.filter (fun n => kn_Unschedulable n
                        && match kn_Annotations n !! CKEAnnotationReboot with
                           | Some v => (v =? "true")%string
                           | None => false
                           end) (ks_Nodes (cs_Kubernetes (nf_status nf))).

(** ** Reachability *)

Definition SSHConnected nf (targets : list Node) : go (list Node) :=
  filter_status nf ns_SSHConnected targets.
Definition SSHNotConnected nf (targets : list Node) : go (list Node) :=
  filter_status nf (fun st => negb (ns_SSHConnected st)) targets.
End node_filter.

(** ** The maps a filter is created with *)
Section filter_facts.
  Context {T : K8sTypes} {K : K8s} `{Runtime}.
  Implicit Types (c : Cluster) (cs : ClusterStatus) (nf : NodeFilter).

(** The loop of [NewNodeFilter] from an arbitrary accumulator. *)
Lemma new_node_filter_fold nodes (m : gmap string Node) (am : gmap string string) (cp : list Node) :
  let r := foldl (fun '(nodeMap, addressMap, cp) n =>
             (<[ node_Address n := n ]> nodeMap,
              (if (String.length (node_Hostname n) =? 0)%nat then addressMap
               else <[ node_Hostname n := node_Address n ]> addressMap),
              if node_ControlPlane n then cp ++ [n] else cp)) (m, am, cp) nodes in
  snd r = cp ++ ControlPlanes nodes
  /\ (forall a n, fst (fst r) !! a = Some n ->
        m !! a = Some n \/ (n ∈ nodes /\ node_Address n = a))
  /\ (forall a, a ∈ node_Address <$> nodes \/ is_Some (m !! a) -> is_Some (fst (fst r) !! a)).
Proof.
  revert m am cp. induction nodes as [|x nodes IH]; intros m am cp; cbn [foldl].
  { split_and!; simpl; [by rewrite app_nil_r|auto|]. intros a [Hin|]; [set_solver|done]. }
  specialize (IH (<[ node_Address x := x ]> m)
    (if (String.length (node_Hostname x) =? 0)%nat then am
     else <[ node_Hostname x := node_Address x ]> am)
    (if node_ControlPlane x then cp ++ [x] else cp)).
  destruct IH as (Hcp & Hin & Hdom). split_and!.
  - rewrite Hcp. unfold ControlPlanes, filterNodes. simpl.
    destruct (node_ControlPlane x); [by rewrite <- app_assoc|done].
  - intros a n [Hm|[??]]%Hin; [|by right; split; [set_solver|]].
    destruct (decide (a = node_Address x)) as [->|Hne].
    + rewrite lookup_insert_eq in Hm. injection Hm as ->. right. split; [set_solver|done].
    + rewrite lookup_insert_ne in Hm by done. by left.
  - intros a Ha. apply Hdom. destruct (decide (a = node_Address x)) as [->|Hne].
    + right. rewrite lookup_insert_eq. eauto.
    + rewrite lookup_insert_ne by done. set_solver.
Qed.

Lemma NewNodeFilter_cp c cs : ControlPlaneNodes (NewNodeFilter c cs) = ControlPlanes (c_Nodes c).
Proof.
  pose proof (new_node_filter_fold (c_Nodes c) ∅ ∅ []) as (Hcp & _ & _).
  unfold ControlPlaneNodes, NewNodeFilter. by destruct (foldl _ _ _) as [[nm am] cp].
Qed.

Lemma NewNodeFilter_cluster c cs : nf_cluster (NewNodeFilter c cs) = c.
Proof. unfold NewNodeFilter. by destruct (foldl _ _ _) as [[nm am] cp]. Qed.

Lemma NewNodeFilter_status c cs : nf_status (NewNodeFilter c cs) = cs.
Proof. unfold NewNodeFilter. by destruct (foldl _ _ _) as [[nm am] cp]. Qed.

Lemma NewNodeFilter_nodes c cs : AllNodes (NewNodeFilter c cs) = c_Nodes c.
Proof. unfold AllNodes. by rewrite NewNodeFilter_cluster. Qed.

Lemma NewNodeFilter_nodeMap c cs a n :
  nf_nodeMap (NewNodeFilter c cs) !! a = Some n -> n ∈ c_Nodes c /\ node_Address n = a.
Proof.
  pose proof (new_node_filter_fold (c_Nodes c) ∅ ∅ []) as (_ & Hin & _).
  unfold NewNodeFilter. destruct (foldl _ _ _) as [[nm am] cp]. simpl in *.
  intros [Hm|]%Hin; [|done]. by rewrite lookup_empty in Hm.
Qed.

Lemma InCluster_spec c cs a :
  InCluster (NewNodeFilter c cs) a = true <-> a ∈ node_Address <$> c_Nodes c.
Proof.
  unfold InCluster. split.
  - destruct (nf_nodeMap _ !! a) as [n|] eqn:Hn; [|done].
    apply NewNodeFilter_nodeMap in Hn as [Hn <-]. intros _. by apply list_elem_of_fmap_2.
  - pose proof (new_node_filter_fold (c_Nodes c) ∅ ∅ []) as (_ & _ & Hdom).
    intros Ha. destruct (Hdom a (or_introl Ha)) as [n Hn].
    unfold NewNodeFilter. destruct (foldl _ _ _) as [[nm am] cp]. simpl in *. by rewrite Hn.
Qed.

Lemma cp_subset c n : n ∈ ControlPlanes (c_Nodes c) -> n ∈ c_Nodes c.
Proof. unfold ControlPlanes, filterNodes. by intros [? _]%elem_of_filterb. Qed.

(** ** Filters by status *)

(** The targets a filter can look at without panicking. *)
Definition has_status nf (l : list Node) : Prop :=
  forall n, n ∈ l -> is_Some (nodeStatus nf n).

Lemma has_status_sub nf l l' : (forall n, n ∈ l' -> n ∈ l) -> has_status nf l -> has_status nf l'.
Proof. unfold has_status. auto. Qed.

Lemma filter_status_returns nf p l : has_status nf l -> returns (filter_status nf p l).
Proof.
  intros Hl. apply returns_go_filter. intros n Hn. go_returns.
  by apply returns_deref, Hl.
Qed.

(** A successful filter keeps exactly the targets whose status satisfies the
    condition, in order. *)
Lemma filter_status_inv nf p l r :
  filter_status nf p l = Ret r ->
  forall n, n ∈ r <-> n ∈ l /\ exists st, nodeStatus nf n = Some st /\ p st = true.
Proof.
  intros Hr n. rewrite (go_filter_inv _ _ _ Hr). apply and_iff_compat_l.
  destruct (nodeStatus nf n) as [st|]; simpl; split; try done.
  - intros [= Hp]. eauto.
  - intros (st' & [= ->] & ->). done.
  - by intros (st' & ? & _).
Qed.

Lemma filter_status_sublist nf p l r : filter_status nf p l = Ret r -> r `sublist_of` l.
Proof. apply go_filter_sublist. Qed.

Lemma go_filter_sub {A} (p : A -> go bool) l r x : go_filter p l = Ret r -> x ∈ r -> x ∈ l.
Proof. intros Hr Hx. by apply (go_filter_inv _ _ _ Hr) in Hx as [? _]. Qed.

Lemma filter_status_sub nf p l r n : filter_status nf p l = Ret r -> n ∈ r -> n ∈ l.
Proof. apply go_filter_sub. Qed.

Lemma SSHConnected_inv nf l r n :
  SSHConnected nf l = Ret r -> n ∈ r ->
  n ∈ l /\ exists st, nodeStatus nf n = Some st /\ ns_SSHConnected st = true.
Proof. intros Hr. by apply (filter_status_inv _ _ _ _ Hr). Qed.

Lemma SSHNotConnected_nil nf l n :
  SSHNotConnected nf l = Ret [] -> n ∈ l -> forall st, nodeStatus nf n = Some st ->
  ns_SSHConnected st = true.
Proof.
  intros Hr Hn st Hst. destruct (ns_SSHConnected st) eqn:Hc; [done|]. exfalso.
  assert (n ∈ ([] : list Node)) as Hin; [|set_solver].
  apply (filter_status_inv _ _ _ _ Hr). split; [done|]. exists st. by rewrite Hc.
Qed.

(** A successful filter saw the status of every target. *)
Lemma filter_status_has nf p l r : filter_status nf p l = Ret r -> has_status nf l.
Proof.
  unfold filter_status. revert r. induction l as [|x l IH]; intros r Hr n Hn; [set_solver|].
  simpl in Hr. destruct (nodeStatus nf x) as [st|] eqn:Hx; simpl in Hr; [|done].
  destruct (go_filter _ l) as [r'|] eqn:Hl; [|done].
  apply elem_of_cons in Hn as [->|Hn]; [by rewrite Hx|]. by apply (IH r' eq_refl).
Qed.
End filter_facts.
#[export] Hint Resolve filter_status_returns has_status_sub cp_subset : cke.
