(* ===== verification/Sabakan.v ===== *)
(** * Clusters generated from machines (sabakan/)

    The generator turns the machines registered with sabakan into the
    configuration of a cluster: which machines are control plane nodes and which
    are workers, following a template and constraints.  The repairer queues
    repairs of machines that are not healthy.  Logging is left out. *)

From Stdlib Require Import ZArith Ascii String Lia.
From stdpp Require Import base gmap strings list.
From S2P Require Import Prelude GoLib GoTime SabakanQuery K8s Cluster Queue Status Params NodeFilter.

(** ** Machines *)
(** [m.Spec.IPv4[0]] *)
Definition first_address (m : Machine) : go string := index (ms_IPv4 (m_Spec m)) 0.
Definition healthy (m : Machine) : bool := (mst_State (m_Status m) =? StateHealthy)%string.

(** The pointers to machines that the generator handles come from its map of
    machines by first address: two of them are equal when their first addresses
    are. *)
Definition pointer (m : Machine) : option string := head (ms_IPv4 (m_Spec m)).

(** ** Scores (sabakan/score.go) *)
Definition maxCountPerRack : Z := 100.
Definition healthyScore : Z := 1000.

Definition scoreByDays (days : Z) : Z :=
  (if 250 <? days then 1 else 0) + (if 500 <? days then 1 else 0) + (if 1000 <? days then 1 else 0)
  - (if days <? -250 then 1 else 0) - (if days <? -500 then 1 else 0)
  - (if days <? -1000 then 1 else 0).

(** A missing entry of a map of counters is 0. *)
Definition count_of {Key} `{Countable Key} (count : gmap Key Z) (k : Key) : Z := default 0 (count !! k).

Definition scoreMachine (m : Machine) (rackCount : gmap Z Z) (ts : Z) : Z :=
  let rackScore := maxCountPerRack - count_of rackCount (ms_Rack (m_Spec m)) in
  let days := to_int (fdiv (Hours (Sub (t_nanoseconds (ms_RetireDate (m_Spec m))) ts)) (of_int 24)) in
  rackScore * 10 + scoreByDays days.

Definition scoreMachineWithHealthStatus (m : Machine) (rackCount : gmap Z Z) (ts : Z) : Z :=
  let score := scoreMachine m rackCount ts in
  if healthy m then healthyScore + score else score.

Definition filterHealthyMachinesByRole (ms : list Machine) (role : string) : list Machine :=
  List.filter (fun m => healthy m
    && ((role =? "")%string || (ms_Role (m_Spec m) =? role)%string)) ms.

(** ** From machines to nodes (sabakan/generator.go) *)
Definition CKELabelRole : string := "cke.cybozu.com/role".

Definition state_taint : string := "cke.cybozu.com/state".
Definition taint_of_state (state : string) : list Taint :=
  if (state =? StateUnreachable)%string then [mkTaint state_taint "unreachable" TaintEffectNoSchedule]
  else if (state =? StateRetiring)%string then [mkTaint state_taint "retiring" TaintEffectNoExecute]
  else if (state =? StateRetired)%string then [mkTaint state_taint "retired" TaintEffectNoExecute]
  else [].

(** [maps.Copy(dst, src)] overwrites; so do the assignments after it. *)
Definition machine_annotations (spec : MachineSpec) (tmpl : Node) : gmap string string :=
  <[ "cke.cybozu.com/retire-date" := FormatRFC3339 (ms_RetireDate spec) ]>
  (<[ "cke.cybozu.com/register-date" := FormatRFC3339 (ms_RegisterDate spec) ]>
  (<[ "cke.cybozu.com/serial" := ms_Serial spec ]> (node_Annotations tmpl))).

Definition machine_labels (spec : MachineSpec) (tmpl : Node) : gmap string string :=
  let labels := foldl (fun m '(name, value) => <[ "sabakan.cke.cybozu.com/" +:+ name := value ]> m)
                  ∅ (ms_Labels spec) in
  let labels := node_Labels tmpl ∪ labels in
  let labels := <[ "cke.cybozu.com/rack" := FormatInt (ms_Rack spec) ]> labels in
  let labels := <[ "cke.cybozu.com/index-in-rack" := FormatInt (ms_IndexInRack spec) ]> labels in
  let labels := <[ "cke.cybozu.com/role" := ms_Role spec ]> labels in
  let labels := <[ "cke.cybozu.com/retire-month" := FormatMonth (ms_RetireDate spec) ]> labels in
  let labels := <[ "cke.cybozu.com/retire-year" := FormatInt (Year (ms_RetireDate spec)) ]> labels in
  let labels := <[ "cke.cybozu.com/register-month" := FormatMonth (ms_RegisterDate spec) ]> labels in
  let labels := <[ "node-role.kubernetes.io/" +:+ ms_Role spec := "true" ]> labels in
  let labels := if node_ControlPlane tmpl
                then <[ "node-role.kubernetes.io/control-plane" := "true" ]>
                       (<[ "node-role.kubernetes.io/master" := "true" ]> labels)
                else labels in
  <[ "topology.kubernetes.io/zone" := "rack" +:+ FormatInt (ms_Rack spec) ]> labels.

Definition MachineToNode (m : Machine) (tmpl : Node) : go Node :=
  address ← first_address m;
  Ret (mkNode address "" (node_User tmpl) (node_ControlPlane tmpl)
         (machine_annotations (m_Spec m) tmpl) (machine_labels (m_Spec m) tmpl)
         (node_Taints tmpl ++ taint_of_state (mst_State (m_Status m)))).

(** ** Operations on the configuration (sabakan/op.go) *)
Record updateOp := mkUpdateOp { op_name : string; op_changes : list string }.
Definition record (msg : string) (op : updateOp) : updateOp :=
  mkUpdateOp (op_name op) (op_changes op ++ [msg]).
Definition record_machine (what : string) (m : Machine) (op : updateOp) : go updateOp :=
  address ← first_address m; Ret (record (what +:+ address) op).
Definition addControlPlane : Machine -> updateOp -> go updateOp := record_machine "add new control plane: ".
Definition addWorker : Machine -> updateOp -> go updateOp := record_machine "add new worker: ".
Definition promoteWorker : Machine -> updateOp -> go updateOp := record_machine "promote a worker: ".
Definition demoteControlPlane : Machine -> updateOp -> go updateOp := record_machine "demote a control plane: ".

(** ** The generator *)
Definition errNotAvailable : error := ErrUnexpected "no healthy machine is available".
Definition errMissingMachine : error :=
  ErrUnexpected "failed to apply new template due to missing machines".
Definition errTooManyNonExistent : error := ErrUnexpected "too many non-existent control plane nodes".
Definition errClusterNotFound : error := ErrUnexpected "CKE cluster does not exist".
Definition DefaultWaitRetiredSeconds : float64 := of_int 300.

Section generator.
  Context {T : K8sTypes} {K : K8s} `{Runtime}.

(** A template without a control plane node leaves a nil pointer. *)
Record nodeTemplate := mkNodeTemplate { nt_Node : option Node; nt_Role : string }.
Definition template_of (n : Node) : nodeTemplate :=
  mkNodeTemplate (Some n) (default "" (node_Labels n !! CKELabelRole)).

(** What a generator is created with, ... *)
Record Generator := mkGenerator {
  g_template : Cluster;
  g_constraints : Constraints;
  g_timestamp : Z;
  g_waitSeconds : float64;
  g_machineMap : gmap string Machine;
  g_k8sNodeMap : gmap string KubeNode;
  g_cpTmpl : nodeTemplate;
  g_workerTmpls : list nodeTemplate
}.
(** ... and its intermediate data. *)
Record plan := mkPlan {
  nextUnused : list Machine;
  nextControlPlanes : list Machine;
  nextWorkers : list Machine;
  countWorkerByRole : gmap string Z
}.

(** The loops of [NewGenerator]. *)
Definition machine_map (machines : list Machine) : gmap string Machine :=
  foldl (fun mm m => match ms_IPv4 (m_Spec m) with [] => mm | a :: _ => <[ a := m ]> mm end) ∅ machines.
Fixpoint nodes_of_machine (m : Machine) (nodes : list KubeNode) (nm : gmap string KubeNode)
    : go (gmap string KubeNode) :=
  match nodes with
  | [] => Ret nm
  | n :: rest =>
      a ← first_address m;
      nodes_of_machine m rest (if (kn_Name n =? a)%string then <[ a := n ]> nm else nm)
  end.
Fixpoint k8s_node_map (machines : list Machine) (nodes : list KubeNode) (nm : gmap string KubeNode)
    : go (gmap string KubeNode) :=
  match machines with
  | [] => Ret nm
  | m :: rest => nm' ← nodes_of_machine m nodes nm; k8s_node_map rest nodes nm'
  end.
Definition cp_template (nodes : list Node) : nodeTemplate :=
  foldl (fun t n => if node_ControlPlane n then template_of n else t) (mkNodeTemplate None "") nodes.
Definition worker_templates (nodes : list Node) : list nodeTemplate :=
  template_of <$> List.filter (fun n => negb (node_ControlPlane n)) nodes.

Definition NewGenerator (template : Cluster) (cstr : Constraints) (machines : list Machine)
    (clusterStatus : option ClusterStatus) (currentTime : Z) : go Generator :=
  nodeMap ← match clusterStatus with
            | None => Ret ∅
            | Some cs => k8s_node_map machines (ks_Nodes (cs_Kubernetes cs)) ∅
            end;
  Ret (mkGenerator template cstr currentTime DefaultWaitRetiredSeconds (machine_map machines) nodeMap
         (cp_template (c_Nodes template)) (worker_templates (c_Nodes template))).
Definition SetWaitSeconds (g : Generator) (secs : float64) : Generator :=
  mkGenerator (g_template g) (g_constraints g) (g_timestamp g) secs (g_machineMap g)
    (g_k8sNodeMap g) (g_cpTmpl g) (g_workerTmpls g).

Definition clearIntermediateData : plan := mkPlan [] [] [] ∅.

(** The operations of one generator. *)
Section operations.
  Variable g : Generator.

(** [slices.Collect(maps.Values(g.machineMap))] *)
Definition machineList : list Machine := snd <$> range (g_machineMap g).

(** The loop keeps the least rate and the index of its template. *)
Fixpoint least_rate (p : plan) (i : Z) (tmpls : list nodeTemplate) (least : float64) (leastIndex : Z)
    : Z :=
  match tmpls with
  | [] => leastIndex
  | tmpl :: rest =>
      let healthyMachines := len (filterHealthyMachinesByRole machineList (nt_Role tmpl)) in
      let numHealthyMachines :=
        if (nt_Role tmpl =? nt_Role (g_cpTmpl g))%string
        then healthyMachines - len (nextControlPlanes p) else healthyMachines in
      if numHealthyMachines <=? 0 then least_rate p (i + 1) rest least leastIndex
      else
        let w := fdiv (of_int (count_of (countWorkerByRole p) (nt_Role tmpl)))
                      (of_int numHealthyMachines) in
        if fless w least then least_rate p (i + 1) rest w i
        else least_rate p (i + 1) rest least leastIndex
  end.
Definition chooseWorkerTmpl (p : plan) : go nodeTemplate :=
  index (g_workerTmpls g) (least_rate p 0 (g_workerTmpls g) MaxFloat64 0).

Definition getWorkerTmpl (role : string) : go nodeTemplate :=
  match g_workerTmpls g with
  | [tmpl] => Ret tmpl
  | tmpls =>
      match List.find (fun tmpl => (nt_Role tmpl =? role)%string) tmpls with
      | Some tmpl => Ret tmpl
      | None => Panic ("BUG: instantiating for invalid role: " +:+ role)
      end
  end.

Fixpoint removeMachine (machines : list Machine) (m : Machine) : go (list Machine) :=
  match machines with
  | [] => Panic "BUG: illegal machines operation"
  | mm :: rest =>
      if decide (pointer m = pointer mm) then Ret rest
      else rest' ← removeMachine rest m; Ret (mm :: rest')
  end.

Definition selectWorker (p : plan) (machines : list Machine) : go (option Machine) :=
  workerTmpl ← chooseWorkerTmpl p;
  Ret (head (filterHealthyMachinesByRole machines (nt_Role workerTmpl))).

(** Taints that do not keep a machine from becoming a control plane node. *)
Definition tolerated_taint (t : Taint) : bool :=
  HasPrefix (taint_Key t) "node.kubernetes.io/" || (taint_Key t =? state_taint)%string
  || (taint_Key t =? CKETaintMaster)%string
  || (taint_Key t =? c_SpareNodeTaintKey (g_template g))%string
  || Contains (c_CPTolerations (g_template g)) (taint_Key t).
Definition isTaintedInCluster (m : Machine) : go bool :=
  a ← first_address m;
  Ret match g_k8sNodeMap g !! a with
      | None => false
      | Some n => existsb (fun t => negb (tolerated_taint t)) (kn_Taints n)
      end.
Definition filterTaintedMachines (ms : list Machine) : go (list Machine) :=
  go_filter (fun m => tainted ← isTaintedInCluster m; Ret (negb tainted)) ms.

(** A machine is listed once for each such taint of its node. *)
Definition spare_of (m : Machine) : go (list Machine) :=
  a ← first_address m;
  Ret match g_k8sNodeMap g !! a with
      | None => []
      | Some n => (fun _ => m) <$> List.filter
                    (fun t => (taint_Key t =? c_SpareNodeTaintKey (g_template g))%string) (kn_Taints n)
      end.
Definition filterSpareNodes (ms : list Machine) : go (list Machine) :=
  l ← go_map spare_of ms; Ret (concat l).

Definition countMachinesByRack (p : plan) (cp : bool) (role : string) : gmap Z Z :=
  let machines := if cp then nextControlPlanes p else nextWorkers p in
  foldl (fun count m =>
    let rack := ms_Rack (m_Spec m) in
    if negb cp && negb (role =? "")%string && negb (role =? ms_Role (m_Spec m))%string then count
    else <[ rack := count_of count rack + 1 ]> count) ∅ machines.

Definition selectControlPlane (p : plan) (machines : list Machine) : go (option Machine) :=
  let candidates := filterHealthyMachinesByRole machines (nt_Role (g_cpTmpl g)) in
  candidates ← filterTaintedMachines candidates;
  spare ← filterSpareNodes candidates;
  let candidates := if 0 <? len spare then spare else candidates in
  let countByRack := countMachinesByRack p true "" in
  Ret (head (sort_slice (fun a b =>
    scoreMachine b countByRack (g_timestamp g) <? scoreMachine a countByRack (g_timestamp g)) candidates)).

(** The control planes are sorted in place, the lowest score first. *)
Definition deselectControlPlane (p : plan) : go (plan * Machine) :=
  let countByRack := countMachinesByRack p true "" in
  let sorted := sort_slice (fun a b =>
    scoreMachineWithHealthStatus a countByRack (g_timestamp g)
    <? scoreMachineWithHealthStatus b countByRack (g_timestamp g)) (nextControlPlanes p) in
  m ← index sorted 0;
  Ret (mkPlan (nextUnused p) sorted (nextWorkers p) (countWorkerByRole p), m).

Definition appendNextWorker (p : plan) (m : Machine) : plan :=
  let role := ms_Role (m_Spec m) in
  mkPlan (nextUnused p) (nextControlPlanes p) (nextWorkers p ++ [m])
    (<[ role := count_of (countWorkerByRole p) role + 1 ]> (countWorkerByRole p)).
Definition removeNextWorker (p : plan) (m : Machine) : go plan :=
  workers ← removeMachine (nextWorkers p) m;
  let role := ms_Role (m_Spec m) in
  Ret (mkPlan (nextUnused p) (nextControlPlanes p) workers
         (<[ role := count_of (countWorkerByRole p) role - 1 ]> (countWorkerByRole p))).
Definition append_control_plane (p : plan) (m : Machine) : plan :=
  mkPlan (nextUnused p) (nextControlPlanes p ++ [m]) (nextWorkers p) (countWorkerByRole p).
(** [g.nextUnused = removeMachine(g.nextUnused, m)] *)
Definition remove_unused (p : plan) (m : Machine) : go plan :=
  unused ← removeMachine (nextUnused p) m;
  Ret (mkPlan unused (nextControlPlanes p) (nextWorkers p) (countWorkerByRole p)).

(** After an error the intermediate data is not used any more.

    The first loop of [fill] adds control planes, unused machines first; each
    round adds one. *)
Fixpoint fill_control_planes (rounds : nat) (p : plan) (op : updateOp) : go (result (plan * updateOp)) :=
  match rounds with
  | O => Ret (Ok (p, op))
  | S n =>
      m ← selectControlPlane p (nextUnused p);
      match m with
      | Some m =>
          op ← addControlPlane m op;
          p ← remove_unused (append_control_plane p m) m;
          fill_control_planes n p op
      | None =>
          promote ← selectControlPlane p (nextWorkers p);
          match promote with
          | Some m =>
              op ← promoteWorker m op;
              p ← removeNextWorker (append_control_plane p m) m;
              fill_control_planes n p op
          | None => Ret (Err errNotAvailable)
          end
      end
  end.

(** How many workers there should be; a template without a role counts all
    healthy machines. *)
Fixpoint available_from (p : plan) (tmpls : list nodeTemplate) (numAvailableMachines : Z) : Z :=
  match tmpls with
  | [] => numAvailableMachines
  | n :: rest =>
      if (nt_Role n =? "")%string
      then len (filterHealthyMachinesByRole machineList "") - len (nextControlPlanes p)
      else
        let sum := numAvailableMachines + len (filterHealthyMachinesByRole machineList (nt_Role n)) in
        available_from p rest (if (nt_Role n =? nt_Role (g_cpTmpl g))%string
                               then sum - len (nextControlPlanes p) else sum)
  end.

Fixpoint fill_workers (rounds : nat) (p : plan) (op : updateOp) : go (result (plan * updateOp)) :=
  match rounds with
  | O => Ret (Ok (p, op))
  | S n =>
      m ← selectWorker p (nextUnused p);
      match m with
      | None => Ret (Err errNotAvailable)
      | Some m =>
          op ← addWorker m op;
          p ← remove_unused (appendNextWorker p m) m;
          fill_workers n p op
      end
  end.

Definition nodes_of_plan (p : plan) : go (list Node) :=
  cps ← go_map (fun m => tmpl ← deref (nt_Node (g_cpTmpl g)); MachineToNode m tmpl) (nextControlPlanes p);
  workers ← go_map (fun m => tmpl ← getWorkerTmpl (ms_Role (m_Spec m));
                             n ← deref (nt_Node tmpl); MachineToNode m n) (nextWorkers p);
  Ret (cps ++ workers).

Definition with_nodes (c : Cluster) (nodes : list Node) : Cluster :=
  mkCluster (c_Name c) nodes (c_TaintCP c) (c_CPTolerations c) (c_ServiceSubnet c) (c_DNSServers c)
    (c_DNSService c) (c_Reboot c) (c_Repair c) (c_SpareNodeTaintKey c) (c_Options c)
    (c_TrustedRESTMappings c).

Definition fill (p : plan) (op : updateOp) : go (result (plan * Cluster)) :=
  r ← fill_control_planes
        (Z.to_nat (ControlPlaneCount (g_constraints g) - len (nextControlPlanes p))) p op;
  match r with
  | Err e => Ret (Err e)
  | Ok (p, op) =>
      r ← fill_workers (Z.to_nat (available_from p (g_workerTmpls g) 0 - len (nextWorkers p))) p op;
      match r with
      | Err e => Ret (Err e)
      | Ok (p, op) =>
          nodes ← nodes_of_plan p;
          let c := with_nodes (g_template g) nodes in
          Ret match Validate c false with Some e => Err e | None => Ok (p, c) end
      end
  end.

Definition nodesToMachines (nodes : list Node) : list Machine * list Node :=
  (omap (fun n => g_machineMap g !! node_Address n) nodes,
   List.filter (fun n => match g_machineMap g !! node_Address n with Some _ => false | None => true end)
     nodes).

Definition getUnusedMachines (usedNodes : list Node) : list Machine :=
  snd <$> List.filter (fun '(a, m) =>
    negb (Contains (node_Address <$> usedNodes) a) && healthy m) (range (g_machineMap g)).

Definition set_unused (p : plan) (unused : list Machine) : plan :=
  mkPlan unused (nextControlPlanes p) (nextWorkers p) (countWorkerByRole p).
Definition set_control_planes (p : plan) (cps : list Machine) : plan :=
  mkPlan (nextUnused p) cps (nextWorkers p) (countWorkerByRole p).

Definition Generate : go (result (plan * Cluster)) :=
  let op := record "generate new cluster" (mkUpdateOp "new" []) in
  fill (set_unused clearIntermediateData (getUnusedMachines [])) op.

Definition Regenerate (current : Cluster) : go (result (plan * Cluster)) :=
  let '(nextCPs, nonExistentCPs) := nodesToMachines (ControlPlanes (c_Nodes current)) in
  if 0 <? len nonExistentCPs then Ret (Err errMissingMachine)
  else
    let p := set_control_planes clearIntermediateData nextCPs in
    let '(nextWorkers, nonExistentWorkers) := nodesToMachines (Workers (c_Nodes current)) in
    if 0 <? len nonExistentWorkers then Ret (Err errMissingMachine)
    else
      let p := foldl appendNextWorker p nextWorkers in
      let p := set_unused p (getUnusedMachines (c_Nodes current)) in
      fill p (record "regenerate with new template" (mkUpdateOp "regenerate" [])).

(** [None]: nothing to do *)
Definition removeNonExistentNode (currentCPs currentWorkers : list Node)
    : result (plan * option updateOp) :=
  let '(nextCPs, nonExistentCPs) := nodesToMachines currentCPs in
  if len nextCPs * 2 <=? len currentCPs then Err errTooManyNonExistent
  else
    let '(nextWorkers, nonExistentWorkers) := nodesToMachines currentWorkers in
    let op := foldl (fun op n => record ("remove non-existent control plane: " +:+ node_Address n) op)
                (mkUpdateOp "remove non-existent node" []) nonExistentCPs in
    let op := foldl (fun op n => record ("remove non-existent worker: " +:+ node_Address n) op)
                op nonExistentWorkers in
    let p := foldl appendNextWorker (set_control_planes clearIntermediateData nextCPs) nextWorkers in
    let p := set_unused p (getUnusedMachines (currentCPs ++ currentWorkers)) in
    Ok (p, if len (op_changes op) =? 0 then None else Some op).

Definition increaseControlPlane (p : plan) : option updateOp :=
  if ControlPlaneCount (g_constraints g) <=? len (nextControlPlanes p) then None
  else Some (mkUpdateOp "increase control plane" []).

(** Each round demotes one control plane. *)
Fixpoint demote_loop (rounds : nat) (p : plan) (op : updateOp) : go (plan * updateOp) :=
  match rounds with
  | O => Ret (p, op)
  | S n =>
      '(p, m) ← deselectControlPlane p;
      cps ← removeMachine (nextControlPlanes p) m;
      op ← demoteControlPlane m op;
      demote_loop n (appendNextWorker (set_control_planes p cps) m) op
  end.
Definition decreaseControlPlane (p : plan) : go (plan * option updateOp) :=
  if len (nextControlPlanes p) <=? ControlPlaneCount (g_constraints g) then Ret (p, None)
  else
    '(p, op) ← demote_loop (Z.to_nat (len (nextControlPlanes p) - ControlPlaneCount (g_constraints g)))
                 p (mkUpdateOp "decrease control plane" []);
    Ret (p, Some op).

(** Adds workers while a machine can be selected. *)
Fixpoint add_workers (rounds : nat) (p : plan) (op : updateOp) : go (plan * updateOp) :=
  match rounds with
  | O => Ret (p, op)
  | S n =>
      m ← selectWorker p (nextUnused p);
      match m with
      | None => Ret (p, op)
      | Some m =>
          op ← addWorker m op;
          p ← remove_unused (appendNextWorker p m) m;
          add_workers n p op
      end
  end.
Definition increaseWorker (p : plan) : go (plan * option updateOp) :=
  let healthyWorkers := len (List.filter healthy (nextWorkers p)) in
  let healthyMachines := len (List.filter (fun '(_, m) => healthy m) (range (g_machineMap g))) in
  let availableWorkers := healthyMachines - len (nextControlPlanes p) in
  if availableWorkers <=? healthyWorkers then Ret (p, None)
  else
    '(p, op) ← add_workers (Z.to_nat (availableWorkers - healthyWorkers)) p
                 (mkUpdateOp "increase worker" []);
    Ret (p, if len (op_changes op) =? 0 then None else Some op).

Definition long_retired (m : Machine) : bool :=
  (mst_State (m_Status m) =? StateRetired)%string && fless (g_waitSeconds g) (mst_Duration (m_Status m)).
(** [float64(len(g.nextWorkers)-1)/float64(len(g.machineMap))*100] *)
Definition workers_rate_after_removal (p : plan) : float64 :=
  fmul (fdiv (of_int (len (nextWorkers p) - 1)) (of_int (Z.of_nat (size (g_machineMap g))))) (of_int 100).
Definition decreaseWorker (p : plan) : go (plan * option updateOp) :=
  match List.find long_retired (nextWorkers p) with
  | None => Ret (p, None)
  | Some retired =>
      if fless (workers_rate_after_removal p) (of_int (MinimumWorkersRate (g_constraints g)))
      then Ret (p, None)
      else
        op ← record_machine "remove retired worker: " retired (mkUpdateOp "decrease worker" []);
        p ← removeNextWorker p retired;
        Ret (p, Some op)
  end.

Definition hasValidTaint (n : Node) (m : Machine) : bool :=
  let ckeTaint := default (mkTaint "" "" "")
    (List.find (fun taint => (taint_Key taint =? state_taint)%string) (node_Taints n)) in
  let has value effect := (taint_Value ckeTaint =? value)%string && (taint_Effect ckeTaint =? effect)%string in
  let state := mst_State (m_Status m) in
  if (state =? StateUnreachable)%string then has "unreachable" TaintEffectNoSchedule
  else if (state =? StateRetiring)%string then has "retiring" TaintEffectNoExecute
  else if (state =? StateRetired)%string then has "retired" TaintEffectNoExecute
  else (taint_Key ckeTaint =? "")%string.

Fixpoint taint_changes (nodes : list Node) (op : updateOp) : go updateOp :=
  match nodes with
  | [] => Ret op
  | n :: rest =>
      match g_machineMap g !! node_Address n with
      | None => Panic ("BUG: " +:+ node_Address n +:+ " does not exist")
      | Some m =>
          taint_changes rest
            (if hasValidTaint n m then op else record ("change taint of " +:+ node_Address n) op)
      end
  end.
Definition taintNodes (currentCPs currentWorkers : list Node) : go (option updateOp) :=
  op ← taint_changes currentCPs (mkUpdateOp "taint nodes" []);
  op ← taint_changes currentWorkers op;
  Ret (if len (op_changes op) =? 0 then None else Some op).

(** [None]: no update is necessary *)
Definition Update (current : Cluster) : go (result (option (plan * Cluster))) :=
  let currentCPs := ControlPlanes (c_Nodes current) in
  let currentWorkers := Workers (c_Nodes current) in
  let filled p op := r ← fill p op; Ret match r with Ok c => Ok (Some c) | Err e => Err e end in
  match removeNonExistentNode currentCPs currentWorkers with
  | Err e => Ret (Err e)
  | Ok (p, Some op) => filled p op
  | Ok (p, None) =>
      match increaseControlPlane p with
      | Some op => filled p op
      | None =>
          '(p, op) ← decreaseControlPlane p;
          match op with
          | Some op => filled p op
          | None =>
              '(p, op) ← increaseWorker p;
              match op with
              | Some op => filled p op
              | None =>
                  '(p, op) ← decreaseWorker p;
                  match op with
                  | Some op => filled p op
                  | None =>
                      op ← taintNodes currentCPs currentWorkers;
                      match op with
                      | Some op => filled p op
                      | None => Ret (Ok None)
                      end
                  end
              end
          end
      end
  end.
End operations.
End generator.

(** ** Templates (sabakan/template.go) *)
Section template.
  Context {T : K8sTypes} {K : K8s}.

Definition ValidateTemplate (tmpl : Cluster) : option error :=
  let nodes := c_Nodes tmpl in
  let workers := List.filter (fun n => negb (node_ControlPlane n)) nodes in
  let role n := default "" (node_Labels n !! CKELabelRole) in
  let roles : gset string :=
    list_to_set (List.filter (fun r => negb (r =? "")%string) (role <$> workers)) in
  let cpCount := len (List.filter node_ControlPlane nodes) in
  let ncpCount := len workers in
  fail_if (len nodes <? 2) "template must contain at least two nodes"
  else_nil fail_if (negb (cpCount =? 1)) "template must contain only one control plane node"
  else_nil fail_if ((2 <=? ncpCount) && negb (ncpCount =? Z.of_nat (size roles)))
             "non-control plane nodes must be associated with unique roles"
  else_nil Validate tmpl true.
End template.

(** ** Repairs (sabakan/repairer.go) *)

(** [strings.ToLower], on the ASCII letters of the states *)
Definition lower_char (c : ascii) : ascii :=
  let n := nat_of_ascii c in
  if ((65 <=? n) && (n <=? 90))%nat then ascii_of_nat (n + 32) else c.
Fixpoint ToLower (s : string) : string :=
  match s with "" => "" | String c s => String (lower_char c) (ToLower s) end.

Section repairer.
  Context {T : K8sTypes} (repairEntries : list RepairQueueEntry) (rebootEntries : list RebootQueueEntry)
    (nodeStatuses : gmap string NodeStatus) (constraints : Constraints).

Definition recently_repaired (address : string) : bool :=
  existsb (fun entry => (rpe_Address entry =? address)%string) repairEntries.
Definition is_rebooting (address : string) : bool :=
  existsb (fun entry => (rqe_Status entry =? RebootStatusRebooting)%string
                        && (rqe_Node entry =? address)%string) rebootEntries.

(** The machines that are not skipped, with their first addresses. *)
Definition to_repair (machine : Machine) : option (Machine * string) :=
  match ms_IPv4 (m_Spec machine) with
  | [] => None
  | address :: _ =>
      if recently_repaired address then None
      else if (mst_State (m_Status machine) =? StateUnreachable)%string
              && fless (mst_Duration (m_Status machine)) (of_int (RepairRebootingSeconds constraints))
              && (is_rebooting address
                  || match nodeStatuses !! address with Some _ => false | None => true end)
      then None
      else Some (machine, address)
  end.

Definition Repairer (machines : list Machine) : list RepairQueueEntry :=
  let newMachines := omap to_repair machines in
  if MaximumRepairs constraints <? len repairEntries + len newMachines then []
  else (fun '(machine, address) =>
          NewRepairQueueEntry (ToLower (mst_State (m_Status machine))) (ms_BMC (m_Spec machine)) address
            (ms_Serial (m_Spec machine))) <$> newMachines.
End repairer.
