(* ===== verification/SabakanProps.v ===== *)
(** * Generated clusters keep what they have

    What an update of the configuration by the generator may change: machines
    that exist stay, control planes are added in the emptiest racks, and the
    majority of the control plane survives.  Also where the generator fails or
    panics, and the limits of the repairer. *)

From Stdlib Require Import ZArith Ascii String Lia.
From stdpp Require Import base gmap strings list sorting.
From S2P Require Import Prelude GoLib GoTime SabakanQuery K8s Cluster Queue Status Params NodeFilter Sabakan.

(** ** Machines by their first addresses *)
Section machines.
  Implicit Types (m : Machine) (l : list Machine).

Lemma first_address_Ret m a : first_address m = Ret a <-> pointer m = Some a.
Proof.
  unfold first_address, pointer, index. cbn. destruct (ms_IPv4 (m_Spec m)); cbn; [done|].
  split; [by intros [= ->]|by intros [= ->]].
Qed.

(** Machines that are told apart by their pointers. *)
Definition distinct l : Prop := NoDup (pointer <$> l).

Lemma distinct_inj l m x : distinct l -> m ∈ l -> x ∈ l -> pointer x = pointer m -> x = m.
Proof. intros Hl Hm Hx He. by eapply (NoDup_fmap_elem_inj pointer). Qed.

Lemma removeMachine_inv l m l' :
  removeMachine l m = Ret l' -> exists x, pointer x = pointer m /\ l ≡ₚ x :: l'.
Proof.
  revert l'. induction l as [|y l IH]; intros l'; cbn; [done|]. case_decide as He.
  - intros [= <-]. by exists y.
  - destruct (removeMachine l m) as [rest|w]; [|done]. intros [= <-].
    destruct (IH rest eq_refl) as (x & Hx & Hp). exists x. split; [done|].
    rewrite Hp. apply Permutation_swap.
Qed.

Lemma removeMachine_Ret l m : m ∈ l -> exists l', removeMachine l m = Ret l'.
Proof.
  induction l as [|y l IH]; intros Hm; [by apply elem_of_nil in Hm|]. cbn. case_decide as He; [eauto|].
  apply elem_of_cons in Hm as [->|Hm]; [done|]. destruct (IH Hm) as [l' ->]. by eexists.
Qed.

Lemma removeMachine_perm l m l' :
  distinct l -> m ∈ l -> removeMachine l m = Ret l' -> l ≡ₚ m :: l'.
Proof.
  intros Hd Hm (x & Hx & Hp)%removeMachine_inv. assert (x = m) as ->; [|done].
  eapply distinct_inj; [done|done| |done]. rewrite Hp. by left.
Qed.

Lemma filterHealthy_elem l role m :
  m ∈ filterHealthyMachinesByRole l role
  <-> m ∈ l /\ healthy m = true /\ (role = "" \/ ms_Role (m_Spec m) = role).
Proof.
  unfold filterHealthyMachinesByRole. rewrite elem_of_filterb, andb_true_iff, orb_true_iff, !String.eqb_eq.
  done.
Qed.
End machines.

(** ** Selecting machines *)
Section selection.
  Context {T : K8sTypes} {K : K8s} `{Runtime} (g : Generator).
  Implicit Types (p : plan) (m : Machine) (ms : list Machine).

(** Machines that may become control plane nodes. *)
Definition eligible ms m : Prop :=
  m ∈ ms /\ healthy m = true
  /\ (nt_Role (g_cpTmpl g) = "" \/ ms_Role (m_Spec m) = nt_Role (g_cpTmpl g))
  /\ isTaintedInCluster g m = Ret false.
Definition spare m : Prop := exists l, spare_of g m = Ret l /\ l <> [].
(** The control planes in the rack of a machine. *)
Definition rack_count p m : Z := count_of (countMachinesByRack p true "") (ms_Rack (m_Spec m)).

Lemma filterTainted_elem ms r m :
  filterTaintedMachines g ms = Ret r -> m ∈ r <-> m ∈ ms /\ isTaintedInCluster g m = Ret false.
Proof.
  intros Hf. rewrite (go_filter_inv _ _ _ Hf m).
  destruct (isTaintedInCluster g m) as [[]|w]; cbn; naive_solver.
Qed.

Lemma go_map_elem {A B} (f : A -> go B) l r y :
  go_map f l = Ret r -> y ∈ r <-> exists x, x ∈ l /\ f x = Ret y.
Proof.
  revert r. induction l as [|x l IH]; intros r; cbn.
  { intros [= <-]. split; [by intros ?%elem_of_nil|by intros (x & ?%elem_of_nil & _)]. }
  destruct (f x) as [b|w] eqn:Hx; [|done]. cbn. destruct (go_map f l) as [ys|w]; [|done]. intros [= <-].
  rewrite elem_of_cons, (IH ys eq_refl). split.
  - intros [->|(x' & ? & ?)]; [exists x|exists x']; (split; [|done]); [by left|by right].
  - intros (x' & [->|Hin]%elem_of_cons & He); [left; congruence|right; eauto].
Qed.

Lemma spare_of_elem m l x : spare_of g m = Ret l -> x ∈ l -> x = m.
Proof.
  unfold spare_of. destruct (first_address m) as [a|]; [|done]. intros [= <-].
  destruct (g_k8sNodeMap g !! a) as [n|]; [|by intros ?%elem_of_nil].
  by intros (t & -> & _)%list_elem_of_fmap_1.
Qed.
Lemma filterSpare_elem ms r m : filterSpareNodes g ms = Ret r -> m ∈ r <-> m ∈ ms /\ spare m.
Proof.
  unfold filterSpareNodes. intros (l & Hl & [= <-])%bind_Ret_inv.
  rewrite list_elem_of_In, in_concat. setoid_rewrite <- list_elem_of_In.
  setoid_rewrite (go_map_elem _ _ _ _ Hl). split.
  - intros (l' & (x & Hx & Hs) & Hm). pose proof (spare_of_elem _ _ _ Hs Hm) as ->.
    split; [done|]. exists l'. split; [done|]. intros ->. by apply elem_of_nil in Hm.
  - intros (Hm & l' & Hs & Hne). destruct l' as [|y l']; [done|]. exists (y :: l').
    split; [eauto|]. pose proof (spare_of_elem _ _ y Hs ltac:(by left)) as ->. by left.
Qed.

Lemma head_sorted {A} (less : A -> A -> bool) l x :
  strict_weak_order less -> head (sort_slice less l) = Some x ->
  x ∈ l /\ forall y, y ∈ l -> less y x = false.
Proof.
  intros Hswo Hh. pose proof (sort_slice_perm A less l) as Hp.
  pose proof (sort_slice_sorted A less l Hswo) as Hs.
  destruct (sort_slice less l) as [|z r]; [done|]. injection Hh as ->. split.
  - rewrite <- Hp. by left.
  - intros y. rewrite <- Hp. inversion_clear Hs as [|? ? _ HF]. rewrite Forall_forall in HF.
    intros [->|Hy]%elem_of_cons; [apply (swo_irrefl _ Hswo)|by apply HF].
Qed.

Lemma score_swo {A} (score : A -> Z) : strict_weak_order (fun a b => score a <? score b).
Proof. split; intros; bool_hyps; try apply Z.ltb_lt; try apply Z.ltb_ge; lia. Qed.
Lemma score_swo_rev {A} (score : A -> Z) : strict_weak_order (fun a b => score b <? score a).
Proof. split; intros; bool_hyps; try apply Z.ltb_lt; try apply Z.ltb_ge; lia. Qed.

Lemma scoreByDays_bounds days : -3 <= scoreByDays days <= 3.
Proof. unfold scoreByDays. repeat case_match; lia. Qed.

Lemma score_rack p m m' :
  (scoreMachine m (countMachinesByRack p true "") (g_timestamp g)
   <? scoreMachine m' (countMachinesByRack p true "") (g_timestamp g)) = false ->
  rack_count p m <= rack_count p m'.
Proof.
  rewrite Z.ltb_ge. unfold scoreMachine, rack_count.
  set (d := to_int _). set (d' := to_int _).
  pose proof (scoreByDays_bounds d). pose proof (scoreByDays_bounds d'). lia.
Qed.

Lemma selectControlPlane_Some p ms m :
  selectControlPlane g p ms = Ret (Some m) ->
  eligible ms m /\ forall m', eligible ms m' -> (spare m' -> spare m)
    /\ ((spare m -> spare m') -> rack_count p m <= rack_count p m').
Proof.
  unfold selectControlPlane. intros (cands & Hc & (sp & Hsp & Hh)%bind_Ret_inv)%bind_Ret_inv.
  injection Hh as Hh. apply head_sorted in Hh as [Hm Hmax]; [|apply score_swo_rev].
  assert (forall x, x ∈ cands <-> eligible ms x) as Hel.
  { intros x. rewrite (filterTainted_elem _ _ x Hc), filterHealthy_elem. unfold eligible.
    split; [intros ((? & ? & ?) & ?)|intros (? & ? & ? & ?)]; done. }
  assert (forall x, x ∈ sp <-> eligible ms x /\ spare x) as Hse.
  { intros x. by rewrite (filterSpare_elem _ _ x Hsp), Hel. }
  destruct (0 <? len sp) eqn:Hl; cbn in Hm, Hmax.
  - rewrite Hse in Hm. split; [apply Hm|]. intros m' Hm'. split; [intros _; apply Hm|].
    intros Hs. apply score_rack, Hmax. rewrite Hse. split; [done|]. apply Hs, Hm.
  - rewrite Hel in Hm. split; [done|]. intros m' Hm'. split.
    + intros Hs. assert (m' ∈ sp) as Hin by (by rewrite Hse).
      destruct sp; [by apply elem_of_nil in Hin|done].
    + intros _. by apply score_rack, Hmax, Hel.
Qed.

Lemma selectWorker_Some p ms m :
  selectWorker g p ms = Ret (Some m) ->
  m ∈ ms /\ healthy m = true
  /\ exists tmpl, tmpl ∈ g_workerTmpls g /\ (nt_Role tmpl = "" \/ ms_Role (m_Spec m) = nt_Role tmpl).
Proof.
  unfold selectWorker. intros (tmpl & Ht & Hm)%bind_Ret_inv. injection Hm as Hm.
  assert (m ∈ filterHealthyMachinesByRole ms (nt_Role tmpl)) as (Hin & Hh & Hr)%filterHealthy_elem.
  { destruct (filterHealthyMachinesByRole ms (nt_Role tmpl)); [done|]. injection Hm as ->. by left. }
  split; [done|]. split; [done|]. exists tmpl. split; [|done].
  unfold chooseWorkerTmpl, index in Ht. case_match; [done|].
  destruct (g_workerTmpls g !! _) eqn:Hl; [|done]. injection Ht as ->.
  by eapply list_elem_of_lookup_2.
Qed.
End selection.

(** ** Changes of a plan *)
Section changes.
  Implicit Types (p : plan) (m : Machine).

(** Machines that became control planes, from unused ones and from workers;
    control planes that became workers; unused machines that became workers; and
    workers that were removed. *)
Record change := mkChange {
  new_control_planes : list Machine;
  promoted : list Machine;
  demoted : list Machine;
  new_workers : list Machine;
  removed : list Machine
}.
Definition no_change : change := mkChange [] [] [] [] [].
Definition then_change (c d : change) : change :=
  mkChange (new_control_planes c ++ new_control_planes d) (promoted c ++ promoted d)
    (demoted c ++ demoted d) (new_workers c ++ new_workers d) (removed c ++ removed d).

Record moves p (c : change) p' : Prop := {
  mv_unused : nextUnused p ≡ₚ new_control_planes c ++ new_workers c ++ nextUnused p';
  mv_cp : nextControlPlanes p ++ new_control_planes c ++ promoted c
          ≡ₚ demoted c ++ nextControlPlanes p';
  mv_workers : nextWorkers p ++ demoted c ++ new_workers c
               ≡ₚ promoted c ++ removed c ++ nextWorkers p'
}.
Definition all_machines p : list Machine := nextUnused p ++ nextControlPlanes p ++ nextWorkers p.

Lemma parts_sub p :
  nextUnused p ⊆ all_machines p /\ nextControlPlanes p ⊆ all_machines p /\ nextWorkers p ⊆ all_machines p.
Proof. unfold all_machines. set_solver. Qed.

Lemma moves_refl p : moves p no_change p.
Proof. split; cbn; by rewrite ?app_nil_r. Qed.

Lemma moves_trans p c p1 d p2 : moves p c p1 -> moves p1 d p2 -> moves p (then_change c d) p2.
Proof.
  intros [Hu Hc Hw] [Hu' Hc' Hw']. split; cbn.
  - rewrite Hu, Hu'. solve_Permutation.
  - trans ((nextControlPlanes p ++ new_control_planes c ++ promoted c) ++ new_control_planes d ++ promoted d);
      [solve_Permutation|]. rewrite Hc.
    trans (demoted c ++ (nextControlPlanes p1 ++ new_control_planes d ++ promoted d)); [solve_Permutation|].
    rewrite Hc'. solve_Permutation.
  - trans ((nextWorkers p ++ demoted c ++ new_workers c) ++ demoted d ++ new_workers d);
      [solve_Permutation|]. rewrite Hw.
    trans (promoted c ++ removed c ++ (nextWorkers p1 ++ demoted d ++ new_workers d)); [solve_Permutation|].
    rewrite Hw'. solve_Permutation.
Qed.

Lemma moves_all p c p' : moves p c p' -> all_machines p ≡ₚ removed c ++ all_machines p'.
Proof.
  intros [Hu Hc Hw]. unfold all_machines.
  apply (Permutation_app_inv_l (new_control_planes c ++ promoted c ++ demoted c ++ new_workers c)).
  trans (nextUnused p ++ (nextControlPlanes p ++ new_control_planes c ++ promoted c)
         ++ (nextWorkers p ++ demoted c ++ new_workers c)); [solve_Permutation|].
  rewrite Hu, Hc, Hw. solve_Permutation.
Qed.

Lemma distinct_perm l1 l2 : l1 ≡ₚ l2 -> distinct l1 -> distinct l2.
Proof. intros Hp. unfold distinct. by rewrite Hp. Qed.
Lemma distinct_app l1 l2 : distinct (l1 ++ l2) -> distinct l1 /\ distinct l2.
Proof. unfold distinct. rewrite fmap_app, NoDup_app. naive_solver. Qed.
Lemma distinct_parts p :
  distinct (all_machines p) ->
  distinct (nextUnused p) /\ distinct (nextControlPlanes p) /\ distinct (nextWorkers p).
Proof. intros [? [? ?]%distinct_app]%distinct_app. done. Qed.
Lemma moves_distinct p c p' : moves p c p' -> distinct (all_machines p) -> distinct (all_machines p').
Proof. intros Hm Hd. by eapply distinct_app, distinct_perm; [apply moves_all|]. Qed.

(** The steps of the generator. *)
Lemma new_control_plane_moves p m p' :
  distinct (all_machines p) -> m ∈ nextUnused p ->
  remove_unused (append_control_plane p m) m = Ret p' -> moves p (mkChange [m] [] [] [] []) p'.
Proof.
  intros (Hd & _)%distinct_parts Hm. unfold remove_unused. intros (l & Hl & [= <-])%bind_Ret_inv.
  split; cbn in *; rewrite ?app_nil_r; [by apply removeMachine_perm|done|done].
Qed.
Lemma new_worker_moves p m p' :
  distinct (all_machines p) -> m ∈ nextUnused p ->
  remove_unused (appendNextWorker p m) m = Ret p' -> moves p (mkChange [] [] [] [m] []) p'.
Proof.
  intros (Hd & _)%distinct_parts Hm. unfold remove_unused. intros (l & Hl & [= <-])%bind_Ret_inv.
  split; cbn in *; rewrite ?app_nil_r; [by apply removeMachine_perm|done|done].
Qed.
Lemma promotion_moves p m p' :
  distinct (all_machines p) -> m ∈ nextWorkers p ->
  removeNextWorker (append_control_plane p m) m = Ret p' -> moves p (mkChange [] [m] [] [] []) p'.
Proof.
  intros (_ & _ & Hd)%distinct_parts Hm. unfold removeNextWorker. intros (l & Hl & [= <-])%bind_Ret_inv.
  split; cbn in *; rewrite ?app_nil_r; [done|done|by apply removeMachine_perm].
Qed.
Lemma removal_moves p m p' :
  distinct (all_machines p) -> m ∈ nextWorkers p ->
  removeNextWorker p m = Ret p' -> moves p (mkChange [] [] [] [] [m]) p'.
Proof.
  intros (_ & _ & Hd)%distinct_parts Hm. unfold removeNextWorker. intros (l & Hl & [= <-])%bind_Ret_inv.
  split; cbn in *; rewrite ?app_nil_r; [done|done|by apply removeMachine_perm].
Qed.
End changes.

(** ** The loops of the generator *)
Section loops.
  Context {T : K8sTypes} {K : K8s} `{Runtime} (g : Generator).
  Implicit Types (p : plan) (m : Machine) (op : updateOp).

Definition suitable_control_plane m : Prop :=
  healthy m = true /\ (nt_Role (g_cpTmpl g) = "" \/ ms_Role (m_Spec m) = nt_Role (g_cpTmpl g))
  /\ isTaintedInCluster g m = Ret false.
Definition suitable_worker m : Prop :=
  healthy m = true
  /\ exists tmpl, tmpl ∈ g_workerTmpls g /\ (nt_Role tmpl = "" \/ ms_Role (m_Spec m) = nt_Role tmpl).

Lemma fill_control_planes_moves n p op p' op' :
  distinct (all_machines p) -> fill_control_planes g n p op = Ret (Ok (p', op')) ->
  exists cps pro, moves p (mkChange cps pro [] [] []) p' /\ (length cps + length pro = n)%nat
    /\ Forall suitable_control_plane (cps ++ pro).
Proof.
  revert p op. induction n as [|n IH]; intros p op Hd; cbn [fill_control_planes].
  { intros [= <- <-]. exists [], []. split; [apply moves_refl|]. by split; [|constructor]. }
  intros (r & Hsel & Hk)%bind_Ret_inv. destruct r as [m|].
  - apply bind_Ret_inv in Hk as (op1 & _ & (p1 & Hp1 & Hk)%bind_Ret_inv).
    apply selectControlPlane_Some in Hsel as [[Hm Hsuit] _].
    pose proof (new_control_plane_moves _ _ _ Hd Hm Hp1) as Hmv.
    destruct (IH p1 op1 (moves_distinct _ _ _ Hmv Hd) Hk) as (cps & pro & Hmv' & Hl & HF).
    exists (m :: cps), pro. split; [exact (moves_trans _ _ _ _ _ Hmv Hmv')|].
    split; [cbn; lia|by constructor].
  - apply bind_Ret_inv in Hk as ([m|] & Hpro & Hk); [|done].
    apply bind_Ret_inv in Hk as (op1 & _ & (p1 & Hp1 & Hk)%bind_Ret_inv).
    apply selectControlPlane_Some in Hpro as [[Hm Hsuit] _].
    pose proof (promotion_moves _ _ _ Hd Hm Hp1) as Hmv.
    destruct (IH p1 op1 (moves_distinct _ _ _ Hmv Hd) Hk) as (cps & pro & Hmv' & Hl & HF).
    exists cps, (m :: pro). split; [exact (moves_trans _ _ _ _ _ Hmv Hmv')|].
    split; [cbn; lia|]. apply Forall_app in HF as [? ?]. apply Forall_app. split; [done|by constructor].
Qed.

Lemma fill_workers_moves n p op p' op' :
  distinct (all_machines p) -> fill_workers g n p op = Ret (Ok (p', op')) ->
  exists l, moves p (mkChange [] [] [] l []) p' /\ length l = n /\ Forall suitable_worker l.
Proof.
  revert p op. induction n as [|n IH]; intros p op Hd; cbn [fill_workers].
  { intros [= <- <-]. exists []. split; [apply moves_refl|done]. }
  intros ([m|] & Hsel & Hk)%bind_Ret_inv; [|done].
  apply bind_Ret_inv in Hk as (op1 & _ & (p1 & Hp1 & Hk)%bind_Ret_inv).
  apply selectWorker_Some in Hsel as [Hm Hsuit].
  pose proof (new_worker_moves _ _ _ Hd Hm Hp1) as Hmv.
  destruct (IH p1 op1 (moves_distinct _ _ _ Hmv Hd) Hk) as (l & Hmv' & Hl & HF).
  exists (m :: l). split; [exact (moves_trans _ _ _ _ _ Hmv Hmv')|].
  split; [cbn; lia|by constructor].
Qed.

Lemma add_workers_moves n p op p' op' :
  distinct (all_machines p) -> add_workers g n p op = Ret (p', op') ->
  exists l, moves p (mkChange [] [] [] l []) p' /\ Forall suitable_worker l
    /\ len (op_changes op') = len (op_changes op) + len l.
Proof.
  revert p op. induction n as [|n IH]; intros p op Hd; cbn [add_workers].
  { intros [= <- <-]. exists []. split; [apply moves_refl|]. split; [done|]. unfold len. cbn. lia. }
  intros ([m|] & Hsel & Hk)%bind_Ret_inv.
  2:{ injection Hk as <- <-. exists []. split; [apply moves_refl|]. split; [done|]. unfold len. cbn. lia. }
  apply bind_Ret_inv in Hk as (op1 & Hop & (p1 & Hp1 & Hk)%bind_Ret_inv).
  apply selectWorker_Some in Hsel as [Hm Hsuit].
  pose proof (new_worker_moves _ _ _ Hd Hm Hp1) as Hmv.
  destruct (IH p1 op1 (moves_distinct _ _ _ Hmv Hd) Hk) as (l & Hmv' & HF & Hl).
  exists (m :: l). split; [exact (moves_trans _ _ _ _ _ Hmv Hmv')|]. split; [by constructor|].
  unfold addWorker, record_machine in Hop. apply bind_Ret_inv in Hop as (a & _ & [= <-]).
  rewrite Hl. unfold len. cbn. rewrite length_app. cbn. lia.
Qed.

Lemma deselect_moves p p1 m cps :
  distinct (all_machines p) -> deselectControlPlane g p = Ret (p1, m) ->
  removeMachine (nextControlPlanes p1) m = Ret cps ->
  m ∈ nextControlPlanes p
  /\ moves p (mkChange [] [] [m] [] []) (appendNextWorker (set_control_planes p1 cps) m).
Proof.
  intros Hd. unfold deselectControlPlane. intros (m' & Hm & [= <- <-])%bind_Ret_inv. cbn.
  set (sorted := sort_slice _ _) in *. pose proof (sort_slice_perm _ _ _ : sorted ≡ₚ _) as Hp.
  assert (m' ∈ sorted) as Hin.
  { unfold index in Hm. case_match; [done|]. destruct (sorted !! _) eqn:Hl; [|done].
    injection Hm as ->. by eapply list_elem_of_lookup_2. }
  intros Hrm. split; [by rewrite <- Hp|].
  assert (sorted ≡ₚ m' :: cps) as Hs.
  { apply removeMachine_perm; [|done|done]. eapply distinct_perm; [symmetry; exact Hp|].
    by apply distinct_parts. }
  split; cbn; rewrite ?app_nil_r; [done|by rewrite <- Hp|done].
Qed.

Lemma demote_loop_moves n p op p' op' :
  distinct (all_machines p) -> demote_loop g n p op = Ret (p', op') ->
  exists l, moves p (mkChange [] [] l [] []) p' /\ length l = n.
Proof.
  revert p op. induction n as [|n IH]; intros p op Hd; cbn [demote_loop].
  { intros [= <- <-]. exists []. split; [apply moves_refl|done]. }
  intros ([p1 m] & Hsel & (cps & Hc & (op1 & _ & Hk)%bind_Ret_inv)%bind_Ret_inv)%bind_Ret_inv.
  destruct (deselect_moves _ _ _ _ Hd Hsel Hc) as [Hm Hmv].
  destruct (IH _ op1 (moves_distinct _ _ _ Hmv Hd) Hk) as (l & Hmv' & Hl).
  exists (m :: l). split; [exact (moves_trans _ _ _ _ _ Hmv Hmv')|cbn; lia].
Qed.
End loops.

(** ** From plans to clusters *)
Section clusters.
  Context {T : K8sTypes} {K : K8s} `{Runtime} (g : Generator).
  Implicit Types (p : plan) (m : Machine) (op : updateOp) (n : Node) (c : Cluster).

(** What [NewGenerator] establishes. *)
Record generator_ok : Prop := {
  gk_machines : forall a m, g_machineMap g !! a = Some m -> pointer m = Some a;
  gk_control_plane : forall n, nt_Node (g_cpTmpl g) = Some n -> node_ControlPlane n = true;
  gk_workers : forall t, t ∈ g_workerTmpls g -> exists n, nt_Node t = Some n /\ node_ControlPlane n = false
}.
Hypothesis Hok : generator_ok.

Lemma go_map_inv {A B} (f : A -> go B) l r :
  go_map f l = Ret r -> Forall2 (fun x y => f x = Ret y) l r.
Proof.
  revert r. induction l as [|x l IH]; intros r; cbn; [intros [= <-]; constructor|].
  destruct (f x) eqn:Hx; [|done]. cbn. destruct (go_map f l); [|done]. intros [= <-].
  constructor; [done|by apply IH].
Qed.

(** Nodes that stand for machines. *)
Definition stand_for (ms : list Machine) (nodes : list Node) : Prop :=
  pointer <$> ms = (fun n => Some (node_Address n)) <$> nodes.

Lemma MachineToNode_inv m tmpl n :
  MachineToNode m tmpl = Ret n ->
  pointer m = Some (node_Address n) /\ node_ControlPlane n = node_ControlPlane tmpl.
Proof.
  unfold MachineToNode. intros (a & Ha & [= <-])%bind_Ret_inv. by apply first_address_Ret in Ha.
Qed.

Lemma stand_for_map (ms : list Machine) (f : Machine -> go Node) r (cp : bool) :
  (forall m n, f m = Ret n -> pointer m = Some (node_Address n) /\ node_ControlPlane n = cp) ->
  go_map f ms = Ret r -> stand_for ms r /\ Forall (fun n => node_ControlPlane n = cp) r.
Proof.
  intros Hf Hr%go_map_inv. unfold stand_for.
  induction Hr as [|m n ms ns Hmn _ [IH1 IH2]]; [done|]. destruct (Hf _ _ Hmn) as [Hp Hcp].
  rewrite !fmap_cons, Hp. split; [by f_equal|by constructor].
Qed.

Lemma getWorkerTmpl_elem role t : getWorkerTmpl g role = Ret t -> t ∈ g_workerTmpls g.
Proof.
  unfold getWorkerTmpl. intros Hg. destruct (g_workerTmpls g) as [|t1 [|t2 l]]; [done| |].
  - injection Hg as ->. by left.
  - destruct (List.find _ _) eqn:Hf; [|done]. injection Hg as ->.
    apply find_some in Hf as [Hin _]. by apply list_elem_of_In.
Qed.

Lemma filterb_all {A} (q : A -> bool) l : Forall (fun x => q x = true) l -> List.filter q l = l.
Proof. induction 1 as [|x l Hx _ IH]; cbn; [done|]. by rewrite Hx, IH. Qed.
Lemma filterb_none {A} (q : A -> bool) l : Forall (fun x => q x = false) l -> List.filter q l = [].
Proof. induction 1 as [|x l Hx _ IH]; cbn; [done|]. by rewrite Hx. Qed.

Lemma nodes_of_plan_inv p nodes :
  nodes_of_plan g p = Ret nodes ->
  stand_for (nextControlPlanes p) (ControlPlanes nodes) /\ stand_for (nextWorkers p) (Workers nodes).
Proof.
  unfold nodes_of_plan. intros (cps & Hc & (ws & Hw & [= <-])%bind_Ret_inv)%bind_Ret_inv.
  apply (stand_for_map _ _ _ true) in Hc as [Hc HFc].
  2:{ intros m n (t & Ht & Hm)%bind_Ret_inv. destruct (nt_Node (g_cpTmpl g)) as [t'|] eqn:He; [|done].
      injection Ht as ->. apply MachineToNode_inv in Hm as [? ->]. split; [done|].
      by apply (gk_control_plane Hok). }
  apply (stand_for_map _ _ _ false) in Hw as [Hw HFw].
  2:{ intros m n (t & Ht & (t' & Ht' & Hm)%bind_Ret_inv)%bind_Ret_inv.
      apply getWorkerTmpl_elem in Ht. destruct (gk_workers Hok _ Ht) as (n' & Hn & Hcp).
      rewrite Hn in Ht'. injection Ht' as <-. apply MachineToNode_inv in Hm as [? ->]. done. }
  unfold ControlPlanes, Workers, filterNodes. rewrite !List.filter_app.
  rewrite (filterb_all _ cps) by done. rewrite (filterb_none _ ws) by done.
  rewrite (filterb_none _ cps) by (eapply Forall_impl; [exact HFc|]; by intros x ->).
  rewrite (filterb_all _ ws) by (eapply Forall_impl; [exact HFw|]; by intros x ->).
  by rewrite app_nil_r.
Qed.

(** What [fill] may change. *)
Record fills p (c : change) p' : Prop := {
  fi_moves : moves p c p';
  fi_demoted : demoted c = [];
  fi_removed : removed c = [];
  fi_control_planes : Forall (suitable_control_plane g) (new_control_planes c ++ promoted c);
  fi_workers : Forall (suitable_worker g) (new_workers c);
  fi_count : len (nextControlPlanes p') = Z.max (len (nextControlPlanes p)) (ControlPlaneCount (g_constraints g))
}.

Lemma fill_outcome p op p' c :
  distinct (all_machines p) -> fill g p op = Ret (Ok (p', c)) ->
  (exists ch, fills p ch p') /\ Validate c false = None
  /\ stand_for (nextControlPlanes p') (ControlPlanes (c_Nodes c))
  /\ stand_for (nextWorkers p') (Workers (c_Nodes c)).
Proof.
  intros Hd. unfold fill. intros (r1 & H1 & Hk)%bind_Ret_inv. destruct r1 as [[p1 op1]|]; [|done].
  apply bind_Ret_inv in Hk as (r2 & H2 & Hk). destruct r2 as [[p2 op2]|]; [|done].
  apply bind_Ret_inv in Hk as (nodes & Hn & Hk).
  destruct (Validate _ false) eqn:Hv; [done|]. injection Hk as <- <-.
  destruct (fill_control_planes_moves _ _ _ _ _ _ Hd H1) as (cps & pro & Hmv1 & Hl1 & HF1).
  destruct (fill_workers_moves _ _ _ _ _ _ (moves_distinct _ _ _ Hmv1 Hd) H2) as (ws & Hmv2 & _ & HF2).
  split; [|split; [done|by apply nodes_of_plan_inv]].
  exists (then_change (mkChange cps pro [] [] []) (mkChange [] [] [] ws [])).
  pose proof (Permutation_length (mv_cp _ _ _ Hmv1)) as L1.
  pose proof (Permutation_length (mv_cp _ _ _ Hmv2)) as L2. cbn in L1, L2.
  rewrite ?length_app in L1, L2. cbn in L1, L2. rewrite ?length_app in L1.
  split; [by eapply moves_trans|done|done|cbn; by rewrite !app_nil_r|done|].
  unfold len in *. lia.
Qed.

(** The plan an update starts with. *)
Lemma foldl_append_workers l p :
  let p' := foldl appendNextWorker p l in
  nextUnused p' = nextUnused p /\ nextControlPlanes p' = nextControlPlanes p
  /\ nextWorkers p' = nextWorkers p ++ l.
Proof.
  revert p. induction l as [|m l IH]; intros p; cbn; [by rewrite app_nil_r|].
  destruct (IH (appendNextWorker p m)) as (-> & -> & ->). cbn. by rewrite <- app_assoc.
Qed.

(** Nodes whose machines exist. *)
Definition existing (nodes : list Node) : list Node :=
  List.filter (fun n => match g_machineMap g !! node_Address n with Some _ => true | None => false end) nodes.

Lemma nodesToMachines_stand_for nodes : stand_for (fst (nodesToMachines g nodes)) (existing nodes).
Proof.
  unfold stand_for, existing. cbn. induction nodes as [|n nodes IH]; cbn; [done|].
  destruct (g_machineMap g !! node_Address n) as [m|] eqn:Hm; [|done].
  rewrite !fmap_cons, IH. f_equal. by apply (gk_machines Hok).
Qed.
Lemma nonexistent_nil nodes : snd (nodesToMachines g nodes) = [] -> existing nodes = nodes.
Proof.
  cbn. rewrite filterb_nil. intros Hn. apply filterb_all, Forall_forall. intros n Hin.
  specialize (Hn n Hin). by destruct (g_machineMap g !! node_Address n).
Qed.

Lemma unused_elem nodes m :
  m ∈ getUnusedMachines g nodes ->
  healthy m = true /\ exists a, g_machineMap g !! a = Some m /\ a ∉ node_Address <$> nodes.
Proof.
  unfold getUnusedMachines. intros ([a m'] & -> & Hin)%list_elem_of_fmap_1.
  apply elem_of_filterb in Hin as [Hin%elem_of_range Hb]. bool_hyps. split; [done|].
  exists a. split; [done|]. intros Ha. unfold Contains in *.
  match goal with H : existsb _ _ = false |- _ => rewrite existsb_false_elem_of in H; specialize (H a Ha) end.
  by rewrite String.eqb_refl in *.
Qed.
Lemma unused_distinct nodes : distinct (getUnusedMachines g nodes).
Proof.
  unfold distinct, getUnusedMachines.
  assert (forall l : list (string * Machine), (forall a m, (a, m) ∈ l -> pointer m = Some a) ->
            NoDup l.*1 -> NoDup (pointer <$> l.*2)) as Hgen.
  { intros l Hp Hnd. replace (pointer <$> l.*2) with (Some <$> l.*1); [by apply NoDup_fmap_2; [intros ? ? [=]|]|].
    rewrite <- !list_fmap_compose. apply list_fmap_ext. intros i [a m] Hi. cbn. symmetry.
    apply Hp. by eapply list_elem_of_lookup_2. }
  apply Hgen.
  - intros a m [Hin%elem_of_range _]%elem_of_filterb. by apply (gk_machines Hok).
  - eapply sublist_NoDup; [|apply fmap_sublist, filterb_sublist].
    rewrite range_perm. apply NoDup_fst_map_to_list.
Qed.

Lemma foldl_record_length {A} (msg : A -> string) l op :
  len (op_changes (foldl (fun op x => record (msg x) op) op l)) = len (op_changes op) + len l.
Proof.
  revert op. induction l as [|x l IH]; intros op; cbn; [unfold len; cbn; lia|].
  rewrite IH. unfold len. cbn. rewrite length_app. cbn. lia.
Qed.

Lemma stand_for_distinct p cps ws :
  stand_for (nextControlPlanes p) (existing cps) -> stand_for (nextWorkers p) (existing ws) ->
  nextUnused p = getUnusedMachines g (cps ++ ws) -> NoDup (node_Address <$> cps ++ ws) ->
  distinct (all_machines p).
Proof.
  unfold stand_for, distinct, all_machines. intros Hc Hw Hu Hnd. rewrite !fmap_app, Hc, Hw, Hu.
  rewrite <- fmap_app. apply NoDup_app. split; [apply unused_distinct|]. split.
  - intros x (m & -> & Hm)%list_elem_of_fmap_1 (n & Hx & Hn)%list_elem_of_fmap_1.
    apply unused_elem in Hm as (_ & a & Ha & Hna). rewrite (gk_machines Hok _ _ Ha) in Hx.
    injection Hx as ->. apply Hna, list_elem_of_fmap_2. unfold existing in Hn.
    rewrite <- List.filter_app, elem_of_filterb in Hn. apply Hn.
  - rewrite (list_fmap_compose node_Address Some). apply NoDup_fmap_2; [intros ? ? [=]; done|].
    eapply sublist_NoDup; [exact Hnd|]. apply fmap_sublist. unfold existing. rewrite <- List.filter_app.
    apply filterb_sublist.
Qed.

(** The plan from which an update of [current] starts. *)
Record starts (cps ws : list Node) p : Prop := {
  sp_control_planes : stand_for (nextControlPlanes p) (existing cps);
  sp_workers : stand_for (nextWorkers p) (existing ws);
  sp_unused : nextUnused p = getUnusedMachines g (cps ++ ws);
  sp_distinct : distinct (all_machines p);
  sp_majority : len cps < 2 * len (existing cps);
  sp_known : forall m, m ∈ all_machines p -> exists a, g_machineMap g !! a = Some m
}.

Lemma nodesToMachines_known nodes m :
  m ∈ fst (nodesToMachines g nodes) -> exists a, g_machineMap g !! a = Some m.
Proof. cbn. rewrite list_elem_of_omap. intros (n & _ & Hm). eauto. Qed.

Lemma removeNonExistentNode_Ok cps ws p (op : option updateOp) :
  NoDup (node_Address <$> cps ++ ws) -> removeNonExistentNode g cps ws = Ok (p, op) ->
  starts cps ws p /\ (op = None -> existing cps = cps /\ existing ws = ws).
Proof.
  intros Hnd. unfold removeNonExistentNode.
  pose proof (nodesToMachines_stand_for cps) as Hc. pose proof (nodesToMachines_stand_for ws) as Hw.
  pose proof (nonexistent_nil cps) as Nc. pose proof (nonexistent_nil ws) as Nw.
  pose proof (nodesToMachines_known cps) as Kc. pose proof (nodesToMachines_known ws) as Kw.
  destruct (nodesToMachines g cps) as [mc nc]. destruct (nodesToMachines g ws) as [mw nw]. cbn in *.
  destruct (len mc * 2 <=? len cps) eqn:Hmaj; [done|]. intros [= <- Hop].
  destruct (foldl_append_workers mw (set_control_planes clearIntermediateData mc)) as (_ & Hcp & Hws).
  split.
  - assert (len mc = len (existing cps)) as Hl.
    { unfold len. rewrite <- (length_fmap pointer mc), Hc. by rewrite length_fmap. }
    split; [cbn; by rewrite Hcp|cbn; by rewrite Hws|done| |bool_hyps; lia|].
    + apply (stand_for_distinct _ cps ws); [cbn; by rewrite Hcp|cbn; by rewrite Hws|done|done].
    + intros m. unfold all_machines. cbn. rewrite Hcp, Hws, !elem_of_app. cbn.
      intros [(_ & a & Ha & _)%unused_elem|[?|[?%elem_of_nil|?]]]; [eauto|by apply Kc|done|by apply Kw].
  - intros ->. destruct (len (op_changes _) =? 0) eqn:Hz; [|done]. bool_hyps.
    rewrite (foldl_record_length (fun n => "remove non-existent worker: " +:+ node_Address n)),
      (foldl_record_length (fun n => "remove non-existent control plane: " +:+ node_Address n)) in Hz.
    unfold len in Hz. cbn in Hz. split; [apply Nc|apply Nw].
    + destruct nc; [done|cbn in Hz; lia].
    + destruct nw; [done|cbn in Hz; lia].
Qed.

Lemma increaseWorker_moves p p' o :
  distinct (all_machines p) -> increaseWorker g p = Ret (p', o) ->
  exists l, moves p (mkChange [] [] [] l []) p' /\ Forall (suitable_worker g) l.
Proof.
  intros Hd. unfold increaseWorker. destruct (_ <=? _).
  { intros [= <- <-]. exists []. split; [apply moves_refl|done]. }
  intros ([p1 op1] & Ha & [= <- _])%bind_Ret_inv.
  destruct (add_workers_moves _ _ _ _ _ _ Hd Ha) as (l & Hm & HF & _). eauto.
Qed.

Lemma decreaseWorker_moves p p' o :
  distinct (all_machines p) -> decreaseWorker g p = Ret (p', o) ->
  exists l, moves p (mkChange [] [] [] [] l) p' /\ Forall (fun m => long_retired g m = true) l /\ len l <= 1.
Proof.
  intros Hd. unfold decreaseWorker. destruct (List.find _ _) as [m|] eqn:Hf.
  2:{ intros [= <- <-]. exists []. split; [apply moves_refl|done]. }
  apply find_some in Hf as [Hin%list_elem_of_In Hr]. destruct (fless _ _).
  { intros [= <- <-]. exists []. split; [apply moves_refl|done]. }
  intros (op & _ & (p1 & Hp1 & [= <- _])%bind_Ret_inv)%bind_Ret_inv.
  exists [m]. split; [by apply removal_moves|]. split; [by repeat constructor|done].
Qed.

Lemma decreaseControlPlane_moves p p' o :
  distinct (all_machines p) -> decreaseControlPlane g p = Ret (p', o) ->
  exists l, moves p (mkChange [] [] l [] []) p'
    /\ len (nextControlPlanes p') = Z.min (len (nextControlPlanes p)) (ControlPlaneCount (g_constraints g)).
Proof.
  intros Hd. unfold decreaseControlPlane. destruct (_ <=? _) eqn:Hle; bool_hyps.
  { intros [= <- <-]. exists []. split; [apply moves_refl|lia]. }
  intros ([p1 op1] & Ha & [= <- _])%bind_Ret_inv.
  destruct (demote_loop_moves _ _ _ _ _ _ Hd Ha) as (l & Hm & Hl). exists l. split; [done|].
  pose proof (Permutation_length (mv_cp _ _ _ Hm)) as L. cbn in L. rewrite ?length_app in L. cbn in L.
  unfold len in *. lia.
Qed.

(** What an update did. *)
Record updated (cps ws : list Node) p (ch : change) p' c : Prop := {
  up_start : starts cps ws p;
  up_moves : moves p ch p';
  up_control_planes : Forall (suitable_control_plane g) (new_control_planes ch ++ promoted ch);
  up_workers : Forall (suitable_worker g) (new_workers ch);
  up_removed : Forall (fun m => long_retired g m = true) (removed ch);
  up_removed_one : len (removed ch) <= 1;
  up_demoted : demoted ch = [] \/ new_control_planes ch ++ promoted ch = [];
  up_count : len (nextControlPlanes p') = ControlPlaneCount (g_constraints g)
             \/ (demoted ch = [] /\ ControlPlaneCount (g_constraints g) < len (nextControlPlanes p'));
  up_valid : Validate c false = None;
  up_cp_nodes : stand_for (nextControlPlanes p') (ControlPlanes (c_Nodes c));
  up_worker_nodes : stand_for (nextWorkers p') (Workers (c_Nodes c))
}.

(** A plan that is filled after some changes. *)
Lemma updated_fill cps ws p ch p1 op p' c :
  starts cps ws p -> moves p ch p1 ->
  Forall (suitable_control_plane g) (new_control_planes ch ++ promoted ch) ->
  Forall (suitable_worker g) (new_workers ch) ->
  Forall (fun m => long_retired g m = true) (removed ch) -> len (removed ch) <= 1 ->
  demoted ch = [] \/ (new_control_planes ch ++ promoted ch = []
                      /\ len (nextControlPlanes p1) = ControlPlaneCount (g_constraints g)) ->
  fill g p1 op = Ret (Ok (p', c)) -> exists ch', updated cps ws p ch' p' c.
Proof.
  intros Hst Hmv Hc Hw Hr Hr1 Hdem Hf.
  pose proof (moves_distinct _ _ _ Hmv (sp_distinct _ _ _ Hst)) as Hd.
  destruct (fill_outcome _ _ _ _ Hd Hf) as ((ch' & Hfi) & Hv & Hcn & Hwn).
  exists (then_change ch ch'). destruct Hfi as [Hmv' Hd' Hr' Hc' Hw' Hn'].
  pose proof (Permutation_length (mv_cp _ _ _ Hmv')) as L. rewrite Hd' in L. cbn in L.
  rewrite ?length_app in L.
  assert (new_control_planes ch' ++ promoted ch' = [] \/ demoted ch = []) as Hno.
  { destruct Hdem as [?|[_ He]]; [by right|left]. apply length_zero_iff_nil. rewrite length_app.
    unfold len in *. lia. }
  apply Forall_app in Hc as [? ?]. apply Forall_app in Hc' as [? ?].
  split; cbn; try done.
  - by eapply moves_trans.
  - by repeat apply Forall_app_2.
  - by apply Forall_app_2.
  - rewrite Hr'. by apply Forall_app_2.
  - by rewrite Hr', app_nil_r.
  - rewrite Hd', app_nil_r. destruct Hdem as [?|[He _]]; [by left|].
    destruct Hno as [He'|?]; [right|by left].
    apply app_nil in He as [-> ->]. by apply app_nil in He' as [-> ->].
  - rewrite Hn', Hd', app_nil_r. destruct Hdem as [->|[_ ->]]; [|left; lia].
    destruct (decide (len (nextControlPlanes p1) <= ControlPlaneCount (g_constraints g)));
      [left; lia|right; split; [done|lia]].
Qed.

Lemma moves_same_cp p ch p' :
  moves p ch p' -> new_control_planes ch = [] -> promoted ch = [] -> demoted ch = [] ->
  len (nextControlPlanes p') = len (nextControlPlanes p).
Proof.
  intros Hm Hn Hp Hd. pose proof (Permutation_length (mv_cp _ _ _ Hm)) as L.
  rewrite Hn, Hp, Hd in L. cbn in L. rewrite app_nil_r in L. unfold len. lia.
Qed.

Lemma split_perm {A} (q : A -> bool) l : List.filter q l ++ List.filter (fun x => negb (q x)) l ≡ₚ l.
Proof.
  induction l as [|x l IH]; cbn; [done|]. destruct (q x); cbn; [by rewrite IH|].
  by rewrite <- Permutation_middle, IH.
Qed.
Lemma roles_perm (nodes : list Node) : ControlPlanes nodes ++ Workers nodes ≡ₚ nodes.
Proof. apply split_perm. Qed.

(** An operation that is filled at the end of [Update]. *)
Definition filled p op : go (result (option (plan * Cluster))) :=
  r ← fill g p op; Ret match r with Ok c => Ok (Some c) | Err e => Err e end.

Lemma filled_updated cps ws p ch p1 op p' c :
  starts cps ws p -> moves p ch p1 -> new_control_planes ch ++ promoted ch = [] ->
  Forall (suitable_worker g) (new_workers ch) ->
  Forall (fun m => long_retired g m = true) (removed ch) -> len (removed ch) <= 1 ->
  demoted ch = [] \/ len (nextControlPlanes p1) = ControlPlaneCount (g_constraints g) ->
  filled p1 op = Ret (Ok (Some (p', c))) -> exists p ch, updated cps ws p ch p' c.
Proof.
  intros Hst Hmv Hno Hw Hr Hr1 Hdem (r & Hf & Hk)%bind_Ret_inv.
  destruct r as [[p2 c2]|]; [|done]. injection Hk as -> ->. exists p.
  eapply updated_fill; try done; [by rewrite Hno|]. destruct Hdem; auto.
Qed.

Lemma Update_Some current p' c :
  NoDup (node_Address <$> c_Nodes current) -> Update g current = Ret (Ok (Some (p', c))) ->
  exists p ch, updated (ControlPlanes (c_Nodes current)) (Workers (c_Nodes current)) p ch p' c.
Proof.
  intros Hnd. unfold Update. set (cps := ControlPlanes _). set (ws := Workers _).
  destruct (removeNonExistentNode g cps ws) as [[p op]|] eqn:Hrm; [|done].
  apply removeNonExistentNode_Ok in Hrm as [Hst _].
  2:{ subst cps ws. by rewrite roles_perm. }
  fold filled.
  destruct op as [op|]; [apply (filled_updated _ _ p no_change p op); auto using moves_refl; done|].
  destruct (increaseControlPlane g p) as [op|] eqn:Hinc;
    [apply (filled_updated _ _ p no_change p op); auto using moves_refl; done|].
  unfold increaseControlPlane in Hinc. destruct (_ <=? _) eqn:Hle; [|done]. bool_hyps.
  intros ([p1 o1] & Hdec & Hk)%bind_Ret_inv.
  destruct (decreaseControlPlane_moves _ _ _ (sp_distinct _ _ _ Hst) Hdec) as (dem & Hm1 & Hn1).
  assert (len (nextControlPlanes p1) = ControlPlaneCount (g_constraints g)) as Hn by lia.
  destruct o1 as [op|]; [apply (filled_updated _ _ p _ p1 op _ _ Hst Hm1); cbn; auto; done|].
  apply bind_Ret_inv in Hk as ([p2 o2] & Hinw & Hk).
  destruct (increaseWorker_moves _ _ _ (moves_distinct _ _ _ Hm1 (sp_distinct _ _ _ Hst)) Hinw)
    as (ws2 & Hm2 & HF2).
  pose proof (moves_trans _ _ _ _ _ Hm1 Hm2) as Hm12.
  pose proof (moves_same_cp _ _ _ Hm2 eq_refl eq_refl eq_refl) as Hn2.
  destruct o2 as [op|].
  { apply (filled_updated _ _ p _ p2 op _ _ Hst Hm12); cbn; auto; [done|]. right. lia. }
  apply bind_Ret_inv in Hk as ([p3 o3] & Hdew & Hk).
  destruct (decreaseWorker_moves _ _ _ (moves_distinct _ _ _ Hm12 (sp_distinct _ _ _ Hst)) Hdew)
    as (rem & Hm3 & HF3 & Hr3).
  pose proof (moves_trans _ _ _ _ _ Hm12 Hm3) as Hm123.
  pose proof (moves_same_cp _ _ _ Hm3 eq_refl eq_refl eq_refl) as Hn3.
  assert (forall op, filled p3 op = Ret (Ok (Some (p', c))) -> exists p ch, updated cps ws p ch p' c) as Hlast.
  { intros op. apply (filled_updated _ _ p _ p3 op _ _ Hst Hm123); cbn; rewrite ?app_nil_r; auto.
    right. lia. }
  destruct o3 as [op|]; [by apply (Hlast op)|]. apply bind_Ret_inv in Hk as ([op|] & _ & Hk); [|done].
  by apply Hlast in Hk.
Qed.

(** *** Addresses *)
Definition addresses c : list string := node_Address <$> c_Nodes c.
Definition cp_addresses c : list string := node_Address <$> ControlPlanes (c_Nodes c).

Lemma stand_for_elem ms nodes a : stand_for ms nodes -> Some a ∈ pointer <$> ms <-> a ∈ node_Address <$> nodes.
Proof.
  unfold stand_for. intros ->. rewrite !list_elem_of_fmap. split; intros (n & Ha & Hn); exists n;
    (split; [congruence|done]).
Qed.
Lemma addresses_elem c a :
  a ∈ addresses c <-> a ∈ cp_addresses c \/ a ∈ node_Address <$> Workers (c_Nodes c).
Proof.
  unfold addresses, cp_addresses. rewrite <- elem_of_app, <- fmap_app. by rewrite roles_perm.
Qed.
Lemma existing_elem nodes a :
  a ∈ node_Address <$> existing nodes <-> a ∈ node_Address <$> nodes /\ is_Some (g_machineMap g !! a).
Proof.
  rewrite !list_elem_of_fmap. unfold existing. setoid_rewrite elem_of_filterb. split.
  - intros (n & -> & Hn & He). split; [eauto|]. by destruct (g_machineMap g !! node_Address n).
  - intros [(n & -> & Hn) [m Hm]]. exists n. by rewrite Hm.
Qed.

(** The nodes of the old configuration that still exist, in the plan. *)
Lemma starts_elem cps ws p a :
  starts cps ws p ->
  (Some a ∈ pointer <$> nextControlPlanes p <-> a ∈ node_Address <$> cps /\ is_Some (g_machineMap g !! a))
  /\ (Some a ∈ pointer <$> nextWorkers p <-> a ∈ node_Address <$> ws /\ is_Some (g_machineMap g !! a)).
Proof.
  intros Hst. rewrite (stand_for_elem _ _ _ (sp_control_planes _ _ _ Hst)), existing_elem.
  by rewrite (stand_for_elem _ _ _ (sp_workers _ _ _ Hst)), existing_elem.
Qed.
Lemma starts_unused cps ws p a :
  starts cps ws p -> Some a ∈ pointer <$> nextUnused p ->
  ~ (a ∈ node_Address <$> (cps ++ ws)) /\ exists m, g_machineMap g !! a = Some m /\ healthy m = true.
Proof.
  intros Hst. rewrite (sp_unused _ _ _ Hst). intros (m & Ha & Hm)%list_elem_of_fmap_1.
  apply unused_elem in Hm as (Hh & b & Hb & Hn). rewrite (gk_machines Hok _ _ Hb) in Ha.
  injection Ha as <-. eauto.
Qed.

Section one_update.
  Context {current c : Cluster} {p p' : plan} {ch : change}
    (Hup : updated (ControlPlanes (c_Nodes current)) (Workers (c_Nodes current)) p ch p' c).

Lemma new_address a :
  a ∈ addresses c <-> Some a ∈ pointer <$> (nextControlPlanes p' ++ nextWorkers p').
Proof.
  rewrite addresses_elem, fmap_app, elem_of_app. unfold cp_addresses.
  by rewrite <- (stand_for_elem _ _ _ (up_cp_nodes _ _ _ _ _ _ Hup)),
     <- (stand_for_elem _ _ _ (up_worker_nodes _ _ _ _ _ _ Hup)).
Qed.
Lemma old_address a :
  a ∈ addresses current -> is_Some (g_machineMap g !! a) ->
  Some a ∈ pointer <$> (nextControlPlanes p ++ nextWorkers p).
Proof.
  destruct (starts_elem _ _ _ a (up_start _ _ _ _ _ _ Hup)) as [Hc Hw].
  rewrite addresses_elem, fmap_app, elem_of_app, Hc, Hw. unfold cp_addresses. naive_solver.
Qed.

Lemma all_pointers : pointer <$> all_machines p ≡ₚ (pointer <$> removed ch) ++ (pointer <$> all_machines p').
Proof. rewrite <- fmap_app. apply fmap_Permutation, moves_all, (up_moves _ _ _ _ _ _ Hup). Qed.

Lemma not_unused a : a ∈ addresses current -> Some a ∉ pointer <$> nextUnused p.
Proof.
  intros Ha [Hn _]%(starts_unused _ _ _ _ (up_start _ _ _ _ _ _ Hup)). by rewrite roles_perm in Hn.
Qed.

Lemma kept_or_removed a :
  a ∈ addresses current -> is_Some (g_machineMap g !! a) ->
  a ∈ addresses c \/ Some a ∈ pointer <$> removed ch.
Proof.
  intros Ha He. pose proof (old_address a Ha He) as Hin.
  assert (Some a ∈ pointer <$> all_machines p) as Hall.
  { unfold all_machines. rewrite fmap_app. set_solver. }
  rewrite all_pointers in Hall. apply elem_of_app in Hall as [?|Hall]; [by right|left].
  unfold all_machines in Hall. rewrite fmap_app in Hall. apply elem_of_app in Hall as [Hu|?];
    [|by apply new_address].
  exfalso. apply (not_unused a Ha). rewrite (mv_unused _ _ _ (up_moves _ _ _ _ _ _ Hup)).
  rewrite !fmap_app. set_solver.
Qed.

Lemma added_or_old a :
  a ∈ addresses c ->
  (a ∈ addresses current /\ is_Some (g_machineMap g !! a))
  \/ exists m, g_machineMap g !! a = Some m /\ healthy m = true.
Proof.
  intros Ha%new_address. assert (Some a ∈ pointer <$> all_machines p) as Hall.
  { rewrite all_pointers. unfold all_machines. rewrite (fmap_app _ (nextUnused p')). set_solver. }
  unfold all_machines in Hall. rewrite !fmap_app, !elem_of_app in Hall.
  destruct (starts_elem _ _ _ a (up_start _ _ _ _ _ _ Hup)) as [Hc Hw].
  rewrite Hc, Hw in Hall. destruct Hall as [Hu|[[? ?]|[? ?]]].
  - right. by apply (starts_unused _ _ _ _ (up_start _ _ _ _ _ _ Hup)) in Hu as [_ ?].
  - left. split; [|done]. rewrite addresses_elem. by left.
  - left. split; [|done]. rewrite addresses_elem. by right.
Qed.

Lemma cp_address a : a ∈ cp_addresses c <-> Some a ∈ pointer <$> nextControlPlanes p'.
Proof. by rewrite (stand_for_elem _ _ _ (up_cp_nodes _ _ _ _ _ _ Hup)). Qed.
Lemma cp_pointers :
  (pointer <$> nextControlPlanes p) ++ (pointer <$> (new_control_planes ch ++ promoted ch))
  ≡ₚ (pointer <$> demoted ch) ++ (pointer <$> nextControlPlanes p').
Proof. rewrite <- !fmap_app. apply fmap_Permutation, (mv_cp _ _ _ (up_moves _ _ _ _ _ _ Hup)). Qed.
Lemma cp_count : len (cp_addresses c) = len (nextControlPlanes p').
Proof.
  unfold len, cp_addresses. rewrite length_fmap, <- (length_fmap pointer (nextControlPlanes p')).
  rewrite (up_cp_nodes _ _ _ _ _ _ Hup). by rewrite length_fmap.
Qed.

Lemma control_plane_kept a :
  demoted ch = [] -> a ∈ cp_addresses current -> is_Some (g_machineMap g !! a) -> a ∈ cp_addresses c.
Proof.
  intros Hd Ha He. rewrite cp_address. pose proof cp_pointers as Hp. rewrite Hd in Hp. cbn in Hp.
  rewrite <- Hp. apply elem_of_app. left. by apply (starts_elem _ _ _ a (up_start _ _ _ _ _ _ Hup)).
Qed.
Lemma control_plane_shrinks a :
  new_control_planes ch ++ promoted ch = [] -> a ∈ cp_addresses c -> a ∈ cp_addresses current.
Proof.
  intros Hn. rewrite cp_address. intros Ha. pose proof cp_pointers as Hp. rewrite Hn, app_nil_r in Hp.
  assert (Some a ∈ pointer <$> nextControlPlanes p) as Hin by (rewrite Hp; set_solver).
  by apply (starts_elem _ _ _ a (up_start _ _ _ _ _ _ Hup)) in Hin as [? _].
Qed.

Lemma change_known m :
  m ∈ new_control_planes ch ++ promoted ch -> exists a, g_machineMap g !! a = Some m.
Proof.
  intros Hm. apply (sp_known _ _ _ (up_start _ _ _ _ _ _ Hup)).
  pose proof (moves_all _ _ _ (up_moves _ _ _ _ _ _ Hup)) as Ha. rewrite Ha.
  destruct (up_demoted _ _ _ _ _ _ Hup) as [Hd|Hn]; [|rewrite Hn in Hm; by apply elem_of_nil in Hm].
  pose proof (mv_cp _ _ _ (up_moves _ _ _ _ _ _ Hup)) as Hc. rewrite Hd in Hc. cbn in Hc.
  unfold all_machines. rewrite <- Hc. set_solver.
Qed.
Lemma control_plane_suitable a :
  a ∈ cp_addresses c -> a ∉ cp_addresses current ->
  exists m, g_machineMap g !! a = Some m /\ suitable_control_plane g m.
Proof.
  rewrite cp_address. intros Ha Hn. pose proof cp_pointers as Hp.
  assert (Some a ∈ (pointer <$> nextControlPlanes p)
            ++ (pointer <$> (new_control_planes ch ++ promoted ch))) as Hin by (rewrite Hp; set_solver).
  apply elem_of_app in Hin as [Hin|(m & Hm & Hin)%list_elem_of_fmap_1].
  { by apply (starts_elem _ _ _ a (up_start _ _ _ _ _ _ Hup)) in Hin as [? _]. }
  exists m. split.
  - destruct (change_known m Hin) as (b & Hb). pose proof (gk_machines Hok _ _ Hb). congruence.
  - pose proof (up_control_planes _ _ _ _ _ _ Hup) as HF. rewrite Forall_forall in HF. by apply HF.
Qed.
End one_update.

(** Every node whose machine still exists stays, except for at most one whose machine
    has been retired for a while. *)
Definition keeps_nodes current c : Prop :=
  exists gone, len gone <= 1
    /\ (forall a, a ∈ gone -> exists m, g_machineMap g !! a = Some m /\ long_retired g m = true)
    /\ forall a, a ∈ addresses current -> is_Some (g_machineMap g !! a) -> a ∈ addresses c \/ a ∈ gone.

Lemma updated_keeps_nodes current p ch p' c :
  updated (ControlPlanes (c_Nodes current)) (Workers (c_Nodes current)) p ch p' c -> keeps_nodes current c.
Proof.
  intros Hup. exists (omap pointer (removed ch)). split; [|split].
  - pose proof (up_removed_one _ _ _ _ _ _ Hup) as Hl. unfold len in *.
    destruct (removed ch) as [|m [|? ?]]; cbn in *; [lia| |lia]. destruct (pointer m); cbn; lia.
  - intros a (m & Hm & Ha)%list_elem_of_omap. exists m. split.
    { destruct (sp_known _ _ _ (up_start _ _ _ _ _ _ Hup) m) as (b & Hb).
      - rewrite (moves_all _ _ _ (up_moves _ _ _ _ _ _ Hup)). set_solver.
      - pose proof (gk_machines Hok _ _ Hb). congruence. }
    pose proof (up_removed _ _ _ _ _ _ Hup) as HF. rewrite Forall_forall in HF. by apply HF.
  - intros a Ha He. destruct (kept_or_removed Hup a Ha He) as [?|Hr]; [by left|right].
    apply list_elem_of_fmap_1 in Hr as (m & Hm & Hin). rewrite list_elem_of_omap. eauto.
Qed.

(** C25: an update of a generated configuration takes no machine away.  Every node
    whose machine still exists stays, except for at most one whose machine has
    been retired for a while; the nodes that are new are healthy machines; and
    the new configuration is valid. *)
Theorem update_keeps_nodes current p c :
  NoDup (addresses current) -> Update g current = Ret (Ok (Some (p, c))) ->
  Validate c false = None
  /\ keeps_nodes current c
  /\ (forall a, a ∈ addresses c ->
        (a ∈ addresses current /\ is_Some (g_machineMap g !! a))
        \/ exists m, g_machineMap g !! a = Some m /\ healthy m = true).
Proof.
  intros Hnd Hu. destruct (Update_Some _ _ _ Hnd Hu) as (p0 & ch & Hup).
  split; [apply (up_valid _ _ _ _ _ _ Hup)|]. split; [by eapply updated_keeps_nodes|].
  by apply (added_or_old Hup).
Qed.

Lemma filterb_length_mono {A} (q r : A -> bool) l :
  (forall x, x ∈ l -> q x = true -> r x = true) -> len (List.filter q l) <= len (List.filter r l).
Proof.
  unfold len. induction l as [|x l IH]; intros Hqr; cbn; [lia|].
  specialize (IH (fun y Hy => Hqr y ltac:(by right))). specialize (Hqr x ltac:(by left)).
  destruct (q x), (r x); cbn; try lia.
Qed.

(** More than half of the control plane nodes of [current] stay control plane nodes
    in [c], or the control plane is only reduced, to the size asked for. *)
Definition keeps_quorum current c : Prop :=
  len (ControlPlanes (c_Nodes current))
  < 2 * len (List.filter (fun n => bool_decide (node_Address n ∈ cp_addresses c))
               (ControlPlanes (c_Nodes current)))
  \/ (cp_addresses c ⊆ cp_addresses current
      /\ len (cp_addresses c) = ControlPlaneCount (g_constraints g)).

Lemma updated_keeps_quorum current p ch p' c :
  updated (ControlPlanes (c_Nodes current)) (Workers (c_Nodes current)) p ch p' c ->
  keeps_quorum current c.
Proof.
  intros Hup. destruct (decide (demoted ch = [])) as [Hd|Hd].
  - left. pose proof (sp_majority _ _ _ (up_start _ _ _ _ _ _ Hup)) as Hmaj.
    eapply Z.lt_le_trans; [exact Hmaj|]. apply Z.mul_le_mono_nonneg_l; [lia|].
    apply filterb_length_mono. intros n Hn He. apply bool_decide_eq_true.
    apply (control_plane_kept Hup); [done|by apply list_elem_of_fmap_2|].
    by destruct (g_machineMap g !! node_Address n).
  - right. destruct (up_demoted _ _ _ _ _ _ Hup) as [?|Hn]; [done|]. split.
    + intros a. by apply (control_plane_shrinks Hup).
    + rewrite (cp_count Hup). by destruct (up_count _ _ _ _ _ _ Hup) as [?|[? _]].
Qed.

(** C11: an update of a generated configuration never loses the quorum of etcd.
    More than half of the control plane nodes stay control plane nodes, or the
    control plane is only reduced, to the size asked for; it never gets smaller
    than that; and nodes that join it are healthy machines of the right role,
    without taints that are not tolerated. *)
Theorem update_keeps_quorum current p c :
  NoDup (addresses current) -> Update g current = Ret (Ok (Some (p, c))) ->
  keeps_quorum current c
  /\ ControlPlaneCount (g_constraints g) <= len (cp_addresses c)
  /\ (forall a, a ∈ cp_addresses c -> a ∉ cp_addresses current ->
        exists m, g_machineMap g !! a = Some m /\ suitable_control_plane g m).
Proof.
  intros Hnd Hu. destruct (Update_Some _ _ _ Hnd Hu) as (p0 & ch & Hup).
  split; [by eapply updated_keeps_quorum|split; [|by apply (control_plane_suitable Hup)]].
  rewrite (cp_count Hup). destruct (up_count _ _ _ _ _ _ Hup); lia.
Qed.

Lemma unused_perm nodes nodes' :
  nodes ≡ₚ nodes' -> getUnusedMachines g nodes = getUnusedMachines g nodes'.
Proof.
  intros Hp. unfold getUnusedMachines. f_equal. apply List.filter_ext. intros [a m]. f_equal. f_equal.
  unfold Contains. apply eq_bool_prop_intro. rewrite !Is_true_true, !existsb_elem_of. by setoid_rewrite Hp.
Qed.

(** A regeneration only fills the plan an update starts with. *)
Lemma Regenerate_updated current p' c :
  NoDup (addresses current) -> ControlPlanes (c_Nodes current) <> [] ->
  Regenerate g current = Ret (Ok (p', c)) ->
  exists p ch, updated (ControlPlanes (c_Nodes current)) (Workers (c_Nodes current)) p ch p' c.
Proof.
  intros Hnd Hcp. unfold Regenerate. rewrite <- (unused_perm _ _ (roles_perm (c_Nodes current))).
  set (cps := ControlPlanes _) in *. set (ws := Workers _).
  pose proof (removeNonExistentNode_Ok cps ws) as Hst. revert Hst. unfold removeNonExistentNode.
  pose proof (nonexistent_nil cps) as Nc. pose proof (nodesToMachines_stand_for cps) as Hc.
  destruct (nodesToMachines g cps) as [mc nc]. destruct (nodesToMachines g ws) as [mw nw]. cbn in Nc, Hc.
  destruct (0 <? len nc) eqn:Hnc; [done|]. destruct (0 <? len nw); [done|].
  destruct (len mc * 2 <=? len cps) eqn:Hmaj; bool_hyps.
  - exfalso. rewrite Nc in Hc by (destruct nc; [done|unfold len in *; cbn in *; lia]).
    apply (f_equal length) in Hc. rewrite !length_fmap in Hc. unfold len in *.
    destruct cps; [done|cbn in *; lia].
  - intros Hst Hf. destruct (Hst _ _ ltac:(subst cps ws; by rewrite roles_perm) eq_refl) as [Hs _].
    eexists. eapply (updated_fill _ _ _ no_change); try done; [apply moves_refl|by left].
Qed.
End clusters.

(** ** New generators *)
Section new_generator.
  Context {T : K8sTypes} {K : K8s} `{Runtime}.

Lemma machine_map_pointer machines a m :
  machine_map machines !! a = Some m -> pointer m = Some a /\ m ∈ machines.
Proof.
  unfold machine_map.
  assert (forall l (mm : gmap string Machine), (forall a m, mm !! a = Some m -> pointer m = Some a /\ m ∈ machines) ->
    (forall m, m ∈ l -> m ∈ machines) -> forall a m,
    foldl (fun mm m => match ms_IPv4 (m_Spec m) with [] => mm | a :: _ => <[ a := m ]> mm end) mm l !! a
    = Some m -> pointer m = Some a /\ m ∈ machines) as Hgen.
  { induction l as [|x l IH]; intros mm Hmm Hl; cbn; [done|]. apply IH; [|intros; apply Hl; by right].
    destruct (ms_IPv4 (m_Spec x)) as [|b r] eqn:Hx; [done|].
    intros a' m' [[<- <-]|[_ Ho]]%lookup_insert_Some; [|by apply Hmm].
    split; [by unfold pointer; rewrite Hx|apply Hl; by left]. }
  apply Hgen; [|done]. intros ? ?. by rewrite lookup_empty.
Qed.

Lemma cp_template_ok nodes n : nt_Node (cp_template nodes) = Some n -> node_ControlPlane n = true.
Proof.
  unfold cp_template.
  assert (forall l t, (forall n, nt_Node t = Some n -> node_ControlPlane n = true) ->
    forall n, nt_Node (foldl (fun t n => if node_ControlPlane n then template_of n else t) t l) = Some n ->
    node_ControlPlane n = true) as Hgen; [|by apply Hgen].
  induction l as [|x l IH]; intros t Ht; cbn; [done|]. apply IH.
  destruct (node_ControlPlane x) eqn:Hx; [|done]. intros n' [= <-]. done.
Qed.

Lemma NewGenerator_ok tmpl cstr machines st now g :
  NewGenerator tmpl cstr machines st now = Ret g -> generator_ok g.
Proof.
  unfold NewGenerator. intros (nm & _ & [= <-])%bind_Ret_inv. split; cbn.
  - intros a m Hm. by apply (machine_map_pointer machines).
  - apply cp_template_ok.
  - intros t (n & -> & Hn)%list_elem_of_fmap_1. apply elem_of_filterb in Hn as [_ Hn]. bool_hyps.
    by exists n.
Qed.

(** The counts of racks are between 0 and the number of control planes. *)
Lemma rack_count_bounds p m : 0 <= rack_count p m <= len (nextControlPlanes p).
Proof.
  unfold rack_count, countMachinesByRack. cbn.
  assert (forall l (count : gmap Z Z) k, (forall k, 0 <= count_of count k) ->
    0 <= count_of (foldl (fun count m => let rack := ms_Rack (m_Spec m) in
                            <[ rack := count_of count rack + 1 ]> count) count l) k
      <= count_of count k + len l) as Hgen.
  { induction l as [|x l IH]; intros count k Hc; cbn [foldl]; [specialize (Hc k); unfold len; cbn; lia|].
    set (rack := ms_Rack (m_Spec x)). cbn zeta.
    assert (forall k', count_of (<[ rack := count_of count rack + 1 ]> count) k'
                       = count_of count k' + (if decide (rack = k') then 1 else 0)) as Hi.
    { intros k'. unfold count_of at 1. case_decide as Hk.
      - subst k'. by rewrite lookup_insert_eq.
      - rewrite lookup_insert_ne by done. unfold count_of. lia. }
    assert (forall k', 0 <= (if decide (rack = k') then 1 else 0) <= 1) as Hone by (intros; case_decide; lia).
    specialize (IH (<[ rack := count_of count rack + 1 ]> count) k) as IHk. rewrite Hi in IHk.
    unfold len in *. cbn. specialize (Hone k) as Hk.
    enough (forall k', 0 <= count_of (<[ rack := count_of count rack + 1 ]> count) k') as HI
      by (specialize (IHk HI); lia).
    intros k'. rewrite Hi. specialize (Hc k'). specialize (Hone k'). lia. }
  specialize (Hgen (nextControlPlanes p) ∅ (ms_Rack (m_Spec m))).
  assert (forall k, count_of (∅ : gmap Z Z) k = 0) as He
    by (intros k; unfold count_of; by rewrite lookup_empty).
  rewrite He in Hgen. apply Hgen. intros k. by rewrite He.
Qed.

Lemma deselect_choice g p p' m :
  deselectControlPlane g p = Ret (p', m) -> len (nextControlPlanes p) < 100 ->
  m ∈ nextControlPlanes p
  /\ forall m', m' ∈ nextControlPlanes p -> (healthy m = true -> healthy m' = true)
       /\ (healthy m' = healthy m -> rack_count p m' <= rack_count p m).
Proof.
  unfold deselectControlPlane. intros (m1 & Hm & [= _ ->])%bind_Ret_inv Hl.
  assert (forall l, index l 0 = Ret m -> head l = Some m) as Hhead.
  { intros [|x l]; unfold index; cbn; [done|]. by intros [= ->]. }
  apply Hhead in Hm. apply head_sorted in Hm as [Hin Hmin]; [|apply score_swo]. split; [done|].
  intros m' Hm'. specialize (Hmin m' Hm'). rewrite Z.ltb_ge in Hmin.
  unfold scoreMachineWithHealthStatus, scoreMachine, healthyScore, maxCountPerRack in Hmin.
  fold (rack_count p m) in Hmin. fold (rack_count p m') in Hmin.
  pose proof (rack_count_bounds p m). pose proof (rack_count_bounds p m').
  repeat match type of Hmin with context [scoreByDays ?d] =>
    pose proof (scoreByDays_bounds d); generalize dependent (scoreByDays d); intros end.
  destruct (healthy m), (healthy m'); (split; [|intros ?; try done; lia]); intros; try done. lia.
Qed.

(** How the generator chooses control planes.  A machine that joins the
    control plane is healthy, of the right role and without taints that are not
    tolerated; spare machines come first, and then machines of racks with the
    fewest control planes.  A control plane that is given up is not healthy if
    there is such a one, and is then in a rack with the most control planes. *)
Theorem control_plane_choice g p ms :
  (forall m, selectControlPlane g p ms = Ret (Some m) ->
     eligible g ms m /\ forall m', eligible g ms m' -> (spare g m' -> spare g m)
       /\ ((spare g m -> spare g m') -> rack_count p m <= rack_count p m'))
  /\ (forall p' m, deselectControlPlane g p = Ret (p', m) -> len (nextControlPlanes p) < 100 ->
     m ∈ nextControlPlanes p
     /\ forall m', m' ∈ nextControlPlanes p -> (healthy m = true -> healthy m' = true)
          /\ (healthy m' = healthy m -> rack_count p m' <= rack_count p m)).
Proof.
  split; [intros m; apply selectControlPlane_Some|]. intros p' m. apply deselect_choice.
Qed.
End new_generator.

(** ** The generator returns *)
Section total.
  Context {T : K8sTypes} {K : K8s} `{Runtime} (g : Generator) (Hok : generator_ok g).
  Implicit Types (p : plan) (m : Machine) (op : updateOp).

(** What the validation of the template ensures. *)
Record template_ok : Prop := {
  tk_control_plane : is_Some (nt_Node (g_cpTmpl g));
  tk_workers : g_workerTmpls g <> [];
  tk_roles : length (g_workerTmpls g) <> 1%nat -> Forall (fun t => nt_Role t <> "") (g_workerTmpls g)
}.
Hypothesis Htk : template_ok.

Definition has_address m : Prop := exists a, first_address m = Ret a.
(** A template for the workers of the role of a machine *)
Definition has_template m : Prop := returns (getWorkerTmpl g (ms_Role (m_Spec m))).

Lemma selectControlPlane_returns p ms : Forall has_address ms -> returns (selectControlPlane g p ms).
Proof.
  intros Hms. rewrite Forall_forall in Hms. unfold selectControlPlane.
  assert (forall m, m ∈ ms -> returns (isTaintedInCluster g m)) as Ht.
  { intros m [a Ha]%Hms. unfold isTaintedInCluster. rewrite Ha. apply returns_ret. }
  apply returns_bind.
  - apply returns_go_filter. intros m [Hm _]%filterHealthy_elem. apply returns_bind; [by apply Ht|].
    intros b _. apply returns_ret.
  - intros cands Hc. apply returns_bind; [|intros; apply returns_ret].
    unfold filterSpareNodes. apply returns_bind; [|intros; apply returns_ret].
    exists ((fun m => match spare_of g m with Ret l => l | Panic _ => [] end) <$> cands).
    apply go_map_ret. intros m Hm. rewrite (filterTainted_elem _ _ _ _ Hc), filterHealthy_elem in Hm.
    destruct Hm as [[Hm _] _]. destruct (Hms m Hm) as [a Ha]. unfold spare_of. by rewrite Ha.
Qed.

Lemma least_rate_range p tmpls i least j :
  0 <= j < i + len tmpls -> 0 <= i ->
  0 <= least_rate g p i tmpls least j < i + len tmpls.
Proof.
  revert i least j. induction tmpls as [|t tmpls IH]; intros i least j Hj Hi; cbn [least_rate]; [done|].
  assert (len (t :: tmpls) = 1 + len tmpls) as Hl by (unfold len; cbn; lia). rewrite Hl in *.
  replace (i + (1 + len tmpls)) with (i + 1 + len tmpls) in * by lia.
  assert (0 <= len tmpls) by (unfold len; lia).
  destruct (_ <=? 0); [apply IH; lia|]. destruct (fless _ _); apply IH; lia.
Qed.
Lemma chooseWorkerTmpl_returns p : returns (chooseWorkerTmpl g p).
Proof.
  unfold chooseWorkerTmpl, index.
  assert (0 < len (g_workerTmpls g)) as Hl.
  { pose proof (tk_workers Htk). unfold len. destruct (g_workerTmpls g); [done|cbn; lia]. }
  pose proof (least_rate_range p (g_workerTmpls g) 0 MaxFloat64 0 ltac:(lia) ltac:(lia)) as Hr.
  set (k := least_rate _ _ _ _ _ _) in *. destruct (Z.ltb_spec k 0); [lia|].
  destruct (g_workerTmpls g !! Z.to_nat k) eqn:Hk; [apply returns_ret|].
  apply lookup_ge_None in Hk. unfold len in *. lia.
Qed.
Lemma selectWorker_returns p ms : returns (selectWorker g p ms).
Proof. apply returns_bind; [apply chooseWorkerTmpl_returns|]. intros. apply returns_ret. Qed.

Lemma suitable_has_template m : suitable_worker g m -> has_template m.
Proof.
  intros (_ & t & Ht & Hr). unfold has_template, getWorkerTmpl.
  pose proof (tk_roles Htk) as Hroles. destruct (g_workerTmpls g) as [|t1 [|t2 l]].
  - by apply elem_of_nil in Ht.
  - apply returns_ret.
  - specialize (Hroles ltac:(done)). rewrite Forall_forall in Hroles. specialize (Hroles t Ht).
    destruct Hr as [?|Hr]; [done|].
    destruct (List.find _ _) eqn:Hf; [apply returns_ret|].
    apply (find_none _ _) with (x := t) in Hf; [|by apply list_elem_of_In].
    by rewrite Hr, String.eqb_refl in Hf.
Qed.

(** Plans whose nodes can be made. *)
Record ready p : Prop := {
  rd_distinct : distinct (all_machines p);
  rd_address : Forall has_address (all_machines p);
  rd_template : Forall has_template (nextWorkers p)
}.

Lemma moves_ready p ch p' :
  ready p -> moves p ch p' -> Forall has_template (demoted ch ++ new_workers ch) -> ready p'.
Proof.
  intros [Hd Ha Ht] Hm Hn. pose proof (moves_all _ _ _ Hm) as Hall. split.
  - by eapply moves_distinct.
  - rewrite Hall in Ha. by apply Forall_app in Ha as [_ ?].
  - assert (Forall has_template (promoted ch ++ removed ch ++ nextWorkers p')) as HF
      by (rewrite <- (mv_workers _ _ _ Hm); by apply Forall_app_2).
    by repeat apply Forall_app in HF as [_ HF].
Qed.

Lemma record_machine_returns what m op : has_address m -> returns (record_machine what m op).
Proof. intros [a Ha]. unfold record_machine. rewrite Ha. apply returns_ret. Qed.
Lemma remove_unused_returns p m : m ∈ nextUnused p -> returns (remove_unused p m).
Proof.
  intros Hm. unfold remove_unused. apply returns_bind; [by apply removeMachine_Ret|].
  intros. apply returns_ret.
Qed.
Lemma removeNextWorker_returns p m : m ∈ nextWorkers p -> returns (removeNextWorker p m).
Proof.
  intros Hm. unfold removeNextWorker. apply returns_bind; [by apply removeMachine_Ret|].
  intros. apply returns_ret.
Qed.
Lemma part_address p m l :
  ready p -> m ∈ l -> l ⊆ all_machines p -> has_address m.
Proof. intros Hr Hm Hl. pose proof (rd_address _ Hr) as HF. rewrite Forall_forall in HF. by apply HF, Hl. Qed.
Lemma part_addresses p l : ready p -> l ⊆ all_machines p -> Forall has_address l.
Proof. intros Hr Hl. apply Forall_forall. intros m Hm. by eapply part_address. Qed.

Lemma fill_control_planes_returns n p op : ready p -> returns (fill_control_planes g n p op).
Proof.
  revert p op. induction n as [|n IH]; intros p op Hr; cbn [fill_control_planes]; [apply returns_ret|].
  destruct (parts_sub p) as (Hu & _ & Hw).
  apply returns_bind; [by apply selectControlPlane_returns, (part_addresses p)|].
  intros [m|] Hs.
  - apply selectControlPlane_Some in Hs as [[Hm _] _].
    apply returns_bind; [by apply record_machine_returns; eapply part_address|]. intros op1 _.
    apply returns_bind; [by apply remove_unused_returns|]. intros p1 Hp1. apply IH.
    eapply moves_ready; [done|by apply new_control_plane_moves; [apply rd_distinct|..]|]. constructor.
  - apply returns_bind; [by apply selectControlPlane_returns, (part_addresses p)|].
    intros [m|] Hs2; [|apply returns_ret]. apply selectControlPlane_Some in Hs2 as [[Hm _] _].
    apply returns_bind; [by apply record_machine_returns; eapply part_address|]. intros op1 _.
    apply returns_bind; [by apply removeNextWorker_returns|]. intros p1 Hp1. apply IH.
    eapply moves_ready; [done|by apply promotion_moves; [apply rd_distinct|..]|]. constructor.
Qed.

Lemma fill_workers_returns n p op : ready p -> returns (fill_workers g n p op).
Proof.
  revert p op. induction n as [|n IH]; intros p op Hr; cbn [fill_workers]; [apply returns_ret|].
  destruct (parts_sub p) as (Hu & _ & _).
  apply returns_bind; [apply selectWorker_returns|]. intros [m|] Hs; [|apply returns_ret].
  apply selectWorker_Some in Hs as [Hm Hsuit].
  apply returns_bind; [by apply record_machine_returns; eapply part_address|]. intros op1 _.
  apply returns_bind; [by apply remove_unused_returns|]. intros p1 Hp1. apply IH.
  eapply moves_ready; [done|by apply new_worker_moves; [apply rd_distinct|..]|].
  constructor; [|constructor]. by apply suitable_has_template.
Qed.

Lemma MachineToNode_returns m n : has_address m -> returns (MachineToNode m n).
Proof. intros [a Ha]. unfold MachineToNode. rewrite Ha. apply returns_ret. Qed.
Lemma returns_go_map {A B} (f : A -> go B) l : (forall x, x ∈ l -> returns (f x)) -> returns (go_map f l).
Proof.
  induction l as [|x l IH]; intros Hf; cbn [go_map]; [apply returns_ret|].
  apply returns_bind; [apply Hf; by left|]. intros y _.
  apply returns_bind; [apply IH; intros; apply Hf; by right|]. intros. apply returns_ret.
Qed.
Lemma nodes_of_plan_returns p : ready p -> returns (nodes_of_plan g p).
Proof.
  intros Hr. destruct (parts_sub p) as (_ & Hc & Hw). unfold nodes_of_plan. apply returns_bind.
  - apply returns_go_map. intros m Hm. destruct (tk_control_plane Htk) as [n ->].
    apply MachineToNode_returns. by eapply part_address.
  - intros cps _. apply returns_bind; [|intros; apply returns_ret].
    apply returns_go_map. intros m Hm. pose proof (rd_template _ Hr) as HF. rewrite Forall_forall in HF.
    apply returns_bind; [by apply HF|]. intros t Ht.
    destruct (gk_workers _ Hok t (getWorkerTmpl_elem _ _ _ Ht)) as (n & -> & _).
    apply MachineToNode_returns. by eapply part_address.
Qed.

Lemma fill_returns p op : ready p -> returns (fill g p op).
Proof.
  intros Hr. unfold fill. apply returns_bind; [by apply fill_control_planes_returns|].
  intros [[p1 op1]|] H1; [|apply returns_ret].
  destruct (fill_control_planes_moves _ _ _ _ _ _ (rd_distinct _ Hr) H1) as (cps & pro & Hm1 & _).
  assert (ready p1) as Hr1 by (eapply moves_ready; [done|done|constructor]).
  apply returns_bind; [by apply fill_workers_returns|]. intros [[p2 op2]|] H2; [|apply returns_ret].
  destruct (fill_workers_moves _ _ _ _ _ _ (rd_distinct _ Hr1) H2) as (ws & Hm2 & _ & HF).
  apply returns_bind; [|intros; apply returns_ret]. apply nodes_of_plan_returns.
  eapply moves_ready; [exact Hr1|done|]. cbn.
  eapply Forall_impl; [exact HF|]. apply suitable_has_template.
Qed.
End total.

(** ** New clusters *)
Section generate.
  Context {T : K8sTypes} {K : K8s} `{Runtime} (g : Generator) (Hok : generator_ok g).
  Implicit Types (p : plan) (m : Machine) (op : updateOp).

Definition first_plan : plan := set_unused clearIntermediateData (getUnusedMachines g []).

Lemma first_plan_all : all_machines first_plan = getUnusedMachines g [].
Proof. unfold all_machines. cbn. by rewrite app_nil_r. Qed.
Lemma first_plan_distinct : distinct (all_machines first_plan).
Proof. rewrite first_plan_all. by apply unused_distinct. Qed.

Lemma healthy_unused a m :
  g_machineMap g !! a = Some m /\ healthy m = true <-> m ∈ getUnusedMachines g [] /\ pointer m = Some a.
Proof.
  split.
  - intros [Hm Hh]. split; [|by apply (gk_machines _ Hok)]. unfold getUnusedMachines.
    apply list_elem_of_fmap. exists (a, m). split; [done|]. apply elem_of_filterb.
    split; [by apply elem_of_range|done].
  - intros [(Hh & b & Hb & _)%unused_elem Hp]. rewrite (gk_machines _ Hok _ _ Hb) in Hp.
    injection Hp as ->. done.
Qed.
Lemma unused_count : len (getUnusedMachines g []) = len (filterHealthyMachinesByRole (machineList g) "").
Proof.
  unfold getUnusedMachines, filterHealthyMachinesByRole, machineList, len. cbn. rewrite length_fmap. f_equal.
  induction (range (g_machineMap g)) as [|[a m] l IH]; cbn; [done|].
  rewrite andb_true_r. destruct (healthy m); cbn; by rewrite IH.
Qed.

Lemma first_plan_ready : template_ok g -> ready g first_plan.
Proof.
  intros Htk. split; [apply first_plan_distinct| |constructor]. rewrite first_plan_all.
  apply Forall_forall. intros m (_ & a & Ha & _)%unused_elem. exists a.
  by apply first_address_Ret, (gk_machines _ Hok).
Qed.

(** The number of workers after [fill]. *)
Lemma available_from_same p p' tmpls n :
  len (nextControlPlanes p') = len (nextControlPlanes p) ->
  available_from g p' tmpls n = available_from g p tmpls n.
Proof.
  intros He. revert n. induction tmpls as [|t tmpls IH]; intros n; cbn; [done|]. by rewrite He, !IH.
Qed.
Lemma fill_worker_count p op p' c :
  distinct (all_machines p) -> fill g p op = Ret (Ok (p', c)) ->
  available_from g p' (g_workerTmpls g) 0 <= len (nextWorkers p').
Proof.
  intros Hd. unfold fill. intros (r1 & H1 & Hk)%bind_Ret_inv. destruct r1 as [[p1 op1]|]; [|done].
  apply bind_Ret_inv in Hk as (r2 & H2 & Hk). destruct r2 as [[p2 op2]|]; [|done].
  apply bind_Ret_inv in Hk as (nodes & Hn & Hk).
  destruct (Validate _ false) eqn:Hv; [done|]. injection Hk as <- <-.
  destruct (fill_control_planes_moves _ _ _ _ _ _ Hd H1) as (cps & pro & Hm1 & _).
  destruct (fill_workers_moves _ _ _ _ _ _ (moves_distinct _ _ _ Hm1 Hd) H2) as (ws & Hm2 & Hl & _).
  pose proof (moves_same_cp _ _ _ Hm2 eq_refl eq_refl eq_refl) as Hcp.
  rewrite (available_from_same _ _ _ _ Hcp).
  pose proof (Permutation_length (mv_workers _ _ _ Hm2)) as L. cbn in L. rewrite length_app in L.
  unfold len in *. lia.
Qed.

Lemma generated_counts p c :
  Generate g = Ret (Ok (p, c)) ->
  len (nextUnused p) + len (nextControlPlanes p) + len (nextWorkers p) = len (getUnusedMachines g [])
  /\ available_from g p (g_workerTmpls g) 0 <= len (nextWorkers p)
  /\ len (nextControlPlanes p) = Z.max 0 (ControlPlaneCount (g_constraints g)).
Proof.
  intros Hg. pose proof (fill_worker_count _ _ _ _ first_plan_distinct Hg) as Hw.
  destruct (fill_outcome g Hok _ _ _ _ first_plan_distinct Hg) as ((ch & Hfi) & _).
  split; [|split; [done|by rewrite (fi_count _ _ _ _ Hfi)]].
  pose proof (Permutation_length (moves_all _ _ _ (fi_moves _ _ _ _ Hfi))) as L.
  rewrite first_plan_all, (fi_removed _ _ _ _ Hfi) in L. unfold all_machines in L.
  cbn in L. rewrite !length_app in L. unfold len. lia.
Qed.

Lemma generated_machines p c :
  Generate g = Ret (Ok (p, c)) ->
  all_machines p ≡ₚ getUnusedMachines g [] /\ Forall (suitable_control_plane g) (nextControlPlanes p)
  /\ Validate c false = None /\ stand_for (nextControlPlanes p) (ControlPlanes (c_Nodes c))
  /\ stand_for (nextWorkers p) (Workers (c_Nodes c)).
Proof.
  intros Hg. destruct (fill_outcome g Hok _ _ _ _ first_plan_distinct Hg) as ((ch & Hfi) & Hv & Hcn & Hwn).
  destruct Hfi as [Hm Hd Hr Hcp _ _]. split; [|split; [|done]].
  - rewrite <- first_plan_all, (moves_all _ _ _ Hm), Hr. done.
  - pose proof (mv_cp _ _ _ Hm) as Hc. rewrite Hd in Hc. cbn in Hc. by rewrite <- Hc.
Qed.

Lemma Generate_exact (Htk : template_ok g) :
  returns (Generate g)
  /\ forall p c, Generate g = Ret (Ok (p, c)) ->
     Validate c false = None
     /\ len (cp_addresses c) = Z.max 0 (ControlPlaneCount (g_constraints g))
     /\ (forall a, a ∈ cp_addresses c ->
           exists m, g_machineMap g !! a = Some m /\ suitable_control_plane g m)
     /\ (forall a, a ∈ addresses c -> exists m, g_machineMap g !! a = Some m /\ healthy m = true)
     /\ (nt_Role <$> g_workerTmpls g = [""] -> forall a m,
           g_machineMap g !! a = Some m -> healthy m = true -> a ∈ addresses c).
Proof.
  split; [by apply (fill_returns g Hok Htk), first_plan_ready|]. intros p c Hg.
  destruct (generated_counts p c Hg) as (Hn & Hw & Hc).
  destruct (generated_machines p c Hg) as (Hall & Hcp & Hv & Hcn & Hwn).
  assert (forall a, a ∈ addresses c <-> Some a ∈ pointer <$> (nextControlPlanes p ++ nextWorkers p)) as Ha.
  { intros a. rewrite addresses_elem, fmap_app, elem_of_app. unfold cp_addresses.
    by rewrite <- (stand_for_elem _ _ _ Hcn), <- (stand_for_elem _ _ _ Hwn). }
  assert (forall a l, l ⊆ all_machines p -> Some a ∈ pointer <$> l ->
            exists m, m ∈ l /\ g_machineMap g !! a = Some m /\ healthy m = true) as Hin.
  { intros a l Hl (m & Hm & Hml)%list_elem_of_fmap_1. exists m. split; [done|]. apply healthy_unused.
    split; [|done]. rewrite <- Hall. by apply Hl. }
  destruct (parts_sub p) as (_ & Sc & Sw). split; [done|]. split.
  { unfold cp_addresses, len. rewrite length_fmap, <- Hc. unfold len.
    by rewrite <- (length_fmap pointer), Hcn, length_fmap. }
  split; [|split].
  - intros a. unfold cp_addresses. rewrite <- (stand_for_elem _ _ _ Hcn). intros Hp.
    destruct (Hin a _ Sc Hp) as (m & Hm & Hmm & _). exists m. split; [done|].
    rewrite Forall_forall in Hcp. by apply Hcp.
  - intros a Hp%Ha. destruct (Hin a (nextControlPlanes p ++ nextWorkers p)) as (m & _ & ?);
      [set_solver|done|eauto].
  - intros Hone a m Hm Hh. rewrite Ha.
    assert (m ∈ all_machines p) as Hma by (rewrite Hall; by apply (healthy_unused a)).
    assert (nextUnused p = []) as Hu.
    { destruct (g_workerTmpls g) as [|t [|? ?]]; [done| |done]. injection Hone as Ht. cbn in Hw.
      rewrite Ht in Hw. cbn in Hw. rewrite unused_count in Hn. apply length_zero_iff_nil.
      unfold len in *. lia. }
    unfold all_machines in Hma. rewrite Hu in Hma. cbn in Hma.
    apply list_elem_of_fmap. exists m. split; [|done]. symmetry. by apply (gk_machines _ Hok).
Qed.
End generate.

(** ** Validated templates *)
Section validated.
  Context {T : K8sTypes} {K : K8s} `{Runtime}.

Lemma size_list_to_set_le (l : list string) : (size (list_to_set l : gset string) <= length l)%nat.
Proof.
  induction l as [|x l IH]; cbn; [by rewrite size_empty|]. rewrite size_union_alt, size_singleton.
  assert (size (list_to_set l ∖ {[x]} : gset string) <= size (list_to_set l : gset string))%nat
    by (apply subseteq_size; set_solver). lia.
Qed.

Lemma filterb_full {A} (q : A -> bool) l :
  length (List.filter q l) = length l -> Forall (fun x => q x = true) l.
Proof.
  induction l as [|x l IH]; cbn; [constructor|]. pose proof (filterb_length_le q l).
  destruct (q x) eqn:Hx; cbn; [intros [=]; constructor; auto|lia].
Qed.

Lemma cp_template_some nodes n :
  n ∈ nodes -> node_ControlPlane n = true -> is_Some (nt_Node (cp_template nodes)).
Proof.
  unfold cp_template. intros Hn Hcp.
  assert (forall l t, is_Some (nt_Node t) \/ n ∈ l ->
    is_Some (nt_Node (foldl (fun t n => if node_ControlPlane n then template_of n else t) t l))) as Hgen.
  { induction l as [|x l IH]; intros t Ht; cbn; [by destruct Ht as [?|?%elem_of_nil]|].
    apply IH. destruct Ht as [Ht|[->|Ht]%elem_of_cons].
    - left. destruct (node_ControlPlane x); [by eexists|done].
    - left. rewrite Hcp. by eexists.
    - by right. }
  apply Hgen. by right.
Qed.

Lemma validated_template tmpl cstr machines st now g :
  ValidateTemplate tmpl = None -> NewGenerator tmpl cstr machines st now = Ret g -> template_ok g.
Proof.
  unfold ValidateTemplate. rewrite !and_then_None, !fail_if_None. intros (Hn & Hc & Hr & _).
  unfold NewGenerator. intros (nm & _ & [= <-])%bind_Ret_inv. bool_hyps.
  unfold worker_templates.
  set (workers := List.filter (fun n => negb (node_ControlPlane n)) (c_Nodes tmpl)) in *.
  pose proof (Permutation_length (split_perm node_ControlPlane (c_Nodes tmpl))) as Hl.
  rewrite length_app in Hl. fold workers in Hl. unfold len in *. split; cbn.
  - destruct (List.filter node_ControlPlane (c_Nodes tmpl)) as [|n l] eqn:Hf; [done|].
    assert (n ∈ List.filter node_ControlPlane (c_Nodes tmpl)) as [? ?]%elem_of_filterb
      by (rewrite Hf; by left). by eapply cp_template_some.
  - destruct workers; [cbn in Hl; lia|done].
  - rewrite length_fmap. intros Hne. apply andb_false_iff in Hr.
    destruct Hr as [Hr|Hr]; bool_hyps; [destruct workers as [|? [|? ?]]; cbn in *; lia|].
    apply Nat2Z.inj in Hr.
    set (role := fun n => default "" (node_Labels n !! CKELabelRole)) in *.
    set (roles := List.filter (fun r => negb (r =? "")%string) (role <$> workers)) in *.
    assert (Forall (fun r => negb (r =? "")%string = true) (role <$> workers)) as HF.
    { apply filterb_full. pose proof (size_list_to_set_le roles).
      pose proof (filterb_length_le (fun r => negb (r =? "")%string) (role <$> workers)) as Hle.
      fold roles in Hle |- *. rewrite length_fmap in *. lia. }
    apply Forall_fmap. rewrite Forall_fmap in HF. eapply Forall_impl; [exact HF|].
    intros n Hb. cbn in *. bool_hyps. done.
Qed.

(** C24: generating a cluster.  With a validated template the generator returns; a
    cluster it generates is valid, has as many control planes as asked for, all
    of them suitable, and only healthy machines; and if there is one template for
    workers, without a role, every healthy machine is in it. *)
Theorem generate_exact tmpl cstr machines st now g :
  ValidateTemplate tmpl = None -> NewGenerator tmpl cstr machines st now = Ret g ->
  returns (Generate g)
  /\ forall p c, Generate g = Ret (Ok (p, c)) ->
     Validate c false = None
     /\ len (cp_addresses c) = Z.max 0 (ControlPlaneCount (g_constraints g))
     /\ (forall a, a ∈ cp_addresses c ->
           exists m, g_machineMap g !! a = Some m /\ suitable_control_plane g m)
     /\ (forall a, a ∈ addresses c -> exists m, g_machineMap g !! a = Some m /\ healthy m = true)
     /\ (nt_Role <$> g_workerTmpls g = [""] -> forall a m,
           g_machineMap g !! a = Some m -> healthy m = true -> a ∈ addresses c).
Proof.
  intros Hv Hg. apply Generate_exact; [by eapply NewGenerator_ok|by eapply validated_template].
Qed.
End validated.

(** ** Where the generator fails *)
Section failures.
  Context {T : K8sTypes} {K : K8s} `{Runtime}.
  Implicit Types (m : Machine) (ms : list Machine) (tmpls : list nodeTemplate).

(** The healthy machines of the roles of some templates. *)
Definition sum_by_role ms tmpls : Z :=
  foldr (fun t n => len (filterHealthyMachinesByRole ms (nt_Role t)) + n) 0 tmpls.

Lemma available_from_sum g p tmpls n :
  nt_Role (g_cpTmpl g) = "" -> Forall (fun t => nt_Role t <> "") tmpls ->
  available_from g p tmpls n = n + sum_by_role (machineList g) tmpls.
Proof.
  intros Hcp HF. revert n. induction HF as [|t tmpls Ht _ IH]; intros n; cbn; [lia|].
  rewrite Hcp. destruct (nt_Role t =? "")%string eqn:He; bool_hyps; [done|]. rewrite IH. unfold sum_by_role. lia.
Qed.

Lemma sum_by_role_cons m ms tmpls :
  sum_by_role ms tmpls <= sum_by_role (m :: ms) tmpls
  /\ (healthy m = true -> Exists (fun t => nt_Role t = ms_Role (m_Spec m)) tmpls ->
      sum_by_role ms tmpls + 1 <= sum_by_role (m :: ms) tmpls).
Proof.
  induction tmpls as [|t tmpls [IH1 IH2]]; cbn [sum_by_role foldr].
  { split; [lia|]. by intros _ ?%Exists_nil. }
  assert (len (filterHealthyMachinesByRole ms (nt_Role t)) <= len (filterHealthyMachinesByRole (m :: ms) (nt_Role t)))
    as Hle.
  { unfold filterHealthyMachinesByRole, len. cbn [List.filter].
    destruct (healthy m && _); cbn [length]; lia. }
  split; [unfold sum_by_role in *; lia|]. intros Hh [He|Hex]%Exists_cons.
  - assert (len (filterHealthyMachinesByRole ms (nt_Role t)) + 1
            <= len (filterHealthyMachinesByRole (m :: ms) (nt_Role t))) as Hlt.
    { unfold filterHealthyMachinesByRole, len. cbn. rewrite Hh, He, String.eqb_refl, orb_true_r. cbn. lia. }
    unfold sum_by_role in *. lia.
  - specialize (IH2 Hh Hex). unfold sum_by_role in *. lia.
Qed.
Lemma sum_by_role_covers ms tmpls :
  (forall m, m ∈ ms -> healthy m = true -> Exists (fun t => nt_Role t = ms_Role (m_Spec m)) tmpls) ->
  len (filterHealthyMachinesByRole ms "") <= sum_by_role ms tmpls.
Proof.
  induction ms as [|m ms IH]; intros Hc.
  { change (0 <= sum_by_role [] tmpls). clear Hc. induction tmpls as [|t l IHl]; cbn; [done|]. by rewrite Z.add_0_l. }
  specialize (IH (fun x Hx => Hc x ltac:(by right))). specialize (Hc m ltac:(by left)).
  destruct (sum_by_role_cons m ms tmpls) as [H1 H2].
  generalize dependent (sum_by_role (m :: ms) tmpls). intros total H1 H2.
  unfold filterHealthyMachinesByRole, len in *. cbn in IH |- *. rewrite andb_true_r.
  destruct (healthy m); cbn; [specialize (H2 eq_refl (Hc eq_refl)); lia|lia].
Qed.

(** Templates for workers with roles do not go together with a template for
    the control plane without one.  If every healthy machine has the role of a
    template for workers, no cluster is ever generated: machines that became
    control planes are still counted as workers to be added. *)
Theorem roleless_control_plane_fails g (Hok : generator_ok g) (Htk : template_ok g) :
  nt_Role (g_cpTmpl g) = "" -> Forall (fun t => nt_Role t <> "") (g_workerTmpls g) ->
  (forall a m, g_machineMap g !! a = Some m -> healthy m = true ->
     Exists (fun t => nt_Role t = ms_Role (m_Spec m)) (g_workerTmpls g)) ->
  0 < ControlPlaneCount (g_constraints g) ->
  exists err, Generate g = Ret (Err err).
Proof.
  intros Hcp HF Hroles Hn.
  destruct (fill_returns g Hok Htk (first_plan g) (record "generate new cluster" (mkUpdateOp "new" [])))
    as [r Hr]; [by apply first_plan_ready|]. change (Generate g = Ret r) in Hr.
  destruct r as [[p c]|err]; [|by exists err].
  exfalso. destruct (generated_counts g Hok p c Hr) as (Hall & Hw & Hc).
  rewrite (available_from_sum g p _ _ Hcp HF) in Hw. rewrite (unused_count g) in Hall.
  pose proof (sum_by_role_covers (machineList g) (g_workerTmpls g)) as Hcov.
  assert (len (filterHealthyMachinesByRole (machineList g) "") <= sum_by_role (machineList g) (g_workerTmpls g)).
  { apply Hcov. intros m ([a m'] & -> & Hm%elem_of_range)%list_elem_of_fmap_1. by apply (Hroles a). }
  assert (0 <= len (nextUnused p)) by (unfold len; lia). lia.
Qed.

(** A machine without an IPv4 address makes the generator panic once the
    cluster has nodes, although it is skipped with a warning before. *)
Theorem machine_without_address_panics tmpl cstr machines cs now m :
  m ∈ machines -> ms_IPv4 (m_Spec m) = [] -> ks_Nodes (cs_Kubernetes cs) <> [] ->
  exists why, NewGenerator tmpl cstr machines (Some cs) now = Panic why.
Proof.
  intros Hm Hip Hn. unfold NewGenerator.
  assert (forall nm, exists why, k8s_node_map machines (ks_Nodes (cs_Kubernetes cs)) nm = Panic why) as Hp.
  { induction machines as [|x l IH]; [by apply elem_of_nil in Hm|]. intros nm. cbn [k8s_node_map].
    apply elem_of_cons in Hm as [<-|Hm].
    - destruct (ks_Nodes (cs_Kubernetes cs)) as [|n ns]; [done|]. cbn [nodes_of_machine].
      unfold first_address, index. rewrite Hip. by eexists.
    - destruct (nodes_of_machine x _ nm) as [nm'|w]; [by apply IH|by exists w]. }
  destruct (Hp ∅) as [w ->]. by exists w.
Qed.
End failures.

(** ** Repairs *)
Section repairs.
  Context {T : K8sTypes} (repairEntries : list RepairQueueEntry) (rebootEntries : list RebootQueueEntry)
    (nodeStatuses : gmap string NodeStatus) (constraints : Constraints).

(** Machines that are unreachable for a short time only. *)
Definition recently_unreachable (m : Machine) : bool :=
  (mst_State (m_Status m) =? StateUnreachable)%string
  && fless (mst_Duration (m_Status m)) (of_int (RepairRebootingSeconds constraints)).
(** Machines the repairer leaves alone. *)
Definition left_alone (m : Machine) (a : string) : Prop :=
  a ∈ rpe_Address <$> repairEntries
  \/ (recently_unreachable m = true
      /\ (nodeStatuses !! a = None
          \/ exists e, e ∈ rebootEntries /\ rqe_Node e = a /\ rqe_Status e = RebootStatusRebooting)).

Lemma to_repair_Some m m' a :
  to_repair repairEntries rebootEntries nodeStatuses constraints m = Some (m', a)
  <-> m' = m /\ pointer m = Some a /\ ~ left_alone m a.
Proof.
  unfold to_repair, pointer, left_alone. destruct (ms_IPv4 (m_Spec m)) as [|b l]; cbn; [naive_solver|].
  assert (recently_repaired repairEntries b = true <-> b ∈ rpe_Address <$> repairEntries) as Hr.
  { unfold recently_repaired. rewrite existsb_elem_of, list_elem_of_fmap. setoid_rewrite String.eqb_eq.
    naive_solver. }
  assert (is_rebooting rebootEntries b = true
          <-> exists e, e ∈ rebootEntries /\ rqe_Node e = b /\ rqe_Status e = RebootStatusRebooting) as Hb.
  { unfold is_rebooting. rewrite existsb_elem_of. setoid_rewrite andb_true_iff.
    setoid_rewrite String.eqb_eq. naive_solver. }
  fold (recently_unreachable m).
  destruct (recently_repaired repairEntries b); [naive_solver|].
  destruct (recently_unreachable m), (is_rebooting rebootEntries b), (nodeStatuses !! b) eqn:Hn; cbn;
    naive_solver.
Qed.

Lemma omap_length_le {A B} (f : A -> option B) l : (length (omap f l) <= length l)%nat.
Proof. induction l as [|x l IH]; cbn; [done|]. destruct (f x); cbn; lia. Qed.

(** Which repairs are queued for machines that are not healthy.  The queue
    does not grow beyond the maximum; each new entry is for the first address of
    a machine that is not in the queue yet, and not for one that has just become
    unreachable because it is rebooting or is not part of the cluster; and as long
    as there is room for all of them no other machine is left out. *)
Theorem repairer_exact machines :
  let entries := Repairer repairEntries rebootEntries nodeStatuses constraints machines in
  (entries = [] \/ len repairEntries + len entries <= MaximumRepairs constraints)
  /\ (forall e, e ∈ entries -> exists m a, m ∈ machines /\ pointer m = Some a /\ ~ left_alone m a
        /\ e = NewRepairQueueEntry (ToLower (mst_State (m_Status m))) (ms_BMC (m_Spec m)) a
                 (ms_Serial (m_Spec m)))
  /\ (len repairEntries + len machines <= MaximumRepairs constraints ->
      forall m a, m ∈ machines -> pointer m = Some a -> ~ left_alone m a ->
      a ∈ rpe_Address <$> entries).
Proof.
  cbn zeta. unfold Repairer.
  set (wanted := omap (to_repair repairEntries rebootEntries nodeStatuses constraints) machines).
  assert (forall m a, (m, a) ∈ wanted <-> m ∈ machines /\ pointer m = Some a /\ ~ left_alone m a) as Hw.
  { intros m a. unfold wanted. rewrite list_elem_of_omap. setoid_rewrite to_repair_Some. naive_solver. }
  destruct (MaximumRepairs constraints <? len repairEntries + len wanted) eqn:Hmax; bool_hyps.
  - split; [by left|]. split; [by intros e ?%elem_of_nil|]. intros Hl. exfalso.
    pose proof (omap_length_le (to_repair repairEntries rebootEntries nodeStatuses constraints) machines) as Hle.
    fold wanted in Hle. unfold len in *. lia.
  - split; [right; unfold len in *; by rewrite length_fmap|]. split.
    + intros e ([m a] & -> & Hin)%list_elem_of_fmap_1. apply Hw in Hin as (? & ? & ?). by exists m, a.
    + intros _ m a Hm Hp Hn. rewrite <- list_fmap_compose. apply list_elem_of_fmap. exists (m, a).
      split; [done|]. by apply Hw.
Qed.
End repairs.

(** ** Examples *)
#[local] Existing Instance sample_types.
#[local] Existing Instance sample_k8s.
#[local] Existing Instance std_runtime.

Definition sample_machine (addr : string) (rack : Z) (role state : string) : Machine :=
  mkMachine (mkMachineSpec ("serial-" +:+ addr) [("product", "R640")] rack 1 role [addr]
               (mkTime 0 0) (mkTime (1900000000 * 10 ^ 9) 0) "IPMI-2.0")
            (mkMachineStatus state (of_int 1000)).
Definition template_node (cp : bool) (role : string) : Node :=
  mkNode "" "" "cybozu" cp ∅ (if (role =? "")%string then ∅ else {[ CKELabelRole := role ]}) [].
Definition sample_template : Cluster :=
  sample_cluster [template_node true "cs"; template_node false ""] None.
Definition sample_constraints (cps : Z) : Constraints := mkConstraints cps 50 0 5 600.
Definition generator_of (tmpl : Cluster) (cps : Z) (machines : list Machine) : go Generator :=
  NewGenerator tmpl (sample_constraints cps) machines None (1800000000 * 10 ^ 9).
Definition generated (tmpl : Cluster) (cps : Z) (machines : list Machine) : go (result (plan * Cluster)) :=
  g ← generator_of tmpl cps machines; Generate g.

Definition machines4 : list Machine :=
  [sample_machine "10.0.0.1" 0 "cs" StateHealthy; sample_machine "10.0.0.2" 0 "cs" StateHealthy;
   sample_machine "10.0.1.1" 1 "cs" StateHealthy; sample_machine "10.0.2.1" 2 "cs" StateHealthy].

(** Control planes are spread over the racks. *)
Example generated_spread :
  match generated sample_template 3 machines4 with
  | Ret (Ok (_, c)) => length (cp_addresses c) = 3%nat /\ "10.0.1.1" ∈ cp_addresses c
                       /\ "10.0.2.1" ∈ cp_addresses c
  | _ => False
  end.
Proof. vm_compute. split; [reflexivity|]. split; repeat constructor. Qed.

Definition sample_generator (tmpl : Cluster) (cps : Z) (machines : list Machine) : Generator :=
  mkGenerator tmpl (sample_constraints cps) (1800000000 * 10 ^ 9) DefaultWaitRetiredSeconds
    (machine_map machines) ∅ (cp_template (c_Nodes tmpl)) (worker_templates (c_Nodes tmpl)).
Lemma sample_generator_ok tmpl cps machines : generator_ok (sample_generator tmpl cps machines).
Proof.
  apply (NewGenerator_ok tmpl (sample_constraints cps) machines None (1800000000 * 10 ^ 9)). reflexivity.
Qed.

Lemma generate_exact_witness :
  ValidateTemplate sample_template = None /\ returns (Generate (sample_generator sample_template 3 machines4)).
Proof.
  split; [vm_compute; reflexivity|].
  apply (generate_exact sample_template (sample_constraints 3) machines4 None (1800000000 * 10 ^ 9));
    [vm_compute; reflexivity|reflexivity].
Defined.

(** One of the control planes disappears, and another machine is registered. *)
Definition sample_current : Cluster :=
  match generated sample_template 3 machines4 with Ret (Ok (_, c)) => c | _ => sample_template end.
Definition machines_later : list Machine :=
  [sample_machine "10.0.0.1" 0 "cs" StateHealthy; sample_machine "10.0.0.2" 0 "cs" StateHealthy;
   sample_machine "10.0.1.1" 1 "cs" StateHealthy; sample_machine "10.0.3.1" 3 "cs" StateHealthy].
Definition later : Generator := sample_generator sample_template 3 machines_later.
Definition sample_update : plan * Cluster :=
  match Update later sample_current with Ret (Ok (Some r)) => r | _ => (clearIntermediateData, sample_template) end.

Lemma sample_update_is : Update later sample_current = Ret (Ok (Some (fst sample_update, snd sample_update))).
Proof.
  assert (match Update later sample_current with Ret (Ok (Some _)) => true | _ => false end = true) as Hu
    by (vm_compute; reflexivity).
  unfold sample_update. by destruct (Update later sample_current) as [[[[p c]|]|]|].
Qed.
Lemma sample_current_NoDup : NoDup (addresses sample_current).
Proof. apply (bool_decide_unpack _). vm_compute. exact I. Qed.

Lemma update_keeps_nodes_witness :
  Update later sample_current = Ret (Ok (Some (fst sample_update, snd sample_update)))
  /\ Validate (snd sample_update) false = None.
Proof.
  split; [apply sample_update_is|].
  apply (update_keeps_nodes later (sample_generator_ok _ _ _) sample_current (fst sample_update));
    [apply sample_current_NoDup|apply sample_update_is].
Defined.

Lemma update_keeps_quorum_witness :
  Update later sample_current = Ret (Ok (Some (fst sample_update, snd sample_update)))
  /\ 3 <= len (cp_addresses (snd sample_update)).
Proof.
  split; [apply sample_update_is|].
  apply (update_keeps_quorum later (sample_generator_ok _ _ _) sample_current (fst sample_update));
    [apply sample_current_NoDup|apply sample_update_is].
Defined.

(** Workers of two roles, and a control plane of any role. *)
Definition mixed_template : Cluster :=
  sample_cluster [template_node true ""; template_node false "cs"; template_node false "ss"] None.
Definition mixed_machines : list Machine :=
  [sample_machine "10.0.0.1" 0 "cs" StateHealthy; sample_machine "10.0.0.2" 0 "ss" StateHealthy;
   sample_machine "10.0.1.1" 1 "cs" StateHealthy; sample_machine "10.0.1.2" 1 "ss" StateHealthy].

Lemma mixed_template_ok : template_ok (sample_generator mixed_template 1 mixed_machines).
Proof.
  eapply (validated_template mixed_template (sample_constraints 1) mixed_machines None (1800000000 * 10 ^ 9));
    [vm_compute; reflexivity|reflexivity].
Qed.
Lemma mixed_roles :
  Forall (fun m => Exists (fun t => nt_Role t = ms_Role (m_Spec m))
                     (g_workerTmpls (sample_generator mixed_template 1 mixed_machines))) mixed_machines.
Proof.
  assert (forall m, ms_Role (m_Spec m) = "cs" \/ ms_Role (m_Spec m) = "ss" ->
    Exists (fun t => nt_Role t = ms_Role (m_Spec m))
      (g_workerTmpls (sample_generator mixed_template 1 mixed_machines))) as Hrole.
  { intros m [Hm|Hm]; [apply Exists_cons_hd|apply Exists_cons_tl, Exists_cons_hd]; by rewrite Hm. }
  repeat (constructor; [apply Hrole; cbn; auto|]). constructor.
Qed.
Lemma roleless_control_plane_fails_witness :
  ValidateTemplate mixed_template = None
  /\ exists err, Generate (sample_generator mixed_template 1 mixed_machines) = Ret (Err err).
Proof.
  split; [vm_compute; reflexivity|].
  apply (roleless_control_plane_fails (sample_generator mixed_template 1 mixed_machines)
           (sample_generator_ok _ _ _) mixed_template_ok).
  - reflexivity.
  - repeat constructor; discriminate.
  - intros a m Hm _. apply machine_map_pointer in Hm as [_ Hm].
    exact (proj1 (Forall_forall _ _) mixed_roles m Hm).
  - reflexivity.
Defined.

Definition nameless : Machine :=
  mkMachine (mkMachineSpec "serial-x" [] 0 1 "cs" [] (mkTime 0 0) (mkTime 0 0) "")
    (mkMachineStatus StateHealthy (of_int 0)).
Definition one_node_status : ClusterStatus :=
  mkClusterStatus "3" ∅ (mkEtcdClusterStatus false ∅ ∅)
    (mkKubernetesClusterStatus true [mkKubeNode "10.0.0.1" ∅ ∅ [] false [] false] None
       (mkClusterDNSStatus None "") None None None None None None ∅)
    (mkRepairQueueStatus true [] ∅ ∅) (mkRebootQueueStatus true [] [] [] [] [] []).
Lemma machine_without_address_panics_witness :
  exists why, NewGenerator sample_template (sample_constraints 3) [nameless] (Some one_node_status) 0 = Panic why.
Proof.
  apply (machine_without_address_panics sample_template (sample_constraints 3) [nameless] one_node_status 0
           nameless); [apply list_elem_of_here|reflexivity|discriminate].
Defined.

(** Control planes of a role of their own, and workers of two other roles. *)
Definition compute_template : Cluster :=
  sample_cluster [template_node true "compute"; template_node false "storage"; template_node false "gpu"] None.
Definition compute_machines : list Machine :=
  [sample_machine "10.0.0.1" 0 "compute" StateHealthy; sample_machine "10.0.1.1" 1 "compute" StateHealthy;
   sample_machine "10.0.2.1" 2 "compute" StateHealthy; sample_machine "10.0.0.2" 0 "storage" StateHealthy;
   sample_machine "10.0.1.2" 1 "gpu" StateHealthy].

(** Reducing the control plane makes the generator panic when there are
    several templates for workers and none of them has the role of the control
    planes: the control planes that are given up become workers, and no template
    is found for them.  Here three control planes of the role compute are reduced
    to one. *)
Theorem reduced_control_plane_panics :
  ValidateTemplate compute_template = None
  /\ match Generate (sample_generator compute_template 3 compute_machines) with
     | Ret (Ok (_, c)) =>
         Update (sample_generator compute_template 1 compute_machines) c
         = Panic "BUG: instantiating for invalid role: compute"
     | _ => False
     end.
Proof. vm_compute. split; reflexivity. Qed.
