(* ===== verification/Integrate.v ===== *)
(** * Integration with sabakan (sabakan/integrate.go, sabakan/query.go)

    The addon of the server that keeps the stored configuration in step with the
    machines registered with sabakan.  One run reads the storage, asks sabakan
    once, and writes at most one configuration; the answer of sabakan and the time
    are arguments.  Metrics and logs are left out. *)

From Stdlib Require Import ZArith Ascii String Lia.
From stdpp Require Import base gmap strings list sorting.
From S2P Require Import Prelude GoLib GoFormat GoTime SabakanQuery K8s Cluster Queue Status Storage StorageProps.
From S2P Require Import Sabakan SabakanProps.

Section integrate.
  Context {T : K8sTypes} {K : K8s} `{Runtime} `{!Etcd}.

(** [x, err := m()]: the error is a value. *)
Definition try {A} (m : sto A) : sto (result A) := fun d =>
  match m d with
  | (d', Done r) => (d', Done (Ok r))
  | (d', Panicked w) => (d', Panicked w)
  | (d', Retrying) => (d', Retrying)
  end.
Definition of_go {A} (m : go A) : sto A := match m with Ret a => mret a | Panic w => panic w end.
Definition of_result {A} (r : result A) : sto A := match r with Ok a => mret a | Err e => throw e end.

(** ** One run

    [search] is the answer of sabakan to a query at a URL ([doQuery]), [now] the
    current time, and [waitSecs] the value of the key [WaitSecs] in the context. *)
Section run.
  Context (search : string -> option QueryVariables -> result (list Machine))
    (now : Z) (waitSecs : option float64).

Definition QueryAvailable : sto (list Machine) :=
  url ← GetSabakanURL;
  vars ← try GetSabakanQueryVariables;
  match vars with
  | Err ErrNotFound => of_result (search url None)
  | Ok v => of_result (search url (Some v))
  | Err e => throw e
  end.

Definition unhealthy_machines : QueryVariables :=
  mkQueryVariables
    (Some (mkMachineParams [] [] [] [StateUnhealthy; StateUnreachable] None))
    (Some (mkMachineParams [] [] ["boot"] [] None)).
Definition QueryNonHealthy : sto (list Machine) :=
  url ← GetSabakanURL;
  vars ← try GetAutoRepairQueryVariables;
  match vars with
  | Err ErrNotFound => of_result (search url (Some unhealthy_machines))
  | Ok v => of_result (search url (Some v))
  | Err e => throw e
  end.

(** The configuration to write, if any. *)
Definition new_cluster (g : Generator) (cluster : option Cluster) (tmplUpdated onlyRegenerate : bool)
    : go (result (option (plan * Cluster))) :=
  let regenerate c := r ← Regenerate g c; Ret match r with Ok x => Ok (Some x) | Err e => Err e end in
  match cluster with
  | None =>
      if onlyRegenerate then Ret (Ok None)
      else r ← Generate g; Ret match r with Ok x => Ok (Some x) | Err e => Err e end
  | Some c =>
      if onlyRegenerate then if tmplUpdated then regenerate c else Ret (Ok None)
      else
        r ← Update g c;
        match r with
        | Ok None => if tmplUpdated then regenerate c else Ret (Ok None)
        | r => Ret r
        end
  end.

Definition generator_for (tmpl : Cluster) (cstr : Constraints) (machines : list Machine)
    (clusterStatus : option ClusterStatus) : go Generator :=
  g ← NewGenerator tmpl cstr machines clusterStatus now;
  Ret match waitSecs with Some secs => SetWaitSeconds g secs | None => g end.

Definition runGenerator (leaderKey : string) (clusterStatus : option ClusterStatus)
    (onlyRegenerate : bool) : sto unit :=
  disabled ← IsSabakanDisabled;
  if (disabled : bool) then mret tt
  else
    t ← try GetSabakanTemplate;
    match t with
    | Err ErrNotFound => mret tt
    | Err e => throw e
    | Ok (tmpl, rev) =>
        machines ← try QueryAvailable;
        match machines with
        | Err _ => mret tt
        | Ok machines =>
            stored ← try GetClusterWithRevision;
            '(cluster, crev) ← match stored with
                               | Ok (c, crev) => mret (Some c, crev)
                               | Err ErrNotFound => mret (None, 0)
                               | Err e => throw e
                               end;
            cstr ← try GetConstraints;
            cstr ← match cstr with
                   | Err ErrNotFound => mret DefaultConstraints
                   | r => of_result r
                   end;
            g ← of_go (generator_for tmpl cstr machines clusterStatus);
            newc ← of_go (new_cluster g cluster (negb (rev =? crev)) onlyRegenerate);
            match newc with
            | Err _ | Ok None => mret tt
            | Ok (Some (_, c)) => PutClusterWithTemplateRevision c rev leaderKey
            end
        end
    end.

Fixpoint register_all (attempts : nat) (entries : list RepairQueueEntry) : sto unit :=
  match entries with
  | [] => mret tt
  | entry :: rest => _ ← RegisterRepairsEntry attempts entry; register_all attempts rest
  end.

Definition runRepairer (attempts : nat) (clusterStatus : option ClusterStatus) : sto unit :=
  match clusterStatus with
  | None => throw errClusterNotFound
  | Some cs =>
      disabled ← IsAutoRepairDisabled;
      if (disabled : bool) then mret tt
      else
        machines ← try QueryNonHealthy;
        match machines with
        | Err _ => mret tt
        | Ok machines =>
            rebootEntries ← GetRebootsEntries;
            constraints ← GetConstraints;
            register_all attempts
              (Repairer (rps_Entries (cs_RepairQueue cs)) (DedupRebootQueueEntries rebootEntries)
                 (cs_NodeStatuses cs) constraints machines)
        end
  end.

Definition Init (leaderKey : string) : sto unit := runGenerator leaderKey None true.
Definition Do (attempts : nat) (leaderKey : string) (clusterStatus : option ClusterStatus) : sto unit :=
  _ ← runGenerator leaderKey clusterStatus false; runRepairer attempts clusterStatus.
End run.
End integrate.

(** ** What a run may write *)
Section reads.
  Context {T : K8sTypes} `{!Etcd}.

(** Operations that only read. *)
Definition reads {A} (m : sto A) : Prop := forall d, kvs (fst (m d)) = kvs d.

Lemma reads_ret {A} (a : A) : reads (mret a).
Proof. done. Qed.
Lemma reads_throw {A} e : reads (throw (A := A) e).
Proof. done. Qed.
Lemma reads_panic {A} w : reads (panic (A := A) w).
Proof. done. Qed.
Lemma reads_bind {A B} (m : sto A) (k : A -> sto B) : reads m -> (forall a, reads (k a)) -> reads (m ≫= k).
Proof.
  intros Hm Hk d. specialize (Hm d). unfold mbind, sto_bind.
  destruct (m d) as [d1 [[a|e]|w|]]; cbn in *; [by rewrite Hk|done..].
Qed.
Lemma reads_try {A} (m : sto A) : reads m -> reads (try m).
Proof. intros Hm d. specialize (Hm d). unfold try. by destruct (m d) as [d1 [|w|]]. Qed.
Lemma reads_Get key : reads (Get key).
Proof. intros d. by destruct (Get_cases key d) as (d' & Hs & [->| ->]). Qed.
Lemma reads_gets keys : reads (request (etcd_gets keys)).
Proof.
  intros d. unfold request. destruct (etcd_gets keys d) as [d' r] eqn:Hg.
  apply gets_spec in Hg as [? _]. by destruct r.
Qed.
Lemma reads_of_go {A} (m : go A) : reads (of_go m).
Proof. by destruct m. Qed.
Lemma reads_of_result {A} (r : result A) : reads (of_result r).
Proof. by destruct r. Qed.

(** An operation that starts by reading. *)
Lemma reads_first {A B} (m : sto A) (k : A -> sto B) d d' o :
  reads m -> (m ≫= k) d = (d', o) ->
  kvs d' = kvs d \/ exists a d1, m d = (d1, Done (Ok a)) /\ kvs d1 = kvs d /\ k a d1 = (d', o).
Proof.
  intros Hm. specialize (Hm d). unfold mbind, sto_bind.
  destruct (m d) as [d1 [[a|e]|w|]]; cbn in *; [intros; right; eauto|intros [= <- _]; by left..].
Qed.
Lemma try_Ok {A} (m : sto A) d d1 (a : A) : try m d = (d1, Done (Ok (Ok a))) -> m d = (d1, Done (Ok a)).
Proof. unfold try. destruct (m d) as [d2 [r|w|]]; intros [=]; by subst. Qed.
Lemma try_Err {A} (m : sto A) d d1 e : try m d = (d1, Done (Ok (Err e))) -> m d = (d1, Done (Err e)).
Proof. unfold try. destruct (m d) as [d2 [r|w|]]; intros [=]; by subst. Qed.
Lemma of_go_Ok {A} (m : go A) d d1 (a : A) : of_go m d = (d1, Done (Ok a)) -> m = Ret a.
Proof. destruct m; unfold of_go, mret, sto_ret, panic; congruence. Qed.
End reads.

Create HintDb reads.
#[export] Hint Resolve reads_ret reads_throw reads_panic reads_Get reads_gets reads_of_go reads_of_result
  reads_try : reads.
Ltac solve_reads :=
  repeat first [ by auto with reads | apply reads_bind; [|intros ?] | apply reads_try
               | match goal with |- reads (match ?x with _ => _ end) => destruct x end ].

Section stored.
  Context {T : K8sTypes} {K : K8s} `{Runtime} `{!Etcd}.
  Context (search : string -> option QueryVariables -> result (list Machine))
    (now : Z) (waitSecs : option float64).

Lemma reads_IsSabakanDisabled : reads IsSabakanDisabled.
Proof. unfold IsSabakanDisabled, get_flag. solve_reads. Qed.
Lemma reads_GetSabakanTemplate : reads GetSabakanTemplate.
Proof. unfold GetSabakanTemplate, cluster_of, malformed. solve_reads. Qed.
Lemma reads_QueryAvailable : reads (QueryAvailable search).
Proof.
  unfold QueryAvailable, GetSabakanURL, getStringValue, text_of, malformed, GetSabakanQueryVariables, get_variables, malformed.
  solve_reads.
Qed.
Lemma reads_GetClusterWithRevision : reads GetClusterWithRevision.
Proof. unfold GetClusterWithRevision, cluster_of, text_of, malformed. solve_reads. Qed.
Lemma reads_GetConstraints : reads GetConstraints.
Proof. unfold GetConstraints, malformed. solve_reads. Qed.

(** *** What was read *)
Lemma Get_Ok key d d1 r : Get key d = (d1, Done (Ok r)) -> r = kvs d !! key.
Proof. by destruct (Get_cases key d) as (d' & _ & [->| ->]); intros [=]. Qed.
Lemma Get_Err key d d1 e : Get key d = (d1, Done (Err e)) -> e = ErrRequest.
Proof. by destruct (Get_cases key d) as (d' & _ & [->| ->]); intros [=]. Qed.

Lemma enabled_stored d d1 r :
  IsSabakanDisabled d = (d1, Done (Ok false)) -> kvs d !! KeySabakanDisabled <> Some (mkKV (Text "true") r).
Proof.
  unfold IsSabakanDisabled, get_flag, mbind, sto_bind. destruct (Get _ d) as [d2 [[kv|]|w|]] eqn:Hg; [|done..].
  apply Get_Ok in Hg as ->. by intros Ho Hk; rewrite Hk in Ho.
Qed.

Lemma template_stored d d1 tmpl rev :
  GetSabakanTemplate d = (d1, Done (Ok (tmpl, rev))) ->
  kvs d !! KeySabakanTemplate = Some (mkKV (ClusterJSON tmpl) rev).
Proof.
  unfold GetSabakanTemplate, mbind, sto_bind. destruct (Get _ d) as [d2 [[kv|]|w|]] eqn:Hg; [|done..].
  apply Get_Ok in Hg as ->. destruct (kvs d !! _) as [[v r]|]; [|done]. unfold cluster_of.
  destruct v; cbn; intros [=]; by subst.
Qed.

(** The stored configuration and constraints. *)
Definition stored_cluster (m : gmap string KV) : option Cluster :=
  match m !! KeyCluster with Some (mkKV (ClusterJSON c) _) => Some c | _ => None end.
Definition stored_constraints (m : gmap string KV) : option Constraints :=
  match m !! KeyConstraints with Some (mkKV (ConstraintsJSON c) _) => Some c | _ => None end.

(** The revision of the template the configuration was generated from, 0 if there is none. *)
Definition stored_revision (m : gmap string KV) : Z :=
  match m !! KeyCluster, m !! KeyClusterRevision with
  | Some _, Some (mkKV (Text s) _) => default 0 (ParseInt s)
  | _, _ => 0
  end.
Definition stored_variables (m : gmap string KV) : option QueryVariables :=
  match m !! KeySabakanQueryVariables with Some (mkKV (VariablesJSON v) _) => Some v | _ => None end.

Lemma cluster_stored d d1 c crev :
  GetClusterWithRevision d = (d1, Done (Ok (c, crev))) ->
  stored_cluster (kvs d) = Some c /\ stored_revision (kvs d) = crev.
Proof.
  unfold GetClusterWithRevision, mbind, sto_bind, request, stored_cluster, stored_revision.
  destruct (etcd_gets _ d) as [d2 [l|]] eqn:Hg; [|done]. apply gets_spec in Hg as [_ Hl].
  rewrite (Hl l eq_refl). cbn. destruct (kvs d !! KeyCluster) as [[v r]|]; [|done]. unfold cluster_of.
  destruct v; cbn; try done. destruct (kvs d !! KeyClusterRevision) as [[v' r']|]; [|by intros [=]; subst].
  unfold text_of. destruct v'; cbn; try done. destruct (ParseInt _); [|done]. by intros [=]; subst.
Qed.
Lemma cluster_not_stored d d1 :
  GetClusterWithRevision d = (d1, Done (Err ErrNotFound)) ->
  stored_cluster (kvs d) = None /\ stored_revision (kvs d) = 0.
Proof.
  unfold GetClusterWithRevision, mbind, sto_bind, request, stored_cluster, stored_revision.
  destruct (etcd_gets _ d) as [d2 [l|]] eqn:Hg; [|done]. apply gets_spec in Hg as [_ Hl].
  rewrite (Hl l eq_refl). cbn. destruct (kvs d !! KeyCluster) as [[v r]|]; [|done]. unfold cluster_of.
  destruct v; cbn; try done. destruct (kvs d !! KeyClusterRevision) as [[v' r']|]; [|by intros [=]; subst].
  unfold text_of. destruct v'; cbn; try done. by destruct (ParseInt _).
Qed.
Lemma constraints_stored d d1 c :
  (try GetConstraints ≫= fun r => match r with Err ErrNotFound => mret DefaultConstraints | r => of_result r end) d
    = (d1, Done (Ok c)) ->
  c = default DefaultConstraints (stored_constraints (kvs d)).
Proof.
  unfold try, GetConstraints, mbind, sto_bind, stored_constraints.
  destruct (Get _ d) as [d2 [[kv|e]|w|]] eqn:Hg; cbn; [|by apply Get_Err in Hg as ->|done..].
  apply Get_Ok in Hg as ->. destruct (kvs d !! _) as [[v r]|]; cbn; [|by intros [=]].
  destruct v; cbn; intros [=]; by subst.
Qed.

Lemma variables_stored d d1 r :
  GetSabakanQueryVariables d = (d1, Done r) ->
  (forall v, r = Ok v -> stored_variables (kvs d) = Some v)
  /\ (r = Err ErrNotFound -> stored_variables (kvs d) = None).
Proof.
  unfold GetSabakanQueryVariables, get_variables, mbind, sto_bind, stored_variables.
  destruct (Get _ d) as [d2 [[kv|e]|w|]] eqn:Hg; cbn; [|apply Get_Err in Hg as ->; by intros [= _ <-]|done..].
  apply Get_Ok in Hg as ->. destruct (kvs d !! _) as [[v rv]|]; cbn; [|by intros [= _ <-]].
  destruct v; cbn; intros [= _ <-]; (split; [by intros ? [= ->]|done]).
Qed.
Lemma url_stored d d1 url :
  GetSabakanURL d = (d1, Done (Ok url)) -> exists r, kvs d !! KeySabakanURL = Some (mkKV (Text url) r).
Proof.
  unfold GetSabakanURL, getStringValue, mbind, sto_bind.
  destruct (Get _ d) as [d2 [[kv|]|w|]] eqn:Hg; [|done..].
  apply Get_Ok in Hg as ->. destruct (kvs d !! _) as [[v r]|]; [|done]. unfold text_of.
  destruct v; cbn; intros [=]; subst; eauto.
Qed.
Lemma reads_GetSabakanURL : reads GetSabakanURL.
Proof. unfold GetSabakanURL, getStringValue, text_of, malformed. solve_reads. Qed.
Lemma search_answers d d1 machines :
  QueryAvailable search d = (d1, Done (Ok machines)) ->
  exists url r, kvs d !! KeySabakanURL = Some (mkKV (Text url) r)
    /\ search url (stored_variables (kvs d)) = Ok machines.
Proof.
  unfold QueryAvailable, mbind, sto_bind. pose proof (reads_GetSabakanURL d) as Hd.
  destruct (GetSabakanURL d) as [d2 [[url|]|w|]] eqn:Hu; [|done..]. apply url_stored in Hu as [r Hu]. cbn in Hd.
  destruct (try _ d2) as [d3 [[rv|]|w|]] eqn:Hv; try done.
  assert (GetSabakanQueryVariables d2 = (d3, Done rv)) as [Hok Hnone]%variables_stored.
  { revert Hv. unfold try. destruct (GetSabakanQueryVariables d2) as [d4 [|w|]]; intros [=]; by subst. }
  rewrite Hd in Hok, Hnone. intros Hs. exists url, r. split; [done|]. destruct rv as [v|[]]; try done.
  - rewrite (Hok v eq_refl). unfold of_result in Hs. by destruct (search url _); injection Hs as _ <-.
  - rewrite (Hnone eq_refl). unfold of_result in Hs. by destruct (search url _); injection Hs as _ <-.
Qed.

(** *** What is written *)
Lemma fill_valid g p op p' c : fill g p op = Ret (Ok (p', c)) -> Validate c false = None.
Proof.
  unfold fill. intros (r1 & _ & Hk)%bind_Ret_inv. destruct r1 as [[p1 op1]|]; [|done].
  apply bind_Ret_inv in Hk as (r2 & _ & Hk). destruct r2 as [[p2 op2]|]; [|done].
  apply bind_Ret_inv in Hk as (nodes & _ & Hk). destruct (Validate _ false) eqn:Hv; [done|].
  by injection Hk as _ <-.
Qed.
Lemma filled_valid g p op p' c : filled g p op = Ret (Ok (Some (p', c))) -> Validate c false = None.
Proof.
  intros (r & Hf & Hk)%bind_Ret_inv. destruct r as [[p1 c1]|]; [|done]. injection Hk as -> ->.
  by eapply fill_valid.
Qed.
Lemma Update_valid g current p c : Update g current = Ret (Ok (Some (p, c))) -> Validate c false = None.
Proof.
  unfold Update. fold (filled g). destruct (removeNonExistentNode g _ _) as [[p0 [op|]]|]; [apply filled_valid| |done].
  destruct (increaseControlPlane g p0); [apply filled_valid|].
  intros ([p1 [op|]] & _ & Hk)%bind_Ret_inv; [by eapply filled_valid|].
  apply bind_Ret_inv in Hk as ([p2 [op|]] & _ & Hk); [by eapply filled_valid|].
  apply bind_Ret_inv in Hk as ([p3 [op|]] & _ & Hk); [by eapply filled_valid|].
  apply bind_Ret_inv in Hk as ([op|] & _ & Hk); [by eapply filled_valid|done].
Qed.

Lemma generator_for_ok tmpl cstr machines st g :
  generator_for now waitSecs tmpl cstr machines st = Ret g ->
  generator_ok g /\ g_constraints g = cstr /\ g_machineMap g = machine_map machines.
Proof.
  unfold generator_for. intros (g0 & Hg & [= <-])%bind_Ret_inv.
  pose proof (NewGenerator_ok _ _ _ _ _ _ Hg) as [? ? ?].
  unfold NewGenerator in Hg. apply bind_Ret_inv in Hg as (nm & _ & [= <-]).
  destruct waitSecs; cbn; (split; [split; assumption|done]).
Qed.

(** A configuration that takes the place of [cur]. *)
Record replaces (g : Generator) (cur c : Cluster) : Prop := {
  rp_quorum : keeps_quorum g cur c;
  rp_nodes : keeps_nodes g cur c
}.

Lemma updated_replaces g cur p ch p' c :
  generator_ok g -> updated g (ControlPlanes (c_Nodes cur)) (Workers (c_Nodes cur)) p ch p' c ->
  replaces g cur c.
Proof.
  intros Hok Hup. split; [by eapply updated_keeps_quorum|by eapply updated_keeps_nodes].
Qed.

(** How a configuration is made: generated when none is stored, else an update of the stored one if one
    is due, and otherwise the stored one regenerated after a change of the template. *)
Definition made (g : Generator) (cluster : option Cluster) (tmplUpdated onlyRegenerate : bool) (p : plan)
    (c : Cluster) : Prop :=
  match cluster with
  | None => onlyRegenerate = false /\ Generate g = Ret (Ok (p, c))
  | Some cur =>
      (onlyRegenerate = false /\ Update g cur = Ret (Ok (Some (p, c))))
      \/ (tmplUpdated = true /\ (onlyRegenerate = true \/ Update g cur = Ret (Ok None))
          /\ Regenerate g cur = Ret (Ok (p, c)))
  end.

Lemma new_cluster_made g cluster b only p c :
  new_cluster g cluster b only = Ret (Ok (Some (p, c))) -> made g cluster b only p c.
Proof.
  assert (forall cur, (r ← Regenerate g cur; Ret match r with Ok x => Ok (Some x) | Err e => Err e end)
      = Ret (Ok (Some (p, c))) -> Regenerate g cur = Ret (Ok (p, c))) as Hre.
  { intros cur (r & -> & Hk)%bind_Ret_inv. destruct r as [[? ?]|]; [|done]. congruence. }
  unfold new_cluster, made. destruct cluster as [cur|].
  - destruct only; [destruct b; [|done]; intros Hr; right; auto|].
    intros (r & Hu & Hk)%bind_Ret_inv. destruct r as [[x|]|]; [left; split; [done|congruence]| |done].
    destruct b; [|done]. right. auto.
  - destruct only; [done|]. intros (r & Hg & Hk)%bind_Ret_inv. destruct r as [[? ?]|]; [|done].
    by injection Hk as -> ->.
Qed.
Lemma Regenerate_valid g cur p c : Regenerate g cur = Ret (Ok (p, c)) -> Validate c false = None.
Proof.
  unfold Regenerate. destruct (nodesToMachines g _). destruct (0 <? _); [done|].
  destruct (nodesToMachines g _). destruct (0 <? _); [done|]. apply fill_valid.
Qed.
Lemma made_valid g cluster b only p c : made g cluster b only p c -> Validate c false = None.
Proof.
  unfold made. destruct cluster as [cur|]; [|intros [_ Hg]; by eapply fill_valid].
  intros [[_ Hu]|(_ & _ & Hr)]; [by eapply Update_valid|by eapply Regenerate_valid].
Qed.
Lemma made_replaces g cur b only p c :
  generator_ok g -> made g (Some cur) b only p c -> NoDup (addresses cur) -> ControlPlanes (c_Nodes cur) <> [] ->
  replaces g cur c.
Proof.
  intros Hok [[_ Hu]|(_ & _ & Hr)] Hnd Hcp.
  - destruct (Update_Some g Hok cur p c Hnd Hu) as (p0 & ch & Hup). by eapply updated_replaces.
  - destruct (Regenerate_updated g Hok cur p c Hnd Hcp Hr) as (p0 & ch & Hup). by eapply updated_replaces.
Qed.

(** What a run of the generator writes. *)
Record generated_cluster leaderKey st only (m m' : gmap string KV) (tmpl c : Cluster) (rev rev' : Z)
    (machines : list Machine) (g : Generator) (p : plan) : Prop := {
  gc_template : m !! KeySabakanTemplate = Some (mkKV (ClusterJSON tmpl) rev);
  gc_enabled : forall r, m !! KeySabakanDisabled <> Some (mkKV (Text "true") r);
  gc_leader : is_Some (m !! leaderKey);
  gc_search : exists url r, m !! KeySabakanURL = Some (mkKV (Text url) r)
    /\ search url (stored_variables m) = Ok machines;
  gc_generator : generator_for now waitSecs tmpl (default DefaultConstraints (stored_constraints m))
                   machines st = Ret g;
  gc_made : made g (stored_cluster m) (negb (rev =? stored_revision m)) only p c;
  gc_written : m' = <[ KeyClusterRevision := mkKV (Text (FormatInt rev)) rev' ]>
                      (<[ KeyCluster := mkKV (ClusterJSON c) rev' ]> m);
  gc_valid : Validate c false = None;
  gc_replaces : forall cur, stored_cluster m = Some cur -> NoDup (addresses cur) ->
    ControlPlanes (c_Nodes cur) <> [] -> replaces g cur c
}.

Lemma put_generated leaderKey st m d d' o tmpl c p rev machines g only :
  m !! KeySabakanTemplate = Some (mkKV (ClusterJSON tmpl) rev) ->
  (forall r, m !! KeySabakanDisabled <> Some (mkKV (Text "true") r)) ->
  (exists url r, m !! KeySabakanURL = Some (mkKV (Text url) r) /\ search url (stored_variables m) = Ok machines) ->
  generator_for now waitSecs tmpl (default DefaultConstraints (stored_constraints m)) machines st = Ret g ->
  made g (stored_cluster m) (negb (rev =? stored_revision m)) only p c -> kvs d = m ->
  PutClusterWithTemplateRevision c rev leaderKey d = (d', o) ->
  kvs d' = m \/ exists rev', generated_cluster leaderKey st only m (kvs d') tmpl c rev rev' machines g p.
Proof.
  intros Ht He Hs Hg Hn Hm Hput. unfold PutClusterWithTemplateRevision in Hput.
  destruct (generator_for_ok _ _ _ _ _ Hg) as [Hok _]. pose proof (made_valid _ _ _ _ _ _ Hn) as Hv.
  assert (kvs d' = m \/ is_Some (m !! leaderKey)
          /\ applied [OpPut KeyCluster (ClusterJSON c); OpPut KeyClusterRevision (Text (FormatInt rev))]
               m (kvs d')) as [?|[Hl (rev' & _ & _ & Hw)]]; [|by left|].
  - destruct (as_leader_cases leaderKey [OpPut KeyCluster (ClusterJSON c);
      OpPut KeyClusterRevision (Text (FormatInt rev))] d) as (d1 & Hd1). rewrite Hput in Hd1.
    destruct Hd1 as [([= -> ->] & ? & ?)|[([= -> ->] & _ & ?)|([= -> ->] & [?|[? ?]])]]; subst m; auto.
  - right. exists rev'. split; try done. intros cur Hcur. rewrite Hcur in Hn. by eapply made_replaces.
Qed.

Lemma runGenerator_cases leaderKey st only d d' o :
  runGenerator search now waitSecs leaderKey st only d = (d', o) ->
  kvs d' = kvs d
  \/ exists tmpl c rev rev' machines g p,
       generated_cluster leaderKey st only (kvs d) (kvs d') tmpl c rev rev' machines g p.
Proof.
  unfold runGenerator.
  intros [?|([] & d1 & H1 & E1 & Hk)]%(reads_first _ _ _ _ _ reads_IsSabakanDisabled);
    [by left|injection Hk as <- _; by left|].
  apply reads_first in Hk as [->|(t & d2 & H2 & E2 & Hk)]; [by left| |apply reads_try, reads_GetSabakanTemplate].
  destruct t as [[tmpl rev]|e].
  2:{ left. destruct e; injection Hk as <- _; congruence. }
  apply reads_first in Hk as [->|(ms & d3 & H3 & E3 & Hk)]; [by left; congruence| |apply reads_try, reads_QueryAvailable].
  destruct ms as [machines|e]; [|left; injection Hk as <- _; congruence].
  apply reads_first in Hk as [->|(r & d4 & H4 & E4 & Hk)];
    [by left; congruence| |apply reads_try, reads_GetClusterWithRevision].
  apply reads_first in Hk as [->|([cluster crev] & d5 & H5 & E5 & Hk)]; [by left; congruence| |solve_reads].
  apply reads_first in Hk as [->|(r6 & d6 & H6 & E6 & Hk)]; [by left; congruence| |apply reads_try, reads_GetConstraints].
  apply reads_first in Hk as [->|(cstr & d7 & H7 & E7 & Hk)]; [by left; congruence| |solve_reads].
  apply reads_first in Hk as [->|(g & d8 & H8 & E8 & Hk)]; [by left; congruence| |apply reads_of_go].
  apply reads_first in Hk as [->|(n & d9 & H9 & E9 & Hk)]; [by left; congruence| |apply reads_of_go].
  destruct n as [[[p c]|]|e]; [|left; injection Hk as <- _; congruence..].
  assert (kvs d9 = kvs d) as Hd by congruence.
  destruct (put_generated leaderKey st (kvs d) d9 d' o tmpl c p rev machines g only)
    as [?|[rev' ?]]; try done; [..|by left|by right; eauto 10].
  - rewrite <- E1. by eapply template_stored, try_Ok.
  - intros r'. by eapply enabled_stored.
  - replace (kvs d) with (kvs d2) by congruence. by eapply search_answers, try_Ok.
  - replace (kvs d) with (kvs d5) by congruence. rewrite <- (constraints_stored d5 d7 cstr).
    + by eapply of_go_Ok.
    + unfold mbind, sto_bind. by rewrite H6.
  - assert (stored_cluster (kvs d) = cluster /\ stored_revision (kvs d) = crev) as [-> ->].
    { replace (kvs d) with (kvs d3) by congruence. destruct r as [[c0 crev0]|e].
      + injection H5 as <- <- <-. by eapply cluster_stored, try_Ok.
      + destruct e; try done. injection H5 as <- <- <-. by eapply cluster_not_stored, try_Err. }
    by eapply new_cluster_made, of_go_Ok.
Qed.

(** C10: what a run of the sabakan integration may do to the stored configuration.
    It changes nothing, or it stores, as the leader, with the integration enabled, what the
    generator made of the stored template and constraints and of the machines sabakan
    answered to the stored query at the stored URL: a new configuration when none is stored,
    an update of the stored one, or the stored one regenerated when the template has
    changed.  It is valid; and if one was stored before, the quorum of etcd and all nodes
    whose machines still exist are kept, except for at most one that has been retired for
    a while. *)
Theorem sabakan_run_safe leaderKey st only d d' o :
  runGenerator search now waitSecs leaderKey st only d = (d', o) ->
  kvs d' = kvs d
  \/ exists tmpl c rev rev' machines g p,
       generated_cluster leaderKey st only (kvs d) (kvs d') tmpl c rev rev' machines g p.
Proof. apply runGenerator_cases. Qed.

(** While there is no status of the cluster, and there is none before a
    configuration is stored, a run of the integration fails; also the one that
    stores the first configuration, with [errClusterNotFound]. *)
Theorem integration_needs_status attempts leaderKey d :
  let '(d', o) := runGenerator search now waitSecs leaderKey None false d in
  Do search now waitSecs attempts leaderKey None d
  = (d', match o with Done (Ok _) => Done (Err errClusterNotFound) | o => o end).
Proof.
  unfold Do, mbind, sto_bind. by destruct (runGenerator _ _ _ _ _ _ d) as [d' [[?|?]|?|]].
Qed.
End stored.

(** ** A first run *)
Section example.
#[local] Existing Instance sample_types.
#[local] Existing Instance sample_k8s.
#[local] Existing Instance std_runtime.
#[local] Existing Instance memory_etcd.

Definition sabakan_store : etcd :=
  {[ "leader/1" := (Text "host", 1%positive);
     KeySabakanTemplate := (ClusterJSON sample_template, 2%positive);
     KeySabakanURL := (Text "http://localhost:10080", 3%positive);
     KeyConstraints := (ConstraintsJSON (sample_constraints 3), 4%positive) ]}.
Definition sabakan_answers (url : string) (vars : option QueryVariables) : result (list Machine) :=
  if (url =? "http://localhost:10080")%string then Ok machines4 else Err (ErrUnexpected "no such host").
Definition integration_time : Z := 1800000000 * 10 ^ 9.

Definition has_cluster (d : etcd) : bool := match stored_cluster (kvs d) with Some _ => true | None => false end.
Example first_run :
  match Do sabakan_answers integration_time None 1 "leader/1" None sabakan_store with
  | (d, Done (Err e)) => bool_decide (e = errClusterNotFound) && has_cluster d
  | _ => false
  end = true.
Proof. vm_compute. reflexivity. Qed.

Definition sabakan_ran : etcd * outcome unit :=
  runGenerator sabakan_answers integration_time None "leader/1" None false sabakan_store.
Lemma sabakan_run_safe_witness :
  has_cluster (fst sabakan_ran) = true
  /\ (kvs (fst sabakan_ran) = kvs sabakan_store
      \/ exists tmpl c rev rev' machines g p,
           generated_cluster sabakan_answers integration_time None "leader/1" None false (kvs sabakan_store)
             (kvs (fst sabakan_ran)) tmpl c rev rev' machines g p).
Proof.
  split; [vm_compute; reflexivity|].
  apply (sabakan_run_safe sabakan_answers integration_time None "leader/1" None false sabakan_store (fst sabakan_ran)
           (snd sabakan_ran)).
  apply (ran sabakan_ran). reflexivity.
Defined.
End example.
