(* ===== verification/Cli.v ===== *)
(** * The command-line interface (pkg/ckecli/cmd)

    The commands of ckecli that read and write the storage.  ckecli does not talk to the
    server; the server sees what it stored at its next round.  Files are given as what they
    contain: a text, the documents in it, or the value that is decoded from it.  What the
    commands print is left out. *)

From Stdlib Require Import ZArith Ascii String Lia.
From stdpp Require Import base gmap strings list.
From S2P Require Import Prelude GoLib GoFormat K8s Cluster Queue Resource Status SabakanQuery Storage Params Sabakan Integrate.

(** ** strings.Fields

    The decoder of UTF-8 stops at every byte that starts a character, so that white space
    can be looked for byte by byte. *)
Definition emit (field : string) (fields : list string) : list string :=
  match field with EmptyString => fields | _ => field :: fields end.
(** [field] has the bytes read since the last white space. *)
Fixpoint fields_from (fuel : nat) (field s : string) : list string :=
  match fuel with
  | O => emit field []
  | S n => match List.find (HasPrefix s) space_encodings with
           | Some sp => emit field (fields_from n EmptyString
                          (String.substring (String.length sp) (String.length s - String.length sp) s))
           | None => match s with
                     | EmptyString => emit field []
                     | String c s' => fields_from n (field +:+ String c EmptyString) s'
                     end
           end
  end.
Definition Fields (s : string) : list string := fields_from (S (String.length s)) EmptyString s.

(** ** Resources (resource.go)

    The decoder of Kubernetes objects gives the parts of an object that are used. *)
Record Unstructured := mkUnstructured {
  u_APIVersion : string;
  u_Kind : string;
  u_Namespace : string;
  u_Name : string
}.
Class Decoder := { decode_unstructured : string -> option Unstructured }.

Definition ParseResource `{Decoder} (data : string) : result string :=
  match decode_unstructured data with
  | None => Err (ErrUnexpected "failed to decode")
  | Some obj =>
      if (u_Name obj =? "")%string then Err (ErrUnexpected "no name")
      else if (u_APIVersion obj =? "")%string then Err (ErrUnexpected "no apiVersion")
      else if (u_Namespace obj =? "")%string then Ok (u_Kind obj +:+ "/" +:+ u_Name obj)
      else Ok (u_Kind obj +:+ "/" +:+ u_Namespace obj +:+ "/" +:+ u_Name obj)
  end.

Section cli.
  Context {T : K8sTypes} {K : K8s} `{Runtime} `{!Etcd} `{Decoder}.
  (** The rounds of a compare-and-swap loop. *)
  Context (cas : nat).

Definition unless (e : option error) : sto unit :=
  match e with Some e => throw e | None => mret tt end.
(** [err == cke.ErrNotFound] is not an error. *)
Definition ignoring_NotFound (m : sto unit) : sto unit := fun d =>
  match m d with
  | (d', Done (Err ErrNotFound)) => (d', Done (Ok tt))
  | r => r
  end.
Definition parse_index (arg : string) : sto Z :=
  match ParseInt arg with Some index => mret index | None => throw (ErrUnexpected "invalid syntax") end.

(** ** The reboot queue *)
Definition validateNode (rebootNode : string) (cluster : Cluster) : option error :=
  if existsb (fun clusterNode => (rebootNode =? node_Address clusterNode)%string) (c_Nodes cluster) then None
  else Some (ErrUnexpected (rebootNode +:+ " is not a valid node IP address")).
Fixpoint add_reboots (nodes : list string) : sto unit :=
  match nodes with
  | [] => mret tt
  | node :: rest =>
      let entry := NewRebootQueueEntry node in
      cluster ← GetCluster;
      _ ← unless (validateNode node cluster);
      _ ← RegisterRebootsEntry cas entry;
      add_reboots rest
  end.
Definition rebootQueueAdd (data : string) : sto unit := add_reboots (Fields data).

Definition set_reboot_status (status : string) (e : RebootQueueEntry) : RebootQueueEntry :=
  mkRebootQueueEntry (rqe_Index e) (rqe_Node e) status (rqe_LastTransitionTime e)
    (rqe_DrainBackOffCount e) (rqe_DrainBackOffExpire e).
Definition rebootQueueCancel (arg : string) : sto unit :=
  index ← parse_index arg;
  entry ← GetRebootsEntry index;
  UpdateRebootsEntry cas (set_reboot_status RebootStatusCancelled entry).
Fixpoint cancel_entries (entries : list RebootQueueEntry) : sto unit :=
  match entries with
  | [] => mret tt
  | entry :: rest =>
      if (rqe_Status entry =? RebootStatusCancelled)%string then cancel_entries rest
      else
        _ ← ignoring_NotFound (UpdateRebootsEntry cas (set_reboot_status RebootStatusCancelled entry));
        cancel_entries rest
  end.
Definition rebootQueueCancelAll : sto unit := entries ← GetRebootsEntries; cancel_entries entries.

Definition reset_reboot (e : RebootQueueEntry) : RebootQueueEntry :=
  mkRebootQueueEntry (rqe_Index e) (rqe_Node e) (rqe_Status e) (rqe_LastTransitionTime e) 0 zero_time.
Fixpoint reset_reboots (entries : list RebootQueueEntry) : sto unit :=
  match entries with
  | [] => mret tt
  | entry :: rest =>
      _ ← ignoring_NotFound (UpdateRebootsEntry cas (reset_reboot entry)); reset_reboots rest
  end.
Definition rebootQueueResetBackoff : sto unit := entries ← GetRebootsEntries; reset_reboots entries.

(** ** The repair queue *)
Definition repairQueueAdd (operation machineType address serial : string) : sto unit :=
  let entry := NewRepairQueueEntry operation machineType address serial in
  cluster ← GetCluster;
  _ ← of_result (GetMatchingRepairOperation entry cluster);
  RegisterRepairsEntry cas entry.

Definition set_deleted (e : RepairQueueEntry) : RepairQueueEntry :=
  mkRepairQueueEntry (rpe_Index e) (rpe_Address e) (rpe_Nodename e) (rpe_Serial e) (rpe_MachineType e)
    (rpe_Operation e) (rpe_Status e) (rpe_Step e) (rpe_StepStatus e) true (rpe_LastTransitionTime e)
    (rpe_DrainBackOffCount e) (rpe_DrainBackOffExpire e).
Definition repairQueueDelete (arg : string) : sto unit :=
  index ← parse_index arg;
  entry ← GetRepairsEntry index;
  if rpe_Deleted entry then mret tt else UpdateRepairsEntry cas (set_deleted entry).
Fixpoint delete_finished (entries : list RepairQueueEntry) : sto unit :=
  match entries with
  | [] => mret tt
  | entry :: rest =>
      if rpe_Deleted entry || negb (HasFinished entry) then delete_finished rest
      else _ ← ignoring_NotFound (UpdateRepairsEntry cas (set_deleted entry)); delete_finished rest
  end.
Definition repairQueueDeleteFinished : sto unit := entries ← GetRepairsEntries; delete_finished entries.
Fixpoint delete_unfinished (entries : list RepairQueueEntry) : sto unit :=
  match entries with
  | [] => mret tt
  | entry :: rest =>
      if rpe_Deleted entry || HasFinished entry then delete_unfinished rest
      else _ ← ignoring_NotFound (UpdateRepairsEntry cas (set_deleted entry)); delete_unfinished rest
  end.
Definition repairQueueDeleteUnfinished : sto unit := entries ← GetRepairsEntries; delete_unfinished entries.

Definition reset_repair (e : RepairQueueEntry) : RepairQueueEntry :=
  mkRepairQueueEntry (rpe_Index e) (rpe_Address e) (rpe_Nodename e) (rpe_Serial e) (rpe_MachineType e)
    (rpe_Operation e) (rpe_Status e) (rpe_Step e) (rpe_StepStatus e) (rpe_Deleted e) (rpe_LastTransitionTime e)
    0 zero_time.
Fixpoint reset_repairs (entries : list RepairQueueEntry) : sto unit :=
  match entries with
  | [] => mret tt
  | entry :: rest =>
      _ ← ignoring_NotFound (UpdateRepairsEntry cas (reset_repair entry)); reset_repairs rest
  end.
Definition repairQueueResetBackoff : sto unit := entries ← GetRepairsEntries; reset_repairs entries.

(** ** The configuration *)
(** The stored constraints, or the default ones. *)
Definition current_constraints : sto Constraints := fun d =>
  match GetConstraints d with
  | (d', Done (Err ErrNotFound)) => (d', Done (Ok DefaultConstraints))
  | r => r
  end.
Definition clusterSet (cfg : Cluster) : sto unit :=
  _ ← unless (Validate cfg false);
  constraints ← current_constraints;
  _ ← unless (Constraints_Check constraints cfg);
  PutCluster cfg.

Definition cstrSet (name : string) (val : Z) (c : Constraints) : option Constraints :=
  if (name =? "control-plane-count")%string then
    Some (mkConstraints val (MinimumWorkersRate c) (RebootMaximumUnreachable c) (MaximumRepairs c)
            (RepairRebootingSeconds c))
  else if (name =? "minimum-workers-rate")%string then
    Some (mkConstraints (ControlPlaneCount c) val (RebootMaximumUnreachable c) (MaximumRepairs c)
            (RepairRebootingSeconds c))
  else if (name =? "maximum-unreachable-nodes-for-reboot")%string then
    Some (mkConstraints (ControlPlaneCount c) (MinimumWorkersRate c) val (MaximumRepairs c)
            (RepairRebootingSeconds c))
  else if (name =? "maximum-repair-queue-entries")%string then
    Some (mkConstraints (ControlPlaneCount c) (MinimumWorkersRate c) (RebootMaximumUnreachable c) val
            (RepairRebootingSeconds c))
  else if (name =? "wait-seconds-to-repair-rebooting")%string then
    Some (mkConstraints (ControlPlaneCount c) (MinimumWorkersRate c) (RebootMaximumUnreachable c)
            (MaximumRepairs c) val)
  else None.
(** The arguments are checked before the storage is read. *)
Definition constraintsSet (name arg : string) : sto unit :=
  match ParseInt arg, cstrSet name 0 DefaultConstraints with
  | None, _ => throw (ErrUnexpected "invalid syntax")
  | Some _, None => throw (ErrUnexpected ("no such constraint: " +:+ name))
  | Some val, Some _ =>
      cstr ← current_constraints;
      PutConstraints (default cstr (cstrSet name val cstr))
  end.

Definition sabakanSetTemplate (tmpl : Cluster) : sto unit :=
  _ ← unless (ValidateTemplate tmpl); SetSabakanTemplate tmpl.
Definition sabakanSetVariables (vars : QueryVariables) : sto unit :=
  _ ← unless (QueryVariables_IsValid vars); SetSabakanQueryVariables vars.
Definition autoRepairSetVariables (vars : QueryVariables) : sto unit :=
  _ ← unless (QueryVariables_IsValid vars); SetAutoRepairQueryVariables vars.

(** ** Resources *)
Definition updateResource (data : string) : sto unit :=
  key ← of_result (ParseResource data); SetResource key data.
(** The documents of a file, one after the other. *)
Fixpoint resourceSet (documents : list string) : sto unit :=
  match documents with
  | [] => mret tt
  | data :: rest => _ ← updateResource data; resourceSet rest
  end.
Fixpoint resourceDelete (documents : list string) : sto unit :=
  match documents with
  | [] => mret tt
  | data :: rest =>
      key ← of_result (ParseResource data);
      _ ← DeleteResource key;
      resourceDelete rest
  end.

(** ** Commands *)
Inductive ckecli : Type :=
| RebootQueueAdd (data : string)
| RebootQueueCancel (index : string)
| RebootQueueCancelAll
| RebootQueueResetBackoff
| RebootQueueEnable (flag : bool)
| RepairQueueAdd (operation machineType address serial : string)
| RepairQueueDelete (index : string)
| RepairQueueDeleteFinished
| RepairQueueDeleteUnfinished
| RepairQueueResetBackoff
| RepairQueueEnable (flag : bool)
| ClusterSet (cfg : Cluster)
| ConstraintsSet (name value : string)
| SabakanSetTemplate (tmpl : Cluster)
| SabakanSetVariables (vars : QueryVariables)
| SabakanEnable (flag : bool)
| AutoRepairSetVariables (vars : QueryVariables)
| AutoRepairEnable (flag : bool)
| ResourceSet (documents : list string)
| ResourceDelete (documents : list string).

Definition run_ckecli (c : ckecli) : sto unit :=
  match c with
  | RebootQueueAdd data => rebootQueueAdd data
  | RebootQueueCancel index => rebootQueueCancel index
  | RebootQueueCancelAll => rebootQueueCancelAll
  | RebootQueueResetBackoff => rebootQueueResetBackoff
  | RebootQueueEnable flag => EnableRebootQueue flag
  | RepairQueueAdd operation machineType address serial => repairQueueAdd operation machineType address serial
  | RepairQueueDelete index => repairQueueDelete index
  | RepairQueueDeleteFinished => repairQueueDeleteFinished
  | RepairQueueDeleteUnfinished => repairQueueDeleteUnfinished
  | RepairQueueResetBackoff => repairQueueResetBackoff
  | RepairQueueEnable flag => EnableRepairQueue flag
  | ClusterSet cfg => clusterSet cfg
  | ConstraintsSet name value => constraintsSet name value
  | SabakanSetTemplate tmpl => sabakanSetTemplate tmpl
  | SabakanSetVariables vars => sabakanSetVariables vars
  | SabakanEnable flag => EnableSabakan flag
  | AutoRepairSetVariables vars => autoRepairSetVariables vars
  | AutoRepairEnable flag => EnableAutoRepair flag
  | ResourceSet documents => resourceSet documents
  | ResourceDelete documents => resourceDelete documents
  end.
End cli.
