(* ===== verification/CliProps.v ===== *)
(** * What the commands of ckecli do to the queues

    Without other clients, each command that goes over a queue changes exactly the entries it
    is meant to, and adding reboots appends them.  With other clients, a command overwrites
    what happened to an entry since it read the queue. *)

From Stdlib Require Import ZArith Ascii String Lia.
From stdpp Require Import base gmap strings list sorting.
From S2P Require Import Prelude GoLib GoFormat GoPath K8s Cluster Queue Resource Status Storage StorageProps Integrate Cli.

(** ** Loops over a queue *)
Section update_all.
  Context {T : K8sTypes} `{!Etcd} {E : Type} `{!QueueEntry E}.
  Context (n : nat) (skip : E -> bool) (f : E -> E) (loop : list E -> sto unit).
  Implicit Types (q : queue E) (d : etcd) (e : E).

Hypothesis loop_nil : loop [] = mret tt.
Hypothesis loop_cons : forall e es,
  loop (e :: es) = if skip e then loop es else _ ← ignoring_NotFound (UpdateEntry (S n) (f e)); loop es.
Hypothesis skip_same : forall e, skip e = true -> f e = e.
Hypothesis index_same : forall e, entry_index (f e) = entry_index e.

(** The keys outside the entries of the queue. *)
Definition others_same (m m' : gmap string KV) : Prop :=
  forall key, HasPrefix key data_prefix = false -> m' !! key = m !! key.

Lemma UpdateEntry_others k r d : others_same (kvs d) (kvs (fst (UpdateEntry k r d))).
Proof.
  revert d. induction k as [|k IH]; intros d key Hk; cbn [UpdateEntry]; [done|]. unfold mbind, sto_bind.
  destruct (Get_cases (entry_key (entry_index r)) d) as (d1 & E1 & [-> | ->]); [|by cbn; rewrite E1].
  destruct (kvs d !! _) as [kv|]; [|by cbn; rewrite E1].
  assert (forall m', applied [OpPut (entry_key (entry_index r)) (to_value r)] (kvs d1) m' -> m' !! key = kvs d !! key) as Ha.
  { intros m' (rev & _ & _ & ->). cbn. rewrite lookup_insert_ne; [by rewrite E1|].
    intros <-. by rewrite entry_key_prefix in Hk. }
  destruct (Txn_cases [ModRevisionIs (entry_key (entry_index r)) (kv_ModRevision kv)]
              [OpPut (entry_key (entry_index r)) (to_value r)] d1)
    as (d2 & [(-> & _ & Hp)|[(-> & _ & E2)|(-> & [E2|[_ Hp]])]]); cbn.
  - by apply Ha.
  - rewrite (IH d2 key Hk). congruence.
  - congruence.
  - by apply Ha.
Qed.

(** A stored entry is replaced. *)
Lemma UpdateEntry_stored r d d' q :
  stored (kvs d) q -> is_Some (q_entries q !! entry_index r) ->
  ignoring_NotFound (UpdateEntry (S n) r) d = (d', Done (Ok tt)) ->
  stored (kvs d') (replace r q) /\ others_same (kvs d) (kvs d').
Proof.
  intros Hs [e He] Hr. unfold ignoring_NotFound in Hr.
  assert (0 <= entry_index r < 2 ^ 63) as Hi by (eapply stored_mod_index; [done|by eexists]).
  pose proof (update_implements n r d q Hs Hi) as Himp. pose proof (UpdateEntry_others (S n) r d) as Ho.
  assert (refusal d q (Update r) = None) as Href by (cbn; by rewrite He).
  clear Hi Hs. destruct (UpdateEntry (S n) r d) as [d1 o]. cbn in Ho.
  inversion Himp as [d2 _ Hs Heq|d2 err Hf _ Heq|d2 _ Heq]; subst.
  - injection Hr as <-. done.
  - rewrite Href in Hf. discriminate Hf.
  - discriminate Hr.
Qed.

Lemma update_all_stored es : forall d d' q,
  stored (kvs d) q -> NoDup (entry_index <$> es) ->
  (forall e, e ∈ es -> exists e0, q_entries q !! entry_index e = Some e0 /\ (skip e = true -> e0 = e)) ->
  loop es d = (d', Done (Ok tt)) ->
  stored (kvs d') (mkQueue (foldl (fun es e => <[ entry_index e := f e ]> es) (q_entries q) es) (q_next q))
  /\ others_same (kvs d) (kvs d').
Proof.
  induction es as [|e es IH]; intros d d' q Hs Hnd Hin Hl.
  - rewrite loop_nil in Hl. injection Hl as <-. cbn. by destruct q.
  - rewrite loop_cons in Hl. cbn [fmap list_fmap] in Hnd. apply NoDup_cons in Hnd as [Hne Hnd].
    destruct (Hin e) as (e0 & He & Hsame); [left|].
    assert (exists d1, stored (kvs d1) (replace (f e) q) /\ others_same (kvs d) (kvs d1)
              /\ loop es d1 = (d', Done (Ok tt))) as (d1 & Hs1 & Ho1 & Hl1).
    { destruct (skip e) eqn:Hsk.
      - exists d. rewrite (skip_same e Hsk). split_and!; [|done|done]. rewrite (Hsame eq_refl) in He.
        unfold replace. rewrite insert_id by done. by destruct q.
      - unfold mbind, sto_bind in Hl. destruct (ignoring_NotFound _ d) as [d1 [[[]|]| |]] eqn:Hu; try done.
        exists d1. apply UpdateEntry_stored with (q := q) in Hu as [? ?]; [done|done|by rewrite index_same, He]. }
    destruct (IH d1 d' (replace (f e) q) Hs1 Hnd) as [Hs' Ho']; [|done|].
    + intros e' He'. cbn. rewrite index_same, lookup_insert_ne; [apply Hin; by right|].
      intros Heq. apply Hne. rewrite Heq. by apply list_elem_of_fmap_2.
    + cbn in Hs'. rewrite index_same in Hs'. split; [exact Hs'|]. intros key Hk. rewrite Ho', Ho1 by done. done.
Qed.

(** A loop does all of it, or loses the connection. *)
Lemma update_all_outcome es : forall d q,
  stored (kvs d) q -> (forall e, e ∈ es -> q_entries q !! entry_index e = Some e) ->
  NoDup (entry_index <$> es) ->
  snd (loop es d) = Done (Ok tt) \/ snd (loop es d) = Done (Err ErrRequest).
Proof.
  induction es as [|e es IH]; intros d q Hs Hin Hnd.
  - rewrite loop_nil. by left.
  - rewrite loop_cons. cbn [fmap list_fmap] in Hnd. apply NoDup_cons in Hnd as [Hne Hnd].
    pose proof (Hin e ltac:(left)) as He. destruct (skip e).
    { eapply IH; [done|intros; apply Hin; by right|done]. }
    unfold mbind, sto_bind. destruct (ignoring_NotFound (UpdateEntry (S n) (f e)) d) as [d1 o] eqn:Hu.
    assert (o = Done (Ok tt) \/ o = Done (Err ErrRequest)) as [-> | ->]; [|..|by right].
    + unfold ignoring_NotFound in Hu.
      assert (0 <= entry_index (f e) < 2 ^ 63) as Hi
        by (rewrite index_same; eapply stored_mod_index; [done|by eexists]).
      pose proof (update_implements n (f e) d q Hs Hi) as Himp. clear Hi.
      destruct (UpdateEntry (S n) (f e) d) as [d2 o2].
      inversion Himp as [d3 _ _ Heq|d3 err Hf _ Heq|d3 _ Heq]; subst; [by left; injection Hu|..|by right; injection Hu].
      cbn in Hf. by rewrite index_same, He in Hf.
    + apply UpdateEntry_stored with (q := q) in Hu as [Hs1 _]; [|done|by rewrite index_same, He].
      eapply IH; [exact Hs1| |done]. intros e' He'. cbn. rewrite index_same, lookup_insert_ne; [apply Hin; by right|].
      intros Heq. apply Hne. rewrite Heq. by apply list_elem_of_fmap_2.
Qed.

Lemma foldl_insert_out es : forall (m : gmap Z E) i, i ∉ entry_index <$> es ->
  foldl (fun es e => <[ entry_index e := f e ]> es) m es !! i = m !! i.
Proof.
  induction es as [|e es IH]; intros m i Hi; [done|]. cbn in *.
  apply not_elem_of_cons in Hi as [Hne Hi]. by rewrite IH, lookup_insert_ne.
Qed.
Lemma foldl_insert_in es : forall (m : gmap Z E) e,
  NoDup (entry_index <$> es) -> e ∈ es ->
  foldl (fun es e => <[ entry_index e := f e ]> es) m es !! entry_index e = Some (f e).
Proof.
  induction es as [|x es IH]; intros m e Hnd Hin; [by apply elem_of_nil in Hin|]. cbn in Hnd |- *.
  apply NoDup_cons in Hnd as [Hx Hnd]. apply elem_of_cons in Hin as [->|Hin]; [|by apply IH].
  by rewrite foldl_insert_out, lookup_insert_eq.
Qed.

Lemma sorted_indexes (es : list E) :
  StronglySorted (fun a b => entry_index a < entry_index b) es -> NoDup (entry_index <$> es).
Proof.
  induction 1 as [|e es _ IH He]; cbn; constructor; [|done].
  intros (e' & Heq & He')%list_elem_of_fmap. rewrite Forall_forall in He. specialize (He e' He'). lia.
Qed.
(** The command that reads the queue and then goes over it. *)
Definition map_queue q : queue E := mkQueue (f <$> q_entries q) (q_next q).
Definition maps (c : sto unit) : Prop :=
  forall d q, stored (kvs d) q ->
    (snd (c d) = Done (Ok tt) \/ snd (c d) = Done (Err ErrRequest))
    /\ forall d', c d = (d', Done (Ok tt)) -> stored (kvs d') (map_queue q) /\ others_same (kvs d) (kvs d').

Lemma update_all_maps : maps (entries ← GetEntries; loop entries).
Proof.
  intros d q Hs. unfold mbind, sto_bind.
  destruct (GetEntries_cases d q Hs) as (d1 & E1 & [(es & -> & Hsort & Hes)| ->]); [|by split; [right|]].
  pose proof (sorted_indexes _ Hsort) as Hnd. rewrite <- E1 in Hs. split; [eapply update_all_outcome; [done|intros e; apply Hes|done]|].
  intros d' Hl. destruct (update_all_stored es d1 d' q Hs Hnd) as [Hs' Ho]; [intros e He; exists e; by rewrite <- Hes|done|].
  rewrite E1 in Ho. split; [|exact Ho]. unfold map_queue.
  assert (f <$> q_entries q = foldl (fun es e => <[ entry_index e := f e ]> es) (q_entries q) es) as ->; [|exact Hs'].
  apply map_eq. intros i. rewrite lookup_fmap. destruct (q_entries q !! i) as [e|] eqn:He; cbn.
  - destruct (st_entry _ _ Hs _ _ He) as (_ & <- & _). symmetry. apply foldl_insert_in; [done|by apply Hes].
  - symmetry. rewrite foldl_insert_out; [done|]. intros (e & -> & Hin)%list_elem_of_fmap.
    apply Hes in Hin. congruence.
Qed.
End update_all.

(** ** The commands *)
Section commands.
  Context {T : K8sTypes} {K : K8s} `{Runtime} `{!Etcd} (n : nat).
  Implicit Types (q : queue RebootQueueEntry) (d : etcd).

Definition delete_if (p : RepairQueueEntry -> bool) (e : RepairQueueEntry) : RepairQueueEntry :=
  if p e then set_deleted e else e.

Lemma set_deleted_same e : rpe_Deleted e = true -> set_deleted e = e.
Proof. destruct e. cbn. by intros ->. Qed.
Lemma cancelled_same e : (rqe_Status e =? RebootStatusCancelled)%string = true -> set_reboot_status RebootStatusCancelled e = e.
Proof. intros Hs%String.eqb_eq. destruct e. cbn in *. by subst. Qed.

(** C29: the commands of ckecli that go over a queue do exactly what they are for.  Without other
    clients, such a command succeeds or loses its connection to etcd; when it succeeds, the queue is the one before with all entries
    cancelled, with the back-off of all entries reset, or with the finished or the unfinished
    entries marked as deleted; no other part of any entry and no other key has changed. *)
Theorem bulk_commands_exact :
  maps (set_reboot_status RebootStatusCancelled) (rebootQueueCancelAll (S n))
  /\ maps reset_reboot (rebootQueueResetBackoff (S n))
  /\ maps (delete_if HasFinished) (repairQueueDeleteFinished (S n))
  /\ maps (delete_if (fun e => negb (HasFinished e))) (repairQueueDeleteUnfinished (S n))
  /\ maps reset_repair (repairQueueResetBackoff (S n)).
Proof.
  split_and!.
  - apply (update_all_maps n (fun e => (rqe_Status e =? RebootStatusCancelled)%string)); [done..| |done].
    apply cancelled_same.
  - by apply (update_all_maps n (fun _ => false)).
  - apply (update_all_maps n (fun e => rpe_Deleted e || negb (HasFinished e))); [done| | |].
    + intros e es. cbn [delete_finished]. unfold delete_if. by destruct (rpe_Deleted e), (HasFinished e).
    + intros e. unfold delete_if. destruct (HasFinished e); [|done]. rewrite orb_false_r. apply set_deleted_same.
    + intros e. unfold delete_if. by destruct (HasFinished e).
  - apply (update_all_maps n (fun e => rpe_Deleted e || HasFinished e)); [done| | |].
    + intros e es. cbn [delete_unfinished]. unfold delete_if. by destruct (rpe_Deleted e), (HasFinished e).
    + intros e. unfold delete_if. destruct (HasFinished e); [done|]. rewrite orb_false_r. apply set_deleted_same.
    + intros e. unfold delete_if. by destruct (HasFinished e).
  - by apply (update_all_maps n (fun _ => false)).
Qed.

(** ** Adding reboots *)
Lemma RegisterEntry_cluster k (r : RebootQueueEntry) d :
  kvs (fst (RegisterEntry k r d)) !! KeyCluster = kvs d !! KeyCluster.
Proof.
  revert d. induction k as [|k IH]; intros d; cbn [RegisterEntry]; [done|]. unfold mbind at 1, sto_bind at 1.
  assert (reads (read_index (E := RebootQueueEntry))) as Hread.
  { unfold read_index, text_of, malformed. solve_reads. }
  specialize (Hread d). destruct (read_index d) as [d1 [[[i rev]|e]|w|]]; cbn in Hread |- *; [|by rewrite Hread..].
  unfold mbind, sto_bind, write_entry.
  match goal with |- context [Txn ?cs ?ops d1] =>
    assert (forall m', applied ops (kvs d1) m' -> m' !! KeyCluster = kvs d !! KeyCluster) as Ha;
    [|destruct (Txn_cases cs ops d1) as (d2 & [(-> & _ & Hp)|[(-> & _ & E2)|(-> & [E2|[_ Hp]])]])] end; cbn.
  - intros m' (rv & _ & _ & ->). cbn. rewrite lookup_insert_ne by done.
    rewrite lookup_insert_ne; [by rewrite Hread|]. intros Heq.
    pose proof (entry_key_prefix (E := RebootQueueEntry) i) as Hp. by rewrite Heq in Hp.
  - by apply Ha.
  - rewrite IH. congruence.
  - congruence.
  - by apply Ha.
Qed.

Definition enqueue_all (nodes : list string) (q : queue RebootQueueEntry) : queue RebootQueueEntry :=
  foldl (fun q node => enqueue (NewRebootQueueEntry node) q) q nodes.

(** What became of adding some nodes. *)
Inductive reboots_added (c : Cluster) (nodes : list string) q : etcd * outcome unit -> Prop :=
| added_all d' :
    (forall node, node ∈ nodes -> node ∈ node_Address <$> c_Nodes c) ->
    stored (kvs d') (enqueue_all nodes q) -> reboots_added c nodes q (d', Done (Ok tt))
| added_until before node after d' e :
    nodes = before ++ node :: after -> (forall n, n ∈ before -> n ∈ node_Address <$> c_Nodes c) ->
    node ∉ node_Address <$> c_Nodes c -> stored (kvs d') (enqueue_all before q) ->
    reboots_added c nodes q (d', Done (Err e))
| added_lost before after d' :
    nodes = before ++ after -> (forall n, n ∈ before -> n ∈ node_Address <$> c_Nodes c) ->
    stored (kvs d') (enqueue_all before q) -> reboots_added c nodes q (d', Done (Err ErrRequest)).

Lemma reboots_added_cons c node nodes q r :
  node ∈ node_Address <$> c_Nodes c -> reboots_added c nodes (enqueue (NewRebootQueueEntry node) q) r ->
  reboots_added c (node :: nodes) q r.
Proof.
  intros Hn [d' Hall Hs|before x after d' e -> Hall Hx Hs|before after d' -> Hall Hs].
  - apply added_all; [|done]. intros x [->|Hx]%elem_of_cons; auto.
  - apply (added_until _ _ _ (node :: before) x after); [done| |done|done]. intros y [->|Hy]%elem_of_cons; auto.
  - apply (added_lost _ _ _ (node :: before) after); [done| |done]. intros y [->|Hy]%elem_of_cons; auto.
Qed.
Lemma validateNode_spec node (c : Cluster) :
  match validateNode node c with
  | Some _ => node ∉ node_Address <$> c_Nodes c
  | None => node ∈ node_Address <$> c_Nodes c
  end.
Proof.
  unfold validateNode. destruct (existsb _ (c_Nodes c)) eqn:Hx.
  - apply List.existsb_exists in Hx as (x & Hin & ->%String.eqb_eq).
    apply list_elem_of_fmap_2. by apply list_elem_of_In.
  - intros (x & -> & Hin)%list_elem_of_fmap. rewrite <- not_true_iff_false, List.existsb_exists in Hx.
    apply Hx. exists x. split; [by apply list_elem_of_In|apply String.eqb_refl].
Qed.

(** Adding reboots with ckecli.  Without other clients the nodes are appended to the queue
    one after the other, in the order of the file, as long as they are nodes of the stored
    configuration; the command fails at the first one that is not, or when the connection is
    lost, and what was appended before stays.  It succeeds only when all are appended. *)
Theorem reboot_add_exact data d q c rev :
  stored (kvs d) q -> q_next q + len (Fields data) < 2 ^ 63 ->
  kvs d !! KeyCluster = Some (mkKV (ClusterJSON c) rev) ->
  reboots_added c (Fields data) q (rebootQueueAdd (S n) data d).
Proof.
  unfold rebootQueueAdd. generalize (Fields data) as nodes. intros nodes. revert d q.
  induction nodes as [|node nodes IH]; intros d q Hs Hlen Hc; cbn [add_reboots].
  { apply added_all; [by intros ? ?%elem_of_nil|done]. }
  assert (q_next q < 2 ^ 63 - 1 /\ q_next q + 1 + len nodes < 2 ^ 63) as [Hq Hq'].
  { unfold len in *. cbn [length] in Hlen. lia. }
  unfold mbind at 1, sto_bind at 1, GetCluster, mbind at 1, sto_bind at 1.
  destruct (Get_cases KeyCluster d) as (d1 & E1 & [-> | ->]); [|apply (added_lost _ _ _ [] (node :: nodes)); [done|set_solver|by rewrite E1]].
  rewrite Hc. cbn [cluster_of kv_Value]. unfold mret, sto_ret.
  pose proof (validateNode_spec node c) as Hv. destruct (validateNode node c) as [e|]; cbn [unless].
  { unfold mbind, sto_bind, throw. apply (added_until _ _ _ [] node nodes); [done|set_solver|done|by rewrite E1]. }
  unfold mbind at 1, sto_bind at 1, mret, sto_ret, mbind, sto_bind. rewrite <- E1 in Hs, Hc.
  pose proof (register_implements n (NewRebootQueueEntry node) d1 q Hs Hq) as Himp.
  pose proof (RegisterEntry_cluster (S n) (NewRebootQueueEntry node) d1) as Hk. rewrite Hc in Hk.
  unfold RegisterRebootsEntry. destruct (RegisterEntry (S n) (NewRebootQueueEntry node) d1) as [d2 o]. cbn in Hk.
  inversion Himp as [d3 _ Hs3 Heq|d3 err Hf _ Heq|d3 Hs3 Heq]; subst; [|done|].
  - apply reboots_added_cons; [done|]. by apply IH.
  - destruct Hs3 as [Hs3|[_ Hs3]]; [apply (added_lost _ _ _ [] (node :: nodes)); [done|set_solver|done]|].
    apply (added_lost _ _ _ [node] nodes); [done| |done]. by intros y ->%list_elem_of_singleton.
Qed.

(** ** Lost updates *)
Lemma cancel_stored d d' q (e : RebootQueueEntry) :
  stored (kvs d) q -> q_entries q !! rqe_Index e = Some e ->
  rebootQueueCancel (S n) (FormatInt (rqe_Index e)) d = (d', Done (Ok tt)) ->
  stored (kvs d') (replace (set_reboot_status RebootStatusCancelled e) q).
Proof.
  intros Hs He. assert (0 <= rqe_Index e < 2 ^ 63) as Hi by (apply (stored_mod_index _ _ _ Hs); by eexists).
  unfold rebootQueueCancel, parse_index. rewrite ParseInt_FormatInt by (unfold int64_range; lia).
  unfold mbind, sto_bind, mret, sto_ret, GetRebootsEntry, GetEntry, mbind, sto_bind.
  destruct (Get_cases (entry_key (E := RebootQueueEntry) (rqe_Index e)) d) as (d1 & E1 & [-> | ->]); [|by intros [=]].
  destruct (st_entry _ _ Hs _ _ He) as (_ & _ & Hv).
  destruct (kvs d !! _) as [kv|]; [|done]. injection Hv as Hv. unfold entry_of. rewrite Hv. change (of_value (RebootJSON e)) with (Some e).
  unfold mret, sto_ret. intros Hu. rewrite <- E1 in Hs.
  eapply (UpdateEntry_stored n _ d1 d' q); [done|by exists e|]. unfold ignoring_NotFound.
  unfold UpdateRebootsEntry in Hu. by rewrite Hu.
Qed.

(** A cancellation may be lost.  If a user cancels a reboot after another user's reset of the
    back-offs has read the queue and before it writes the entry, the entry is as it was before the
    cancellation, and the node will be rebooted. *)
Theorem reset_loses_cancellation d0 d1 d2 d3 q es e :
  stored (kvs d0) q -> GetRebootsEntries d0 = (d1, Done (Ok es)) -> e ∈ es ->
  rebootQueueCancel (S n) (FormatInt (rqe_Index e)) d1 = (d2, Done (Ok tt)) ->
  reset_reboots (S n) es d2 = (d3, Done (Ok tt)) ->
  exists q', stored (kvs d3) q' /\ q_entries q' !! rqe_Index e = Some (reset_reboot e).
Proof.
  intros Hs Hg He Hc Hr.
  destruct (GetEntries_cases d0 q Hs) as (d1' & E1 & [(es' & Hg' & Hsort & Hes)|Hg']);
    pose proof (eq_trans (eq_sym Hg) Hg') as Heq; [|done]. injection Heq as <- <-. rewrite <- E1 in Hs.
  pose proof (cancel_stored _ _ _ e Hs (proj1 (Hes e) He) Hc) as Hs2.
  eapply (update_all_stored n (fun _ => false) reset_reboot) in Hr as [Hs3 _];
    [|done..|exact Hs2|by apply sorted_indexes|].
  - eexists. split; [exact Hs3|]. exact (foldl_insert_in reset_reboot es _ e (sorted_indexes _ Hsort) He).
  - intros e' He'. apply Hes in He'. cbn. destruct (decide (rqe_Index e = rqe_Index e')) as [->|Hne].
    + rewrite lookup_insert_eq. by eexists.
    + rewrite lookup_insert_ne by done. by exists e'.
Qed.
End commands.

(** ** Resources *)
Section resources.
  Context {T : K8sTypes} {K : K8s} `{Runtime} `{!Etcd} `{Decoder}.

Lemma substring_all s : String.substring 0 (String.length s) s = s.
Proof. induction s as [|c s IH]; [done|]. cbn. by rewrite IH. Qed.
Lemma substring_app p s : String.substring (String.length p) (String.length s) (p +:+ s) = s.
Proof.
  induction p as [|c p IH]; [apply substring_all|]. change (String c p +:+ s) with (String c (p +:+ s)).
  cbn [String.length String.substring]. exact IH.
Qed.
Lemma length_app p s : String.length (p +:+ s) = (String.length p + String.length s)%nat.
Proof. induction p as [|c p IH]; [done|]. change (String c p +:+ s) with (String c (p +:+ s)). cbn. by rewrite IH. Qed.
Lemma resource_key_of key : resource_key (KeyResourcePrefix +:+ key) = key.
Proof.
  unfold resource_key. rewrite length_app.
  replace (String.length KeyResourcePrefix + String.length key - String.length KeyResourcePrefix)%nat
    with (String.length key) by lia. apply substring_app.
Qed.

Lemma resources_of_in l d d' rcs k kv :
  resources_of l d = (d', Done (Ok rcs)) -> (k, kv) ∈ l ->
  exists rc d1, rc ∈ rcs /\ resource_of (resource_key k) kv d1 = (d1, Done (Ok rc)).
Proof.
  revert d d' rcs. induction l as [|[k' kv'] l IH]; intros d d' rcs Hr Hin; [by apply elem_of_nil in Hin|].
  cbn [resources_of] in Hr. unfold mbind, sto_bind in Hr.
  assert (forall key kv, exists o, resource_of key kv d = (d, o)) as Hsame.
  { intros key kv0. unfold resource_of, mbind, sto_bind, text_of, malformed, throw, mret, sto_ret.
    destruct (kv_Value kv0); try by eexists. destruct (Split key "/") as [|? [|? [|? [|? ?]]]]; by eexists. }
  destruct (Hsame (resource_key k') kv') as [o Ho]. rewrite Ho in Hr. destruct o as [[rc|]| |]; try done.
  destruct (resources_of l d) as [d2 [[rcs'|]| |]] eqn:Hl; try done. injection Hr as <- <-.
  apply elem_of_cons in Hin as [[= -> ->]|Hin].
  - exists rc, d. split; [left|done].
  - destruct (IH _ _ _ Hl Hin) as (rc' & d1 & Hrc & Hof). exists rc', d1. split; [by right|done].
Qed.

(** Parts of names without a slash; those of Kubernetes have none. *)
Definition slashless (s : string) : Prop := ~ "/"%char ∈ String.list_ascii_of_string s.
Definition well_named (obj : Unstructured) : Prop :=
  slashless (u_Kind obj) /\ slashless (u_Namespace obj) /\ slashless (u_Name obj).

Lemma ParseResource_Split data obj key :
  decode_unstructured data = Some obj -> well_named obj -> ParseResource data = Ok key ->
  Split key "/" = if (u_Namespace obj =? "")%string then [u_Kind obj; u_Name obj]
                  else [u_Kind obj; u_Namespace obj; u_Name obj].
Proof.
  intros Hd (Hk & Hns & Hn). unfold ParseResource. rewrite Hd.
  destruct (u_Name obj =? "")%string; [done|]. destruct (u_APIVersion obj =? "")%string; [done|].
  destruct (u_Namespace obj =? "")%string; intros [= <-]; rewrite !Split_app, Split_plain by done; done.
Qed.
Lemma Put_stored key v d d' :
  Put key v d = (d', Done (Ok tt)) -> exists rev, kvs d' !! key = Some (mkKV v rev).
Proof.
  unfold Put, mbind, sto_bind.
  destruct (Txn_cases [] [OpPut key v] d) as (d1 & [(-> & _ & (rev & _ & _ & E))|[(-> & Hf & _)|(-> & _)]]); [|done..].
  intros [= <-]. exists rev. rewrite E. cbn. apply lookup_insert_eq.
Qed.
Lemma GetAllResources_in key kv d d' rcs :
  kvs d !! (KeyResourcePrefix +:+ key) = Some kv -> GetAllResources d = (d', Done (Ok rcs)) ->
  exists rc d1, rc ∈ rcs /\ resource_of key kv d1 = (d1, Done (Ok rc)).
Proof.
  intros Hk. unfold GetAllResources, mbind, sto_bind.
  destruct (GetPrefix_cases KeyResourcePrefix None d) as (d1 & E1 & [(l & -> & [Hl _])| ->]); [|done].
  destruct (resources_of l d1) as [d2 [[rcs'|]| |]] eqn:Hr; try done. intros [= <- <-].
  destruct (resources_of_in _ _ _ _ (KeyResourcePrefix +:+ key) kv Hr) as (rc & d3 & Hin & Hof).
  { rewrite Hl. apply elem_of_prefixed. split; [done|apply HasPrefix_app]. }
  exists rc, d3. rewrite resource_key_of in Hof. split; [|done].
  unfold SortResources. by rewrite sort_slice_perm.
Qed.

(** C34: a resource that is set is the resource that is applied.  After ckecli has stored a document
    with a named object, every list of resources the server reads has a resource with the kind, the
    namespace and the name of the object, and with the document as its definition. *)
Theorem resource_set_roundtrip data obj d d1 d2 rcs :
  decode_unstructured data = Some obj -> well_named obj ->
  updateResource data d = (d1, Done (Ok tt)) -> GetAllResources d1 = (d2, Done (Ok rcs)) ->
  exists rc, rc ∈ rcs /\ rd_Kind rc = u_Kind obj /\ rd_Namespace rc = u_Namespace obj
    /\ rd_Name rc = u_Name obj /\ rd_Definition rc = data.
Proof.
  intros Hd Hw Hu Hg. unfold updateResource, mbind, sto_bind in Hu.
  destruct (ParseResource data) as [key|e] eqn:Hp; [|done]. cbn [of_result] in Hu.
  destruct (Put_stored _ _ _ _ Hu) as [rev Hk].
  destruct (GetAllResources_in _ _ _ _ _ Hk Hg) as (rc & d3 & Hin & Hof). exists rc. split; [done|].
  unfold resource_of, mbind, sto_bind in Hof. cbn [text_of kv_Value] in Hof. unfold mret, sto_ret in Hof.
  rewrite (ParseResource_Split _ _ _ Hd Hw Hp) in Hof.
  destruct (u_Namespace obj =? "")%string eqn:Hns; injection Hof as <-; [|done].
  apply String.eqb_eq in Hns. by rewrite Hns.
Qed.
End resources.

(** ** Examples *)
#[local] Existing Instance sample_types.
#[local] Existing Instance sample_k8s.
#[local] Existing Instance std_runtime.
#[local] Existing Instance memory_etcd.

Definition cli_cluster : Cluster := sample_cluster sample_nodes (Some 2).
Definition cli_store : etcd :=
  {[ KeyCluster := (ClusterJSON cli_cluster, 1%positive);
     KeyConstraints := (ConstraintsJSON (mkConstraints 3 80 0 0 0), 2%positive) ]}.
Lemma cli_store_empty : stored (kvs cli_store) empty_queue.
Proof.
  constructor; [by vm_compute|done|done|]. intros key [kv Hk] Hp. exfalso.
  assert (forallb (fun x => negb (HasPrefix x.1 KeyRebootsPrefix)) (map_to_list (kvs cli_store)) = true) as Hall
    by (vm_compute; reflexivity).
  rewrite List.forallb_forall in Hall. specialize (Hall (key, kv)).
  rewrite <- list_elem_of_In, elem_of_map_to_list in Hall. specialize (Hall Hk). cbn [fst] in Hall.
  change data_prefix with KeyRebootsPrefix in Hp. by rewrite Hp in Hall.
Qed.

(** The last address is none of a node. *)
Definition to_reboot : string := "10.0.0.11 10.0.0.12" +:+ String "010" "10.0.0.99".
Lemma reboot_add_exact_witness :
  snd (rebootQueueAdd 1 to_reboot cli_store)
  = Done (Err (ErrUnexpected "10.0.0.99 is not a valid node IP address"))
  /\ reboots_added cli_cluster (Fields to_reboot) empty_queue (rebootQueueAdd 1 to_reboot cli_store).
Proof.
  split; [vm_compute; reflexivity|].
  apply (reboot_add_exact 0 to_reboot cli_store empty_queue cli_cluster 1);
    [apply cli_store_empty|vm_compute; reflexivity|vm_compute; reflexivity].
Defined.

(** A cancellation between the reading and the writing of a reset. *)
Definition one_reboot : RebootQueueEntry := with_index 0 entry_a.
Definition read_entries : etcd * outcome (list RebootQueueEntry) := GetRebootsEntries one_entry.
Definition cancelled_entry : etcd := fst (rebootQueueCancel 1 "0" (fst read_entries)).
Definition after_reset : etcd := fst (reset_reboots 1 [one_reboot] cancelled_entry).
Lemma reset_loses_cancellation_witness :
  rqe_Status <$> (match snd (GetRebootsEntries cancelled_entry) with Done (Ok es) => es | _ => [] end)
  = [RebootStatusCancelled]
  /\ rqe_Status <$> (match snd (GetRebootsEntries after_reset) with Done (Ok es) => es | _ => [] end)
  = [RebootStatusQueued]
  /\ exists q', stored (kvs after_reset) q' /\ q_entries q' !! rqe_Index one_reboot = Some (reset_reboot one_reboot).
Proof.
  split; [vm_compute; reflexivity|]. split; [vm_compute; reflexivity|].
  assert (stored (kvs one_entry) (enqueue entry_a empty_queue)) as Hs.
  { pose proof (register_implements 0 entry_a (∅ : etcd) empty_queue stored_empty eq_refl) as Hi.
    inversion Hi as [d' _ Hst Heq| |]. exact Hst. }
  apply (reset_loses_cancellation 0 one_entry (fst read_entries) cancelled_entry after_reset
           (enqueue entry_a empty_queue) [one_reboot] one_reboot);
    [exact Hs|apply (ran read_entries)|left|apply (ran (rebootQueueCancel 1 "0" (fst read_entries)))
    |apply (ran (reset_reboots 1 [one_reboot] cancelled_entry))]; vm_compute; reflexivity.
Defined.

Definition cli_decoder : Decoder :=
  {| decode_unstructured data := Some (mkUnstructured "v1" "ConfigMap" "default" data) |}.
#[local] Existing Instance cli_decoder.
Definition resource_store : etcd := fst (updateResource "settings" cli_store).
Definition resources_read : etcd * outcome (list ResourceDefinition) := GetAllResources resource_store.
Definition one_resource : list ResourceDefinition :=
  [mkResourceDefinition "ConfigMap/default/settings" "ConfigMap" "default" "settings" 3 "" "settings"].
Lemma resource_set_roundtrip_witness :
  snd resources_read = Done (Ok one_resource)
  /\ exists rc, rc ∈ one_resource /\ rd_Kind rc = "ConfigMap" /\ rd_Namespace rc = "default"
       /\ rd_Name rc = "settings" /\ rd_Definition rc = "settings".
Proof.
  split; [vm_compute; reflexivity|].
  apply (resource_set_roundtrip "settings" (mkUnstructured "v1" "ConfigMap" "default" "settings") cli_store resource_store
           (fst resources_read) one_resource);
    [reflexivity| |apply (ran (updateResource "settings" cli_store)); vm_compute; reflexivity
    |apply (ran resources_read); vm_compute; reflexivity].
  unfold well_named, slashless. split_and!; by apply (bool_decide_unpack _).
Defined.
