(* ===== verification/MetricsProps.v ===== *)
(** * What the metrics say

    A scrape always ends, has no metric twice and reports the queues as they are stored. *)

From Stdlib Require Import ZArith Ascii String Lia.
From stdpp Require Import base gmap strings list numbers sorting.
From S2P Require Import Prelude GoLib GoFormat K8s Cluster Queue Status Storage StorageProps Reboot Metrics Cli CliProps.

(** ** Reading without changing the stored values *)
Section yields.
  Context {T : K8sTypes} `{!Etcd} (stored_values : gmap string KV).

(** A request to etcd fails. *)
Definition refused : Prop :=
  exists d, kvs d = stored_values
    /\ ((exists key, snd (etcd_get key d) = None) \/ exists prefix order, snd (etcd_prefix prefix order 0 d) = None).

(** On the stored values, [m] gives a value that [Q] holds of, or an error if [F], and keeps them. *)
Definition yields {A} (m : sto A) (Q : A -> Prop) (F : Prop) : Prop :=
  forall d, kvs d = stored_values -> exists d', kvs d' = stored_values
    /\ ((exists a, m d = (d', Done (Ok a)) /\ Q a) \/ (F /\ exists e, m d = (d', Done (Err e)))).
(** It gives a value. *)
Definition scrapes {A} (m : sto A) (Q : A -> Prop) : Prop := yields m Q False.

Lemma scrapes_yields {A} (m : sto A) Q F : scrapes m Q -> yields m Q F.
Proof. intros Hm d Hd. destruct (Hm d Hd) as (d' & Hd' & [?|[[] _]]). eauto. Qed.
Lemma yields_because {A} (m : sto A) Q (F F' : Prop) : yields m Q F -> (F -> F') -> yields m Q F'.
Proof. intros Hm HF d Hd. destruct (Hm d Hd) as (d' & Hd' & [?|[? ?]]); eauto 10. Qed.
Lemma yields_throw {A} e (Q : A -> Prop) (F : Prop) : F -> yields (throw e) Q F.
Proof. intros HF d Hd. exists d. split; [done|]. right. eauto. Qed.
Lemma scrapes_ret {A} (a : A) (Q : A -> Prop) : Q a -> scrapes (mret a) Q.
Proof. intros Ha d Hd. exists d. split; [done|]. left. by exists a. Qed.
Lemma yields_bind {A B} (m : sto A) (k : A -> sto B) Q R F :
  yields m Q F -> (forall a, Q a -> yields (k a) R F) -> yields (m ≫= k) R F.
Proof.
  intros Hm Hk d Hd. destruct (Hm d Hd) as (d1 & Hd1 & [(a & Ha & HQ)|[HF [e He]]]); unfold mbind, sto_bind.
  - rewrite Ha. by apply Hk.
  - rewrite He. eauto 10.
Qed.
Lemma scrapes_or_nothing m (Q : list Metric -> Prop) F : yields m Q F -> (F -> Q []) -> scrapes (or_nothing m) Q.
Proof.
  intros Hm Hnil d Hd. destruct (Hm d Hd) as (d1 & Hd1 & [(a & Ha & HQ)|[HF [e He]]]); unfold or_nothing.
  - rewrite Ha. eauto 10.
  - rewrite He. eauto 10.
Qed.
Lemma scrapes_group available collect (Q : list Metric -> Prop) (P : bool -> Prop) F :
  yields available P F -> (P true -> scrapes collect Q) -> (P false -> Q []) -> (F -> Q []) ->
  scrapes (collect_group available collect) Q.
Proof.
  intros Ha Hc Hn HF. apply (scrapes_or_nothing _ _ F); [|done]. eapply yields_bind; [done|].
  intros [] HP; apply scrapes_yields; [auto|by apply scrapes_ret, Hn].
Qed.

Definition flag_set (key : string) : bool :=
  match stored_values !! key with Some (mkKV (Text s) _) => (s =? "true")%string | _ => false end.
Lemma yields_Get key : yields (Get key) (fun r => r = stored_values !! key) refused.
Proof.
  intros d Hd. unfold Get, request. destruct (etcd_get key d) as [d' r] eqn:Hg.
  apply get_spec in Hg as Hs. destruct Hs as [Hs Hr]. rewrite Hd in Hs, Hr. exists d'. split; [done|].
  destruct r as [kv|]; [left; rewrite (Hr kv eq_refl); eauto|right]. split; [|eauto].
  exists d. split; [done|]. left. exists key. by rewrite Hg.
Qed.
Lemma yields_get_flag key F : (refused -> F) -> yields (get_flag key) (fun b => b = flag_set key) F.
Proof.
  intros HF. unfold get_flag. eapply yields_bind; [by eapply yields_because; [apply yields_Get|]|].
  intros r ->. apply scrapes_yields. unfold flag_set.
  destruct (stored_values !! key) as [[[] rev]|]; by apply scrapes_ret.
Qed.
(** The stored configuration. *)
Definition configured (c : Cluster) : Prop := exists rev, stored_values !! KeyCluster = Some (mkKV (ClusterJSON c) rev).
Definition no_cluster : Prop := (forall c, ~ configured c) \/ refused.
Lemma yields_GetCluster : yields GetCluster configured no_cluster.
Proof.
  unfold GetCluster. eapply yields_bind; [eapply yields_because; [apply yields_Get|by right]|].
  intros r ->. unfold cluster_of, malformed. destruct (stored_values !! KeyCluster) as [[[] rev]|] eqn:Hk;
    cbn [kv_Value]; try (apply yields_throw; left; intros c' [r' Hc]; congruence).
  apply scrapes_yields, scrapes_ret. by exists rev.
Qed.
Lemma in_order_unique {E} `{!QueueEntry E} (q : queue E) es es' : in_order q es -> in_order q es' -> es = es'.
Proof. intros [Hs He] [Hs' He']. apply sorted_index_unique; [done..|]. intros e. by rewrite He, He'. Qed.
Lemma yields_GetEntries {E} `{!QueueEntry E} (q : queue E) es :
  stored stored_values q -> in_order q es -> yields (GetEntries (E := E)) (fun es' => es' = es) no_cluster.
Proof.
  intros Hs Ho d Hd. rewrite <- Hd in Hs.
  destruct (GetEntries_cases d q Hs) as (d' & Hd' & [(es' & Hg & Ho')|Hg]); exists d'; (split; [congruence|]).
  - left. exists es'. split; [done|]. by eapply in_order_unique.
  - right. split; [|eauto]. right. exists d. split; [done|]. right. exists data_prefix, (Some false).
    destruct (GetPrefix_cases data_prefix (Some false) d) as (d2 & _ & [(l & Hp & Hl)|Hp]).
    + exfalso. destruct (listing_holds _ _ _ _ Hs Hl) as [es2 Hes]. revert Hg.
      unfold GetEntries, mbind, sto_bind. rewrite Hp. by erewrite entries_of_holds by done.
    + unfold GetPrefix, request in Hp. destruct (etcd_prefix data_prefix (Some false) 0 d) as [d3 [l|]]; done.
Qed.
(** A queue has fewer entries than a counter can count. *)
Lemma in_order_length {E} `{!QueueEntry E} (q : queue E) es :
  stored stored_values q -> in_order q es -> len es < 2 ^ 63.
Proof.
  intros Hs [Hsort He]. pose proof (st_range _ _ Hs) as Hr.
  assert ((entry_index <$> es) ⊆+ seqZ 0 (q_next q)) as Hle%submseteq_length.
  { apply NoDup_submseteq; [by apply sorted_indexes|]. intros i (e & -> & Hin)%list_elem_of_fmap.
    apply He in Hin. destruct (st_entry _ _ Hs _ _ Hin) as [? _]. apply elem_of_seqZ. lia. }
  rewrite length_fmap, length_seqZ in Hle. unfold len. lia.
Qed.
End yields.

(** ** Lists of metrics *)
Section reports.
  Context `{Runtime}.
  Implicit Types (P Q : Metric -> Prop).

Definition metric_key (m : Metric) : string * list string := (mt_name m, mt_labels m).
(** The metrics are of some names, without a duplicate, and exactly those that [P] holds of. *)
Record report (names : list string) P (ms : list Metric) : Prop := {
  rep_names : forall m, m ∈ ms -> mt_name m ∈ fq_name <$> names;
  rep_unique : NoDup (metric_key <$> ms);
  rep_exact : forall m, m ∈ ms <-> P m
}.

Lemma report_nil names P : (forall m, ~ P m) -> report names P [].
Proof.
  intros HP. constructor; [by intros m ?%elem_of_nil|constructor|].
  intros m. rewrite elem_of_nil. split; [done|apply HP].
Qed.
Lemma report_iff names P Q ms : report names P ms -> (forall m, P m <-> Q m) -> report names Q ms.
Proof. intros [Hn Hu He] HQ. split; [done..|]. intros m. by rewrite He. Qed.
Lemma fq_name_inj a b : fq_name a = fq_name b -> a = b.
Proof. apply string_app_inj. Qed.
Lemma report_app names1 names2 P1 P2 ms1 ms2 :
  (forall n, n ∈ names1 -> n ∉ names2) -> report names1 P1 ms1 -> report names2 P2 ms2 ->
  report (names1 ++ names2) (fun m => P1 m \/ P2 m) (ms1 ++ ms2).
Proof.
  intros Hd [Hn1 Hu1 Ht1] [Hn2 Hu2 Ht2]. constructor.
  - intros m [Hm|Hm]%elem_of_app; rewrite fmap_app, elem_of_app; [left|right]; auto.
  - rewrite fmap_app. apply NoDup_app. split; [done|]. split; [|done].
    intros k (m1 & -> & Hm1)%list_elem_of_fmap (m2 & Heq & Hm2)%list_elem_of_fmap.
    injection Heq as Heq _. specialize (Hn1 m1 Hm1). specialize (Hn2 m2 Hm2). rewrite <- Heq in Hn2.
    apply list_elem_of_fmap in Hn1 as (n1 & E1 & H1). apply list_elem_of_fmap in Hn2 as (n2 & E2 & H2).
    rewrite E1 in E2. apply fq_name_inj in E2 as ->. by apply (Hd n2).
  - intros m. by rewrite elem_of_app, Ht1, Ht2.
Qed.
(** Metrics of one name with distinct labels. *)
Lemma report_one name P ms :
  (forall m, m ∈ ms -> mt_name m = fq_name name) -> NoDup (mt_labels <$> ms) -> (forall m, m ∈ ms <-> P m) ->
  report [name] P ms.
Proof.
  intros Hn Hu Ht. constructor; [|  |done].
  - intros m Hm. rewrite (Hn m Hm). apply list_elem_of_singleton. done.
  - apply (NoDup_fmap_1 snd). by rewrite <- list_fmap_compose.
Qed.

Definition single (name : string) (v : Z) (m : Metric) : Prop := m = mkMetric (fq_name name) [] v.
Lemma report_gauge name v : report [name] (single name v) (gauge name v).
Proof.
  apply report_one; [by intros m ->%list_elem_of_singleton|by repeat constructor; apply not_elem_of_nil|].
  intros m. apply list_elem_of_singleton.
Qed.
Lemma range_NoDup {V} (m : gmap string V) : NoDup (range m).*1.
Proof. rewrite range_perm. apply NoDup_fst_map_to_list. Qed.
Definition labelled (name : string) (values : gmap string Z) (m : Metric) : Prop :=
  exists l v, values !! l = Some v /\ m = mkMetric (fq_name name) [l] v.
Lemma report_gauge_vec name values : report [name] (labelled name values) (gauge_vec name values).
Proof.
  unfold gauge_vec. apply report_one.
  - by intros m ([l v] & -> & _)%list_elem_of_fmap.
  - rewrite <- list_fmap_compose. pose proof (range_NoDup values) as Hnd.
    induction (range values) as [|[l v] r IH]; [constructor|]. cbn in *.
    apply NoDup_cons in Hnd as [Hl Hnd]. constructor; [|by apply IH].
    intros ([l' v'] & [= ->] & Hin)%list_elem_of_fmap. apply Hl. apply list_elem_of_fmap. by exists (l', v').
  - intros m. rewrite list_elem_of_fmap. split.
    + intros ([l v] & -> & Hin%elem_of_range). by exists l, v.
    + intros (l & v & Hv%elem_of_range & ->). by exists (l, v).
Qed.
Definition flagged (name : string) (flags : string -> string -> bool -> Prop) (m : Metric) : Prop :=
  exists a s b, flags a s b /\ m = mkMetric (fq_name name) [a; s] (flag_value b).
Lemma elem_of_status_vec name statuses m :
  m ∈ status_vec name statuses <-> flagged name (fun a s b => statuses !! a ≫= (.!! s) = Some b) m.
Proof.
  unfold status_vec, flagged. rewrite list_elem_of_In, in_flat_map. split.
  - intros ([a flags] & Ha & Hm). apply list_elem_of_In, elem_of_range in Ha.
    apply list_elem_of_In, list_elem_of_fmap in Hm as ([s b] & -> & Hs). apply elem_of_range in Hs.
    exists a, s, b. by rewrite Ha.
  - intros (a & s & b & Hs & ->). destruct (statuses !! a) as [flags|] eqn:Ha; [|done]. cbn in Hs.
    exists (a, flags). split; [by apply list_elem_of_In, elem_of_range|].
    apply list_elem_of_In, list_elem_of_fmap. exists (s, b). by rewrite elem_of_range.
Qed.
Lemma report_status_vec name statuses (flags : string -> string -> bool -> Prop) :
  (forall a s b, statuses !! a ≫= (.!! s) = Some b <-> flags a s b) ->
  report [name] (flagged name flags) (status_vec name statuses).
Proof.
  intros Hf. apply report_one.
  - by intros m (a & s & b & _ & ->)%elem_of_status_vec.
  - clear Hf. unfold status_vec. pose proof (range_NoDup statuses) as Hnd.
    induction (range statuses) as [|[a fl] r IH]; [constructor|]. cbn in *. rewrite fmap_app.
    apply NoDup_cons in Hnd as [Ha Hnd]. apply NoDup_app. split; [|split; [|by apply IH]].
    + rewrite <- list_fmap_compose. pose proof (range_NoDup fl) as Hf. clear -Hf.
      induction (range fl) as [|[s b] r IH]; [constructor|]. cbn in *. apply NoDup_cons in Hf as [Hs Hf].
      constructor; [|by apply IH]. intros ([s' b'] & [= ->] & Hin)%list_elem_of_fmap. apply Hs.
      apply list_elem_of_fmap. by exists (s', b').
    + intros ls (m & -> & Hm)%list_elem_of_fmap (m' & Heq & Hm')%list_elem_of_fmap.
      apply list_elem_of_fmap in Hm as ([s b] & -> & _).
      apply list_elem_of_In, in_flat_map in Hm' as ([a' flags'] & Hin & Hm').
      apply list_elem_of_In, list_elem_of_fmap in Hm' as ([s' b'] & -> & _). injection Heq as -> _.
      apply Ha. apply list_elem_of_fmap. exists (a', flags'). split; [done|by apply list_elem_of_In].
  - intros m. rewrite elem_of_status_vec. unfold flagged. by setoid_rewrite Hf.
Qed.
End reports.

(** ** What a scrape has to say *)
Section spec.
  Context {T : K8sTypes} (M : gmap string KV) (g : gauges).
  Context (reboots : list RebootQueueEntry) (repairs : list RepairQueueEntry).

(** The number of entries in each of the known statuses, and in others entries have. *)
Definition counted {E} (name : string) (known : list string) (st : E -> string) (es : list E) (m : Metric) : Prop :=
  exists s, (s ∈ known \/ s ∈ st <$> es) /\ m = mkMetric (fq_name name) [s] (count_status st s es).

(** The metrics of the reboot queue and of the repair queue. *)
Definition reboot_metric (c : Cluster) (m : Metric) : Prop :=
  single "reboot_queue_enabled" (flag_value (negb (flag_set M KeyRebootsDisabled))) m
  \/ single "reboot_queue_entries" (len reboots) m
  \/ single "reboot_queue_running" (flag_value (flag_set M KeyRebootsRunning)) m
  \/ counted "reboot_queue_items" rebootStatuses rqe_Status reboots m
  \/ flagged "node_reboot_status" (fun name =>
       flags_of (name ∈ Nodename <$> c_Nodes c) rebootStatuses (fun s => exists e, e ∈ reboots
         /\ name_of (c_Nodes c) (rqe_Node e) = Some name /\ rqe_Status e = s)) m.
Definition repair_metric (c : Cluster) (m : Metric) : Prop :=
  single "repair_queue_enabled" (flag_value (negb (flag_set M KeyRepairsDisabled))) m
  \/ single "auto_repair_enabled" (flag_value (negb (flag_set M KeyAutoRepairDisabled))) m
  \/ counted "repair_queue_items" repairStatuses rpe_Status repairs m
  \/ flagged "machine_repair_status" (fun a =>
       flags_of (a ∈ node_Address <$> c_Nodes c \/ a ∈ rpe_Address <$> repairs) repairStatuses
         (fun s => exists e, e ∈ repairs /\ rpe_Address e = a /\ rpe_Status e = s)) m
  \/ exists e, e ∈ repairs /\ m = mkMetric (fq_name "repair_queue_entries")
       [FormatInt (rpe_Index e); rpe_Address e; rpe_Operation e; rpe_Status e; FormatInt (rpe_Step e)] 1.
Definition phase_metric (m : Metric) : Prop :=
  labelled "operation_phase" (g_operationPhase g) m
  \/ single "operation_phase_timestamp_seconds" (g_operationPhaseTimestamp g) m.
Definition sabakan_metric (m : Metric) : Prop :=
  single "sabakan_integration_successful" (g_sabakanSuccessful g) m
  \/ single "sabakan_integration_timestamp_seconds" (g_sabakanTimestamp g) m
  \/ labelled "sabakan_workers" (g_sabakanWorkers g) m
  \/ single "sabakan_unused_machines" (g_sabakanUnusedMachines g) m.

(** The metrics of a queue with those of the nodes of a configuration, if they are there. *)
Definition with_cluster (P : Cluster -> Metric -> Prop) (c : option Cluster) (m : Metric) : Prop :=
  match c with Some c => P c m | None => False end.
(** All but the metric of the leader are those of a leader. *)
Definition scraped (rb rp : option Cluster) (sabakan : bool) (m : Metric) : Prop :=
  single "leader" (g_leader g) m
  \/ (g_isLeader g = true /\ phase_metric m)
  \/ (g_isLeader g = true /\ (with_cluster reboot_metric rb m \/ with_cluster repair_metric rp m))
  \/ (g_isLeader g = true /\ sabakan = true /\ sabakan_metric m).
End spec.

(** ** A scrape *)
Section scrape.
  Context {T : K8sTypes} `{Runtime} `{!Etcd} (stored_values : gmap string KV).
  Context (rbq : queue RebootQueueEntry) (rpq : queue RepairQueueEntry).
  Context (reboots : list RebootQueueEntry) (repairs : list RepairQueueEntry).
  Hypothesis reboots_stored : stored stored_values rbq.
  Hypothesis repairs_stored : stored stored_values rpq.
  Hypothesis reboots_listed : in_order rbq reboots.
  Hypothesis repairs_listed : in_order rpq repairs.

(** The configuration the metrics of the nodes are computed from: none if a request fails. *)
Definition read_cluster (c : option Cluster) : Prop :=
  match c with Some c => configured stored_values c | None => no_cluster stored_values end.

Lemma count_status_pos {E} (st : E -> string) s es : (0 <? count_status st s es) = true <-> s ∈ st <$> es.
Proof.
  rewrite Z.ltb_lt. induction es as [|e es IH]; [unfold count_status, len; cbn; rewrite elem_of_nil; lia|].
  rewrite count_status_cons, fmap_cons, elem_of_cons, <- IH. pose proof (count_status_nonneg st s es).
  destruct (String.eqb_spec (st e) s) as [->|Hne]; [split; [by left|lia]|].
  split; [right; lia|intros [->|?]; [done|lia]].
Qed.
Lemma counted_labels {E} name known (st : E -> string) es m :
  len es < 2 ^ 63 ->
  labelled name (foldl (fun m e => incr (st e) m) (foldl (fun m status => <[ status := 0 ]> m) ∅ known) es) m
  <-> counted name known st es m.
Proof.
  intros Hl. unfold labelled, counted. setoid_rewrite (count_entries_lookup st known es); [|done]. split.
  - intros (s & v & Hv & ->). destruct (_ || _) eqn:Hb; [|done]. injection Hv as <-. exists s. split; [|done].
    apply orb_true_iff in Hb as [?%bool_decide_eq_true|?%count_status_pos]; auto.
  - intros (s & Hs & ->). eexists s, _. split; [|done].
    assert (bool_decide (s ∈ known) || (0 <? count_status st s es) = true) as ->; [|done].
    apply orb_true_iff. rewrite bool_decide_eq_true, count_status_pos. done.
Qed.
Lemma FormatInt_inj i j : 0 <= i < 2 ^ 63 -> 0 <= j < 2 ^ 63 -> FormatInt i = FormatInt j -> i = j.
Proof.
  intros Hi Hj He. assert (Some i = Some j) as [= ->]; [|done].
  rewrite <- (ParseInt_FormatInt i), <- (ParseInt_FormatInt j), He; [done|unfold int64_range; lia..].
Qed.
Lemma report_entries :
  report ["repair_queue_entries"] (fun m => exists e, e ∈ repairs /\ m = entry_info e) (entry_info <$> repairs).
Proof.
  apply report_one.
  - by intros m (e & -> & _)%list_elem_of_fmap.
  - rewrite <- list_fmap_compose. destruct repairs_listed as [Hsort He].
    pose proof (sorted_indexes _ Hsort) as Hnd.
    assert (forall e, e ∈ repairs -> 0 <= rpe_Index e < 2 ^ 63) as Hr.
    { intros e Hin%He. eapply stored_mod_index; [exact repairs_stored|by eexists]. }
    clear -Hnd Hr. induction repairs as [|e es IH]; [constructor|]. cbn in *.
    apply NoDup_cons in Hnd as [Hx Hnd]. constructor; [|apply IH; [done|intros e' ?; apply Hr; by right]].
    intros (e' & Heq & Hin)%list_elem_of_fmap. injection Heq as Heq _. apply Hx. apply list_elem_of_fmap.
    exists e'. split; [|done]. apply FormatInt_inj in Heq; [done|apply Hr; by left|apply Hr; by right].
  - intros m. rewrite list_elem_of_fmap. naive_solver.
Qed.

Definition reboot_names : list string :=
  ["reboot_queue_enabled"; "reboot_queue_entries"; "reboot_queue_running"; "reboot_queue_items"; "node_reboot_status"].
Definition repair_names : list string :=
  ["repair_queue_enabled"; "auto_repair_enabled"; "repair_queue_items"; "machine_repair_status"; "repair_queue_entries"].
(** The parts of a list of metrics, with names apart. *)
Ltac apart := let n := fresh in intros n; set_unfold; naive_solver.
Ltac part := first
  [ apply report_entries | apply report_gauge
  | apply report_status_vec; intros; first [apply node_reboot_status_exact|apply machine_repair_status_exact]
  | eapply report_iff; [apply report_gauge_vec|intros m; apply counted_labels; by eapply in_order_length]
  | apply report_gauge_vec ].
Ltac reports := repeat (apply (report_app [_]); [apart|part|]); part.

Lemma scrapes_collectReboot :
  scrapes stored_values collectReboot (fun ms => exists c, read_cluster c
    /\ report reboot_names (with_cluster (reboot_metric stored_values reboots) c) ms).
Proof.
  eapply scrapes_or_nothing.
  2:{ intros HF. exists None. split; [exact HF|]. apply report_nil. by intros m ?. }
  eapply yields_bind; [apply yields_get_flag; by right|intros disabled ->].
  eapply yields_bind; [apply yields_get_flag; by right|intros running ->].
  eapply yields_bind; [apply (yields_GetEntries _ rbq reboots reboots_stored reboots_listed)|intros ? ->].
  eapply yields_bind; [apply yields_GetCluster|intros c Hc].
  apply scrapes_yields, scrapes_ret. exists (Some c). split; [done|]. unfold reboot_names, reboot_metric. reports.
Qed.
Lemma scrapes_collectRepair :
  scrapes stored_values collectRepair (fun ms => exists c, read_cluster c
    /\ report repair_names (with_cluster (repair_metric stored_values repairs) c) ms).
Proof.
  eapply scrapes_or_nothing.
  2:{ intros HF. exists None. split; [exact HF|]. apply report_nil. by intros m ?. }
  eapply yields_bind; [apply yields_get_flag; by right|intros disabled ->].
  eapply yields_bind; [apply yields_get_flag; by right|intros auto ->].
  eapply yields_bind; [apply (yields_GetEntries _ rpq repairs repairs_stored repairs_listed)|intros ? ->].
  eapply yields_bind; [apply yields_GetCluster|intros c Hc].
  apply scrapes_yields, scrapes_ret. exists (Some c). split; [done|]. unfold repair_names, repair_metric. reports.
Qed.

Definition phase_names : list string := ["operation_phase"; "operation_phase_timestamp_seconds"].
Definition sabakan_names : list string :=
  ["sabakan_integration_successful"; "sabakan_integration_timestamp_seconds"; "sabakan_workers";
   "sabakan_unused_machines"].

Lemma scrapes_phase g :
  scrapes stored_values (collect_group (isOperationPhaseAvailable g)
      (mret (gauge_vec "operation_phase" (g_operationPhase g)
             ++ gauge "operation_phase_timestamp_seconds" (g_operationPhaseTimestamp g))))
    (report phase_names (fun m => g_isLeader g = true /\ phase_metric g m)).
Proof.
  apply (scrapes_group _ _ _ _ (fun b => b = g_isLeader g) False); [by apply scrapes_ret|intros Hl|intros Hl|done].
  - apply scrapes_ret. eapply report_iff; [unfold phase_names; reports|]. intros m. unfold phase_metric. naive_solver.
  - apply report_nil. by intros m [? _]; congruence.
Qed.
Lemma scrapes_queues g :
  scrapes stored_values (collect_group (isNodeAvailable g) nodeMetricsCollector_Collect)
    (fun ms => exists rb rp, read_cluster rb /\ read_cluster rp
       /\ report (reboot_names ++ repair_names) (fun m => g_isLeader g = true
            /\ (with_cluster (reboot_metric stored_values reboots) rb m
                \/ with_cluster (repair_metric stored_values repairs) rp m)) ms).
Proof.
  apply (scrapes_group _ _ _ _ (fun b => b = g_isLeader g) False); [by apply scrapes_ret|intros Hl|intros Hl|done].
  - eapply yields_bind; [apply scrapes_collectReboot|intros ms1 (rb & Hb & H1)].
    eapply yields_bind; [apply scrapes_collectRepair|intros ms2 (rp & Hp & H2)]. apply scrapes_ret.
    exists rb, rp. split; [done|]. split; [done|].
    eapply report_iff; [apply report_app; [unfold reboot_names, repair_names; apart|done..]|]. naive_solver.
  - destruct (g_isLeader g); [done|]. 
    assert (exists c, read_cluster c) as [c Hc].
    { destruct (stored_values !! KeyCluster) as [[v rev]|] eqn:Hk.
      - destruct v as [|c| | | | | | |]; try (exists None; left; intros c' [r' Hc]; congruence).
        exists (Some c). by exists rev.
      - exists None. left. intros c [r Hc]. congruence. }
    exists c, c. split; [done|]. split; [done|]. apply report_nil. by intros m [? _].
Qed.
(** The metrics of the integration are left out while it is disabled, or if a request fails. *)
Definition read_sabakan (b : bool) : Prop :=
  if b then flag_set stored_values KeySabakanDisabled = false
  else flag_set stored_values KeySabakanDisabled = true \/ refused stored_values.
Lemma scrapes_sabakan g :
  scrapes stored_values (collect_group (isSabakanIntegrationAvailable g)
    (mret (gauge "sabakan_integration_successful" (g_sabakanSuccessful g)
           ++ gauge "sabakan_integration_timestamp_seconds" (g_sabakanTimestamp g)
           ++ gauge_vec "sabakan_workers" (g_sabakanWorkers g)
           ++ gauge "sabakan_unused_machines" (g_sabakanUnusedMachines g))))
    (fun ms => exists b, read_sabakan b
       /\ report sabakan_names (fun m => g_isLeader g = true /\ b = true /\ sabakan_metric g m) ms).
Proof.
  apply (scrapes_group _ _ _ _ (fun b => b = g_isLeader g && negb (flag_set stored_values KeySabakanDisabled))
           (refused stored_values)).
  - unfold isSabakanIntegrationAvailable. destruct (g_isLeader g); [|by apply scrapes_yields, scrapes_ret].
    eapply yields_bind; [by apply yields_get_flag|intros b ->]. by apply scrapes_yields, scrapes_ret.
  - intros Hl. symmetry in Hl. apply andb_true_iff in Hl as [Hl Hd%negb_true_iff]. apply scrapes_ret.
    exists true. split; [done|]. eapply report_iff; [unfold sabakan_names; reports|].
    intros m. unfold sabakan_metric. naive_solver.
  - intros Hl. exists (negb (flag_set stored_values KeySabakanDisabled)). split; [unfold read_sabakan; by destruct (flag_set _ _); [left|]|].
    apply report_nil. intros m (Hg & Hb & _). by rewrite Hg, Hb in Hl.
  - intros HF. exists false. split; [by right|]. apply report_nil. by intros m (_ & ? & _).
Qed.
Lemma scrapes_Collect g :
  scrapes stored_values (Collect g) (fun ms => exists rb rp sabakan,
    read_cluster rb /\ read_cluster rp /\ read_sabakan sabakan
    /\ report (["leader"] ++ phase_names ++ (reboot_names ++ repair_names) ++ sabakan_names)
         (scraped stored_values g reboots repairs rb rp sabakan) ms).
Proof.
  unfold Collect.
  eapply yields_bind; [apply (scrapes_group _ _ _ (report ["leader"] (single "leader" (g_leader g))) (fun b => b = true) False);
    [by apply scrapes_ret|intros _; apply scrapes_ret, report_gauge|done|done]|intros leader Hl].
  eapply yields_bind; [apply scrapes_phase|intros phase Hp].
  eapply yields_bind; [apply scrapes_queues|intros node (rb & rp & Hb & Hr & Hn)].
  eapply yields_bind; [apply scrapes_sabakan|intros sabakan (b & Hsb & Hs)].
  apply scrapes_ret. exists rb, rp, b. split; [done|]. split; [done|]. split; [done|].
  unfold scraped. repeat (apply report_app; [|done|]); [..|done];
    unfold phase_names, reboot_names, repair_names, sabakan_names; apart.
Qed.
End scrape.

(** C31: A scrape of the metrics of a server whose queues are well formed always ends and changes
    nothing; it has no two metrics of one name with the same labels, which Prometheus would refuse; and
    it has exactly the metrics it should have.  The metrics of the reboot queue and of the repair queue, there
    for a leader with a stored configuration unless a request to etcd fails, are the flags as they
    are stored, the lengths of the queues, the number of entries in each status, the flags of nodes and
    machines, raised exactly when an entry for them has the status, and one metric for each repair. *)
Theorem scrape_exact {T : K8sTypes} `{Runtime} `{!Etcd} (g : gauges) (d : etcd)
    (rbq : queue RebootQueueEntry) (rpq : queue RepairQueueEntry) reboots repairs :
  stored (kvs d) rbq -> stored (kvs d) rpq -> in_order rbq reboots -> in_order rpq repairs ->
  exists d' ms rb rp sabakan, Collect g d = (d', Done (Ok ms)) /\ kvs d' = kvs d
    /\ NoDup (metric_key <$> ms)
    /\ read_cluster (kvs d) rb /\ read_cluster (kvs d) rp /\ read_sabakan (kvs d) sabakan
    /\ forall m, m ∈ ms <-> scraped (kvs d) g reboots repairs rb rp sabakan m.
Proof.
  intros Hb Hp Ob Op. destruct (scrapes_Collect _ _ _ _ _ Hb Hp Ob Op g d eq_refl)
    as (d' & Hd & [(ms & Hc & rb & rp & sabakan & H1 & H2 & H3 & Hr)|[[] _]]).
  exists d', ms, rb, rp, sabakan. split_and!; try done; [apply (rep_unique _ _ _ Hr)|apply (rep_exact _ _ _ Hr)].
Qed.

(** After an update of the phase exactly the current phase is reported as 1. *)
Lemma phase_gauge phase ts g p :
  g_operationPhase (UpdateOperationPhase phase ts g) !! phase_string p = Some (if bool_decide (p = phase) then 1 else 0).
Proof.
  unfold UpdateOperationPhase, AllOperationPhases. cbn [foldl g_operationPhase].
  destruct p; cbn [phase_string]; repeat (rewrite lookup_insert_ne by done); by rewrite lookup_insert_eq.
Qed.
(** Roles without workers keep the number they last had. *)
Lemma stale_workers `{Runtime} role num unused ts g :
  g_sabakanWorkers g !! role = Some num ->
  g_sabakanWorkers (UpdateSabakanIntegration true ∅ unused ts g) !! role = Some num.
Proof.
  intros Hg. unfold UpdateSabakanIntegration. cbn. assert (range (∅ : gmap string Z) = []) as ->; [|done].
  apply Permutation_nil_r. rewrite range_perm. by rewrite map_to_list_empty.
Qed.

(** ** Example *)
#[local] Existing Instance sample_types.
#[local] Existing Instance memory_etcd.
#[local] Existing Instance std_runtime.

Definition leading : gauges := UpdateOperationPhase PhaseCompleted 0 (UpdateLeader true initial_gauges).
Definition queued_one : etcd := fst (RegisterEntry 1 entry_a cli_store).
Definition no_repair_entries : queue RepairQueueEntry := mkQueue ∅ 0.
Lemma no_repairs_stored : stored (kvs queued_one) no_repair_entries.
Proof.
  constructor; [by vm_compute|done|done|]. intros key [kv Hk] Hp. exfalso.
  assert (forallb (fun x => negb (HasPrefix x.1 KeyRepairsPrefix)) (map_to_list (kvs queued_one)) = true) as Hall
    by (vm_compute; reflexivity).
  rewrite List.forallb_forall in Hall. specialize (Hall (key, kv)).
  rewrite <- list_elem_of_In, elem_of_map_to_list in Hall. specialize (Hall Hk). cbn [fst] in Hall.
  change data_prefix with KeyRepairsPrefix in Hp. by rewrite Hp in Hall.
Qed.
Lemma one_listed : in_order (enqueue entry_a empty_queue) [one_reboot].
Proof.
  split; [by repeat constructor|]. intros e. rewrite list_elem_of_singleton. cbn [q_entries enqueue]. split.
  - by intros ->.
  - intros Hl. apply lookup_insert_Some in Hl as [[_ <-]|[_ Hl]]; [done|done].
Qed.

Lemma scrape_exact_witness :
  (match snd (Collect leading queued_one) with
   | Done (Ok ms) => existsb (fun m => (mt_name m =? "cke_reboot_queue_items")%string && (mt_value m =? 1)) ms
   | _ => false
   end) = true
  /\ exists d' ms rb rp sabakan, Collect leading queued_one = (d', Done (Ok ms)) /\ kvs d' = kvs queued_one
       /\ NoDup (metric_key <$> ms)
       /\ read_cluster (kvs queued_one) rb /\ read_cluster (kvs queued_one) rp
       /\ read_sabakan (kvs queued_one) sabakan
       /\ Forall (scraped (kvs queued_one) leading [one_reboot] [] rb rp sabakan) ms.
Proof.
  split; [vm_compute; reflexivity|].
  destruct (scrape_exact leading queued_one (enqueue entry_a empty_queue) no_repair_entries [one_reboot] [])
    as (d' & ms & rb & rp & sabakan & Hc & Hd & Hu & Hb & Hp & Hs & Hm).
  - pose proof (register_implements 0 entry_a cli_store empty_queue cli_store_empty eq_refl) as Hi.
    inversion Hi as [d' _ Hst Heq| |]. exact Hst.
  - apply no_repairs_stored.
  - apply one_listed.
  - split; [constructor|]. intros e. split; [by intros ?%elem_of_nil|done].
  - exists d', ms, rb, rp, sabakan. split_and!; try assumption. apply Forall_forall. intros m. apply Hm.
Defined.
