(* ===== verification/Operators.v ===== *)
(** * Operators and commands

    operation.go and the operators of op/, op/etcd/, op/k8s/, op/clusterdns/
    and op/nodedns/.  An operator is a value of [Operator], with the arguments
    its constructor function takes; its mutable part is the number [step] (a
    [finished] or [executed] flag is step 1), and [NextCommand] gives the next
    command and the step after it. *)

From Stdlib Require Import ZArith Ascii String Lia.
From stdpp Require Import base gmap strings list.
From S2P Require Import Prelude GoLib K8s Cluster Queue Resource Status Params.

(** ** Commands *)

(** [WithParams] gives all nodes the same parameters, [WithParamsMap] each
    address its own. *)
Inductive RunParams : Type :=
| SameParams (p : ServiceParams)
| ParamsMap (m : gmap string ServiceParams).

Section operators.
  Context {T : K8sTypes}.

Inductive Commander : Type :=
| ImagePullCommand (nodes : list Node) (image : string)
| StopContainersCommand (nodes : list Node) (name : string)
| KillContainersCommand (nodes : list Node) (name : string)
| RunContainerCommand (nodes : list Node) (name image : string) (opts : list string)
    (params : RunParams) (extra : ServiceParams) (restart : bool)
| VolumeCreateCommand (nodes : list Node) (volname : string)
| VolumeRemoveCommand (nodes : list Node) (volname : string)
| MakeDirsCommand (nodes : list Node) (dirs : list string) (mode : string)
| FilesBuilder (nodes : list Node)
| upgradeToVersion2Command (nodes : list Node)
| prepareEtcdCertificatesCommand (nodes : list Node)
| waitEtcdSyncCommand (endpoints : list string) (checkRedundancy : bool)
| setupEtcdAuthCommand (endpoints : list string)
| addMemberCommand (endpoints : list string) (node : Node) (opts : list string)
    (extra : ServiceParams)
| removeMemberCommand (endpoints : list string) (ids : list Z)
| prepareAPIServerFilesCommand (nodes : list Node) (serviceSubnet clusterDomain : string)
    (params : APIServerParams)
| prepareControllerManagerFilesCommand (cluster : string) (nodes : list Node)
| prepareSchedulerFilesCommand (cluster : string) (nodes : list Node) (params : SchedulerParams)
| prepareProxyFilesCommand (cluster ap : string) (nodes : list Node) (params : ProxyParams)
| emptyDirCommand (nodes : list Node) (dir : string)
| prepareKubeletFilesCommand (cluster : string) (params : KubeletParams)
    (nodeStatuses : gmap string NodeStatus) (nodes : list Node)
| prepareKubeletConfigCommand (cluster : string) (params : KubeletParams)
    (nodeStatuses : gmap string NodeStatus) (nodes : list Node)
| installCNICommand (nodes : list Node)
| retaintBeforeKubeletBootCommand (nodes : list Node) (apiServer : option Node)
    (params : KubeletParams)
| waitForKubeletReadyCommand (nodes : list Node)
| waitKubeCommand (apiserver : option Node)
| createEndpointsCommand (apiserver : option Node) (ep : Endpoints)
| updateEndpointsCommand (apiserver : option Node) (ep : Endpoints)
| createEndpointSliceCommand (apiserver : option Node) (eps : EndpointSlice)
| updateEndpointSliceCommand (apiserver : option Node) (eps : EndpointSlice)
| createEtcdServiceCommand (apiserver : option Node)
| updateEtcdServiceCommand (apiserver : option Node)
| nodeUpdateCommand (apiserver : option Node) (nodes : list KubeNode)
| nodeRemoveCommand (apiserver : option Node) (nodes : list KubeNode)
| applyResourceCommand (apiserver : option Node) (resource : ResourceDefinition)
    (trustedMappings : list TrustedRESTMapping) (force : bool)
| createClusterDNSConfigMapCommand (apiserver : option Node) (domain : string)
    (dnsServers : list string)
| updateClusterDNSConfigMapCommand (apiserver : option Node) (cm : ConfigMap)
| createNodeDNSConfigMapCommand (apiserver : option Node) (clusterIP domain : string)
    (dnsServers : list string)
| updateNodeDNSConfigMapCommand (apiserver : option Node) (cm : ConfigMap)
| rebootDrainStartCommand (entries : list RebootQueueEntry)
    (protectedNamespaces protectedJobPods : option LabelSelector) (apiserver : option Node)
    (evictAttempts evictInterval : Z)
| rebootDeleteDaemonSetPodCommand (entries : list RebootQueueEntry) (apiserver : option Node)
| rebootRebootCommand (entries : list RebootQueueEntry) (command : list string)
    (timeoutSeconds retries interval : option Z)
| rebootDrainTimeoutCommand (entries : list RebootQueueEntry)
| rebootUncordonCommand (apiserver : option Node) (nodeNames : list string)
| rebootDequeueCommand (entries : list RebootQueueEntry)
| repairDequeueCommand (entry : RepairQueueEntry)
| repairDrainStartCommand (entry : RepairQueueEntry)
    (protectedNamespaces protectedJobPods : option LabelSelector) (apiserver : option Node)
    (evictAttempts evictInterval : Z)
| repairDrainTimeoutCommand (entry : RepairQueueEntry)
| repairExecuteCommand (entry : RepairQueueEntry) (command : list string)
    (timeoutSeconds retries interval : option Z) (cluster : Cluster)
| repairFinishCommand (entry : RepairQueueEntry) (succeeded : bool) (cluster : Cluster).

(** ** Operators *)
Inductive Operator : Type :=
| UpgradeOp (current : string) (nodes : list Node)
| RiversBootOp (nodes upstreams : list Node) (params : ServiceParams) (name : string)
    (upstreamPort listenPort : Z)
| RiversRestartOp (nodes upstreams : list Node) (params : ServiceParams) (name : string)
    (upstreamPort listenPort : Z)
| EtcdBootOp (nodes : list Node) (params : EtcdParams)
| EtcdStartOp (nodes : list Node) (params : EtcdParams)
| EtcdWaitClusterOp (nodes : list Node)
| EtcdAddMemberOp (cp : list Node) (targetNode : Node) (params : EtcdParams)
| EtcdRemoveMemberOp (cp : list Node) (members : list Member)
| EtcdDestroyMemberOp (cp targets : list Node) (ids : list Z)
| EtcdMarkMemberOp (nodes : list Node)
| EtcdRestartOp (cpNodes : list Node) (target : Node) (params : EtcdParams)
| APIServerRestartOp (nodes : list Node) (serviceSubnet : string) (params : APIServerParams)
    (clusterDomain : string)
| ControllerManagerBootOp (nodes : list Node) (cluster serviceSubnet : string)
    (params : ServiceParams)
| ControllerManagerRestartOp (nodes : list Node) (cluster serviceSubnet : string)
    (params : ServiceParams)
| SchedulerBootOp (nodes : list Node) (cluster : string) (params : SchedulerParams)
| SchedulerRestartOp (nodes : list Node) (cluster : string) (params : SchedulerParams)
| KubeletBootOp (nodes registeredNodes : list Node) (apiServer : option Node) (cluster : string)
    (params : KubeletParams) (ns : gmap string NodeStatus)
| KubeletRestartOp (nodes : list Node) (cluster : string) (params : KubeletParams)
    (ns : gmap string NodeStatus)
| KubeProxyBootOp (nodes : list Node) (cluster ap : string) (params : ProxyParams)
| KubeProxyRestartOp (nodes : list Node) (cluster ap : string) (params : ProxyParams)
| ContainerStopOp (nodes : list Node) (name : string)
| KubeWaitOp (apiserver : option Node)
| KubeEndpointsCreateOp (apiserver : option Node) (ep : Endpoints)
| KubeEndpointsUpdateOp (apiserver : option Node) (ep : Endpoints)
| KubeEndpointSliceCreateOp (apiserver : option Node) (eps : EndpointSlice)
| KubeEndpointSliceUpdateOp (apiserver : option Node) (eps : EndpointSlice)
| KubeEtcdServiceCreateOp (apiserver : option Node)
| KubeEtcdServiceUpdateOp (apiserver : option Node)
| KubeNodeUpdateOp (apiserver : option Node) (nodes : list KubeNode)
| KubeNodeRemoveOp (apiserver : option Node) (nodes : list KubeNode)
| ResourceApplyOp (apiServer : option Node) (resource : ResourceDefinition)
    (forceConflicts : bool) (trustedMappings : list TrustedRESTMapping)
| ClusterDNSCreateConfigMapOp (apiserver : option Node) (domain : string)
    (dnsServers : list string)
| ClusterDNSUpdateConfigMapOp (apiserver : option Node) (cm : ConfigMap)
| NodeDNSCreateConfigMapOp (apiserver : option Node) (clusterIP domain : string)
    (dnsServers : list string)
| NodeDNSUpdateConfigMapOp (apiserver : option Node) (cm : ConfigMap)
| RebootDrainStartOp (apiserver : option Node) (entries : list RebootQueueEntry) (config : Reboot)
| RebootDeleteDaemonSetPodOp (apiserver : option Node) (entries : list RebootQueueEntry)
    (config : Reboot)
| RebootRebootOp (apiserver : option Node) (entries : list RebootQueueEntry) (config : Reboot)
| RebootDrainTimeoutOp (entries : list RebootQueueEntry)
| RebootUncordonOp (apiserver : option Node) (nodeNames : list string)
| RebootDequeueOp (entries : list RebootQueueEntry)
| RebootCancelOp (entries : list RebootQueueEntry)
| RepairDequeueOp (entry : RepairQueueEntry)
| RepairDrainStartOp (apiserver : option Node) (entry : RepairQueueEntry) (config : Repair)
| RepairDrainTimeoutOp (entry : RepairQueueEntry)
| RepairExecuteOp (entry : RepairQueueEntry) (step : RepairStep) (cluster : Cluster)
| RepairFinishOp (entry : RepairQueueEntry) (succeeded : bool) (cluster : Cluster).

Definition APIServerStopOp (nodes : list Node) : Operator := ContainerStopOp nodes "kube-apiserver".
Definition ControllerManagerStopOp (nodes : list Node) : Operator :=
  ContainerStopOp nodes "kube-controller-manager".
Definition SchedulerStopOp (nodes : list Node) : Operator := ContainerStopOp nodes "kube-scheduler".
Definition EtcdStopOp (nodes : list Node) : Operator := ContainerStopOp nodes "etcd".
Definition EtcdRiversStopOp (nodes : list Node) : Operator := ContainerStopOp nodes "etcd-rivers".
Definition ProxyStopOp (nodes : list Node) : Operator := ContainerStopOp nodes "kube-proxy".

(** The step after a command, [None] when [NextCommand] returns nil. *)
Definition next : Type := option (Commander * nat).
Definition once (c : Commander) (step : nat) : next :=
  match step with O => Some (c, 1%nat) | _ => None end.

Definition addrs (nodes : list Node) : list string := node_Address <$> nodes.
Definition etcdEndpoints (nodes : list Node) : list string :=
  (fun n => "https://" +:+ node_Address n +:+ ":2379") <$> nodes.
Definition initial_cluster (nodes : list Node) : list string :=
  (fun n => node_Address n +:+ "=https://" +:+ node_Address n +:+ ":2380") <$> nodes.

(** [paramsMap[n.Address] = f(n)] for each node in order. *)
Definition params_map (f : Node -> ServiceParams) (nodes : list Node) : RunParams :=
  ParamsMap (foldl (fun m n => <[ node_Address n := f n ]> m) ∅ nodes).

Definition etcd_mount (volname : string) : list string :=
  ["--mount"; "type=volume,src=" +:+ volname +:+ ",dst=/var/lib/etcd"].
Definition EtcdAddedMemberVolumeName : string := "etcd-added-member".
Definition EtcdContainerName : string := "etcd".

(** ** [NextCommand] of each operator with more than one command *)

Definition upgradeOp_NextCommand (current : string) (nodes : list Node) (step : nat) : next :=
  if (current =? "1")%string then once (upgradeToVersion2Command nodes) step else None.

Definition riversBootOp_NextCommand (nodes upstreams : list Node) (params : ServiceParams)
    (name : string) (upstreamPort listenPort : Z) (step : nat) : next :=
  match step with
  | 0%nat => Some (ImagePullCommand nodes ToolsImage, 1%nat)
  | 1%nat => Some (RunContainerCommand nodes name ToolsImage []
                     (SameParams (RiversParams upstreams upstreamPort listenPort)) params false,
                   2%nat)
  | _ => None
  end.

Definition riversRestartOp_NextCommand (nodes upstreams : list Node) (params : ServiceParams)
    (name : string) (upstreamPort listenPort : Z) (step : nat) : next :=
  match step with
  | 0%nat => Some (ImagePullCommand nodes ToolsImage, 1%nat)
  | 1%nat => Some (RunContainerCommand nodes name ToolsImage []
                     (SameParams (RiversParams upstreams upstreamPort listenPort)) params true,
                   2%nat)
  | _ => None
  end.

Definition etcd_bootOp_NextCommand (nodes : list Node) (params : EtcdParams) (step : nat) : next :=
  let volname := EtcdVolumeName params in
  match step with
  | 0%nat => Some (ImagePullCommand nodes EtcdImage, 1%nat)
  | 1%nat => Some (prepareEtcdCertificatesCommand nodes, 2%nat)
  | 2%nat => Some (FilesBuilder nodes, 3%nat)
  | 3%nat => Some (VolumeCreateCommand nodes volname, 4%nat)
  | 4%nat => Some (RunContainerCommand nodes EtcdContainerName EtcdImage (etcd_mount volname)
                     (params_map (fun n => etcd_BuiltInParams n (initial_cluster nodes) "new") nodes)
                     (etcd_ServiceParams params) false, 5%nat)
  | 5%nat => Some (waitEtcdSyncCommand (etcdEndpoints nodes) false, 6%nat)
  | 6%nat => Some (setupEtcdAuthCommand (etcdEndpoints nodes), 7%nat)
  | 7%nat => Some (VolumeCreateCommand nodes EtcdAddedMemberVolumeName, 8%nat)
  | _ => None
  end.

Definition etcdStartOp_NextCommand (nodes : list Node) (params : EtcdParams) (step : nat) : next :=
  match step with
  | 0%nat => Some (prepareEtcdCertificatesCommand nodes, 1%nat)
  | 1%nat => Some (FilesBuilder nodes, 2%nat)
  | 2%nat => Some (RunContainerCommand nodes EtcdContainerName EtcdImage
                     (etcd_mount (EtcdVolumeName params))
                     (params_map (fun n => etcd_BuiltInParams n [] EmptyString) nodes)
                     (etcd_ServiceParams params) false, 3%nat)
  | 3%nat => Some (waitEtcdSyncCommand (etcdEndpoints nodes) false, 4%nat)
  | _ => None
  end.

Definition addMemberOp_NextCommand (cp : list Node) (targetNode : Node) (params : EtcdParams)
    (step : nat) : next :=
  let volname := EtcdVolumeName params in
  let nodes := [targetNode] in
  match step with
  | 0%nat => Some (ImagePullCommand nodes EtcdImage, 1%nat)
  | 1%nat => Some (StopContainersCommand [targetNode] EtcdContainerName, 2%nat)
  | 2%nat => Some (VolumeRemoveCommand nodes EtcdAddedMemberVolumeName, 3%nat)
  | 3%nat => Some (VolumeRemoveCommand nodes volname, 4%nat)
  | 4%nat => Some (VolumeCreateCommand nodes volname, 5%nat)
  | 5%nat => Some (prepareEtcdCertificatesCommand nodes, 6%nat)
  | 6%nat => Some (FilesBuilder nodes, 7%nat)
  | 7%nat => Some (addMemberCommand (etcdEndpoints cp) targetNode (etcd_mount volname)
                     (etcd_ServiceParams params), 8%nat)
  | 8%nat => Some (waitEtcdSyncCommand (etcdEndpoints [targetNode]) false, 9%nat)
  | 9%nat => Some (VolumeCreateCommand nodes EtcdAddedMemberVolumeName, 10%nat)
  | _ => None
  end.

(** The operator has no parameters of its own: its field [params] is never
    set, so the volume name is the default one. *)
Definition destroyMemberOp_NextCommand (cp targets : list Node) (ids : list Z) (step : nat)
    : next :=
  match step with
  | 0%nat => Some (VolumeRemoveCommand targets EtcdAddedMemberVolumeName, 1%nat)
  | 1%nat => Some (removeMemberCommand (etcdEndpoints cp) ids, 2%nat)
  | 2%nat => Some (KillContainersCommand targets EtcdContainerName, 3%nat)
  | 3%nat => Some (VolumeRemoveCommand targets
                     (EtcdVolumeName (mkEtcdParams no_params EmptyString)), 4%nat)
  | 4%nat => Some (waitEtcdSyncCommand (etcdEndpoints cp) false, 5%nat)
  | _ => None
  end.

Definition etcdRestartOp_NextCommand (cpNodes : list Node) (target : Node) (params : EtcdParams)
    (step : nat) : next :=
  match step with
  | 0%nat => Some (waitEtcdSyncCommand (etcdEndpoints cpNodes) true, 1%nat)
  | 1%nat => Some (ImagePullCommand [target] EtcdImage, 2%nat)
  | 2%nat => Some (StopContainersCommand [target] EtcdContainerName, 3%nat)
  | 3%nat => Some (RunContainerCommand [target] EtcdContainerName EtcdImage
                     (etcd_mount (EtcdVolumeName params))
                     (SameParams (etcd_BuiltInParams target (initial_cluster cpNodes) "new"))
                     (etcd_ServiceParams params) false, 4%nat)
  | _ => None
  end.

Definition apiServerRestartOp_NextCommand (nodes : list Node) (serviceSubnet : string)
    (params : APIServerParams) (clusterDomain : string) (step : nat) : next :=
  match step with
  | 0%nat => Some (ImagePullCommand nodes KubernetesImage, 1%nat)
  | 1%nat => Some (MakeDirsCommand nodes ["/etc/kubernetes/apiserver"] "700", 2%nat)
  | 2%nat => Some (prepareAPIServerFilesCommand nodes serviceSubnet clusterDomain params, 3%nat)
  | 3%nat => Some (FilesBuilder nodes, 4%nat)
  | 4%nat => Some (StopContainersCommand nodes "kube-apiserver", 5%nat)
  | 5%nat => Some (RunContainerCommand nodes "kube-apiserver" KubernetesImage
                     ["--mount"; "type=tmpfs,dst=/run/kubernetes"]
                     (params_map (fun n => apiserver_params (node_Address n) serviceSubnet
                        (AuditLogEnabled params) (AuditLogPolicy params) (AuditLogPath params)
                        clusterDomain) nodes)
                     (api_ServiceParams params) false, 6%nat)
  | _ => None
  end.

Definition controllerManagerBootOp_NextCommand (nodes : list Node) (cluster serviceSubnet : string)
    (params : ServiceParams) (step : nat) : next :=
  match step with
  | 0%nat => Some (ImagePullCommand nodes KubernetesImage, 1%nat)
  | 1%nat => Some (prepareControllerManagerFilesCommand cluster nodes, 2%nat)
  | 2%nat => Some (FilesBuilder nodes, 3%nat)
  | 3%nat => Some (RunContainerCommand nodes "kube-controller-manager" KubernetesImage []
                     (SameParams (ControllerManagerParams cluster serviceSubnet)) params false,
                   4%nat)
  | _ => None
  end.

Definition controllerManagerRestartOp_NextCommand (nodes : list Node)
    (cluster serviceSubnet : string) (params : ServiceParams) (step : nat) : next :=
  match step with
  | 0%nat => Some (ImagePullCommand nodes KubernetesImage, 1%nat)
  | 1%nat => Some (RunContainerCommand nodes "kube-controller-manager" KubernetesImage []
                     (SameParams (ControllerManagerParams cluster serviceSubnet)) params true,
                   2%nat)
  | _ => None
  end.

Definition scheduler_run (nodes : list Node) (params : SchedulerParams) (restart : bool)
    : Commander :=
  RunContainerCommand nodes "kube-scheduler" KubernetesImage [] (SameParams scheduler_params)
    (sched_ServiceParams params) restart.

Definition schedulerBootOp_NextCommand (nodes : list Node) (cluster : string)
    (params : SchedulerParams) (step : nat) : next :=
  match step with
  | 0%nat => Some (ImagePullCommand nodes KubernetesImage, 1%nat)
  | 1%nat => Some (prepareSchedulerFilesCommand cluster nodes params, 2%nat)
  | 2%nat => Some (FilesBuilder nodes, 3%nat)
  | 3%nat => Some (scheduler_run nodes params false, 4%nat)
  | _ => None
  end.

Definition schedulerRestartOp_NextCommand (nodes : list Node) (cluster : string)
    (params : SchedulerParams) (step : nat) : next :=
  match step with
  | 0%nat => Some (ImagePullCommand nodes KubernetesImage, 1%nat)
  | 1%nat => Some (prepareSchedulerFilesCommand cluster nodes params, 2%nat)
  | 2%nat => Some (FilesBuilder nodes, 3%nat)
  | 3%nat => Some (scheduler_run nodes params true, 4%nat)
  | _ => None
  end.

Definition kubelet_opts : list string := ["--pid=host"; "--privileged"; "--tmpfs=/tmp"].

Definition kubeletBootOp_NextCommand (nodes registeredNodes : list Node)
    (apiServer : option Node) (cluster : string) (params : KubeletParams)
    (ns : gmap string NodeStatus) (step : nat) : next :=
  let mkdirs := MakeDirsCommand nodes
    ["/opt/cni/bin"; "/etc/cni/net.d"; "/var/lib/cni"; "/var/log/pods"; "/var/log/containers";
     "/opt/volume/bin"] "755" in
  let run := RunContainerCommand nodes "kubelet" KubernetesImage kubelet_opts
    (params_map (fun n => KubeletServiceParams n params) nodes)
    (kubelet_ServiceParams params) false in
  match step with
  | 0%nat => Some (ImagePullCommand nodes KubernetesImage, 1%nat)
  | 1%nat => if negb (String.length (cni_Name (kubelet_CNIConfFile params)) =? 0)%nat
             then Some (emptyDirCommand nodes "/etc/cni/net.d", 2%nat)
             else Some (mkdirs, 3%nat)
  | 2%nat => Some (mkdirs, 3%nat)
  | 3%nat => Some (prepareKubeletFilesCommand cluster params ns nodes, 4%nat)
  | 4%nat => Some (FilesBuilder nodes, 5%nat)
  | 5%nat => Some (installCNICommand nodes, 6%nat)
  | 6%nat => if (0 <? length registeredNodes)%nat && (0 <? length (BootTaints params))%nat
             then Some (retaintBeforeKubeletBootCommand registeredNodes apiServer params, 7%nat)
             else Some (run, 8%nat)
  | 7%nat => Some (run, 8%nat)
  | 8%nat => Some (waitForKubeletReadyCommand nodes, 9%nat)
  | _ => None
  end.

Definition kubeletRestartOp_NextCommand (nodes : list Node) (cluster : string)
    (params : KubeletParams) (ns : gmap string NodeStatus) (step : nat) : next :=
  match step with
  | 0%nat => Some (ImagePullCommand nodes KubernetesImage, 1%nat)
  | 1%nat => Some (prepareKubeletConfigCommand cluster params ns nodes, 2%nat)
  | 2%nat => Some (FilesBuilder nodes, 3%nat)
  | 3%nat => Some (RunContainerCommand nodes "kubelet" KubernetesImage kubelet_opts
                     (params_map (fun n => KubeletServiceParams n params) nodes)
                     (kubelet_ServiceParams params) true, 4%nat)
  | 4%nat => Some (waitForKubeletReadyCommand nodes, 5%nat)
  | _ => None
  end.

Definition proxy_run (nodes : list Node) (params : ProxyParams) (restart : bool) : Commander :=
  RunContainerCommand nodes "kube-proxy" KubernetesImage ["--tmpfs=/run"; "--privileged"]
    (params_map (fun _ => proxy_params) nodes) (proxy_ServiceParams params) restart.

Definition kubeProxyBootOp_NextCommand (nodes : list Node) (cluster ap : string)
    (params : ProxyParams) (step : nat) : next :=
  match step with
  | 0%nat => Some (ImagePullCommand nodes KubernetesImage, 1%nat)
  | 1%nat => Some (prepareProxyFilesCommand cluster ap nodes params, 2%nat)
  | 2%nat => Some (FilesBuilder nodes, 3%nat)
  | 3%nat => Some (proxy_run nodes params false, 4%nat)
  | _ => None
  end.

Definition kubeProxyRestartOp_NextCommand (nodes : list Node) (cluster ap : string)
    (params : ProxyParams) (step : nat) : next :=
  match step with
  | 0%nat => Some (ImagePullCommand nodes KubernetesImage, 1%nat)
  | 1%nat => Some (prepareProxyFilesCommand cluster ap nodes params, 2%nat)
  | 2%nat => Some (FilesBuilder nodes, 3%nat)
  | 3%nat => Some (proxy_run nodes params true, 4%nat)
  | _ => None
  end.

(** [attempts] and [interval] of the two drain operators. *)
Definition evict_attempts (retries : option Z) : Z :=
  match retries with Some r => add64 r 1 | None => 1 end.
Definition evict_interval (interval : option Z) : Z :=
  match interval with Some i => mul64 (10 ^ 9) i | None => 0 end.

Definition rebootDrainStartOp_NextCommand (apiserver : option Node)
    (entries : list RebootQueueEntry) (config : Reboot) (step : nat) : next :=
  once (rebootDrainStartCommand entries (rb_ProtectedNamespaces config)
          (rb_ProtectedJobPods config) apiserver (evict_attempts (rb_EvictRetries config))
          (evict_interval (rb_EvictInterval config))) step.

Definition rebootRebootOp_NextCommand (entries : list RebootQueueEntry) (config : Reboot)
    (step : nat) : next :=
  once (rebootRebootCommand entries (rb_RebootCommand config) (rb_CommandTimeoutSeconds config)
          (rb_CommandRetries config) (rb_CommandInterval config)) step.

Definition repairDrainStartOp_NextCommand (apiserver : option Node) (entry : RepairQueueEntry)
    (config : Repair) (step : nat) : next :=
  once (repairDrainStartCommand entry (rp_ProtectedNamespaces config)
          (rp_ProtectedJobPods config) apiserver (evict_attempts (rp_EvictRetries config))
          (evict_interval (rp_EvictInterval config))) step.

Definition repairExecuteOp_NextCommand (entry : RepairQueueEntry) (rstep : RepairStep)
    (cluster : Cluster) (step : nat) : next :=
  once (repairExecuteCommand entry (RepairCommand rstep) (step_CommandTimeoutSeconds rstep)
          (step_CommandRetries rstep) (step_CommandInterval rstep) cluster) step.

(** ** The interface [Operator] *)

Definition NextCommand (o : Operator) (step : nat) : next :=
  match o with
  | UpgradeOp current nodes => upgradeOp_NextCommand current nodes step
  | RiversBootOp nodes ups params name up lp =>
      riversBootOp_NextCommand nodes ups params name up lp step
  | RiversRestartOp nodes ups params name up lp =>
      riversRestartOp_NextCommand nodes ups params name up lp step
  | EtcdBootOp nodes params => etcd_bootOp_NextCommand nodes params step
  | EtcdStartOp nodes params => etcdStartOp_NextCommand nodes params step
  | EtcdWaitClusterOp nodes => once (waitEtcdSyncCommand (etcdEndpoints nodes) false) step
  | EtcdAddMemberOp cp target params => addMemberOp_NextCommand cp target params step
  | EtcdRemoveMemberOp cp members =>
      once (removeMemberCommand (etcdEndpoints cp) (mem_ID <$> members)) step
  | EtcdDestroyMemberOp cp targets ids => destroyMemberOp_NextCommand cp targets ids step
  | EtcdMarkMemberOp nodes => once (VolumeCreateCommand nodes EtcdAddedMemberVolumeName) step
  | EtcdRestartOp cp target params => etcdRestartOp_NextCommand cp target params step
  | APIServerRestartOp nodes subnet params domain =>
      apiServerRestartOp_NextCommand nodes subnet params domain step
  | ControllerManagerBootOp nodes cluster subnet params =>
      controllerManagerBootOp_NextCommand nodes cluster subnet params step
  | ControllerManagerRestartOp nodes cluster subnet params =>
      controllerManagerRestartOp_NextCommand nodes cluster subnet params step
  | SchedulerBootOp nodes cluster params => schedulerBootOp_NextCommand nodes cluster params step
  | SchedulerRestartOp nodes cluster params =>
      schedulerRestartOp_NextCommand nodes cluster params step
  | KubeletBootOp nodes registered apiServer cluster params ns =>
      kubeletBootOp_NextCommand nodes registered apiServer cluster params ns step
  | KubeletRestartOp nodes cluster params ns =>
      kubeletRestartOp_NextCommand nodes cluster params ns step
  | KubeProxyBootOp nodes cluster ap params =>
      kubeProxyBootOp_NextCommand nodes cluster ap params step
  | KubeProxyRestartOp nodes cluster ap params =>
      kubeProxyRestartOp_NextCommand nodes cluster ap params step
  | ContainerStopOp nodes name => once (KillContainersCommand nodes name) step
  | KubeWaitOp api => once (waitKubeCommand api) step
  | KubeEndpointsCreateOp api ep => once (createEndpointsCommand api ep) step
  | KubeEndpointsUpdateOp api ep => once (updateEndpointsCommand api ep) step
  | KubeEndpointSliceCreateOp api eps => once (createEndpointSliceCommand api eps) step
  | KubeEndpointSliceUpdateOp api eps => once (updateEndpointSliceCommand api eps) step
  | KubeEtcdServiceCreateOp api => once (createEtcdServiceCommand api) step
  | KubeEtcdServiceUpdateOp api => once (updateEtcdServiceCommand api) step
  | KubeNodeUpdateOp api nodes => once (nodeUpdateCommand api nodes) step
  | KubeNodeRemoveOp api nodes => once (nodeRemoveCommand api nodes) step
  | ResourceApplyOp api res _ mappings => once (applyResourceCommand api res mappings true) step
  | ClusterDNSCreateConfigMapOp api domain servers =>
      once (createClusterDNSConfigMapCommand api domain servers) step
  | ClusterDNSUpdateConfigMapOp api cm => once (updateClusterDNSConfigMapCommand api cm) step
  | NodeDNSCreateConfigMapOp api ip domain servers =>
      once (createNodeDNSConfigMapCommand api ip domain servers) step
  | NodeDNSUpdateConfigMapOp api cm => once (updateNodeDNSConfigMapCommand api cm) step
  | RebootDrainStartOp api entries config =>
      rebootDrainStartOp_NextCommand api entries config step
  | RebootDeleteDaemonSetPodOp api entries _ =>
      once (rebootDeleteDaemonSetPodCommand entries api) step
  | RebootRebootOp _ entries config => rebootRebootOp_NextCommand entries config step
  | RebootDrainTimeoutOp entries => once (rebootDrainTimeoutCommand entries) step
  | RebootUncordonOp api names => once (rebootUncordonCommand api names) step
  | RebootDequeueOp entries | RebootCancelOp entries => once (rebootDequeueCommand entries) step
  | RepairDequeueOp entry => once (repairDequeueCommand entry) step
  | RepairDrainStartOp api entry config => repairDrainStartOp_NextCommand api entry config step
  | RepairDrainTimeoutOp entry => once (repairDrainTimeoutCommand entry) step
  | RepairExecuteOp entry rstep cluster => repairExecuteOp_NextCommand entry rstep cluster step
  | RepairFinishOp entry succeeded cluster =>
      once (repairFinishCommand entry succeeded cluster) step
  end.

(** The API server an operator talks to, for the operators whose [Targets] is
    its address. *)
Definition apiserver_of (o : Operator) : option (option Node) :=
  match o with
  | KubeWaitOp api | KubeEndpointsCreateOp api _ | KubeEndpointsUpdateOp api _
  | KubeEndpointSliceCreateOp api _ | KubeEndpointSliceUpdateOp api _
  | KubeEtcdServiceCreateOp api | KubeEtcdServiceUpdateOp api
  | KubeNodeRemoveOp api _ | ResourceApplyOp api _ _ _
  | ClusterDNSCreateConfigMapOp api _ _ | ClusterDNSUpdateConfigMapOp api _
  | NodeDNSCreateConfigMapOp api _ _ _ | NodeDNSUpdateConfigMapOp api _ => Some api
  | _ => None
  end.

(** op/status.go; [url_host] is [url.Parse] followed by [net.SplitHostPort] of
    the host. *)
Definition GuessMemberName (url_host : string -> result string) (m : Member) : result string :=
  if (0 <? String.length (mem_Name m))%nat then Ok (mem_Name m)
  else match mem_PeerURLs m with
       | [] => Err (ErrUnexpected "empty PeerURLs")
       | u :: _ => url_host u
       end.

(** [removeMemberOp.Targets]: a member without a name is shown by its ID. *)
Definition member_targets (url_host : string -> result string) (members : list Member)
    : list string :=
  (fun m => match GuessMemberName url_host m with
            | Ok ip => ip
            | Err _ => FormatInt (mem_ID m)
            end) <$> members.

Definition Targets (url_host : string -> result string) (o : Operator) : go (list string) :=
  match apiserver_of o with
  | Some api => n ← deref api; Ret [node_Address n]
  | None =>
      Ret match o with
          | UpgradeOp _ nodes | RiversBootOp nodes _ _ _ _ _ | RiversRestartOp nodes _ _ _ _ _
          | EtcdBootOp nodes _ | EtcdStartOp nodes _ | EtcdDestroyMemberOp _ nodes _
          | EtcdMarkMemberOp nodes | APIServerRestartOp nodes _ _ _
          | ControllerManagerBootOp nodes _ _ _ | ControllerManagerRestartOp nodes _ _ _
          | SchedulerBootOp nodes _ _ | SchedulerRestartOp nodes _ _
          | KubeletBootOp nodes _ _ _ _ _ | KubeletRestartOp nodes _ _ _
          | KubeProxyBootOp nodes _ _ _ | KubeProxyRestartOp nodes _ _ _
          | ContainerStopOp nodes _ => addrs nodes
          | EtcdWaitClusterOp nodes => etcdEndpoints nodes
          | EtcdAddMemberOp _ n _ | EtcdRestartOp _ n _ => [node_Address n]
          | EtcdRemoveMemberOp _ members => member_targets url_host members
          | KubeNodeUpdateOp _ nodes => kn_Name <$> nodes
          | RebootDrainStartOp _ es _ | RebootDeleteDaemonSetPodOp _ es _
          | RebootRebootOp _ es _ | RebootDrainTimeoutOp es | RebootDequeueOp es
          | RebootCancelOp es => rqe_Node <$> es
          | RebootUncordonOp _ names => names
          | RepairDequeueOp e | RepairDrainStartOp _ e _ | RepairDrainTimeoutOp e
          | RepairExecuteOp e _ _ | RepairFinishOp e _ _ => [rpe_Address e]
          | _ => []
          end
  end.

(** The commands an operator issues from a step on, at most [fuel] of them. *)
Fixpoint commands_from (fuel : nat) (o : Operator) (step : nat) : list Commander :=
  match fuel with
  | O => []
  | S fuel' => match NextCommand o step with
               | None => []
               | Some (c, step') => c :: commands_from fuel' o step'
               end
  end.
(** No operator issues more than ten commands. *)
Definition commands (o : Operator) : list Commander := commands_from 10 o 0.
End operators.

(** ** What operators do *)
Section operator_facts.
  Context {T : K8sTypes}.

(** The nodes a command works on through their agents; the commands that talk
    to the API server or to etcd work on none. *)
Definition command_nodes (c : Commander) : list Node :=
  match c with
  | ImagePullCommand ns _ | StopContainersCommand ns _ | KillContainersCommand ns _
  | RunContainerCommand ns _ _ _ _ _ _ | VolumeCreateCommand ns _ | VolumeRemoveCommand ns _
  | MakeDirsCommand ns _ _ | FilesBuilder ns | upgradeToVersion2Command ns
  | prepareEtcdCertificatesCommand ns | prepareAPIServerFilesCommand ns _ _ _
  | prepareControllerManagerFilesCommand _ ns | prepareSchedulerFilesCommand _ ns _
  | prepareProxyFilesCommand _ _ ns _ | emptyDirCommand ns _
  | prepareKubeletFilesCommand _ _ _ ns | prepareKubeletConfigCommand _ _ _ ns
  | installCNICommand ns | waitForKubeletReadyCommand ns => ns
  | addMemberCommand _ n _ _ => [n]
  | _ => []
  end.

(** The nodes an operator may work on. *)
Definition op_nodes (o : Operator) : list Node :=
  match o with
  | UpgradeOp _ nodes | RiversBootOp nodes _ _ _ _ _ | RiversRestartOp nodes _ _ _ _ _
  | EtcdBootOp nodes _ | EtcdStartOp nodes _ | EtcdDestroyMemberOp _ nodes _
  | EtcdMarkMemberOp nodes | APIServerRestartOp nodes _ _ _
  | ControllerManagerBootOp nodes _ _ _ | ControllerManagerRestartOp nodes _ _ _
  | SchedulerBootOp nodes _ _ | SchedulerRestartOp nodes _ _
  | KubeletBootOp nodes _ _ _ _ _ | KubeletRestartOp nodes _ _ _
  | KubeProxyBootOp nodes _ _ _ | KubeProxyRestartOp nodes _ _ _
  | ContainerStopOp nodes _ => nodes
  | EtcdAddMemberOp _ n _ | EtcdRestartOp _ n _ => [n]
  | _ => []
  end.

Local Ltac next_cases :=
  cbn [NextCommand];
  unfold upgradeOp_NextCommand, riversBootOp_NextCommand, riversRestartOp_NextCommand,
    etcd_bootOp_NextCommand, etcdStartOp_NextCommand, addMemberOp_NextCommand,
    destroyMemberOp_NextCommand, etcdRestartOp_NextCommand, apiServerRestartOp_NextCommand,
    controllerManagerBootOp_NextCommand, controllerManagerRestartOp_NextCommand,
    schedulerBootOp_NextCommand, schedulerRestartOp_NextCommand, kubeletBootOp_NextCommand,
    kubeletRestartOp_NextCommand, kubeProxyBootOp_NextCommand, kubeProxyRestartOp_NextCommand,
    rebootDrainStartOp_NextCommand, rebootRebootOp_NextCommand, repairDrainStartOp_NextCommand,
    repairExecuteOp_NextCommand, once;
  repeat (split_match; try done).

(** Each command moves the operator to a later step, and none is issued from
    step 10 on. *)
Lemma NextCommand_step (o : Operator) step c step' :
  NextCommand o step = Some (c, step') -> (step < step' <= 10)%nat.
Proof. destruct o; next_cases; intros [= <- <-]; lia. Qed.

(** A command only works on nodes of its operator. *)
Lemma NextCommand_nodes (o : Operator) step c step' n :
  NextCommand o step = Some (c, step') -> n ∈ command_nodes c -> n ∈ op_nodes o.
Proof. destruct o; next_cases; intros [= <- <-]; simpl; try done; by intros ?%elem_of_nil. Qed.

Lemma commands_from_fuel (o : Operator) fuel fuel' step :
  (10 <= fuel + step)%nat -> (10 <= fuel' + step)%nat ->
  commands_from fuel o step = commands_from fuel' o step.
Proof.
  revert fuel' step. induction fuel as [|fuel IH]; intros [|fuel'] step Hf Hf';
    cbn [commands_from]; try done;
    destruct (NextCommand o step) as [[c step']|] eqn:Hn; try done;
    apply NextCommand_step in Hn; [lia|lia|].
  f_equal. apply IH; lia.
Qed.

Lemma commands_from_nodes (o : Operator) fuel step c n :
  c ∈ commands_from fuel o step -> n ∈ command_nodes c -> n ∈ op_nodes o.
Proof.
  revert step. induction fuel as [|fuel IH]; intros step; cbn [commands_from];
    [by intros ?%elem_of_nil|].
  destruct (NextCommand o step) as [[c' step']|] eqn:Hn; [|by intros ?%elem_of_nil].
  intros [->|Hc]%elem_of_cons; eauto using NextCommand_nodes.
Qed.

(** Starting to reboot nodes releases their agents. *)
Definition releases (c : Commander) : bool :=
  match c with rebootRebootCommand _ _ _ _ _ => true | _ => false end.
Definition reboots (o : Operator) : bool := match o with RebootRebootOp _ _ _ => true | _ => false end.
Lemma NextCommand_releases (o : Operator) step c step' :
  NextCommand o step = Some (c, step') -> releases c = true -> reboots o = true.
Proof. destruct o; next_cases; intros [= <- <-]; done. Qed.
Lemma commands_from_releases (o : Operator) fuel : forall step c,
  c ∈ commands_from fuel o step -> releases c = true -> reboots o = true.
Proof.
  induction fuel as [|fuel IH]; intros step c; cbn [commands_from]; [by intros ?%elem_of_nil|].
  destruct (NextCommand o step) as [[c' step']|] eqn:Hn; [|by intros ?%elem_of_nil].
  intros [->|Hc]%elem_of_cons; eauto using NextCommand_releases.
Qed.

(** C40: every operator finishes.  Whatever bound of at least ten commands it is
    run with, it issues the same commands, at most ten of them; and it issues
    at least one, except an upgrade from a version other than 1, which issues
    none. *)
Theorem operators_terminate (o : Operator) :
  (forall fuel, (10 <= fuel)%nat -> commands_from fuel o 0 = commands o)
  /\ (length (commands o) <= 10)%nat
  /\ (commands o = [] <-> exists current nodes, o = UpgradeOp current nodes /\ current <> "1").
Proof.
  split_and!.
  - intros fuel Hf. apply commands_from_fuel; lia.
  - assert (forall fuel step, (length (commands_from fuel o step) <= fuel)%nat) as Hl; [|apply Hl].
    induction fuel as [|fuel IH]; intros step; cbn [commands_from]; [done|].
    destruct (NextCommand o step) as [[c step']|]; simpl; [specialize (IH step')|]; lia.
  - unfold commands. cbn [commands_from].
    destruct (NextCommand o 0) as [[c step']|] eqn:Hn.
    + split; [done|]. intros (current & nodes & -> & Hne). revert Hn.
      cbn [NextCommand]. unfold upgradeOp_NextCommand.
      by rewrite (proj2 (String.eqb_neq _ _) Hne).
    + split; [intros _|done]. destruct o; try discriminate Hn.
      revert Hn. cbn [NextCommand]. unfold upgradeOp_NextCommand.
      destruct (String.eqb_spec current "1"); [done|eauto].
Qed.

(** The operator that destroys a member removes the volume with the default
    name, whatever name is configured for etcd. *)
Theorem destroy_removes_default_volume cp targets ids nodes volname :
  VolumeRemoveCommand nodes volname ∈ commands (EtcdDestroyMemberOp cp targets ids) ->
  volname = EtcdAddedMemberVolumeName \/ volname = "etcd-cke".
Proof.
  unfold commands. cbn [commands_from NextCommand destroyMemberOp_NextCommand].
  rewrite !elem_of_cons, elem_of_nil. intros Hc.
  repeat destruct Hc as [[=]|Hc]; try done; subst; auto.
Qed.
End operator_facts.
