(* ===== verification/Engine.v ===== *)
(** * Containers on nodes

    container.go and the commands of op/common that work on containers and
    volumes.  Docker itself, reached through the agent of a node, is the class
    [Docker]: its state is abstract, and only the documented effects of its
    commands are assumed. *)

From Stdlib Require Import ZArith Ascii String Lia.
From stdpp Require Import base gmap strings list.
From S2P Require Import Prelude GoLib K8s Cluster Queue Resource Status Params Operators.

(** ** Docker *)

(** The JSON text of the label is represented by the value it encodes. *)
Record ckeLabel := mkLabel {
  BuiltInParams : ServiceParams;
  ExtraParams : ServiceParams
}.

Record Container := mkContainer {
  ct_ID : string;
  ct_Running : bool;
  ct_Image : string;
  ct_Label : option ckeLabel
}.

(** A command line of [docker run -d]. *)
Record DockerRun := mkDockerRun {
  dr_name : string;
  dr_flags : list string;
  dr_label : ckeLabel;
  dr_image : string;
  dr_args : list string
}.

Definition stopped (ct : Container) : Container :=
  mkContainer (ct_ID ct) false (ct_Image ct) (ct_Label ct).

(** The commands return [None] or [false] when the command or the session of
    the agent fails. *)
Class Docker := {
  daemon : Type;
  ps_a : daemon -> gmap string Container;
  volumes : daemon -> gset string;

  docker_image_list : daemon -> daemon * option (list string);
  docker_image_pull : string -> daemon -> daemon * bool;
  docker_ps : list string -> daemon -> daemon * option (list (string * string));
  docker_inspect : list string -> daemon -> daemon * option (list (string * Container));
  docker_rm : string -> daemon -> daemon * bool;
  docker_stop : string -> daemon -> daemon * bool;
  docker_kill : string -> daemon -> daemon * bool;
  docker_run : DockerRun -> daemon -> daemon * bool;
  docker_volume_list : daemon -> daemon * option (list string);
  docker_volume_create : string -> daemon -> daemon * bool;
  docker_volume_remove : string -> daemon -> daemon * bool;
  tee_label : ckeLabel -> daemon -> daemon * bool;
  (** [agent.Run("cat " + path)] *)
  run_cat : string -> daemon -> daemon * option string;
  selinux_enforcing : bool;

  (** Queries, pulls and files leave containers and volumes alone. *)
  same_state : daemon -> daemon -> Prop :=
    fun d d' => ps_a d' = ps_a d /\ volumes d' = volumes d;
  image_list_same : forall d, same_state d (fst (docker_image_list d));
  image_pull_same : forall img d, same_state d (fst (docker_image_pull img d));
  ps_same : forall names d, same_state d (fst (docker_ps names d));
  inspect_same : forall ids d, same_state d (fst (docker_inspect ids d));
  volume_list_same : forall d, same_state d (fst (docker_volume_list d));
  tee_same : forall l d, same_state d (fst (tee_label l d));
  cat_same : forall path d, same_state d (fst (run_cat path d));

  (** [docker ps -a --filter name=...] lists the named containers; without a
      filter it would list all of them. *)
  ps_spec : forall names d l, names <> [] -> snd (docker_ps names d) = Some l ->
    forall name id, (name, id) ∈ l <->
      name ∈ names /\ exists ct, ps_a d !! name = Some ct /\ ct_ID ct = id;
  (** [docker container inspect] gives exactly the containers asked for. *)
  inspect_spec : forall ids d l, snd (docker_inspect ids d) = Some l ->
    forall name ct, (name, ct) ∈ l <-> ps_a d !! name = Some ct /\ ct_ID ct ∈ ids;
  ids_unique : forall d n1 n2 c1 c2, ps_a d !! n1 = Some c1 -> ps_a d !! n2 = Some c2 ->
    ct_ID c1 = ct_ID c2 -> n1 = n2;
  ids_not_empty : forall d n ct, ps_a d !! n = Some ct -> ct_ID ct <> EmptyString;
  (** The effects of the commands when they succeed. *)
  rm_spec : forall n d d', docker_rm n d = (d', true) ->
    ps_a d' = delete n (ps_a d) /\ volumes d' = volumes d;
  stop_spec : forall n d d', docker_stop n d = (d', true) ->
    ps_a d' = alter stopped n (ps_a d) /\ volumes d' = volumes d;
  kill_spec : forall n d d', docker_kill n d = (d', true) ->
    ps_a d' = alter stopped n (ps_a d) /\ volumes d' = volumes d;
  run_spec : forall r d d', docker_run r d = (d', true) ->
    volumes d ⊆ volumes d'
    /\ exists id, ps_a d' = <[ dr_name r := mkContainer id true (dr_image r) (Some (dr_label r)) ]>
                              (ps_a d);
  volume_list_spec : forall d l, snd (docker_volume_list d) = Some l ->
    forall v, v ∈ l <-> v ∈ volumes d;
  volume_create_spec : forall v d d', docker_volume_create v d = (d', true) ->
    ps_a d' = ps_a d /\ volumes d' = {[ v ]} ∪ volumes d;
  volume_remove_spec : forall v d d', docker_volume_remove v d = (d', true) ->
    ps_a d' = ps_a d /\ volumes d' = volumes d ∖ {[ v ]}
}.

(** ** Computations on a node *)
Section engine.
  Context `{Docker} `{Runtime}.

Definition eng (A : Type) : Type := daemon -> daemon * result A.
Global Instance eng_ret : MRet eng := fun A a d => (d, Ok a).
Global Instance eng_bind : MBind eng := fun A B k m d =>
  match m d with
  | (d', Ok a) => k a d'
  | (d', Err e) => (d', Err e)
  end.
Definition fail {A} (msg : string) : eng A := fun d => (d, Err (ErrUnexpected msg)).
(** [stdout, stderr, err := c.agent.Run(cmdline); if err != nil { return ... }] *)
Definition run (cmd : daemon -> daemon * bool) : eng unit := fun d =>
  match cmd d with
  | (d', true) => (d', Ok tt)
  | (d', false) => (d', Err (ErrUnexpected "command failed"))
  end.
Definition query {A} (cmd : daemon -> daemon * option A) : eng A := fun d =>
  match cmd d with
  | (d', Some a) => (d', Ok a)
  | (d', None) => (d', Err (ErrUnexpected "command failed"))
  end.

(** ** The engine (container.go) *)

Definition PullImage (img : string) : eng unit :=
  images ← query docker_image_list;
  if existsb (String.eqb img) images then mret tt else run (docker_image_pull img).

(** [getID]: the identifier, empty for no container. *)
Definition getID (name : string) : eng string :=
  l ← query (docker_ps [name]);
  mret (match l with (_, id) :: _ => id | [] => EmptyString end).

Definition volume_flag (m : Mount) : string :=
  let opts := [if mnt_ReadOnly m then "ro" else "rw"]
    ++ (if (0 <? String.length (mnt_Propagation m))%nat then [mnt_Propagation m] else [])
    ++ (if (0 <? String.length (mnt_Label m))%nat && selinux_enforcing then [mnt_Label m] else [])
  in "--volume=" +:+ mnt_Source m +:+ ":" +:+ mnt_Destination m +:+ ":" +:+ Join opts ",".

Definition env_flags (env : gmap string string) : list string :=
  range env ≫= fun '(k, v) => ["-e"; k +:+ "=" +:+ v].

Definition RunSystem (name img : string) (opts : list string) (params extra : ServiceParams)
    : eng unit :=
  id ← getID name;
  _ ← (if (0 <? String.length id)%nat then run (docker_rm name) else mret tt);
  let flags :=
    ["--log-driver=journald"; "-d"; "--name=" +:+ name; "--read-only"; "--network=host";
     "--uts=host"] ++ opts
    ++ (volume_flag <$> (ExtraBinds params ++ ExtraBinds extra))
    ++ env_flags (ExtraEnvvar params) ++ env_flags (ExtraEnvvar extra) in
  let label := mkLabel params extra in
  _ ← run (tee_label label);
  run (docker_run (mkDockerRun name flags label img
                     (ExtraArguments params ++ ExtraArguments extra))).

Definition Stop (name : string) : eng unit := run (docker_stop name).
Definition Kill (name : string) : eng unit := run (docker_kill name).
Definition Remove (name : string) : eng unit := run (docker_rm name).
Definition Exists (name : string) : eng bool :=
  id ← getID name; mret (negb (String.length id =? 0)%nat).

(** [ids[nameID[0]] = nameID[1]] for each line *)
Definition getIDs (names : list string) : eng (gmap string string) :=
  l ← query (docker_ps names);
  mret (foldl (fun m '(name, id) => <[ name := id ]> m) ∅ l).

Definition service_status (ct : Container) (l : ckeLabel) : ServiceStatus :=
  mkServiceStatus (ct_Running ct) (ct_Image ct) (BuiltInParams l) (ExtraParams l).

(** The loop over the containers: a missing label does not unmarshal. *)
Fixpoint statuses_of (djs : list (string * Container)) (statuses : gmap string ServiceStatus)
    : eng (gmap string ServiceStatus) :=
  match djs with
  | [] => mret statuses
  | (name, ct) :: rest =>
      match ct_Label ct with
      | None => fail "unexpected end of JSON input"
      | Some l => statuses_of rest (<[ name := service_status ct l ]> statuses)
      end
  end.

(** From [RETRY] on; [again] is what follows a failed inspection. *)
Definition inspect_ids (ids : list string) (again : eng (gmap string ServiceStatus))
    : eng (gmap string ServiceStatus) :=
  match ids with
  | [] => mret ∅
  | _ => fun d => match docker_inspect ids d with
                  | (d', Some djs) => statuses_of djs ∅ d'
                  | (d', None) => again d'
                  end
  end.
Definition inspect_round (names : list string) (again : eng (gmap string ServiceStatus))
    : eng (gmap string ServiceStatus) :=
  nameIds ← getIDs names; inspect_ids (snd <$> range nameIds) again.
(** [goto RETRY], three attempts in all. *)
Fixpoint inspect_retry (retries : nat) (names : list string) : eng (gmap string ServiceStatus) :=
  inspect_round names (match retries with
                       | O => fail "docker container inspect failed"
                       | S n => inspect_retry n names
                       end).
Definition Inspect (names : list string) : eng (gmap string ServiceStatus) :=
  inspect_retry 2 names.

Definition VolumeCreate (name : string) : eng unit := run (docker_volume_create name).
Definition VolumeRemove (name : string) : eng unit := run (docker_volume_remove name).
Definition VolumeExists (name : string) : eng bool :=
  l ← query docker_volume_list; mret (existsb (String.eqb name) l).

(** ** Commands on one node (op/common) *)

Definition params_for (ps : RunParams) (address : string) : ServiceParams :=
  match ps with
  | SameParams p => p
  | ParamsMap m => default no_params (m !! address)
  end.

Definition runContainer (address name img : string) (opts : list string) (ps : RunParams)
    (extra : ServiceParams) (restart : bool) : eng unit :=
  _ ← (if restart then Kill name else mret tt);
  exists_ ← Exists name;
  _ ← (if (exists_ : bool) then Remove name else mret tt);
  RunSystem name img opts (params_for ps address) extra.

Definition stopContainer (name : string) : eng unit :=
  exists_ ← Exists name;
  if negb exists_ then mret tt
  else
    statuses ← Inspect [name];
    _ ← (match statuses !! name with
         | Some st => if ss_Running st then Stop name else mret tt
         | None => mret tt
         end);
    Remove name.

Definition killContainer (name : string) : eng unit :=
  exists_ ← Exists name;
  if negb exists_ then mret tt
  else
    statuses ← Inspect [name];
    _ ← (match statuses !! name with
         | Some st => if ss_Running st then Kill name else mret tt
         | None => mret tt
         end);
    Remove name.

(** [addMemberCommand]: [members] is what etcd answers once the node is a
    member; an etcd that already runs is left alone. *)
Definition initial_members (address : string) (members : list Member) : list string :=
  members ≫= fun m => (fun u => (if (String.length (mem_Name m) =? 0)%nat then address
                                 else mem_Name m) +:+ "=" +:+ u) <$> mem_PeerURLs m.
Definition addMember (members : result (list Member)) (node : Node) (opts : list string)
    (extra : ServiceParams) : eng unit :=
  members ← (fun d => (d, members));
  ss ← Inspect [EtcdContainerName];
  if (match ss !! EtcdContainerName with Some st => ss_Running st | None => false end)
  then mret tt
  else RunSystem EtcdContainerName EtcdImage opts
         (etcd_BuiltInParams node (initial_members (node_Address node) members) "existing") extra.

Definition volumeRemove (volname : string) : eng unit :=
  exists_ ← VolumeExists volname;
  if (exists_ : bool) then VolumeRemove volname else mret tt.

Definition upgradeVolume : eng unit :=
  exists_ ← VolumeExists EtcdAddedMemberVolumeName;
  if negb exists_ then VolumeCreate EtcdAddedMemberVolumeName else mret tt.

(** [for range pullMaxRetry]: the error of the last attempt. *)
Fixpoint pull_retry (attempts : nat) (img : string) : eng unit := fun d =>
  match attempts with
  | O => (d, Ok tt)
  | S n => match PullImage img d with
           | (d', Ok u) => (d', Ok u)
           | (d', Err e) => match n with O => (d', Err e) | _ => pull_retry n img d' end
           end
  end.
Definition imagePull (img : string) : eng unit := pull_retry 3 img.
End engine.

(** ** Commands on the nodes of a cluster

    Each node has its own daemon.  The goroutines of a command work on
    different nodes, so that their order does not matter; the command fails
    when one of them does. *)
Section world.
  Context {T : K8sTypes} `{Docker} `{Runtime}.

Definition world : Type := string -> daemon.
Definition set_daemon (w : world) (a : string) (d : daemon) : world :=
  fun a' => if (a' =? a)%string then d else w a'.

Definition on_node (a : string) (m : eng unit) (w : world) : world * option error :=
  match m (w a) with
  | (d, Ok _) => (set_daemon w a d, None)
  | (d, Err e) => (set_daemon w a d, Some e)
  end.

Fixpoint on_nodes (nodes : list Node) (f : Node -> eng unit) (w : world) : world * option error :=
  match nodes with
  | [] => (w, None)
  | n :: rest =>
      let '(w1, e1) := on_node (node_Address n) (f n) w in
      let '(w2, e2) := on_nodes rest f w1 in
      (w2, match e1 with Some e => Some e | None => e2 end)
  end.
End world.

(** ** What the engine does *)
Section engine_facts.
  Context `{Docker} `{Runtime}.

Lemma eng_bind_Ok {A B} (m : eng A) (k : A -> eng B) d d' b :
  (m ≫= k) d = (d', Ok b) -> exists d1 a, m d = (d1, Ok a) /\ k a d1 = (d', Ok b).
Proof.
  unfold mbind, eng_bind. destruct (m d) as [d1 [a|e]]; [eauto|]. intros [=].
Qed.

Lemma query_Ok {A} (cmd : daemon -> daemon * option A) d d' a :
  query cmd d = (d', Ok a) -> cmd d = (d', Some a).
Proof. unfold query. destruct (cmd d) as [d1 [x|]]; naive_solver. Qed.

Lemma run_Ok cmd d d' u : run cmd d = (d', Ok u) -> cmd d = (d', true).
Proof. unfold run. destruct (cmd d) as [d1 [|]]; naive_solver. Qed.

(** [Exists] tells whether there is a container of the name. *)
Lemma getID_Ok name d d' id :
  getID name d = (d', Ok id) ->
  same_state d d' /\ (id = EmptyString <-> ps_a d !! name = None).
Proof.
  intros (d1 & l & Hq%query_Ok & Hr)%eng_bind_Ok. injection Hr as <- <-.
  pose proof (ps_same [name] d) as Hs. pose proof (ps_spec [name] d l ltac:(done)) as Hp.
  rewrite Hq in Hs, Hp. split; [exact Hs|]. specialize (Hp eq_refl).
  destruct l as [|[n i] l].
  - split; [intros _|done]. destruct (ps_a d !! name) as [ct|] eqn:Hct; [|done]. exfalso.
    assert ((name, ct_ID ct) ∈ ([] : list (string * string))) as ?%elem_of_nil; [|done].
    apply Hp. split; [left|eauto].
  - destruct (proj1 (Hp n i) ltac:(left)) as (->%list_elem_of_singleton & ct & Hct & <-).
    rewrite Hct. split; [|done]. intros Hid. by destruct (ids_not_empty _ _ _ Hct).
Qed.

Lemma Exists_Ok name d d' b :
  Exists name d = (d', Ok b) -> same_state d d' /\ (b = true <-> is_Some (ps_a d !! name)).
Proof.
  intros (d1 & id & [Hs Hid]%getID_Ok & Hr)%eng_bind_Ok. injection Hr as <- <-.
  split; [done|]. destruct (ps_a d !! name) as [ct|] eqn:Hct.
  - split; [by eexists|intros _]. destruct id; [|done]. discriminate (proj1 Hid eq_refl).
  - rewrite (proj2 Hid eq_refl). simpl. split; [done|]. by intros [? ?].
Qed.

(** The containers of other names are as before. *)
Definition others_kept (name : string) (d d' : daemon) : Prop :=
  delete name (ps_a d') = delete name (ps_a d) /\ volumes d ⊆ volumes d'.

Lemma others_kept_refl name d : others_kept name d d.
Proof. by split. Qed.
Lemma others_kept_trans name d1 d2 d3 :
  others_kept name d1 d2 -> others_kept name d2 d3 -> others_kept name d1 d3.
Proof. intros [H1 V1] [H2 V2]. split; [congruence|set_solver]. Qed.
Lemma same_others name d d' : same_state d d' -> others_kept name d d'.
Proof. intros [Hp Hv]. unfold others_kept. by rewrite Hp, Hv. Qed.
Lemma rm_others name d d' : docker_rm name d = (d', true) -> others_kept name d d'.
Proof. intros [Hp Hv]%rm_spec. split; [|by rewrite Hv]. by rewrite Hp, delete_delete_eq. Qed.
Lemma alter_others name (f : Container -> Container) d d' :
  ps_a d' = alter f name (ps_a d) -> volumes d' = volumes d -> others_kept name d d'.
Proof.
  intros Hp Hv. split; [|by rewrite Hv]. rewrite Hp. apply map_eq. intros n.
  destruct (decide (n = name)) as [->|Hne]; [by rewrite !lookup_delete_eq|].
  by rewrite !lookup_delete_ne, lookup_alter_ne.
Qed.
Hint Resolve others_kept_refl same_others rm_others : core.

Lemma run_others name cmd d d' u :
  run cmd d = (d', Ok u) ->
  (forall d', cmd d = (d', true) -> others_kept name d d') -> others_kept name d d'.
Proof. intros Hr%run_Ok Hc. auto. Qed.

(** [RunSystem] leaves the container running with the given parameters. *)
Lemma RunSystem_Ok name img opts params extra d d' u :
  RunSystem name img opts params extra d = (d', Ok u) ->
  others_kept name d d'
  /\ exists id, ps_a d' !! name = Some (mkContainer id true img (Some (mkLabel params extra))).
Proof.
  intros (d1 & id & [Hs _]%getID_Ok & Hr)%eng_bind_Ok.
  apply eng_bind_Ok in Hr as (d2 & [] & Hrm & Hr).
  apply eng_bind_Ok in Hr as (d3 & [] & Ht%run_Ok & Hr%run_Ok).
  pose proof (tee_same (mkLabel params extra) d2) as Hts. rewrite Ht in Hts.
  apply run_spec in Hr as (Hv & cid & Hp). cbn [dr_name dr_image dr_label] in Hp.
  split; [|exists cid; by rewrite Hp, lookup_insert_eq].
  assert (others_kept name d1 d2) as H12.
  { destruct (0 <? String.length id)%nat; [|by injection Hrm as <-]. apply run_Ok in Hrm. auto. }
  eapply others_kept_trans; [by apply same_others|]. eapply others_kept_trans; [exact H12|].
  eapply others_kept_trans; [by apply same_others|]. split; [|done].
  by rewrite Hp, delete_insert_eq.
Qed.

(** [runContainerCommand] on a node. *)
Lemma runContainer_Ok address name img opts ps extra restart d d' u :
  runContainer address name img opts ps extra restart d = (d', Ok u) ->
  others_kept name d d'
  /\ exists id, ps_a d' !! name
       = Some (mkContainer id true img (Some (mkLabel (params_for ps address) extra))).
Proof.
  intros (d1 & [] & Hk & Hr)%eng_bind_Ok.
  apply eng_bind_Ok in Hr as (d2 & b & [Hs _]%Exists_Ok & Hr).
  apply eng_bind_Ok in Hr as (d3 & [] & Hrm & Hr).
  apply RunSystem_Ok in Hr as [Ho Hid]. split; [|done].
  assert (others_kept name d d1) as H01.
  { destruct restart; [|by injection Hk as <-]. apply run_Ok, kill_spec in Hk as [Hp Hv].
    by eapply alter_others. }
  assert (others_kept name d2 d3) as H23.
  { destruct b; [|by injection Hrm as <-]. apply run_Ok in Hrm. auto. }
  eauto using others_kept_trans.
Qed.

(** ** Inspection *)

Lemma same_state_trans d1 d2 d3 : same_state d1 d2 -> same_state d2 d3 -> same_state d1 d3.
Proof. intros [Hp1 Hv1] [Hp2 Hv2]. split; congruence. Qed.

Lemma foldl_insert_pairs {V} (l : list (string * V)) (m : gmap string V) k v :
  foldl (fun m '(k, v) => <[ k := v ]> m) m l !! k = Some v -> (k, v) ∈ l \/ m !! k = Some v.
Proof.
  revert m. induction l as [|[x y] l IH]; intros m; simpl; [by right|].
  intros [?|Hm]%IH; [left; by right|].
  destruct (decide (k = x)) as [->|Hne];
    [rewrite lookup_insert_eq in Hm; injection Hm as ->; left; left
    |rewrite lookup_insert_ne in Hm by done; by right].
Qed.

Lemma foldl_insert_dom {V} (l : list (string * V)) (m : gmap string V) k v :
  (k, v) ∈ l -> is_Some (foldl (fun m '(k, v) => <[ k := v ]> m) m l !! k).
Proof.
  assert (forall l (m : gmap string V), is_Some (m !! k) ->
            is_Some (foldl (fun m '(k, v) => <[ k := v ]> m) m l !! k)) as Hkeep.
  { clear. induction l as [|[x y] l IH]; intros m Hm; simpl; [done|]. apply IH.
    destruct (decide (k = x)) as [->|Hne];
      [rewrite lookup_insert_eq; by eexists|by rewrite lookup_insert_ne]. }
  revert m. induction l as [|[x y] l IH]; intros m; [by intros ?%elem_of_nil|].
  intros [[= -> ->]|Hin]%elem_of_cons; simpl; [|by apply IH].
  apply Hkeep. rewrite lookup_insert_eq. by eexists.
Qed.

Lemma getIDs_Ok names d d' ids :
  getIDs names d = (d', Ok ids) ->
  same_state d d' /\ (names <> [] -> forall name id, ids !! name = Some id <->
    name ∈ names /\ exists ct, ps_a d !! name = Some ct /\ ct_ID ct = id).
Proof.
  intros (d1 & l & Hq%query_Ok & Hr)%eng_bind_Ok. injection Hr as <- <-.
  pose proof (ps_same names d) as Hs. pose proof (ps_spec names d l) as Hp.
  rewrite Hq in Hs, Hp. split; [exact Hs|]. intros Hne. specialize (Hp Hne eq_refl).
  intros name id. split.
  - intros [Hin|He]%foldl_insert_pairs; [by apply Hp|by rewrite lookup_empty in He].
  - intros Hin. pose proof (proj2 (Hp name id) Hin) as Hl.
    destruct (foldl_insert_dom l ∅ name id Hl) as [id' Hid']. rewrite Hid'. f_equal.
    apply foldl_insert_pairs in Hid' as [Hl'|He]; [|by rewrite lookup_empty in He].
    apply Hp in Hl' as (_ & ct' & Hct' & <-). destruct Hin as (_ & ct & Hct & <-). congruence.
Qed.

(** The statuses of inspected containers. *)
Lemma statuses_of_Ok djs acc d d' m (ps : gmap string Container) :
  statuses_of djs acc d = (d', Ok m) ->
  (forall name ct, (name, ct) ∈ djs -> ps !! name = Some ct) ->
  d' = d /\ forall name,
    (exists ct l, (name, ct) ∈ djs /\ ct_Label ct = Some l /\ m !! name = Some (service_status ct l))
    \/ (~ (name ∈ djs.*1) /\ m !! name = acc !! name).
Proof.
  revert acc d. induction djs as [|[x ct] djs IH]; intros acc d Hd Hps; cbn [statuses_of] in Hd.
  { injection Hd as <- <-. split; [done|]. intros name. right. split; [|done].
    by intros ?%elem_of_nil. }
  destruct (ct_Label ct) as [l|] eqn:Hl; [|done].
  apply IH in Hd as [-> Hm]; [|intros name c Hc; apply Hps; by right].
  split; [done|]. intros name.
  destruct (Hm name) as [(c & l' & Hc & Hl' & Hst)|[Hn Hst]].
  - left. exists c, l'. split_and!; [by right|done|done].
  - destruct (decide (name = x)) as [->|Hne].
    + left. exists ct, l. rewrite lookup_insert_eq in Hst. split_and!; [left|done|done].
    + right. rewrite lookup_insert_ne in Hst by done. split; [|done].
      rewrite fmap_cons, elem_of_cons. naive_solver.
Qed.

(** What an inspection reports on a container. *)
Definition reported (ps : gmap string Container) (name : string) (st : option ServiceStatus) : Prop :=
  match ps !! name with
  | Some ct => exists l, ct_Label ct = Some l /\ st = Some (service_status ct l)
  | None => st = None
  end.

Lemma inspected_reported names ids djs d d1 d2 m name :
  getIDs names d = (d1, Ok ids) -> docker_inspect (snd <$> range ids) d1 = (d2, Some djs) ->
  statuses_of djs ∅ d2 = (d2, Ok m) -> name ∈ names -> reported (ps_a d) name (m !! name).
Proof.
  intros [[Hps _] Hids]%getIDs_Ok Hi Hst Hname. specialize (Hids (elem_of_not_nil _ _ Hname)).
  pose proof (inspect_spec (snd <$> range ids) d1 djs) as Hspec. rewrite Hi in Hspec.
  specialize (Hspec eq_refl). rewrite Hps in Hspec.
  destruct (statuses_of_Ok _ _ _ _ _ (ps_a d) Hst) as [_ Hm].
  { intros x ct Hx. by apply Hspec. }
  unfold reported. destruct (Hm name) as [(ct & l & Hin & Hl & ->)|[Hn ->]].
  - apply Hspec in Hin as [-> _]. eauto.
  - rewrite lookup_empty. destruct (ps_a d !! name) as [ct|] eqn:Hct; [|done]. exfalso.
    apply Hn. apply (list_elem_of_fmap_2 fst _ (name, ct)). apply Hspec. split; [done|].
    apply (list_elem_of_fmap_2 snd _ (name, ct_ID ct)), elem_of_range, Hids. eauto.
Qed.

Lemma inspect_round_Ok names again d d' m :
  inspect_round names again d = (d', Ok m) ->
  (forall d2, same_state d d2 -> again d2 = (d', Ok m) ->
     same_state d2 d' /\ forall name, name ∈ names -> reported (ps_a d2) name (m !! name)) ->
  same_state d d' /\ forall name, name ∈ names -> reported (ps_a d) name (m !! name).
Proof.
  intros (d1 & ids & Hids & Hd)%eng_bind_Ok Hagain. pose proof Hids as [Hs Hlook]%getIDs_Ok.
  unfold inspect_ids in Hd. destruct (snd <$> range ids) as [|i l] eqn:Hrange.
  { injection Hd as <- <-. split; [done|]. intros name Hname. unfold reported.
    rewrite lookup_empty. destruct (ps_a d !! name) as [ct|] eqn:Hct; [|done]. exfalso.
    assert (ct_ID ct ∈ snd <$> range ids) as Hin.
    { apply (list_elem_of_fmap_2 snd _ (name, ct_ID ct)), elem_of_range, Hlook; eauto using elem_of_not_nil. }
    rewrite Hrange in Hin. by apply elem_of_nil in Hin. }
  rewrite <- Hrange in Hd. pose proof (inspect_same (snd <$> range ids) d1) as Hsi.
  destruct (docker_inspect (snd <$> range ids) d1) as [d2 [djs|]] eqn:Hi; simpl in Hsi;
    pose proof (same_state_trans _ _ _ Hs Hsi) as Hs2.
  - assert (d' = d2) as ->.
    { destruct (statuses_of_Ok _ _ _ _ _ (ps_a d1) Hd) as [-> _]; [|done].
      pose proof (inspect_spec (snd <$> range ids) d1 djs) as Hspec. rewrite Hi in Hspec.
      intros name ct Hin. by apply (Hspec eq_refl). }
    split; [done|]. intros name. by eapply inspected_reported.
  - destruct (Hagain d2 Hs2 Hd) as [Hs3 Hrep]. destruct Hs2 as [Hp Hv]. rewrite Hp in Hrep.
    split; [|done]. destruct Hs3. split; congruence.
Qed.

Lemma Inspect_Ok names d d' m :
  Inspect names d = (d', Ok m) ->
  same_state d d' /\ forall name, name ∈ names -> reported (ps_a d) name (m !! name).
Proof.
  unfold Inspect. generalize 2%nat as n. intros n. revert d.
  induction n as [|n IH]; intros d Hd; cbn [inspect_retry] in Hd;
    apply (inspect_round_Ok _ _ _ _ _ Hd); [done|]. intros d2 _. apply IH.
Qed.
End engine_facts.

(** ** Commands on the nodes *)
Section world_facts.
  Context {T : K8sTypes} `{Docker} `{Runtime}.
  Implicit Types (w : world) (d : daemon).

Lemma on_node_None a m w w' :
  on_node a m w = (w', None) -> exists u, m (w a) = (w' a, Ok u) /\ forall b, b <> a -> w' b = w b.
Proof.
  unfold on_node. destruct (m (w a)) as [d [u|e]]; [|done]. intros [= <-]. exists u.
  unfold set_daemon. rewrite String.eqb_refl. split; [done|].
  intros b Hb. by rewrite (proj2 (String.eqb_neq b a) Hb).
Qed.

Lemma on_nodes_cons n nodes f w w' :
  on_nodes (n :: nodes) f w = (w', None) ->
  exists w1, on_node (node_Address n) (f n) w = (w1, None) /\ on_nodes nodes f w1 = (w', None).
Proof.
  cbn [on_nodes]. destruct (on_node _ _ _) as [w1 [e|]];
    destruct (on_nodes nodes f w1) as [w2 [e2|]] eqn:H2; intros [=]; subst; eauto.
Qed.

(** What every successful run on a node preserves, the command preserves. *)
Lemma on_nodes_rel (R : daemon -> daemon -> Prop) nodes f w w' :
  (forall d, R d d) -> (forall d1 d2 d3, R d1 d2 -> R d2 d3 -> R d1 d3) ->
  (forall n d d' u, n ∈ nodes -> f n d = (d', Ok u) -> R d d') ->
  on_nodes nodes f w = (w', None) -> forall a, R (w a) (w' a).
Proof.
  intros Hrefl Htrans. revert w. induction nodes as [|n nodes IH]; intros w Hf Hd a.
  { by injection Hd as <-. }
  apply on_nodes_cons in Hd as (w1 & (u & Hn & Hother)%on_node_None & Hd).
  apply Htrans with (w1 a).
  - destruct (decide (a = node_Address n)) as [->|Hne]; [|by rewrite Hother].
    apply (Hf n _ _ u); [left|done].
  - apply (IH w1); [|done]. intros m d d' u' Hm. apply Hf. by right.
Qed.

Lemma on_nodes_untouched nodes f w w' a :
  on_nodes nodes f w = (w', None) -> ~ (a ∈ node_Address <$> nodes) -> w' a = w a.
Proof.
  revert w. induction nodes as [|n nodes IH]; intros w Hd Ha; [by injection Hd as <-|].
  apply on_nodes_cons in Hd as (w1 & (u & Hn & Hother)%on_node_None & Hd).
  rewrite fmap_cons, elem_of_cons in Ha.
  rewrite (IH w1 Hd) by naive_solver. apply Hother. naive_solver.
Qed.

(** What every run on an address establishes holds there at the end. *)
Lemma on_nodes_post (Q : daemon -> Prop) nodes f w w' a :
  (forall n d d' u, n ∈ nodes -> node_Address n = a -> f n d = (d', Ok u) -> Q d') ->
  on_nodes nodes f w = (w', None) -> a ∈ node_Address <$> nodes -> Q (w' a).
Proof.
  revert w. induction nodes as [|m nodes IH]; intros w Hf Hd Ha; [by apply elem_of_nil in Ha|].
  apply on_nodes_cons in Hd as (w1 & (u & Hm & _)%on_node_None & Hd).
  destruct (decide (a ∈ node_Address <$> nodes)) as [Hin|Hout].
  - apply (IH w1); [|done|done]. intros n d d' u' Hn. apply Hf. by right.
  - rewrite fmap_cons, elem_of_cons in Ha. destruct Ha as [->|Ha]; [|done].
    rewrite (on_nodes_untouched _ _ _ _ _ Hd Hout). apply (Hf m (w (node_Address m)) _ u); [left|done|done].
Qed.

Lemma killContainer_Ok name d d' u :
  killContainer name d = (d', Ok u) -> ps_a d' !! name = None.
Proof.
  intros (d1 & b & [[Hp _] Hb]%Exists_Ok & Hr)%eng_bind_Ok. destruct b; simpl in Hr.
  - apply eng_bind_Ok in Hr as (d2 & m & _ & Hr).
    apply eng_bind_Ok in Hr as (d3 & [] & _ & Hr%run_Ok%rm_spec). destruct Hr as [-> _].
    apply lookup_delete_eq.
  - injection Hr as <-. rewrite Hp. destruct (ps_a d !! name) as [ct|]; [|done].
    discriminate (proj2 Hb). by eexists.
Qed.

Lemma PullImage_same img d d' r : PullImage img d = (d', r) -> same_state d d'.
Proof.
  unfold PullImage, mbind, eng_bind, query. pose proof (image_list_same d) as Hl.
  destruct (docker_image_list d) as [d1 [l|]]; simpl in Hl; [|by intros [= <- <-]].
  case_match; [by intros [= <- <-]|]. unfold run. pose proof (image_pull_same img d1) as Hp.
  destruct (docker_image_pull img d1) as [d2 [|]]; intros [= <- <-];
    by eapply same_state_trans.
Qed.

Lemma pull_retry_same n img d d' r : pull_retry n img d = (d', r) -> same_state d d'.
Proof.
  revert d. induction n as [|n IH]; intros d; cbn [pull_retry]; [by intros [= <- <-]|].
  destruct (PullImage img d) as [d1 [u|e]] eqn:Hp; apply PullImage_same in Hp.
  - by intros [= <- <-].
  - destruct n; [by intros [= <- <-]|]. intros Hr%IH. by eapply same_state_trans.
Qed.

Lemma VolumeExists_Ok v d d' b :
  VolumeExists v d = (d', Ok b) -> same_state d d' /\ (b = true <-> v ∈ volumes d).
Proof.
  intros (d1 & l & Hq%query_Ok & Hr)%eng_bind_Ok. injection Hr as <- <-.
  pose proof (volume_list_same d) as Hs. pose proof (volume_list_spec d l) as Hl.
  rewrite Hq in Hs, Hl. split; [exact Hs|]. rewrite <- (Hl eq_refl v), existsb_elem_of.
  setoid_rewrite String.eqb_eq. naive_solver.
Qed.

Lemma volumeRemove_ps v d d' u : volumeRemove v d = (d', Ok u) -> ps_a d' = ps_a d.
Proof.
  intros (d1 & b & [[Hp _] _]%VolumeExists_Ok & Hr)%eng_bind_Ok.
  destruct b; [apply run_Ok, volume_remove_spec in Hr as [? _]|injection Hr as <-]; congruence.
Qed.

Lemma upgradeVolume_ps d d' u : upgradeVolume d = (d', Ok u) -> ps_a d' = ps_a d.
Proof.
  intros (d1 & b & [[Hp _] _]%VolumeExists_Ok & Hr)%eng_bind_Ok.
  destruct b; [injection Hr as <-|apply run_Ok, volume_create_spec in Hr as [? _]]; congruence.
Qed.

End world_facts.

(** ** A daemon in memory

    An executable instance of the documented behaviour: commands fail only
    where Docker refuses them (removing a running container, killing a stopped
    one, reusing a name). *)
Record memory := mkMemory {
  mem_containers : gmap string (bool * string * option ckeLabel);
  mem_volumes : gset string;
  mem_files : gmap string string
}.
Definition mem_ps (d : memory) : gmap string Container :=
  map_imap (fun n '(running, image, label) => Some (mkContainer ("id-" +:+ n) running image label))
    (mem_containers d).

Lemma lookup_mem_ps d n :
  mem_ps d !! n = (fun '(running, image, label) => mkContainer ("id-" +:+ n) running image label)
                    <$> mem_containers d !! n.
Proof.
  unfold mem_ps. rewrite map_lookup_imap.
  by destruct (mem_containers d !! n) as [[[running image] label]|].
Qed.

Definition mem_set (d : memory) (n : string) (v : option (bool * string * option ckeLabel)) : memory :=
  mkMemory (partial_alter (fun _ => v) n (mem_containers d)) (mem_volumes d) (mem_files d).

Lemma mem_ps_set d n v :
  mem_ps (mem_set d n v)
  = partial_alter (fun _ => (fun '(running, image, label) =>
      mkContainer ("id-" +:+ n) running image label) <$> v) n (mem_ps d).
Proof.
  apply map_eq. intros k. rewrite lookup_mem_ps. unfold mem_set. simpl.
  destruct (decide (k = n)) as [->|Hne].
  - by rewrite !lookup_partial_alter_eq.
  - by rewrite !lookup_partial_alter_ne, lookup_mem_ps.
Qed.

Definition mem_rm (n : string) (d : memory) : memory * bool :=
  match mem_containers d !! n with
  | Some (false, _, _) => (mem_set d n None, true)
  | _ => (d, false)
  end.
Definition mem_kill (n : string) (d : memory) : memory * bool :=
  match mem_containers d !! n with
  | Some (true, image, label) => (mem_set d n (Some (false, image, label)), true)
  | _ => (d, false)
  end.
Definition mem_stop (n : string) (d : memory) : memory * bool :=
  match mem_containers d !! n with
  | Some (_, image, label) => (mem_set d n (Some (false, image, label)), true)
  | None => (d, false)
  end.
Definition mem_run (r : DockerRun) (d : memory) : memory * bool :=
  match mem_containers d !! dr_name r with
  | None => (mem_set d (dr_name r) (Some (true, dr_image r, Some (dr_label r))), true)
  | Some _ => (d, false)
  end.
Definition mem_named (names : list string) (d : memory) : list (string * string) :=
  (fun n => (n, "id-" +:+ n))
    <$> List.filter (fun n => bool_decide (is_Some (mem_containers d !! n))) names.
Definition mem_inspect (ids : list string) (d : memory) : list (string * Container) :=
  List.filter (fun '(_, ct) => bool_decide (ct_ID ct ∈ ids)) (map_to_list (mem_ps d)).

Lemma mem_stopped d n running image label :
  mem_containers d !! n = Some (running, image, label) ->
  mem_ps (mem_set d n (Some (false, image, label))) = alter stopped n (mem_ps d).
Proof.
  intros Hn. rewrite mem_ps_set. apply map_eq. intros k.
  destruct (decide (k = n)) as [->|Hne].
  - rewrite lookup_partial_alter_eq, lookup_alter_eq, lookup_mem_ps, Hn. done.
  - by rewrite lookup_partial_alter_ne, lookup_alter_ne.
Qed.

Lemma mem_named_spec names d n id :
  (n, id) ∈ mem_named names d <->
  n ∈ names /\ exists ct, mem_ps d !! n = Some ct /\ ct_ID ct = id.
Proof.
  unfold mem_named. rewrite list_elem_of_fmap. setoid_rewrite elem_of_filterb.
  setoid_rewrite bool_decide_eq_true. setoid_rewrite lookup_mem_ps. split.
  - intros (n' & [= -> ->] & Hn & [[[running image] label] Hs]). split; [done|].
    rewrite Hs. eexists. split; [done|]. done.
  - intros (Hn & ct & Hct & <-). exists n.
    destruct (mem_containers d !! n) as [[[running image] label]|]; [|done].
    injection Hct as <-. split; [done|]. split; [done|by eexists].
Qed.

Lemma mem_inspect_spec ids d n ct :
  (n, ct) ∈ mem_inspect ids d <-> mem_ps d !! n = Some ct /\ ct_ID ct ∈ ids.
Proof.
  unfold mem_inspect. rewrite elem_of_filterb, elem_of_map_to_list. by rewrite bool_decide_eq_true.
Qed.

Lemma mem_id d n ct : mem_ps d !! n = Some ct -> ct_ID ct = "id-" +:+ n.
Proof.
  rewrite lookup_mem_ps. destruct (mem_containers d !! n) as [[[running image] label]|]; [|done].
  by intros [= <-].
Qed.

Definition memory_docker : Docker.
Proof.
  refine {|
    daemon := memory; ps_a := mem_ps; volumes := mem_volumes;
    docker_image_list d := (d, Some []); docker_image_pull _ d := (d, true);
    docker_ps names d := (d, Some (mem_named names d));
    docker_inspect ids d := (d, Some (mem_inspect ids d));
    docker_rm := mem_rm; docker_stop := mem_stop; docker_kill := mem_kill; docker_run := mem_run;
    docker_volume_list d := (d, Some (elements (mem_volumes d)));
    docker_volume_create v d := (mkMemory (mem_containers d) ({[ v ]} ∪ mem_volumes d) (mem_files d), true);
    docker_volume_remove v d := (mkMemory (mem_containers d) (mem_volumes d ∖ {[ v ]}) (mem_files d), true);
    tee_label _ d := (d, true); run_cat path d := (d, mem_files d !! path); selinux_enforcing := false |}; try done.
  - intros names d l _ [= <-] n id. apply mem_named_spec.
  - intros ids d l [= <-] n ct. apply mem_inspect_spec.
  - intros d n1 n2 c1 c2 H1%mem_id H2%mem_id Heq. rewrite H1, H2 in Heq.
    by injection Heq.
  - intros d n ct H1%mem_id. by rewrite H1.
  - intros n d d' Hd. unfold mem_rm in Hd.
    destruct (mem_containers d !! n) as [[[[|] image] label]|]; try done.
    injection Hd as <-. split; [|done]. by rewrite mem_ps_set.
  - intros n d d' Hd. unfold mem_stop in Hd.
    destruct (mem_containers d !! n) as [[[running image] label]|] eqn:Hn; [|done].
    injection Hd as <-. split; [|done]. by eapply mem_stopped.
  - intros n d d' Hd. unfold mem_kill in Hd.
    destruct (mem_containers d !! n) as [[[[|] image] label]|] eqn:Hn; try done.
    injection Hd as <-. split; [|done]. by eapply mem_stopped.
  - intros r d d' Hd. unfold mem_run in Hd.
    destruct (mem_containers d !! dr_name r); [done|]. injection Hd as <-. split; [done|].
    exists ("id-" +:+ dr_name r). by rewrite mem_ps_set.
  - intros d l [= <-] v. apply elem_of_elements.
  - by intros v d d' [= <-].
  - by intros v d d' [= <-].
Defined.
