(* ===== verification/Strategy.v ===== *)
(** * The strategy

    server/strategy.go: from the configuration and the status of the cluster
    to the operators to run next and the phase of the server. *)

From Stdlib Require Import ZArith Ascii String Lia.
From stdpp Require Import base gmap strings list.
From S2P Require Import Prelude GoLib K8s Cluster Queue Resource Status Dns Params NodeFilter Operators.

Definition EtcdEndpointsName : string := "cke-etcd".
Definition EtcdServiceName : string := "cke-etcd".

Section strategy.
  Context {T : K8sTypes} {K : K8s} `{Runtime}.
  Implicit Types (c : Cluster) (cs : ClusterStatus) (nf : NodeFilter).

(** ** Queues *)

(** The first entry for the node decides. *)
Definition rebootProcessing cs (node : string) : bool :=
  if negb (rbs_Enabled (cs_RebootQueue cs)) then false
  else match List.find (has_node node) (rbs_Entries (cs_RebootQueue cs)) with
       | Some entry => (rqe_Status entry =? RebootStatusDraining)%string
                       || (rqe_Status entry =? RebootStatusRebooting)%string
       | None => false
       end.

Definition rebootNextCandidates cs : list string :=
  if negb (rbs_Enabled (cs_RebootQueue cs)) then []
  else rqe_Node <$> rbs_NextCandidates (cs_RebootQueue cs).

Definition repairProcessing cs (nodename : string) : bool :=
  existsb (fun entry =>
    IsInCluster entry && (rpe_Nodename entry =? nodename)%string
    && (rpe_Status entry =? RepairStatusProcessing)%string
    && ((rpe_StepStatus entry =? RepairStepStatusDraining)%string
        || (rpe_StepStatus entry =? RepairStepStatusWatching)%string))
    (rps_Entries (cs_RepairQueue cs)).

(** ** Endpoints *)

Record endpointParams := mkEndpointParams {
  epp_namespace : string;
  epp_name : string;
  epp_readyIPs : list string;
  epp_notReadyIPs : list string;
  epp_port : Z;
  epp_portName : string;
  epp_serviceName : string
}.

(** [for k, v := range expect.Labels { if actual.Labels[k] != v ... }]: a
    missing label reads as the empty string. *)
Definition label_differs (expect actual : gmap string string) : bool :=
  existsb (fun '(k, v) => negb (default EmptyString (actual !! k) =? v)%string) (range expect).

(** [endpoints := make(map[string]bool)] filled from [expect], looked up for
    each of [actual]. *)
Definition address_missing (expect actual : list string) : bool :=
  let endpoints : gset string := list_to_set expect in
  existsb (fun a => negb (bool_decide (a ∈ endpoints))) actual.

Definition decideEpOp (expect : Endpoints) (actual : option Endpoints) (apiServer : option Node)
    : go (option Operator) :=
  match actual with
  | None => Ret (Some (KubeEndpointsCreateOp apiServer expect))
  | Some actual =>
      let updateOp := Some (KubeEndpointsUpdateOp apiServer expect) in
      match ep_Subsets actual with
      | [subset] =>
          if label_differs (ep_Labels expect) (ep_Labels actual) then Ret updateOp
          else
            esub ← index (ep_Subsets expect) 0;
            eport ← index (ss_Ports esub) 0;
            match ss_Ports subset with
            | [(_, port)] =>
                if negb (port =? snd eport) then Ret updateOp
                else if negb (length (ss_Addresses subset) =? length (ss_Addresses esub))%nat
                        || negb (length (ss_NotReadyAddresses subset)
                                 =? length (ss_NotReadyAddresses esub))%nat then Ret updateOp
                else if address_missing (ss_Addresses esub) (ss_Addresses subset)
                then Ret updateOp
                else if address_missing (ss_NotReadyAddresses esub) (ss_NotReadyAddresses subset)
                then Ret updateOp
                else Ret None
            | _ => Ret updateOp
            end
      | _ => Ret updateOp
      end
  end.

(** One round of the loop over the endpoints: [true] is [return updateOp]. *)
Definition endpoint_differs (actualEP expectEP : Endpoint) : go bool :=
  match e_Ready actualEP with
  | None => Ret true
  | Some ready =>
      eready ← deref (e_Ready expectEP);
      Ret (negb (Bool.eqb ready eready)
           || negb (length (e_Addresses actualEP) =? length (e_Addresses expectEP))%nat
           || address_missing (e_Addresses expectEP) (e_Addresses actualEP))
  end.

Definition decideEpsOp (expect : EndpointSlice) (actual : option EndpointSlice)
    (apiServer : option Node) : go (option Operator) :=
  match actual with
  | None => Ret (Some (KubeEndpointSliceCreateOp apiServer expect))
  | Some actual =>
      let updateOp := Some (KubeEndpointSliceUpdateOp apiServer expect) in
      if label_differs (eps_Labels expect) (eps_Labels actual) then Ret updateOp
      else if negb (eps_AddressType actual =? eps_AddressType expect)%string then Ret updateOp
      else if negb (length (eps_Endpoints actual) =? length (eps_Endpoints expect))%nat
      then Ret updateOp
      else
        differs ← go_existsb (fun '(a, e) => endpoint_differs a e)
                    (zip (eps_Endpoints actual) (eps_Endpoints expect));
        if (differs : bool) then Ret updateOp
        else match eps_Ports actual with
             | [(aname, aport)] =>
                 eport ← index (eps_Ports expect) 0;
                 match aname with
                 | None => Ret updateOp
                 | Some aname =>
                     ename ← deref (fst eport);
                     if negb (aname =? ename)%string then Ret updateOp
                     else match aport with
                          | None => Ret updateOp
                          | Some aport =>
                              eportnum ← deref (snd eport);
                              if negb (aport =? eportnum) then Ret updateOp else Ret None
                          end
                 end
             | _ => Ret updateOp
             end
  end.

(** The [Endpoints] object built from the parameters. *)
Definition expected_endpoints (expect : endpointParams) : Endpoints :=
  mkEndpoints (epp_namespace expect) (epp_name expect)
    {[ "endpointslice.kubernetes.io/skip-mirror" := "true" ]}
    [mkEndpointSubset (epp_readyIPs expect) (epp_notReadyIPs expect)
       [(epp_portName expect, epp_port expect)]].

(** The [EndpointSlice] object built from the parameters. *)
Definition expected_slice (expect : endpointParams) : EndpointSlice :=
  let ready := foldl (fun m ip => <[ ip := true ]> m) ∅ (epp_readyIPs expect) in
  let ready := foldl (fun (m : gmap string bool) ip => <[ ip := false ]> m) ready
                 (epp_notReadyIPs expect) in
  let addrs := Compact (sort_strings (epp_readyIPs expect ++ epp_notReadyIPs expect)) in
  mkEndpointSlice (epp_namespace expect) (epp_name expect)
    (<[ "endpointslice.kubernetes.io/managed-by" := "cke.cybozu.com" ]>
       {[ "kubernetes.io/service-name" := epp_serviceName expect ]})
    "IPv4"
    ((fun ip => mkEndpoint [ip] (Some (lookup_bool ready ip))) <$> addrs)
    [(Some (epp_portName expect), Some (epp_port expect))].

Definition decideEpEpsOps (expect : endpointParams) (actualEP : option Endpoints)
    (actualEPS : option EndpointSlice) (apiserver : option Node) : go (list Operator) :=
  epOp ← decideEpOp (expected_endpoints expect) actualEP apiserver;
  epsOp ← decideEpsOp (expected_slice expect) actualEPS apiserver;
  Ret (option_list epOp ++ option_list epsOp).

Definition masterEndpointOps cs nf (markedAsNotReadyIPs : list string) : go (list Operator) :=
  healthy ← APIServerHealthy nf (ControlPlaneNodes nf);
  unhealthy ← APIServerUnhealthy nf (ControlPlaneNodes nf);
  let marked n := rebootProcessing cs (node_Address n)
                  || Contains markedAsNotReadyIPs (node_Address n) in
  let readyIPs := node_Address <$> List.filter (fun n => negb (marked n)) healthy in
  let notReadyIPs := (node_Address <$> List.filter marked healthy)
                     ++ (node_Address <$> unhealthy) in
  let ep := mkEndpointParams "default" "kubernetes" readyIPs notReadyIPs 6443 "https"
              "kubernetes" in
  apiServer ← HealthyAPIServer nf;
  decideEpEpsOps ep (ks_MasterEndpoints (cs_Kubernetes cs))
    (ks_MasterEndpointSlice (cs_Kubernetes cs)) apiServer.

Definition decideEtcdServiceOps (apiServer : option Node) (svc : option Service)
    : option Operator :=
  match svc with
  | None => Some (KubeEtcdServiceCreateOp apiServer)
  | Some svc =>
      let updateOp := Some (KubeEtcdServiceUpdateOp apiServer) in
      match svc_Ports svc with
      | [port] =>
          if negb (port =? 2379) then updateOp
          else if negb (svc_Type svc =? "ClusterIP")%string then updateOp
          else if negb (svc_ClusterIP svc =? "None")%string then updateOp
          else None
      | _ => updateOp
      end
  end.

Definition etcdEndpointOps cs nf (markedAsNotReadyIPs : list string) : go (list Operator) :=
  apiServer ← HealthyAPIServer nf;
  let svcOp := decideEtcdServiceOps apiServer (ks_EtcdService (cs_Kubernetes cs)) in
  let marked n := rebootProcessing cs (node_Address n)
                  || Contains markedAsNotReadyIPs (node_Address n) in
  let readyIPs := node_Address <$> List.filter (fun n => negb (marked n)) (ControlPlaneNodes nf) in
  let notReadyIPs := node_Address <$> List.filter marked (ControlPlaneNodes nf) in
  let ep := mkEndpointParams "kube-system" EtcdEndpointsName readyIPs notReadyIPs 2379 EmptyString
              EtcdServiceName in
  ops ← decideEpEpsOps ep (ks_EtcdEndpoints (cs_Kubernetes cs))
          (ks_EtcdEndpointSlice (cs_Kubernetes cs)) apiServer;
  Ret (option_list svcOp ++ ops).

(** ** Rivers and the Kubernetes components *)

(** [if nodes := ...; len(nodes) > 0 { ops = append(ops, mk(nodes)) }] *)
Definition op_for (nodes : list Node) (mk : list Node -> Operator) : list Operator :=
  match nodes with [] => [] | _ => [mk nodes] end.

(** The same with the nodes limited to [min(len(nodes), max)]. *)
Definition limited_op_for (max : Z) (nodes : list Node) (mk : list Node -> Operator)
    : go (list Operator) :=
  match nodes with
  | [] => Ret []
  | _ => sub ← slice_to nodes (Z.min (len nodes) max); Ret [mk sub]
  end.

Definition riversOps c nf (maxConcurrentUpdates : Z) : go (list Operator) :=
  let cp := ControlPlaneNodes nf in
  stopped ← RiversStopped nf (AllNodes nf);
  nodes ← SSHConnected nf stopped;
  ops1 ← limited_op_for maxConcurrentUpdates nodes (fun ns =>
           RiversBootOp ns cp (opt_Rivers (c_Options c)) RiversContainerName
             RiversUpstreamPort RiversListenPort);
  outdated ← RiversOutdated nf (AllNodes nf);
  nodes ← SSHConnected nf outdated;
  ops2 ← limited_op_for maxConcurrentUpdates nodes (fun ns =>
           RiversRestartOp ns cp (opt_Rivers (c_Options c)) RiversContainerName
             RiversUpstreamPort RiversListenPort);
  stopped ← EtcdRiversStopped nf cp;
  nodes ← SSHConnected nf stopped;
  ops3 ← limited_op_for maxConcurrentUpdates nodes (fun ns =>
           RiversBootOp ns cp (opt_EtcdRivers (c_Options c)) EtcdRiversContainerName
             EtcdRiversUpstreamPort EtcdRiversListenPort);
  outdated ← EtcdRiversOutdated nf cp;
  nodes ← SSHConnected nf outdated;
  ops4 ← limited_op_for maxConcurrentUpdates nodes (fun ns =>
           RiversRestartOp ns cp (opt_EtcdRivers (c_Options c)) EtcdRiversContainerName
             EtcdRiversUpstreamPort EtcdRiversListenPort);
  Ret (ops1 ++ ops2 ++ ops3 ++ ops4).

(** [k8s.APIServerRestartOp] with the cluster domain of the kubelets. *)
Definition apiserver_restart c (nodes : list Node) : go Operator :=
  kubeletConfig ← GenerateKubeletConfiguration (opt_Kubelet (c_Options c)) "0.0.0.0" None;
  Ret (APIServerRestartOp nodes (c_ServiceSubnet c) (opt_APIServer (c_Options c))
         (kc_ClusterDomain kubeletConfig)).

(** [if nf.HealthyAPIServer() != nil { ops = append(ops, masterEndpointOps(...)...) }] *)
Definition master_ops_if_healthy cs nf : go (list Operator) :=
  healthy ← HealthyAPIServer nf;
  match healthy with
  | Some _ => masterEndpointOps cs nf []
  | None => Ret []
  end.

Definition apiserverOps c nf cs : go (list Operator * bool) :=
  let cp := ControlPlaneNodes nf in
  stopped ← APIServerStopped nf cp;
  nodes1 ← SSHConnected nf stopped;
  unhealthy ← APIServerUnhealthy nf cp;
  outdated ← APIServerOutdated nf unhealthy;
  nodes2 ← SSHConnected nf outdated;
  let nodes := nodes1 ++ nodes2 in
  match nodes with
  | _ :: _ =>
      ops ← master_ops_if_healthy cs nf;
      restart ← apiserver_restart c nodes;
      Ret (ops ++ [restart], true)
  | [] =>
      unreachable ← SSHNotConnected nf cp;
      unhealthy ← APIServerUnhealthy nf cp;
      if (0 <? length unreachable)%nat || (0 <? length unhealthy)%nat then
        ops ← master_ops_if_healthy cs nf;
        Ret (ops, true)
      else
        outdated ← APIServerOutdated nf cp;
        nodes ← SSHConnected nf outdated;
        match nodes with
        | target :: _ =>
            ops ← masterEndpointOps cs nf [node_Address target];
            restart ← apiserver_restart c [target];
            Ret (ops ++ [restart], true)
        | [] =>
            ops ← masterEndpointOps cs nf (rebootNextCandidates cs);
            Ret (ops, false)
        end
  end.

Definition k8sOps c nf cs (maxConcurrentUpdates : Z) : go (list Operator) :=
  let cp := ControlPlaneNodes nf in
  let max := maxConcurrentUpdates in
  r ← apiserverOps c nf cs;
  let '(apiserverOps, skipOtherOps) := r in
  if (skipOtherOps : bool) then Ret apiserverOps
  else
    stopped ← ControllerManagerStopped nf cp;
    nodes ← SSHConnected nf stopped;
    let ops1 := op_for nodes (fun ns =>
      ControllerManagerBootOp ns (c_Name c) (c_ServiceSubnet c)
        (opt_ControllerManager (c_Options c))) in
    outdated ← ControllerManagerOutdated nf cp;
    nodes ← SSHConnected nf outdated;
    let ops2 := op_for nodes (fun ns =>
      ControllerManagerRestartOp ns (c_Name c) (c_ServiceSubnet c)
        (opt_ControllerManager (c_Options c))) in
    stopped ← SchedulerStopped nf cp;
    nodes ← SSHConnected nf stopped;
    let ops3 := op_for nodes (fun ns =>
      SchedulerBootOp ns (c_Name c) (opt_Scheduler (c_Options c))) in
    outdated ← SchedulerOutdated nf cp (opt_Scheduler (c_Options c));
    nodes ← SSHConnected nf outdated;
    let ops4 := op_for nodes (fun ns =>
      SchedulerRestartOp ns (c_Name c) (opt_Scheduler (c_Options c))) in
    apiServer ← HealthyAPIServer nf;
    unrecognized ← KubeletUnrecognized nf (AllNodes nf);
    nodes ← SSHConnected nf unrecognized;
    ops5 ← limited_op_for max nodes (fun ns =>
      KubeletRestartOp ns (c_Name c) (opt_Kubelet (c_Options c)) (cs_NodeStatuses cs));
    stopped ← KubeletStopped nf (AllNodes nf);
    nodes ← SSHConnected nf stopped;
    ops6 ← limited_op_for max nodes (fun ns =>
      KubeletBootOp ns (RegisteredNodes nf ns) apiServer (c_Name c) (opt_Kubelet (c_Options c))
        (cs_NodeStatuses cs));
    outdated ← KubeletOutdated nf (AllNodes nf);
    nodes ← SSHConnected nf outdated;
    ops7 ← (if InPlaceUpdate (opt_Kubelet (c_Options c)) then
              limited_op_for max nodes (fun ns =>
                KubeletRestartOp ns (c_Name c) (opt_Kubelet (c_Options c)) (cs_NodeStatuses cs))
            else Ret []);
    stopped ← ProxyStopped nf (AllNodes nf);
    nodes ← SSHConnected nf stopped;
    ops8 ← limited_op_for max nodes (fun ns =>
      KubeProxyBootOp ns (c_Name c) EmptyString (opt_Proxy (c_Options c)));
    outdated ← ProxyOutdated nf (AllNodes nf) (opt_Proxy (c_Options c));
    nodes ← SSHConnected nf outdated;
    ops9 ← limited_op_for max nodes (fun ns =>
      KubeProxyRestartOp ns (c_Name c) EmptyString (opt_Proxy (c_Options c)));
    unexpected ← ProxyRunningUnexpectedly nf (AllNodes nf);
    nodes ← SSHConnected nf unexpected;
    ops10 ← limited_op_for max nodes ProxyStopOp;
    Ret (apiserverOps ++ ops1 ++ ops2 ++ ops3 ++ ops4 ++ ops5 ++ ops6 ++ ops7 ++ ops8
         ++ ops9 ++ ops10).

(** ** etcd maintenance *)
Definition etcdMaintOp c nf : go (option Operator) :=
  let cp := ControlPlaneNodes nf in
  let params := opt_Etcd (c_Options c) in
  match EtcdNonClusterMembers nf false with
  | (_ :: _) as members => Ret (Some (EtcdRemoveMemberOp cp members))
  | [] =>
  match EtcdNonCPMembers nf false with
  | ((_ :: _) as nodes, ids) =>
      targets ← SSHConnected nf nodes; Ret (Some (EtcdDestroyMemberOp cp targets ids))
  | ([], _) =>
  match EtcdUnstartedMembers nf with
  | n :: _ => Ret (Some (EtcdAddMemberOp cp n params))
  | [] =>
      unmarked ← EtcdUnmarkedMembers nf;
      match unmarked with
      | _ :: _ => Ret (Some (EtcdMarkMemberOp unmarked))
      | [] =>
          if negb (EtcdIsGood nf) then Ret None
          else match EtcdNewMembers nf with
          | n :: _ => Ret (Some (EtcdAddMemberOp cp n params))
          | [] =>
          match EtcdNonClusterMembers nf true with
          | (_ :: _) as members => Ret (Some (EtcdRemoveMemberOp cp members))
          | [] =>
          match EtcdNonCPMembers nf true with
          | ((_ :: _) as nodes, ids) =>
              targets ← SSHConnected nf nodes; Ret (Some (EtcdDestroyMemberOp cp targets ids))
          | ([], _) =>
              outdated ← EtcdOutdatedMembers nf;
              match outdated with
              | n :: _ => Ret (Some (EtcdRestartOp cp n params))
              | [] => Ret None
              end
          end
          end
          end
      end
  end
  end
  end.

(** ** Kubernetes maintenance *)

Definition desired_dns_servers c (ks : KubernetesClusterStatus) : list string :=
  match ks_DNSService ks with
  | Some svc => if (svc_ClusterIP svc =? "")%string || (svc_ClusterIP svc =? "None")%string
                then c_DNSServers c else [svc_ClusterIP svc]
  | None => c_DNSServers c
  end.

Definition data (cm : ConfigMap) (key : string) : string :=
  default EmptyString (cm_Data cm !! key).

Definition decideClusterDNSOps (apiServer : option Node) c (ks : KubernetesClusterStatus)
    : go (list Operator) :=
  let desiredDNSServers := desired_dns_servers c ks in
  kubeletConfig ← GenerateKubeletConfiguration (opt_Kubelet (c_Options c)) "0.0.0.0" None;
  let desiredClusterDomain := kc_ClusterDomain kubeletConfig in
  match cd_ConfigMap (ks_ClusterDNS ks) with
  | None => Ret [ClusterDNSCreateConfigMapOp apiServer desiredClusterDomain desiredDNSServers]
  | Some actual =>
      let expectedConfig := clusterdns_ConfigMap desiredClusterDomain desiredDNSServers in
      if negb (data actual "Corefile" =? data expectedConfig "Corefile")%string
      then Ret [ClusterDNSUpdateConfigMapOp apiServer expectedConfig]
      else Ret []
  end.

Definition decideNodeDNSOps (apiServer : option Node) c (ks : KubernetesClusterStatus)
    : go (list Operator) :=
  let clusterIP := cd_ClusterIP (ks_ClusterDNS ks) in
  if (String.length clusterIP =? 0)%nat then Ret []
  else
    let desiredDNSServers := desired_dns_servers c ks in
    kubeletConfig ← GenerateKubeletConfiguration (opt_Kubelet (c_Options c)) "0.0.0.0" None;
    let desiredClusterDomain := kc_ClusterDomain kubeletConfig in
    match ks_NodeDNS ks with
    | None => Ret [NodeDNSCreateConfigMapOp apiServer clusterIP desiredClusterDomain
                     desiredDNSServers]
    | Some actual =>
        let expectedConfig := nodedns_ConfigMap clusterIP desiredClusterDomain desiredDNSServers
                                true in
        if negb (data actual "unbound.conf" =? data expectedConfig "unbound.conf")%string
        then Ret [NodeDNSUpdateConfigMapOp apiServer expectedConfig]
        else Ret []
    end.

(** The body of the two loops of [decideResourceOps]; the zero
    [ResourceStatus] has not been applied server-side. *)
Definition resource_op (apiServer : option Node) (trustedMappings : list TrustedRESTMapping)
    (ks : KubernetesClusterStatus) (isReady : bool) (res : ResourceDefinition) : list Operator :=
  if (rd_Kind res =? KindDeployment)%string && negb isReady then []
  else
    let status := ks_ResourceStatuses ks !! rd_Key res in
    if NeedUpdate res status
    then [ResourceApplyOp apiServer res
            (negb (match status with Some st => rs_HasBeenSSA st | None => false end))
            trustedMappings]
    else [].

(** [static_Resources] is the generated list of built-in resources. *)
Definition decideResourceOps (static_Resources : list ResourceDefinition)
    (apiServer : option Node) (trustedMappings : list TrustedRESTMapping)
    (ks : KubernetesClusterStatus) (resources : list ResourceDefinition) (isReady : bool)
    : list Operator :=
  (static_Resources ≫= resource_op apiServer trustedMappings ks isReady)
  ++ (resources ≫= resource_op apiServer trustedMappings ks isReady).

Definition k8sMaintOps (static_Resources : list ResourceDefinition) c cs
    (resources : list ResourceDefinition) nf : go (list Operator) :=
  let ks := cs_Kubernetes cs in
  apiServer ← HealthyAPIServer nf;
  if negb (ks_IsControlPlaneReady ks) then Ret [KubeWaitOp apiServer]
  else
    let ops1 := decideResourceOps static_Resources apiServer (c_TrustedRESTMappings c) ks
                  resources (IsReady ks c) in
    ops2 ← decideClusterDNSOps apiServer c ks;
    ops3 ← decideNodeDNSOps apiServer c ks;
    ops4 ← etcdEndpointOps cs nf (rebootNextCandidates cs);
    let ops5 := match OutdatedAttrsNodes nf with
                | [] => []
                | nodes => [KubeNodeUpdateOp apiServer nodes]
                end in
    let ops6 := match NonClusterNodes nf with
                | [] => []
                | nodes => [KubeNodeRemoveOp apiServer nodes]
                end in
    Ret (ops1 ++ ops2 ++ ops3 ++ ops4 ++ ops5 ++ ops6).

(** ** Cleaning worker nodes *)

(** The five lists the loop of [cleanOps] fills, for one of their conditions. *)
Definition clean_targets c nf (running : NodeStatus -> bool) : go (list Node) :=
  go_filter (fun n =>
    st ← deref (cs_NodeStatuses (nf_status nf) !! node_Address n);
    if negb (ns_SSHConnected st) || node_ControlPlane n then Ret false
    else Ret (running st)) (c_Nodes c).

Definition cleanOps c nf : go (list Operator) :=
  etcds ← clean_targets c nf (fun st => ss_Running (etcd_Service (ns_Etcd st)) && EtcdIsGood nf);
  apiServers ← clean_targets c nf (fun st => ss_Running (kcs_Service (ns_APIServer st)));
  controllerManagers ← clean_targets c nf (fun st =>
                         ss_Running (kcs_Service (ns_ControllerManager st)));
  schedulers ← clean_targets c nf (fun st => ss_Running (scs_Service (ns_Scheduler st)));
  etcdRivers ← clean_targets c nf (fun st => ss_Running (ns_EtcdRivers st));
  Ret (op_for apiServers APIServerStopOp ++ op_for controllerManagers ControllerManagerStopOp
       ++ op_for schedulers SchedulerStopOp ++ op_for etcds EtcdStopOp
       ++ op_for etcdRivers EtcdRiversStopOp).

(** ** Repair *)

(** The first loop of [repairOps] sorts an entry into one of these. *)
Inductive repair_class : Type :=
| RDequeue | RSkip | RFinish
| RQueuedApi | RQueuedOther | RProcessingApi | RProcessingOther.

Definition classify_repair cs (apiServers : gset string) (now : Z) (entry : RepairQueueEntry)
    : repair_class :=
  if rpe_Deleted entry then RDequeue
  else if HasFinished entry then RSkip
  else if lookup_bool (rps_RepairCompleted (cs_RepairQueue cs)) (rpe_Address entry) then RFinish
  else if (rpe_Status entry =? RepairStatusQueued)%string then
    if bool_decide (rpe_Address entry ∈ apiServers) then RQueuedApi else RQueuedOther
  else if (rpe_Status entry =? RepairStatusProcessing)%string then
    if (rpe_StepStatus entry =? RepairStepStatusWaiting)%string
       && (now <? rpe_DrainBackOffExpire entry) then RSkip
    else if bool_decide (rpe_Address entry ∈ apiServers) then RProcessingApi
    else RProcessingOther
  else RSkip.

Definition class_eqb (a b : repair_class) : bool :=
  match a, b with
  | RDequeue, RDequeue | RSkip, RSkip | RFinish, RFinish | RQueuedApi, RQueuedApi
  | RQueuedOther, RQueuedOther | RProcessingApi, RProcessingApi
  | RProcessingOther, RProcessingOther => true
  | _, _ => false
  end.

(** The operators of the first loop: entries deleted or just repaired. *)
Definition first_loop_ops c cs (apiServers : gset string) (now : Z) : list Operator :=
  rps_Entries (cs_RepairQueue cs) ≫= fun entry =>
    match classify_repair cs apiServers now entry with
    | RDequeue => [RepairDequeueOp entry]
    | RFinish => [RepairFinishOp entry true c]
    | _ => []
    end.

Definition sortedEntries cs (apiServers : gset string) (now : Z) : list RepairQueueEntry :=
  let pick cl := List.filter (fun e => class_eqb (classify_repair cs apiServers now e) cl)
                   (rps_Entries (cs_RepairQueue cs)) in
  pick RProcessingApi ++ pick RProcessingOther ++ pick RQueuedApi ++ pick RQueuedOther.

Definition set_step (e : RepairQueueEntry) (step : Z) (st : string) : RepairQueueEntry :=
  mkRepairQueueEntry (rpe_Index e) (rpe_Address e) (rpe_Nodename e) (rpe_Serial e)
    (rpe_MachineType e) (rpe_Operation e) (rpe_Status e) step st (rpe_Deleted e)
    (rpe_LastTransitionTime e) (rpe_DrainBackOffCount e) (rpe_DrainBackOffExpire e).

(** From [RUN_STEP] to the end of the loop body: the operators appended and
    whether [phaseRepair] was set.  Each [goto RUN_STEP] moves the entry to its
    next step; [fuel] bounds the number of them. *)
Fixpoint run_step (fuel : nat) c cs nf (now evictionStartLimit : Z) (entry : RepairQueueEntry)
    : go (list Operator * bool) :=
  let rqs := cs_RepairQueue cs in
  r ← GetCurrentRepairStep entry c;
  match r with
  | Err ErrRepairStepOutOfRange => Ret ([RepairFinishOp entry false c], false)
  | Err _ => Ret ([], false)
  | Ok step =>
      if (rpe_StepStatus entry =? RepairStepStatusWaiting)%string then
        if negb (rps_Enabled rqs) then Ret ([], true)
        else if negb (NeedDrain step && IsInCluster entry)
        then Ret ([RepairExecuteOp entry step c], true)
        else
          apiServer ← HealthyAPIServer nf;
          Ret ([RepairDrainStartOp apiServer entry (c_Repair c)], true)
      else if (rpe_StepStatus entry =? RepairStepStatusDraining)%string then
        if negb (rps_Enabled rqs) then Ret ([RepairDrainTimeoutOp entry], true)
        else if lookup_bool (rps_DrainCompleted rqs) (rpe_Address entry)
        then Ret ([RepairExecuteOp entry step c], true)
        else if rpe_LastTransitionTime entry <? evictionStartLimit
        then Ret ([RepairDrainTimeoutOp entry], true)
        else Ret ([], true)
      else if (rpe_StepStatus entry =? RepairStepStatusWatching)%string then
        if (match WatchSeconds step with
            | None => true
            | Some w => rpe_LastTransitionTime entry + seconds w <? now
            end)
        then match fuel with
             | O => Panic "out of fuel"
             | S fuel' =>
                 r ← run_step fuel' c cs nf now evictionStartLimit
                       (set_step entry (rpe_Step entry + 1) RepairStepStatusWaiting);
                 Ret (fst r, true)
             end
        else Ret ([], true)
      else Ret ([], true)
  end.

(** After one [goto] the entry is waiting, and a waiting entry never jumps. *)
Definition run_step_fuel : nat := 1.

Record repair_limits := mkRepairLimits {
  lim_apiServers : gset string;
  lim_rebootingApiServers : gset string;
  lim_processed : gmap string bool;       (** never written in the source *)
  lim_maxConcurrentRepairs : Z;
  lim_evictionStartLimit : Z
}.

Definition maxConcurrentApiServerRepairs : Z := 1.

(** The loop over the sorted entries. *)
Fixpoint repair_loop c cs nf (now : Z) (lim : repair_limits)
    (concurrentRepairs concurrentApiServerRepairs : Z) (entries : list RepairQueueEntry)
    : go (list Operator * bool) :=
  match entries with
  | [] => Ret ([], false)
  | entry :: rest =>
      if lim_maxConcurrentRepairs lim <=? concurrentRepairs then Ret ([], false)
      else if lookup_bool (lim_processed lim) (rpe_Address entry)
      then repair_loop c cs nf now lim concurrentRepairs concurrentApiServerRepairs rest
      else
        let isApi := bool_decide (rpe_Address entry ∈ lim_apiServers lim) in
        if isApi
           && ((maxConcurrentApiServerRepairs <=? concurrentApiServerRepairs)
               || (2 <=? size (lim_rebootingApiServers lim))%nat
               || ((size (lim_rebootingApiServers lim) =? 1)%nat
                   && negb (bool_decide (rpe_Address entry ∈ lim_rebootingApiServers lim))))
        then repair_loop c cs nf now lim concurrentRepairs concurrentApiServerRepairs rest
        else
          r ← run_step run_step_fuel c cs nf now (lim_evictionStartLimit lim) entry;
          r' ← repair_loop c cs nf now lim (concurrentRepairs + 1)
                 (if isApi then concurrentApiServerRepairs + 1 else concurrentApiServerRepairs)
                 rest;
          Ret (fst r ++ fst r', snd r || snd r')
  end.

Definition repair_limits_of c cs nf (now : Z) : repair_limits :=
  let cp := ControlPlaneNodes nf in
  mkRepairLimits
    (list_to_set (node_Address <$> cp))
    (list_to_set (node_Address <$> List.filter (fun n => rebootProcessing cs (Nodename n)) cp))
    ∅
    (default DefaultMaxConcurrentRepairs (rp_MaxConcurrentRepairs (c_Repair c)))
    (now + seconds (wrap64 (- default DefaultRepairEvictionTimeoutSeconds
                                (rp_EvictionTimeoutSeconds (c_Repair c))))).

Definition repairOps c cs nf (now : Z) : go (list Operator * bool) :=
  let lim := repair_limits_of c cs nf now in
  let ops := first_loop_ops c cs (lim_apiServers lim) now in
  r ← repair_loop c cs nf now lim 0 0 (sortedEntries cs (lim_apiServers lim) now);
  let ops := ops ++ fst r in
  Ret (ops, snd r || match ops with [] => false | _ => true end).

(** ** Reboot *)

Definition rebootOps c cs (constraints : Constraints) nf : go (list Operator) :=
  let rqs := cs_RebootQueue cs in
  let entries_op (es : list RebootQueueEntry) (mk : list RebootQueueEntry -> list Operator) :=
    match es with [] => [] | _ => mk es end in
  let ops := entries_op (rbs_RebootCancelled rqs) (fun es => [RebootCancelOp es])
             ++ entries_op (rbs_RebootDequeued rqs) (fun es => [RebootDequeueOp es]) in
  match ops with
  | _ :: _ => Ret ops
  | [] =>
      if negb (rbs_Enabled rqs) then Ret []
      else if (length (rbs_Entries rqs) =? 0)%nat then Ret []
      else if (length (rb_RebootCommand (c_Reboot c)) =? 0)%nat then Ret []
      else if (length (rb_BootCheckCommand (c_Reboot c)) =? 0)%nat then Ret []
      else
        ops1 ← match rbs_DrainCompleted rqs with
               | [] => Ret []
               | drained =>
                   apiServer ← HealthyAPIServer nf;
                   Ret [RebootDeleteDaemonSetPodOp apiServer drained (c_Reboot c);
                        RebootRebootOp apiServer drained (c_Reboot c)]
               end;
        ops2 ← match rbs_NextCandidates rqs with
               | [] => Ret []
               | candidates =>
                   let sshCheckNodes := List.filter (fun n =>
                     negb (rebootProcessing cs (node_Address n))) (AllNodes nf) in
                   unreachable ← SSHNotConnected nf sshCheckNodes;
                   if RebootMaximumUnreachable constraints <? len unreachable then Ret []
                   else
                     apiServer ← HealthyAPIServer nf;
                     Ret [RebootDrainStartOp apiServer candidates (c_Reboot c)]
               end;
        let ops3 := entries_op (rbs_DrainTimedout rqs) (fun es => [RebootDrainTimeoutOp es]) in
        Ret (ops1 ++ ops2 ++ ops3)
  end.

Definition rebootUncordonOp cs nf : go (option Operator) :=
  match List.filter (fun n => negb (rebootProcessing cs (kn_Name n)
                                    || repairProcessing cs (kn_Name n))) (CordonedNodes nf) with
  | [] => Ret None
  | nodes => apiServer ← HealthyAPIServer nf; Ret (Some (RebootUncordonOp apiServer (kn_Name <$> nodes)))
  end.

(** ** The decision *)

Definition DecideOps (static_Resources : list ResourceDefinition) (now : Z) c cs
    (constraints : Constraints) (resources : list ResourceDefinition) (MaxConcurrentUpdates : Z)
    : go (list Operator * OperationPhase) :=
  let nf := NewNodeFilter c cs in
  let cp := ControlPlaneNodes nf in
  if negb (cs_ConfigVersion cs =? ConfigVersion)%string then
    unreachable ← SSHNotConnected nf cp;
    if (0 <? length unreachable)%nat then Ret ([], PhaseUpgradeAborted)
    else Ret ([UpgradeOp (cs_ConfigVersion cs) cp], PhaseUpgrade)
  else
  ops ← riversOps c nf MaxConcurrentUpdates;
  if (0 <? length ops)%nat then Ret (ops, PhaseRivers) else
  bootstrapped ← EtcdBootstrapped nf;
  if negb bootstrapped then
    unreachable ← SSHNotConnected nf cp;
    if (0 <? length unreachable)%nat then Ret ([], PhaseEtcdBootAborted)
    else Ret ([EtcdBootOp cp (opt_Etcd (c_Options c))], PhaseEtcdBoot)
  else
  stopped ← EtcdStopped nf cp;
  nodes ← SSHConnected nf stopped;
  if (0 <? length nodes)%nat then
    Ret ([EtcdStartOp nodes (opt_Etcd (c_Options c))], PhaseEtcdStart) else
  if negb (es_IsHealthy (cs_Etcd cs)) then Ret ([EtcdWaitClusterOp cp], PhaseEtcdWait) else
  ops ← k8sOps c nf cs MaxConcurrentUpdates;
  if (0 <? length ops)%nat then Ret (ops, PhaseK8sStart) else
  unreachable ← SSHNotConnected nf cp;
  maint ← (if (length unreachable =? 0)%nat then etcdMaintOp c nf else Ret None);
  match maint with
  | Some o => Ret ([o], PhaseEtcdMaintain)
  | None =>
  ops ← k8sMaintOps static_Resources c cs resources nf;
  if (0 <? length ops)%nat then Ret (ops, PhaseK8sMaintain) else
  ops ← cleanOps c nf;
  if (0 <? length ops)%nat then Ret (ops, PhaseStopCP) else
  uncordon ← rebootUncordonOp cs nf;
  match uncordon with
  | Some o => Ret ([o], PhaseUncordonNodes)
  | None =>
  r ← repairOps c cs nf now;
  let '(ops, phaseRepair) := r in
  if (phaseRepair : bool) then
    good ← EtcdIsGoodForRepair nf (ControlPlaneCount constraints);
    if negb good then Ret ([], PhaseRepairMachines) else Ret (ops, PhaseRepairMachines)
  else
  ops ← rebootOps c cs constraints nf;
  if (0 <? length ops)%nat then
    if negb (EtcdIsGood nf) then Ret ([], PhaseRebootNodes) else Ret (ops, PhaseRebootNodes)
  else Ret ([], PhaseCompleted)
  end
  end.
End strategy.
