(* ===== verification/Survey.v ===== *)
(** * The survey of the cluster

    server/get_status.go and op/status.go: what the server asks the nodes, etcd and
    the API server before it decides.  Agents, HTTP, the etcd of the cluster and the
    objects of the API server are the class [Network]; containers and volumes are
    inspected through the model of the container engine. *)

From Stdlib Require Import ZArith Ascii String Lia.
From stdpp Require Import base gmap strings list sorting.
From S2P Require Import Prelude GoLib GoFormat K8s Cluster Queue Resource Status Storage Reboot.
From S2P Require Import Dns Params Operators Engine Strategy.

(** The answer to a request for an object. *)
Inductive answer (A : Type) : Type :=
| Found (a : A)
| Missing
| Failed.
Arguments Found {A} a.
Arguments Missing {A}.
Arguments Failed {A}.

(** A decoded resource. *)
Record Object {T : K8sTypes} := mkObject {
  ob_GVK : GroupVersionKind;
  ob_Namespace : string;
  ob_Name : string;
  ob_Annotations : gmap string string;
  ob_Content : Unstructured
}.
Arguments mkObject {T}.

(** A request that fails gives [None], [false] or [Failed]. *)
Class Network {T : K8sTypes} `{!Platform} := {
  (** the body of the answer at a URL *)
  http_get : string -> platform -> platform * option string;
  https_get : string -> platform -> platform * option string;
  (** decoding of YAML texts *)
  decode_scheduler : string -> option KubeSchedulerConfiguration;
  decode_proxy : string -> option KubeProxyConfiguration;
  decode_kubelet : string -> option KubeletConfiguration;
  decode_object : string -> option Object;

  (** the etcd of the cluster at some endpoints: a client, the members, a new
      lease and its revision, and the revision of an answer *)
  etcd_client : list string -> platform -> platform * bool;
  member_list : list string -> platform -> platform * option (list Member);
  lease_grant : list string -> platform -> platform * option (Z * Z);
  get_health : list string -> platform -> platform * option Z;
  (** [url.Parse] followed by [net.SplitHostPort] of the host *)
  url_host : string -> result string;

  (** the objects of the API server of a node *)
  list_namespaces : string -> platform -> platform * bool;
  get_service_account : string -> string -> platform -> platform * answer unit;
  list_nodes : platform -> platform * option (list KubeNode);
  get_service : string -> string -> platform -> platform * answer Service;
  get_config_map : string -> string -> platform -> platform * answer ConfigMap;
  get_endpoints : string -> string -> platform -> platform * answer Endpoints;
  get_endpoint_slice : string -> string -> platform -> platform * answer EndpointSlice;
  (** configuration, discovery client and dynamic client; the REST mapper; an object
      with its annotations and whether it has managed fields *)
  dynamic_client : platform -> platform * bool;
  rest_mapping : GroupVersionKind -> platform -> platform * result RESTMapping;
  get_object : RESTMapping -> option string -> string
    -> platform -> platform * answer (gmap string string * bool)
}.

(** ** Computations of the server

    They use the storage and the platform, and the daemons of the nodes. *)
Section survey.
  Context {T : K8sTypes} {K : K8s} `{Runtime} `{!Etcd} `{!Platform} `{!Network} `{Docker}.

Record site := mkSite { st_sys : sys; st_world : world }.
Definition ctl (A : Type) : Type := site -> site * outcome A.
Global Instance ctl_ret : MRet ctl := fun A a s => (s, Done (Ok a)).
Global Instance ctl_bind : MBind ctl := fun A B k m s =>
  match m s with
  | (s', Done (Ok a)) => k a s'
  | (s', Done (Err e)) => (s', Done (Err e))
  | (s', Panicked w) => (s', Panicked w)
  | (s', Retrying) => (s', Retrying)
  end.
Definition raise {A} (e : error) : ctl A := fun s => (s, Done (Err e)).
Definition crash {A} (why : string) : ctl A := fun s => (s, Panicked why).
(** [x, err := m()]: the error is a value. *)
Definition caught {A} (m : ctl A) : ctl (result A) := fun s =>
  match m s with
  | (s', Done r) => (s', Done (Ok r))
  | (s', Panicked w) => (s', Panicked w)
  | (s', Retrying) => (s', Retrying)
  end.
Definition pure_go {A} (m : go A) : ctl A := match m with Ret a => mret a | Panic w => crash w end.
Definition on_sys {A} (m : drn A) : ctl A := fun s =>
  let '(y, r) := m (st_sys s) in (mkSite y (st_world s), r).
Definition store {A} (m : sto A) : ctl A := on_sys (storage m).
Definition net {A} (f : platform -> platform * A) : ctl A := on_sys (ask f).
(** [inf.Agent(address) != nil] *)
Definition connected (address : string) (s : site) : bool := bool_decide (address ∈ s_agents (st_sys s)).
Definition Agent (address : string) : ctl bool := fun s => (s, Done (Ok (connected address s))).
(** [inf.Engine(address)]; without an agent its operations dereference nil. *)
Definition engine {A} (address : string) (m : eng A) : ctl A := fun s =>
  if connected address s then
    let '(d, r) := m (st_world s address) in
    (mkSite (st_sys s) (set_daemon (st_world s) address d), Done r)
  else (s, Panicked nil_dereference).

Definition failed_request {A} : ctl A := raise (ErrUnexpected "request failed").
Definition needed {A} (f : platform -> platform * option A) : ctl A :=
  r ← net f; match r with Some a => mret a | None => failed_request end.
(** [case err == nil: ...; case k8serr.IsNotFound(err):; default: return err] *)
Definition optional {A} (f : platform -> platform * answer A) : ctl (option A) :=
  r ← net f;
  match r with Found a => mret (Some a) | Missing => mret None | Failed => failed_request end.

(** ** Nodes *)
Definition healthz (body : string) : bool := (TrimSpace body =? "ok")%string.
Definition CheckHealthz (addr : string) (port : Z) : ctl bool :=
  body ← needed (http_get ("http://" +:+ addr +:+ ":" +:+ FormatInt port +:+ "/healthz"));
  mret (healthz body).
Definition checkSecureHealthz (addr : string) (port : Z) : ctl bool :=
  body ← needed (https_get ("https://" +:+ addr +:+ ":" +:+ FormatInt port +:+ "/healthz"));
  mret (healthz body).
Definition checkAPIServerHealth (n : Node) : ctl bool :=
  ok ← net (list_namespaces (node_Address n));
  if (ok : bool) then mret true else failed_request.

(** The health of a component that runs; an error is only logged. *)
Definition health (st : ServiceStatus) (check : ctl bool) : ctl bool :=
  if ss_Running st then r ← caught check; mret (match r with Ok b => b | Err _ => false end)
  else mret false.

Definition KubeAPIServerContainerName : string := "kube-apiserver".
Definition KubeControllerManagerContainerName : string := "kube-controller-manager".
Definition KubeProxyContainerName : string := "kube-proxy".
Definition KubeSchedulerContainerName : string := "kube-scheduler".
Definition KubeletContainerName : string := "kubelet".
Definition inspected_names : list string :=
  [EtcdContainerName; RiversContainerName; EtcdRiversContainerName; KubeAPIServerContainerName;
   KubeControllerManagerContainerName; KubeSchedulerContainerName; KubeProxyContainerName;
   KubeletContainerName].

(** A service that is not in the map has the zero status. *)
Definition service_of (ss : gmap string ServiceStatus) (name : string) : ServiceStatus :=
  default zero_ServiceStatus (ss !! name).

(** The type of a configuration is cleared when its version is the known one. *)
Definition clear_type (version : string) (tm : TypeMeta) : TypeMeta :=
  if (tm_APIVersion tm =? version)%string then no_type_meta else tm.
Definition scheduler_config (data : string) : option KubeSchedulerConfiguration :=
  (fun c => mkKubeSchedulerConfiguration (clear_type "kubescheduler.config.k8s.io/v1" (sc_TypeMeta c))
              (sc_ClientConnection_Kubeconfig c) (sc_LeaderElect c) (sc_rest c))
  <$> decode_scheduler data.
Definition proxy_config (data : string) : option KubeProxyConfiguration :=
  (fun c => mkKubeProxyConfiguration (clear_type "kubeproxy.config.k8s.io/v1alpha1" (pc_TypeMeta c))
              (pc_HostnameOverride c) (pc_MetricsBindAddress c) (pc_TCPEstablishedTimeout c)
              (pc_TCPCloseWaitTimeout c) (pc_Mode c) (pc_ClientConnection_Kubeconfig c) (pc_rest c))
  <$> decode_proxy data.
Definition kubelet_config (data : string) : option KubeletConfiguration :=
  (fun c => mkKubeletConfiguration (clear_type "kubelet.config.k8s.io/v1beta1" (kc_TypeMeta c))
              (kc_ClusterDomain c) (kc_RuntimeRequestTimeout c) (kc_HealthzBindAddress c)
              (kc_VolumePluginDir c) (kc_TLSCertFile c) (kc_TLSPrivateKeyFile c) (kc_Authentication c)
              (kc_AuthorizationMode c) (kc_ClusterDNS c) (kc_RegisterWithTaints c) (kc_Cgroups c)
              (kc_rest c))
  <$> decode_kubelet data.

Definition no_EtcdStatus : EtcdStatus := mkEtcdStatus zero_ServiceStatus false false.
Definition no_component : KubeComponentStatus := mkKubeComponentStatus zero_ServiceStatus false.
Definition zero_NodeStatus : NodeStatus :=
  mkNodeStatus false no_EtcdStatus zero_ServiceStatus zero_ServiceStatus no_component no_component
    (mkSchedulerStatus zero_ServiceStatus false None) (mkProxyStatus zero_ServiceStatus false None)
    (mkKubeletStatus zero_ServiceStatus false None).

(** The configuration files on a node; that of the scheduler has to be readable, the other two not. *)
Definition cat (address path : string) : ctl (option string) :=
  engine address (fun d => let '(d', data) := run_cat path d in (d', Ok data)).
Definition scheduler_status (address : string) (st : ServiceStatus) : ctl SchedulerStatus :=
  healthy ← health st (checkSecureHealthz address 10259);
  if ss_Running st then
    data ← cat address SchedulerConfigPath;
    match data with
    | Some data => mret (mkSchedulerStatus st healthy (scheduler_config data))
    | None => failed_request
    end
  else mret (mkSchedulerStatus st healthy None).
Definition proxy_status (address : string) (st : ServiceStatus) : ctl ProxyStatus :=
  healthy ← health st (CheckHealthz address 10249);
  if ss_Running st then
    data ← cat address "/etc/kubernetes/proxy/config.yml";
    mret (mkProxyStatus st healthy (data ≫= proxy_config))
  else mret (mkProxyStatus st healthy None).
Definition kubelet_status (address : string) (st : ServiceStatus) : ctl KubeletStatus :=
  healthy ← health st (CheckHealthz address 10248);
  if ss_Running st then
    data ← cat address "/etc/kubernetes/kubelet/config.yml";
    mret (mkKubeletStatus st healthy (data ≫= kubelet_config))
  else mret (mkKubeletStatus st healthy None).

Definition GetNodeStatus (node : Node) (cluster : Cluster) : ctl NodeStatus :=
  let address := node_Address node in
  sshConnected ← Agent address;
  if negb (sshConnected : bool) then mret zero_NodeStatus
  else
    ss ← engine address (Inspect inspected_names);
    etcdVolumeExists ← engine address (VolumeExists (EtcdVolumeName (opt_Etcd (c_Options cluster))));
    isAddedMember ← engine address (VolumeExists EtcdAddedMemberVolumeName);
    let apiserver := service_of ss KubeAPIServerContainerName in
    apiserverHealthy ← health apiserver (checkAPIServerHealth node);
    let manager := service_of ss KubeControllerManagerContainerName in
    managerHealthy ← health manager (checkSecureHealthz address 10257);
    scheduler ← scheduler_status address (service_of ss KubeSchedulerContainerName);
    proxy ← proxy_status address (service_of ss KubeProxyContainerName);
    kubelet ← kubelet_status address (service_of ss KubeletContainerName);
    mret (mkNodeStatus true
            (mkEtcdStatus (service_of ss EtcdContainerName) etcdVolumeExists
               (etcdVolumeExists && isAddedMember))
            (service_of ss RiversContainerName) (service_of ss EtcdRiversContainerName)
            (mkKubeComponentStatus apiserver apiserverHealthy)
            (mkKubeComponentStatus manager managerHealthy) scheduler proxy kubelet).

(** ** etcd *)
Definition no_EtcdClusterStatus : EtcdClusterStatus := mkEtcdClusterStatus false ∅ ∅.
Fixpoint members_by_name (ms : list Member) (members : gmap string Member) : result (gmap string Member) :=
  match ms with
  | [] => Ok members
  | m :: rest =>
      match GuessMemberName url_host m with
      | Err e => Err e
      | Ok name => members_by_name rest (<[ name := m ]> members)
      end
  end.
Definition getEtcdMembers (endpoints : list string) : ctl (gmap string Member) :=
  ms ← needed (member_list endpoints);
  match members_by_name ms ∅ with Ok members => mret members | Err e => raise e end.

Definition getEtcdMemberInSync (address : string) (clusterRev : Z) : ctl bool :=
  let endpoints := ["https://" +:+ address +:+ ":2379"] in
  ok ← net (etcd_client endpoints);
  if negb (ok : bool) then mret false
  else
    rev ← net (get_health endpoints);
    mret (match rev with Some rev => clusterRev <=? rev | None => false end).
Fixpoint in_sync_members (names : list string) (clusterRev : Z) (m : gmap string bool)
    : ctl (gmap string bool) :=
  match names with
  | [] => mret m
  | name :: rest =>
      b ← getEtcdMemberInSync name clusterRev;
      in_sync_members rest clusterRev (<[ name := b ]> m)
  end.

(** [clientv3.NoLease] *)
Definition NoLease : Z := 0.
Definition GetEtcdClusterStatus (nodes : list Node) : ctl EtcdClusterStatus :=
  let endpoints := etcdEndpoints (List.filter node_ControlPlane nodes) in
  ok ← net (etcd_client endpoints);
  if negb (ok : bool) then failed_request
  else
    members ← getEtcdMembers endpoints;
    '(id, revision) ← needed (lease_grant endpoints);
    inSync ← in_sync_members (fst <$> range members) revision ∅;
    mret (mkEtcdClusterStatus (negb (id =? NoLease)) members inSync).

(** ** Kubernetes *)
Definition EtcdEndpointSliceName : string := EtcdEndpointsName.

Definition no_KubernetesClusterStatus : KubernetesClusterStatus :=
  mkKubernetesClusterStatus false [] None (mkClusterDNSStatus None "") None None None None None None ∅.

(** [inf.K8sClient(ctx, n)] *)
Definition k8s_client : ctl unit := on_sys K8sClient.

Definition getClusterDNSStatus : ctl ClusterDNSStatus :=
  _ ← k8s_client;
  config ← optional (get_config_map "kube-system" ClusterDNSAppName);
  service ← optional (get_service "kube-system" ClusterDNSAppName);
  mret (mkClusterDNSStatus config (match service with Some svc => svc_ClusterIP svc | None => "" end)).
Definition getNodeDNSStatus : ctl (option ConfigMap) :=
  _ ← k8s_client; optional (get_config_map "kube-system" NodeDNSAppName).

(** The Service for DNS, if one is configured. *)
Definition dns_service (cluster : Cluster) : ctl (option Service) :=
  if (0 <? String.length (c_DNSService cluster))%nat then
    match Split (c_DNSService cluster) "/" with
    | [namespace; name] => optional (get_service namespace name)
    | _ => crash "invalid dns_service in cluster.yml"
    end
  else mret None.

Fixpoint survey_resources (cluster : Cluster) (resources : list ResourceDefinition)
    (s : KubernetesClusterStatus) : ctl KubernetesClusterStatus :=
  match resources with
  | [] => mret s
  | res :: rest =>
      match decode_object (rd_Definition res) with
      | None => raise (ErrUnexpected "failed to decode a resource")
      | Some object =>
          let gvk := ob_GVK object in
          let namespace := ob_Namespace object in
          let name := ob_Name object in
          found ← net (rest_mapping gvk);
          match RESTMappingWithFallback (fun _ => found) gvk (c_TrustedRESTMappings cluster) with
          | Err _ => raise (ErrUnexpected ("failed to find rest mapping for " +:+ gvk_String gvk))
          | Ok mapping =>
              if rm_Namespaced mapping && (namespace =? "")%string
              then raise (ErrUnexpected ("no namespace for " +:+ gvk_String gvk +:+ ": name=" +:+ name))
              else
                obj ← optional (get_object mapping (if rm_Namespaced mapping then Some namespace else None)
                                  name);
                survey_resources cluster rest
                  match obj with
                  | Some (annotations, managed) => SetResourceStatus s (rd_Key res) annotations managed
                  | None => s
                  end
          end
      end
  end.

(** [static] is the list of built-in resources, which the build generates. *)
Definition GetKubernetesClusterStatus (static : list ResourceDefinition) (cluster : Cluster)
    : ctl KubernetesClusterStatus :=
  _ ← k8s_client;
  account ← optional (get_service_account "kube-system" "default");
  nodes ← needed list_nodes;
  dnsService ← dns_service cluster;
  clusterDNS ← getClusterDNSStatus;
  nodeDNS ← getNodeDNSStatus;
  masterEndpoints ← optional (get_endpoints "default" "kubernetes");
  masterEndpointSlice ← optional (get_endpoint_slice "default" "kubernetes");
  etcdService ← optional (get_service "kube-system" EtcdServiceName);
  etcdEndpoints ← optional (get_endpoints "kube-system" EtcdEndpointsName);
  etcdEndpointSlice ← optional (get_endpoint_slice "kube-system" EtcdEndpointSliceName);
  resources ← store GetAllResources;
  ok ← net dynamic_client;
  if negb (ok : bool) then failed_request
  else
    survey_resources cluster (resources ++ static)
      (mkKubernetesClusterStatus (match account with Some _ => true | None => false end) nodes dnsService
         clusterDNS nodeDNS masterEndpoints masterEndpointSlice etcdService etcdEndpoints
         etcdEndpointSlice ∅).

(** ** The whole (server/get_status.go)

    The goroutines survey different nodes; here they run one after the other. *)
Fixpoint survey_nodes (cluster : Cluster) (nodes : list Node) (statuses : gmap string NodeStatus)
    : ctl (gmap string NodeStatus) :=
  match nodes with
  | [] => mret statuses
  | n :: rest =>
      ns ← GetNodeStatus n cluster;
      survey_nodes cluster rest (<[ node_Address n := ns ]> statuses)
  end.

(** The first of the nodes with such a status. *)
Fixpoint first_with (p : NodeStatus -> bool) (statuses : gmap string NodeStatus) (nodes : list Node)
    : go (option Node) :=
  match nodes with
  | [] => Ret None
  | n :: rest =>
      ns ← deref (statuses !! node_Address n);
      if p ns then Ret (Some n) else first_with p statuses rest
  end.

Definition zero_RepairQueueStatus : RepairQueueStatus := mkRepairQueueStatus false [] ∅ ∅.
Definition zero_RebootQueueStatus : RebootQueueStatus := mkRebootQueueStatus false [] [] [] [] [] [].

Definition GetClusterStatus (static : list ResourceDefinition) (cluster : Cluster) : ctl ClusterStatus :=
  statuses ← survey_nodes cluster (c_Nodes cluster) ∅;
  version ← store GetConfigVersion;
  let cps := ControlPlanes (c_Nodes cluster) in
  let partial etcd := mkClusterStatus version statuses etcd no_KubernetesClusterStatus zero_RepairQueueStatus zero_RebootQueueStatus in
  added ← pure_go (first_with (fun ns => etcd_IsAddedMember (ns_Etcd ns)) statuses cps);
  match added with
  | None => mret (partial no_EtcdClusterStatus)
  | Some _ =>
      ecs ← caught (GetEtcdClusterStatus (c_Nodes cluster));
      match ecs with
      | Err _ => mret (partial no_EtcdClusterStatus)
      | Ok ecs =>
          livingMaster ← pure_go (first_with (fun ns => ss_Running (kcs_Service (ns_APIServer ns))) statuses cps);
          match livingMaster with
          | None => mret (partial ecs)
          | Some _ =>
              kcs ← GetKubernetesClusterStatus static cluster;
              repairQueueStatus ← on_sys (GetRepairQueueStatus cluster);
              rebootQueueStatus ← on_sys (GetRebootQueueStatus cluster (Contains (addrs cps)));
              mret (mkClusterStatus version statuses ecs kcs repairQueueStatus rebootQueueStatus)
          end
      end
  end.
End survey.
