(* ===== verification/Pki.v ===== *)
(** * Certificates (pki.go)

    What each function asks Vault for, and how a request is carried out: the role of the
    certificate authority is created if there is none, the certificate is issued, and the
    role of a one-time request is deleted. *)

From Stdlib Require Import ZArith Ascii String Lia.
From stdpp Require Import base gmap strings list.
From S2P Require Import Prelude GoLib GoFormat GoPath K8s Cluster Queue Resource Status Storage Reboot.
From S2P Require Import Operators Engine Strategy Survey.

Definition CNAPIServer : string := "front-proxy-client".
Definition CAServer : string := "server".
Definition CAEtcdPeer : string := "etcd-peer".
Definition CAEtcdClient : string := "etcd-client".
Definition CAKubernetes : string := "kubernetes".
Definition CAKubernetesAggregation : string := "kubernetes-aggregation".
Definition CAWebhook : string := "kubernetes-webhook".
Definition VaultPKIKey (caKey : string) : string := "cke/ca-" +:+ caKey.

Definition RoleSystem : string := "system".
Definition RoleAdmin : string := "admin".
Definition RoleKubeScheduler : string := "kube-scheduler".
Definition RoleKubeControllerManager : string := "kube-controller-manager".
Definition RoleKubelet : string := "kubelet".
Definition RoleKubeProxy : string := "kube-proxy".
Definition RoleServiceAccount : string := "service-account".
Definition AdminGroup : string := "system:masters".

(** Options of roles and of certificates. *)
Definition options : Type := gmap string string.
(** A value in a secret: a string, [nil] or something else. *)
Inductive secret_value : Type := SString (s : string) | SNil | SOther.
Definition secret_data : Type := gmap string secret_value.

(** The arguments of [issueCertificate]. *)
Record Request := mkRequest {
  rq_ca : string;
  rq_role : string;
  rq_onetime : bool;
  rq_roleOpts : options;
  rq_certOpts : options
}.
Definition opts (l : list (string * string)) : options := list_to_map l.

Definition role_path (ca role : string) : string := path_Join [VaultPKIKey ca; "roles"; role].
Definition issue_path (ca role : string) : string := path_Join [VaultPKIKey ca; "issue"; role].

(** ** Requests

    Each function of pki.go makes one request. *)
Definition EtcdCA_IssueServerCert (node : Node) : Request :=
  mkRequest CAServer RoleSystem false
    (opts [("ttl", "87600h"); ("max_ttl", "87600h"); ("client_flag", "false"); ("allow_any_name", "true")])
    (opts [("common_name", Nodename node);
           ("alt_names", Join ["localhost"; "cke-etcd"; "cke-etcd.kube-system"; "cke-etcd.kube-system.svc"] ",");
           ("ip_sans", "127.0.0.1," +:+ node_Address node)]).
Definition EtcdCA_IssuePeerCert (node : Node) : Request :=
  mkRequest CAEtcdPeer RoleSystem false
    (opts [("ttl", "87600h"); ("max_ttl", "87600h"); ("allow_any_name", "true")])
    (opts [("common_name", Nodename node); ("ip_sans", "127.0.0.1," +:+ node_Address node);
           ("exclude_cn_from_sans", "true")]).
Definition EtcdCA_IssueForAPIServer : Request :=
  mkRequest CAEtcdClient RoleSystem false
    (opts [("ttl", "87600h"); ("max_ttl", "87600h"); ("server_flag", "false"); ("allow_any_name", "true")])
    (opts [("common_name", "kube-apiserver"); ("exclude_cn_from_sans", "true")]).
Definition EtcdCA_IssueRoot : Request :=
  mkRequest CAEtcdClient RoleAdmin false
    (opts [("ttl", "2h"); ("max_ttl", "24h"); ("server_flag", "false"); ("allow_any_name", "true")])
    (opts [("common_name", "root"); ("exclude_cn_from_sans", "true"); ("ttl", "1h")]).
Definition IssueEtcdClientCertificate (username ttl : string) : Request :=
  mkRequest CAEtcdClient RoleSystem false
    (opts [("ttl", "87600h"); ("max_ttl", "87600h"); ("server_flag", "false"); ("allow_any_name", "true")])
    (opts [("common_name", username); ("exclude_cn_from_sans", "true"); ("ttl", ttl)]).

Definition KubernetesCA_IssueUserCert (userName groupName ttl : string) : Request :=
  mkRequest CAKubernetes RoleAdmin true
    (opts [("ttl", "2h"); ("max_ttl", "48h"); ("enforce_hostnames", "false"); ("allow_any_name", "true");
           ("organization", groupName)])
    (opts [("ttl", ttl); ("common_name", userName); ("exclude_cn_from_sans", "true")]).
(** [IPAdd] is that of the library netutil. *)
Definition KubernetesCA_IssueForAPIServer (IPAdd : list Z -> Z -> list Z) (n : Node)
    (serviceSubnet clusterDomain : string) : result Request :=
  match ParseCIDR serviceSubnet with
  | None => Err (ErrUnexpected "invalid CIDR address")
  | Some (ip, _) =>
      let altNames := ["localhost"; "kubernetes"; "kubernetes.default"; "kubernetes.default.svc";
                       "kubernetes.default.svc." +:+ clusterDomain] in
      let kubeSvcAddr := IPAdd ip 1 in
      Ok (mkRequest CAKubernetes RoleSystem false
            (opts [("ttl", "87600h"); ("max_ttl", "87600h"); ("enforce_hostnames", "false");
                   ("allow_any_name", "true")])
            (opts [("common_name", "kubernetes"); ("alt_names", Join altNames ",");
                   ("ip_sans", "127.0.0.1," +:+ node_Address n +:+ "," +:+ IP_String kubeSvcAddr);
                   ("exclude_cn_from_sans", "true")]))
  end.
Definition component_opts (organization : string) : options :=
  opts [("ttl", "87600h"); ("max_ttl", "87600h"); ("enforce_hostnames", "false"); ("allow_any_name", "true");
        ("organization", organization)].
Definition KubernetesCA_IssueForScheduler : Request :=
  mkRequest CAKubernetes RoleKubeScheduler false (component_opts "system:kube-scheduler")
    (opts [("common_name", "system:kube-scheduler"); ("exclude_cn_from_sans", "true")]).
Definition KubernetesCA_IssueForControllerManager : Request :=
  mkRequest CAKubernetes RoleKubeControllerManager false (component_opts "system:kube-controller-manager")
    (opts [("common_name", "system:kube-controller-manager"); ("exclude_cn_from_sans", "true")]).
Definition KubernetesCA_IssueForKubelet (node : Node) : Request :=
  let nodename := Nodename node in
  let altNames := if (nodename =? node_Address node)%string then "localhost" else "localhost," +:+ nodename in
  mkRequest CAKubernetes RoleKubelet false (component_opts "system:nodes")
    (opts [("common_name", "system:node:" +:+ nodename); ("alt_names", altNames);
           ("ip_sans", "127.0.0.1," +:+ node_Address node); ("exclude_cn_from_sans", "true")]).
Definition KubernetesCA_IssueForProxy : Request :=
  mkRequest CAKubernetes RoleKubeProxy false (component_opts "system:node-proxier")
    (opts [("common_name", "system:kube-proxy"); ("exclude_cn_from_sans", "true")]).
Definition KubernetesCA_IssueForServiceAccount : Request :=
  mkRequest CAKubernetes RoleServiceAccount false
    (opts [("ttl", "87600h"); ("max_ttl", "87600h"); ("allow_any_name", "true"); ("client_flag", "false");
           ("server_flag", "false"); ("key_usage", "DigitalSignature,CertSign"); ("no_store", "true")])
    (opts [("common_name", "service-account"); ("exclude_cn_from_sans", "true")]).
Definition AggregationCA_IssueClientCertificate : Request :=
  mkRequest CAKubernetesAggregation RoleSystem false
    (opts [("ttl", "87600h"); ("max_ttl", "87600h"); ("server_flag", "false"); ("allow_any_name", "true")])
    (opts [("common_name", CNAPIServer); ("exclude_cn_from_sans", "true")]).
Definition WebhookCA_IssueCertificate (namespace name : string) : Request :=
  let altNames := [name; name +:+ "." +:+ namespace; name +:+ "." +:+ namespace +:+ ".svc"] in
  mkRequest CAWebhook RoleSystem false
    (opts [("ttl", "175200h"); ("max_ttl", "175200h"); ("enforce_hostnames", "false");
           ("allow_any_name", "true"); ("server_flag", "true"); ("client_flag", "false")])
    (opts [("common_name", namespace +:+ "/" +:+ name); ("alt_names", Join altNames ",");
           ("exclude_cn_from_sans", "true")]).

(** ** Vault *)
Section pki.
  Context {T : K8sTypes} {K : K8s} `{Runtime} `{!Etcd} `{!Platform} `{!Network} `{Docker}.

(** The API of Vault.  [vault_client] is the client of the server, if it has logged in;
    a secret that does not exist is [None]. *)
Class Vault := {
  vault_client : platform -> platform * result unit;
  vault_read : string -> platform -> platform * result (option secret_data);
  vault_write : string -> options -> platform -> platform * result (option secret_data);
  vault_delete : string -> platform -> platform * result unit
}.
Context `{!Vault}.

Definition ask_vault {A} (f : platform -> platform * result A) : ctl A :=
  r ← net f; match r with Ok a => mret a | Err e => raise e end.

Definition addRole (ca role : string) (data : options) : ctl unit :=
  secret ← ask_vault (vault_read (role_path ca role));
  match secret with
  | Some _ => mret tt
  | None => _ ← ask_vault (vault_write (role_path ca role) data); mret tt
  end.
Definition deleteRole (ca role : string) : ctl unit :=
  _ ← ask_vault (vault_delete (role_path ca role));
  _ ← ask_vault (vault_read (role_path ca role)); mret tt.

(** [secret.Data[key].(string)] *)
Definition string_in (secret : option secret_data) (key : string) : ctl string :=
  match secret with
  | None => crash nil_dereference
  | Some data =>
      match data !! key with
      | Some (SString s) => mret s
      | _ => crash "interface conversion: interface {} is not string"
      end
  end.
Definition issueCertificate (r : Request) : ctl (string * string) :=
  _ ← ask_vault vault_client;
  _ ← addRole (rq_ca r) (rq_role r) (rq_roleOpts r);
  secret ← ask_vault (vault_write (issue_path (rq_ca r) (rq_role r)) (rq_certOpts r));
  crt ← string_in secret "certificate";
  _ ← (if rq_onetime r then deleteRole (rq_ca r) (rq_role r) else mret tt);
  key ← string_in secret "private_key";
  mret (crt, key).

(** ** The certificate of the server (infrastructure.go)

    The server keeps its certificate for the API servers for a day. *)
Record certCache := mkCertCache {
  cc_cert : option (string * string);
  cc_timestamp : Z;
  cc_lifetime : Z
}.
Definition hours (n : Z) : Z := n * 3600 * 10 ^ 9.
Definition new_certCache : certCache := mkCertCache None 0 (hours 24).

Definition certCache_get (issue : ctl (string * string)) (c : certCache)
    : ctl (certCache * result (string * string)) :=
  now ← net now_at;
  let fresh :=
    r ← caught issue;
    mret (match r with
          | Ok issued => (mkCertCache (Some issued) now (cc_lifetime c), r)
          | Err _ => (c, r)
          end) in
  match cc_cert c with
  | Some cached => if now - cc_timestamp c <? cc_lifetime c then mret (c, Ok cached) else fresh
  | None => fresh
  end.
Definition GetCert (c : certCache) : ctl (certCache * result (string * string)) :=
  certCache_get (issueCertificate (KubernetesCA_IssueUserCert RoleAdmin AdminGroup "25h")) c.

(** ** The keys of the API servers for Secrets (op/k8s/encryption.go) *)
Definition SSHSecret : string := "cke/secrets/ssh".
Definition K8sSecret : string := "cke/secrets/k8s".
Definition getEncryptionSecret (key : string) : ctl string :=
  _ ← ask_vault vault_client;
  secret ← ask_vault (vault_read K8sSecret);
  match secret with
  | None => raise (ErrUnexpected "no encryption secrets for API server")
  | Some data =>
      match data !! key with
      | None => raise (ErrUnexpected ("no secret data for " +:+ key))
      | Some _ => string_in secret key
      end
  end.

(** ** Agents (infrastructure.go, agent.go) *)

(** [SSHAgent(node, privkey)]: whether the connection and a test command succeeded. *)
Class Agents := { SSHAgent : Node -> string -> platform -> platform * bool }.
Context `{!Agents}.

(** The private key for a node, or the default one. *)
Definition private_key (privkeys : secret_data) (address : string) : ctl string :=
  let mykey := match privkeys !! address with Some v => Some v | None => privkeys !! "" end in
  match mykey with
  | None | Some SNil => raise (ErrUnexpected ("no ssh private key for " +:+ address))
  | Some (SString key) => mret key
  | Some SOther => crash "interface conversion: interface {} is not string"
  end.
(** A node that does not answer has no agent. *)
Fixpoint connect_nodes (privkeys : secret_data) (nodes : list Node) (agents : gset string)
    : ctl (gset string * option error) :=
  match nodes with
  | [] => mret (agents, None)
  | node :: rest =>
      mykey ← caught (private_key privkeys (node_Address node));
      match mykey with
      | Err e => '(agents, _) ← connect_nodes privkeys rest agents; mret (agents, Some e)
      | Ok mykey =>
          ok ← net (SSHAgent node mykey);
          connect_nodes privkeys rest (if (ok : bool) then {[ node_Address node ]} ∪ agents else agents)
      end
  end.
Definition set_agents (agents : gset string) : ctl unit := fun s =>
  (mkSite (mkSys (s_etcd (st_sys s)) (s_platform (st_sys s)) (s_calls (st_sys s)) agents) (st_world s), Done (Ok tt)).
Definition NewInfrastructure (c : Cluster) : ctl unit :=
  _ ← ask_vault vault_client;
  secret ← ask_vault (vault_read SSHSecret);
  match secret with
  | None => crash nil_dereference
  | Some privkeys =>
      '(agents, e) ← connect_nodes privkeys (c_Nodes c) ∅;
      match e with None => set_agents agents | Some e => raise e end
  end.
(** [defer inf.Close()] *)
Definition closing {A} (m : ctl A) : ctl A := fun s =>
  let '(s1, r) := m s in (fst (set_agents ∅ s1), r).
End pki.
