(* ===== verification/Clients.v ===== *)
(** * Agents and clients (agent.go, infrastructure.go)

    SSH connections to the nodes, and the clients of the API servers and of etcd with their
    certificates.  Connections carry their deadline; what is read from and written to them is
    left out, and so are logs. *)

From Stdlib Require Import ZArith Ascii String Lia.
From stdpp Require Import base gmap strings list.
From S2P Require Import Prelude GoLib GoFormat GoPath K8s Cluster Queue Resource Status Storage Reboot.
From S2P Require Import Operators Engine Strategy Survey Pki.

(** ** Agents (agent.go) *)
Definition defaultDialTimeout : Z := 5 * 10 ^ 9.
Definition DefaultRunTimeout : Z := 600 * 10 ^ 9.

(** A TCP connection. *)
Record conn := mkConn { cn_open : bool; cn_deadline : option Z }.

Section agent.
  Context {T : K8sTypes} {K : K8s} `{!Platform}.

(** What package net and golang.org/x/crypto/ssh answer; a failed handshake has closed the
    connection. *)
Class SSH := {
  tcp_dial : string -> platform -> platform * bool;
  ParsePrivateKey : string -> bool;
  deadline_set : platform -> platform * bool;
  handshake : string -> string -> platform -> platform * bool;
  new_session : platform -> platform * bool;
  session_Run : string -> string -> platform -> platform * (string * string * bool)
}.
Context `{!SSH}.

(** Computations with one connection. *)
Definition ssh (A : Type) : Type := platform * conn -> platform * conn * result A.
#[export] Instance ssh_ret : MRet ssh := fun A a s => (s, Ok a).
#[export] Instance ssh_bind : MBind ssh := fun A B k m s =>
  match m s with (s', Ok a) => k a s' | (s', Err e) => (s', Err e) end.
Definition fail_ssh {A} (msg : string) : ssh A := fun s => (s, Err (ErrUnexpected msg)).
Definition ask_ssh {A} (f : platform -> platform * A) : ssh A := fun '(p, c) =>
  let '(p', a) := f p in ((p', c), Ok a).
Definition Close : ssh unit := fun '(p, c) => ((p, mkConn false (cn_deadline c)), Ok tt).
Definition SetDeadline (t : option Z) : ssh unit := fun '(p, c) =>
  let '(p', ok) := deadline_set p in
  if (ok : bool) then ((p', mkConn (cn_open c) t), Ok tt) else ((p', c), Err (ErrUnexpected "failed to set deadline")).
(** [defer f()], whose error is dropped *)
Definition defer {A} (f : ssh unit) (m : ssh A) : ssh A := fun s =>
  let '(s1, r) := m s in let '(s2, _) := f s1 in (s2, r).
(** [if err != nil { f(); return err }] *)
Definition on_error {A} (f : ssh unit) (m : ssh A) : ssh A := fun s =>
  match m s with (s1, Ok a) => (s1, Ok a) | (s1, Err e) => let '(s2, _) := f s1 in (s2, Err e) end.

Definition deadline_in (timeout : Z) : ssh unit := now ← ask_ssh now_at; SetDeadline (Some (now + timeout)).
Definition run_session (command input : string) (timeout : Z) : ssh (string * string) :=
  ok ← ask_ssh new_session;
  if negb ok then fail_ssh "failed to create session"
  else
    _ ← (if 0 <? timeout then deadline_in timeout else mret tt);
    '(stdout, stderr, ok) ← ask_ssh (session_Run command input);
    if (ok : bool) then mret (stdout, stderr) else fail_ssh "failed to run command".
Definition RunWithTimeout (command input : string) (timeout : Z) : ssh (string * string) :=
  if 0 <? timeout then
    _ ← deadline_in defaultDialTimeout;
    defer (SetDeadline None) (run_session command input timeout)
  else run_session command input timeout.
Definition sshAgent_Run (command : string) : ssh (string * string) := RunWithTimeout command "" DefaultRunTimeout.
Definition RunWithInput (command input : string) : ssh unit :=
  _ ← RunWithTimeout command input DefaultRunTimeout; mret tt.

(** [SSHAgent], from a connection that was dialed on. *)
Definition establish (node : Node) (privkey : string) : ssh unit :=
  if negb (ParsePrivateKey privkey) then fail_ssh "invalid private key"
  else
    _ ← on_error Close (deadline_in defaultDialTimeout);
    ok ← ask_ssh (handshake (node_User node) privkey);
    if negb ok then _ ← Close; fail_ssh "handshake failed"
    else
      _ ← on_error Close (SetDeadline None);
      _ ← on_error Close (sshAgent_Run "docker version"); mret tt.
Definition NewSSHAgent (node : Node) (privkey : string) (p : platform) : platform * conn * result unit :=
  let '(p', ok) := tcp_dial (node_Address node +:+ ":22") p in
  if (ok : bool) then establish node privkey (p', mkConn true None)
  else ((p', mkConn false None), Err (ErrUnexpected "failed to dial")).
(** The agents of Pki. *)
Definition ssh_agents : Agents := {|
  SSHAgent node privkey p :=
    let '(p', _, r) := NewSSHAgent node privkey p in (p', match r with Ok _ => true | Err _ => false end)
|}.

(** *** Connections that are closed

    A connection and its deadline at the end of a computation. *)
Lemma SetDeadline_cases t p c :
  exists p', SetDeadline t (p, c) = ((p', mkConn (cn_open c) t), Ok tt)
             \/ exists e, SetDeadline t (p, c) = ((p', c), Err e).
Proof. unfold SetDeadline. destruct (deadline_set p) as [p' []]; eauto. Qed.
Lemma deadline_in_cases d p c :
  exists p', (exists t, deadline_in d (p, c) = ((p', mkConn (cn_open c) (Some t)), Ok tt))
             \/ exists e, deadline_in d (p, c) = ((p', c), Err e).
Proof.
  unfold deadline_in, mbind, ssh_bind, ask_ssh. destruct (now_at p) as [p1 now].
  destruct (SetDeadline_cases (Some (now + d)) p1 c) as (p' & [-> |[e ->]]); eauto.
Qed.
Lemma run_session_open command input timeout p c p' c' r :
  run_session command input timeout (p, c) = ((p', c'), r) -> cn_open c' = cn_open c.
Proof.
  unfold run_session, mbind, ssh_bind, ask_ssh. destruct (new_session p) as [p1 []]; cbn; [|by intros [= _ <- _]].
  destruct (0 <? timeout).
  - destruct (deadline_in_cases timeout p1 c) as (p2 & [[t ->] |[e ->]]); [|by intros [= _ <- _]].
    destruct (session_Run command input p2) as [p3 [[o e] []]]; by intros [= _ <- _].
  - cbn. destruct (session_Run command input p1) as [p3 [[o e] []]]; by intros [= _ <- _].
Qed.
Lemma RunWithTimeout_open command input timeout p c p' c' r :
  RunWithTimeout command input timeout (p, c) = ((p', c'), r) -> cn_open c' = cn_open c.
Proof.
  unfold RunWithTimeout. destruct (0 <? timeout); [|apply run_session_open].
  unfold mbind, ssh_bind. destruct (deadline_in_cases defaultDialTimeout p c) as (p1 & [[t ->] |[e ->]]);
    [|by intros [= _ <- _]].
  unfold defer. destruct (run_session _ _ _ _) as [[p2 c2] r2] eqn:Hr. apply run_session_open in Hr as Ho. cbn in Ho.
  destruct (SetDeadline_cases None p2 c2) as (p3 & [-> |[e ->]]); by intros [= _ <- _].
Qed.

(** Connecting to a node leaves no connection open when it fails, unless the private key cannot be
    parsed; then the connection that was dialed stays open. *)
Theorem agent_connections node privkey p p' c r :
  NewSSHAgent node privkey p = ((p', c), r) ->
  match r with
  | Ok _ => cn_open c = true
  | Err _ => cn_open c = true <-> ParsePrivateKey privkey = false /\ snd (tcp_dial (node_Address node +:+ ":22") p) = true
  end.
Proof.
  unfold NewSSHAgent. destruct (tcp_dial _ p) as [p1 []]; [|by intros [= _ <- <-]; naive_solver].
  unfold establish. destruct (ParsePrivateKey privkey); cbn [negb snd]; [|by intros [= _ <- <-]].
  unfold mbind, ssh_bind, on_error at 1.
  destruct (deadline_in_cases defaultDialTimeout p1 (mkConn true None)) as (p2 & [[t ->] |[e ->]]);
    [|intros [= _ <- <-]; naive_solver].
  unfold ask_ssh. destruct (handshake _ _ p2) as [p3 []]; cbn [negb]; [|intros [= _ <- <-]; cbn; naive_solver].
  cbn [cn_open]. unfold on_error at 1. destruct (SetDeadline_cases None p3 (mkConn true (Some t))) as (p4 & [-> |[e ->]]);
    [|intros [= _ <- <-]; cbn; naive_solver].
  unfold on_error, sshAgent_Run. destruct (RunWithTimeout _ _ _ _) as [[p5 c5] [a|e]] eqn:Hr.
  - apply RunWithTimeout_open in Hr. intros [= _ <- <-]. done.
  - intros [= _ <- <-]. cbn. naive_solver.
Qed.
End agent.

(** ** Clients of the API servers and of etcd (infrastructure.go) *)

(** [KubeHTTP], which the process has once: [kh_done] is its sync.Once. *)
Record KubeHTTP := mkKubeHTTP {
  kh_done : bool;
  kh_cache : certCache;
  kh_err : option error;
  kh_ca : string
}.
(** [ckeInfrastructure], one a round: what its two sync.Once have left. *)
Record ckeInfrastructure := mkCkeInfrastructure {
  ci_kube : option (result (string * string));
  ci_etcd : option (result (string * (string * string)))
}.
Definition new_kubeHTTP : KubeHTTP := mkKubeHTTP false new_certCache None "".
Definition new_infrastructure : ckeInfrastructure := mkCkeInfrastructure None None.
(** [rest.Config] and [etcdutil.Config]. *)
Record rest_Config := mkRestConfig {
  rc_Host : string; rc_CertData : string; rc_KeyData : string; rc_CAData : string; rc_Timeout : Z
}.
Record etcd_Config := mkEtcdConfig {
  ec_Endpoints : list string; ec_TLSCA : string; ec_TLSCert : string; ec_TLSKey : string
}.

Section clients.
  Context {T : K8sTypes} {K : K8s} `{Runtime} `{!Etcd} `{!Platform} `{!Network} `{Docker} `{!Vault}.

Definition error_of {A} (r : result A) : option error := match r with Ok _ => None | Err e => Some e end.
Definition KubeHTTP_Init (k : KubeHTTP) : ctl (KubeHTTP * option error) :=
  if kh_done k then mret (k, kh_err k)
  else
    ca ← caught (store (GetCACertificate CAKubernetes));
    mret (match ca with
          | Ok ca => (mkKubeHTTP true new_certCache (kh_err k) ca, kh_err k)
          | Err e => (mkKubeHTTP true new_certCache (Some e) (kh_ca k), Some e)
          end).
Definition init_clients (k : KubeHTTP) (i : ckeInfrastructure)
    : ctl (KubeHTTP * ckeInfrastructure * result (string * string)) :=
  '(k, e) ← KubeHTTP_Init k;
  match e with
  | Some e => mret (k, i, Err e)
  | None =>
      match ci_kube i with
      | Some r => mret (k, i, r)
      | None =>
          '(cache, r) ← GetCert (kh_cache k);
          mret (mkKubeHTTP (kh_done k) cache (kh_err k) (kh_ca k), mkCkeInfrastructure (Some r) (ci_etcd i), r)
      end
  end.
Definition K8sConfig (n : Node) (k : KubeHTTP) (i : ckeInfrastructure)
    : ctl (KubeHTTP * ckeInfrastructure * result rest_Config) :=
  '(k, i, r) ← init_clients k i;
  mret (k, i, match r with
              | Err e => Err e
              | Ok (cert, key) => Ok (mkRestConfig ("https://" +:+ node_Address n +:+ ":6443") cert key (kh_ca k) (5 * 10 ^ 9))
              end).
(** What [NewEtcdClient] connects with. *)
Definition issue_etcd : ctl (string * (string * string)) :=
  serverCA ← store (GetCACertificate CAServer);
  root ← issueCertificate EtcdCA_IssueRoot; mret (serverCA, root).
Definition NewEtcdClient (endpoints : list string) (i : ckeInfrastructure)
    : ctl (ckeInfrastructure * result etcd_Config) :=
  '(i, r) ← (match ci_etcd i with
             | Some r => mret (i, r)
             | None => r ← caught issue_etcd; mret (mkCkeInfrastructure (ci_kube i) (Some r), r)
             end);
  mret (i, match r with
           | Err e => Err e
           | Ok (serverCA, (cert, key)) => Ok (mkEtcdConfig endpoints serverCA cert key)
           end).

(** *** What the clients connect with *)

(** A call that had a certificate: the server has been initialised without an error. *)
Lemma init_clients_ok k i s s' k' i' cert :
  init_clients k i s = (s', Done (Ok (k', i', Ok cert))) ->
  kh_done k' = true /\ kh_err k' = None /\ ci_kube i' = Some (Ok cert).
Proof.
  unfold init_clients, mbind at 1, ctl_bind at 1.
  destruct (KubeHTTP_Init k s) as [s1 [[[k1 [e|]]|]| |]] eqn:Hk; try done.
  assert (kh_done k1 = true /\ kh_err k1 = None) as [Hd He].
  { revert Hk. unfold KubeHTTP_Init. destruct (kh_done k) eqn:Hd; [intros [= <- <- ?]; done|].
    unfold mbind, ctl_bind. destruct (caught _ s) as [s2 [[[ca|e]|]| |]]; try done. by intros [= <- <- ?]. }
  destruct (ci_kube i) as [r|] eqn:Hi; [intros [= <- <- <- ->]; done|].
  unfold mbind, ctl_bind. destruct (GetCert _ s1) as [s2 [[[cache r]|]| |]]; try done.
  intros [= <- <- <- ->]. done.
Qed.
Lemma init_clients_again k i cert :
  kh_done k = true -> kh_err k = None -> ci_kube i = Some (Ok cert) ->
  forall s, init_clients k i s = (s, Done (Ok (k, i, Ok cert))).
Proof. intros Hd He Hi s. unfold init_clients, KubeHTTP_Init, mbind, ctl_bind. rewrite Hd, He. cbn. by rewrite Hi. Qed.

(** The certificate for the API servers is one during a round: after a call that succeeded every
    other call answers the same certificate for its node, and asks neither Vault nor etcd. *)
Theorem one_certificate_a_round n k i s s' k' i' cfg :
  K8sConfig n k i s = (s', Done (Ok (k', i', Ok cfg))) ->
  forall n2 s2,
    K8sConfig n2 k' i' s2
    = (s2, Done (Ok (k', i', Ok (mkRestConfig ("https://" +:+ node_Address n2 +:+ ":6443")
                                   (rc_CertData cfg) (rc_KeyData cfg) (rc_CAData cfg) (rc_Timeout cfg))))).
Proof.
  unfold K8sConfig, mbind at 1, ctl_bind at 1.
  destruct (init_clients k i s) as [s1 [[[[k1 i1] [[cert key]|e]]|]| |]] eqn:Hi; try done.
  intros [= <- <- <- <-] n2 s2. apply init_clients_ok in Hi as (Hd & He & Hc).
  unfold mbind, ctl_bind. by rewrite (init_clients_again _ _ _ Hd He Hc).
Qed.

(** When the CA certificate could not be read the first time, no round of the process has a client
    of an API server any more, whatever the store holds by then. *)
Theorem ca_error_is_kept k k' e s s' :
  kh_done k = false -> KubeHTTP_Init k s = (s', Done (Ok (k', Some e))) ->
  forall n i s2, K8sConfig n k' i s2 = (s2, Done (Ok (k', i, Err e))).
Proof.
  intros Hd. unfold KubeHTTP_Init at 1, mbind, ctl_bind. rewrite Hd.
  destruct (caught _ s) as [s1 [[[ca|e1]|]| |]]; try done; intros [= <- <- He] n i s2;
    unfold K8sConfig, init_clients, KubeHTTP_Init, mbind, ctl_bind; cbn; first [rewrite He|subst]; done.
Qed.
End clients.
