(* ===== verification/Files.v ===== *)
(** * Files on nodes (op/common/mkfiles.go, op/common/mkdirs.go, op/k8s, op/etcd)

    Operators collect the contents of files, with certificates issued for each node, and
    write them on the nodes with containers of the tools image.  An archive is
    represented by the names and contents in it, and documents in YAML by the texts the
    encoders give for their values. *)

From Stdlib Require Import ZArith Ascii String Lia.
From stdpp Require Import base gmap strings list.
From S2P Require Import Prelude GoLib GoFormat GoPath K8s Cluster Queue Resource Status Storage Reboot.
From S2P Require Import Params NodeFilter Operators Engine Strategy Survey Pki.

(** ** kubeconfig (kubeconfig.go, op/k8s/config.go)

    A cluster has either the data of its certificates or the paths of their files; the
    other field is empty. *)
Record api_Cluster := mkApiCluster {
  ac_Server : string;
  ac_CertificateAuthority : string;
  ac_CertificateAuthorityData : string
}.
Record api_AuthInfo := mkApiAuthInfo {
  ai_ClientCertificate : string;
  ai_ClientKey : string;
  ai_ClientCertificateData : string;
  ai_ClientKeyData : string
}.
Record api_Context := mkApiContext { ax_Cluster : string; ax_AuthInfo : string }.
Record api_Config := mkApiConfig {
  cfg_Clusters : gmap string api_Cluster;
  cfg_AuthInfos : gmap string api_AuthInfo;
  cfg_Contexts : gmap string api_Context;
  cfg_CurrentContext : string
}.

Definition UserKubeconfig (cluster userName ca clientCrt clientKey server : string) : api_Config :=
  mkApiConfig {[ cluster := mkApiCluster server "" ca ]}
    {[ userName := mkApiAuthInfo "" "" clientCrt clientKey ]}
    {[ "default" := mkApiContext cluster userName ]} "default".
Definition Kubeconfig (cluster user ca clientCrt clientKey : string) : api_Config :=
  mkApiConfig {[ cluster := mkApiCluster "https://localhost:16443" "" ca ]}
    {[ user := mkApiAuthInfo "" "" clientCrt clientKey ]}
    {[ "default" := mkApiContext cluster user ]} "default".
Definition controllerManagerKubeconfig (cluster ca clientCrt clientKey : string) : api_Config :=
  Kubeconfig cluster "system:kube-controller-manager" ca clientCrt clientKey.
Definition schedulerKubeconfig (cluster ca clientCrt clientKey : string) : api_Config :=
  Kubeconfig cluster "system:kube-scheduler" ca clientCrt clientKey.
Definition proxyKubeconfig (cluster ca clientCrt clientKey server : string) : api_Config :=
  if (server =? "")%string then Kubeconfig cluster "system:kube-proxy" ca clientCrt clientKey
  else UserKubeconfig cluster "system:kube-proxy" ca clientCrt clientKey server.
Definition kubeletKubeconfig (cluster : string) (n : Node) (caPath certPath keyPath : string) : api_Config :=
  let user := "system:node:" +:+ Nodename n in
  mkApiConfig {[ cluster := mkApiCluster "https://localhost:16443" caPath "" ]}
    {[ user := mkApiAuthInfo certPath keyPath "" "" ]}
    {[ "default" := mkApiContext cluster user ]} "default".

Definition kubeconfigPath : string := "/etc/kubernetes/kubelet/kubeconfig".
Definition kubeletConfigPath : string := "/etc/kubernetes/kubelet/config.yml".
Definition cniBinDir : string := "/opt/cni/bin".
Definition cniConfDir : string := "/etc/cni/net.d".

(** The configuration of the encryption of Secrets. *)
Inductive ProviderConfiguration (A : Type) : Type := AESCBC (aes : A) | Identity.
Arguments AESCBC {A} _.
Arguments Identity {A}.
Record ResourceConfiguration (A : Type) := mkResourceConfiguration {
  rc_Resources : list string;
  rc_Providers : list (ProviderConfiguration A)
}.
Arguments mkResourceConfiguration {A} _ _.

(** ** Containers of tools (container.go)

    The command line of [docker run --rm] and its input. *)
Definition archive : Type := list (string * string).
Record DockerTool := mkDockerTool {
  dt_flags : list string;
  dt_volumes : list (string * string * bool);   (** source, destination, writable *)
  dt_image : string;
  dt_command : list string;
  dt_input : option archive
}.

(** tools/write_files: the program extracts an archive below a directory.  It sees the
    files of the host through the volumes of its container; the rest of the file system is
    read-only. *)
Definition host_path (vols : list (string * string * bool)) (p : string) : option string :=
  match List.find (fun '(_, dst, writable) => (dst =? Dir p)%string && (writable : bool)) vols with
  | Some (src, _, _) => Some (src +:+ "/" +:+ Base p)
  | None => None
  end.
Definition copyFile (vols : list (string * string * bool)) (dest data : string) (fs : gmap string string)
    : option (gmap string string) :=
  t ← host_path vols (dest +:+ ".tmp");
  d ← host_path vols dest;
  Some (<[ d := data ]> (delete t (<[ t := data ]> fs))).
Fixpoint write_files (vols : list (string * string * bool)) (prefix : string) (files : archive)
    (fs : gmap string string) : option (gmap string string) :=
  match files with
  | [] => Some fs
  | (name, data) :: rest =>
      fs' ← copyFile vols (path_Join [prefix; name]) data fs; write_files vols prefix rest fs'
  end.

Section files.
  Context {T : K8sTypes} {K : K8s} `{Runtime} `{!Etcd} `{!Platform} `{!Network} `{Docker} `{!Vault}.

(** A container that is removed when it ends leaves containers and volumes alone.  The
    program [write_files] of the tools image is the one above. *)
Class Tools := {
  docker_tool : DockerTool -> daemon -> daemon * bool;
  host_files : daemon -> gmap string string;
  tool_same : forall t d, same_state d (fst (docker_tool t d));
  tool_write_files : forall t d d' prefix files, docker_tool t d = (d', true) ->
    dt_image t = ToolsImage -> dt_command t = ["write_files"; prefix] -> dt_input t = Some files ->
    write_files (dt_volumes t) prefix files (host_files d) = Some (host_files d')
}.
(** Encoding and decoding of YAML and JSON. *)
Class Encoders := {
  AESConfiguration : Type;
  decode_aes : string -> result AESConfiguration;
  encode_encryption : list (ResourceConfiguration AESConfiguration) -> result string;
  encode_scheduler : KubeSchedulerConfiguration -> result string;
  encode_proxy : KubeProxyConfiguration -> result string;
  encode_kubelet : KubeletConfiguration -> result string;
  clientcmd_Write : api_Config -> result string
}.
Context `{!Tools} `{!Encoders} (IPAdd : list Z -> Z -> list Z).

(** [Run] and [RunWithInput] *)
Definition volume_of (m : Mount) : string * string * bool :=
  (mnt_Source m, mnt_Destination m, negb (mnt_ReadOnly m)).
Definition engine_Run (img : string) (binds : list Mount) (command : string) (args : list string) : eng unit :=
  run (docker_tool (mkDockerTool ["--log-driver=journald"; "--rm"; "--network=host"; "--uts=host"; "--read-only"]
                      (volume_of <$> binds) img (command :: args) None)).
Definition engine_RunWithInput (img : string) (binds : list Mount) (command : string) (input : archive)
    (args : list string) : eng unit :=
  run (docker_tool (mkDockerTool ["--log-driver=journald"; "--rm"; "-i"; "--network=host"; "--uts=host";
                                  "--read-only"] (volume_of <$> binds) img (command :: args) (Some input))).

(** A command on containers and volumes of several nodes.  The goroutines run one after
    the other, up to a node without an agent. *)
Fixpoint with_agents (s : site) (nodes : list Node) : list Node :=
  match nodes with
  | [] => []
  | n :: rest => if connected (node_Address n) s then n :: with_agents s rest else []
  end.
Definition on_each_node (nodes : list Node) (f : Node -> eng unit) : ctl unit := fun s =>
  let reached := with_agents s nodes in
  let '(w, e) := on_nodes reached f (st_world s) in
  (mkSite (st_sys s) w,
   if (length reached =? length nodes)%nat then Done (match e with None => Ok tt | Some e => Err e end)
   else Panicked nil_dereference).

(** The directories that the paths are in, mounted below [/mnt]. *)
Definition parent_bind (m : gmap string Mount) (p : string) : gmap string Mount :=
  let parentDir := Dir p in
  match m !! parentDir with
  | Some _ => m
  | None => <[ parentDir := mkMount parentDir (path_Join ["/mnt"; parentDir]) false "" LabelPrivate ]> m
  end.
Definition parent_binds (paths : list string) : list Mount :=
  (range (foldl parent_bind ∅ paths)).*2.

(** ** Directories *)
Definition makeDirs_Run (nodes : list Node) (dirs : list string) (mode : string) : ctl unit :=
  let dests := (fun d => path_Join ["/mnt"; d]) <$> dirs in
  let binds := parent_binds dirs in
  on_each_node nodes (fun _ => engine_Run ToolsImage binds "make_directories" (("--mode=" +:+ mode) :: dests)).
Definition emptyDir_Run (nodes : list Node) (dir : string) : ctl unit :=
  let dest := path_Join ["/mnt"; dir] in
  on_each_node nodes (fun _ => engine_Run ToolsImage [mkMount dir dest false "" LabelPrivate]
                                 ("empty-dir " +:+ dest) []).
Definition installCNI_Run (nodes : list Node) : ctl unit :=
  on_each_node nodes (fun _ => engine_Run ToolsImage
    [mkMount cniBinDir "/host/bin" false "" LabelShared; mkMount cniConfDir "/host/net.d" false "" LabelShared]
    "install-cni" []).

(** ** The builder of files *)
Record fileData := mkFileData { fd_name : string; fd_dataMap : gmap string string }.

(** What [f] gives for each node, by address.  It runs on all nodes; the error of one of
    them is returned. *)
Fixpoint gather {A} (f : Node -> ctl A) (nodes : list Node) (m : gmap string A)
    : ctl (gmap string A * option error) :=
  match nodes with
  | [] => mret (m, None)
  | n :: rest =>
      r ← caught (f n);
      '(m', e) ← gather f rest (match r with Ok a => <[ node_Address n := a ]> m | Err _ => m end);
      mret (m', match r with Ok _ => e | Err e1 => Some e1 end)
  end.
Definition gathered {A} (f : Node -> ctl A) (nodes : list Node) : ctl (gmap string A) :=
  '(m, e) ← gather f nodes ∅; match e with None => mret m | Some e => raise e end.

Definition AddFile (nodes : list Node) (name : string) (f : Node -> ctl string) (files : list fileData)
    : ctl (list fileData) :=
  dataMap ← gathered f nodes; mret (files ++ [mkFileData name dataMap]).
Definition AddKeyPair (nodes : list Node) (name : string) (f : Node -> ctl (string * string))
    (files : list fileData) : ctl (list fileData) :=
  m ← gathered f nodes;
  mret (files ++ [mkFileData (name +:+ ".crt") (fst <$> m); mkFileData (name +:+ ".key") (snd <$> m)]).
(** The archive for a node. *)
Definition archive_for (n : Node) (files : list fileData) : archive :=
  (fun f => (fd_name f, default "" (fd_dataMap f !! node_Address n))) <$> files.
Definition FilesBuilder_Run (nodes : list Node) (files : list fileData) : ctl unit :=
  let binds := parent_binds (fd_name <$> files) in
  on_each_node nodes (fun n => engine_RunWithInput ToolsImage binds "write_files" (archive_for n files) ["/mnt"]).

(** ** The files of the services *)
Definition encoded (r : result string) : ctl string := match r with Ok s => mret s | Err e => raise e end.
Definition constant (data : string) : Node -> ctl string := fun _ => mret data.
Definition api_server_pair (serviceSubnet clusterDomain : string) (n : Node) : ctl (string * string) :=
  match KubernetesCA_IssueForAPIServer IPAdd n serviceSubnet clusterDomain with
  | Ok r => issueCertificate r
  | Err e => raise e
  end.

Definition prepareEtcdCertificates_Run (nodes : list Node) (files : list fileData) : ctl (list fileData) :=
  files ← AddKeyPair nodes (EtcdPKIPath "server") (fun n => issueCertificate (EtcdCA_IssueServerCert n)) files;
  files ← AddKeyPair nodes (EtcdPKIPath "peer") (fun n => issueCertificate (EtcdCA_IssuePeerCert n)) files;
  peerCA ← store (GetCACertificate CAEtcdPeer);
  files ← AddFile nodes (EtcdPKIPath "ca-peer.crt") (constant peerCA) files;
  clientCA ← store (GetCACertificate CAEtcdClient);
  AddFile nodes (EtcdPKIPath "ca-client.crt") (constant clientCA) files.

Definition getEncryptionConfiguration : ctl (list (ResourceConfiguration AESConfiguration)) :=
  data ← getEncryptionSecret "aescbc";
  match decode_aes data with
  | Err e => raise e
  | Ok aescfg => mret [mkResourceConfiguration ["secrets"] [AESCBC aescfg; Identity]]
  end.
Definition prepareAPIServerFiles_Run (nodes : list Node) (serviceSubnet clusterDomain : string)
    (params : APIServerParams) (files : list fileData) : ctl (list fileData) :=
  files ← AddKeyPair nodes (K8sPKIPath "apiserver") (api_server_pair serviceSubnet clusterDomain) files;
  files ← AddKeyPair nodes (K8sPKIPath "apiserver-etcd-client")
            (fun _ => issueCertificate EtcdCA_IssueForAPIServer) files;
  ca ← store (GetCACertificate CAKubernetes);
  files ← AddFile nodes (K8sPKIPath "ca.crt") (constant ca) files;
  etcdCA ← store (GetCACertificate CAServer);
  files ← AddFile nodes (K8sPKIPath "etcd-ca.crt") (constant etcdCA) files;
  saCert ← store GetServiceAccountCert;
  saKey ← store GetServiceAccountKey;
  files ← AddKeyPair nodes (K8sPKIPath "service-account") (fun _ => mret (saCert, saKey)) files;
  agCert ← store (GetCACertificate CAKubernetesAggregation);
  files ← AddFile nodes (K8sPKIPath "aggregation-ca.crt") (constant agCert) files;
  files ← AddKeyPair nodes (K8sPKIPath "aggregation")
            (fun _ => issueCertificate AggregationCA_IssueClientCertificate) files;
  enccfg ← getEncryptionConfiguration;
  enccfgData ← encoded (encode_encryption enccfg);
  files ← AddFile nodes encryptionConfigFile (constant enccfgData) files;
  if AuditLogEnabled params
  then AddFile nodes (auditPolicyFilePath (AuditLogPolicy params)) (constant (AuditLogPolicy params)) files
  else mret files.

Definition prepareControllerManagerFiles_Run (cluster : string) (nodes : list Node) (files : list fileData)
    : ctl (list fileData) :=
  ca ← store (GetCACertificate CAKubernetes);
  let g n := '(crt, key) ← issueCertificate KubernetesCA_IssueForControllerManager;
             encoded (clientcmd_Write (controllerManagerKubeconfig cluster ca crt key)) in
  files ← AddFile nodes ControllerManagerKubeConfigPath g files;
  saKey ← store GetServiceAccountKey;
  AddFile nodes (K8sPKIPath "service-account.key") (constant saKey) files.

Definition prepareSchedulerFiles_Run (cluster : string) (nodes : list Node) (params : SchedulerParams)
    (files : list fileData) : ctl (list fileData) :=
  ca ← store (GetCACertificate CAKubernetes);
  let g n := '(crt, key) ← issueCertificate KubernetesCA_IssueForScheduler;
             encoded (clientcmd_Write (schedulerKubeconfig cluster ca crt key)) in
  files ← AddFile nodes SchedulerKubeConfigPath g files;
  AddFile nodes SchedulerConfigPath
    (fun _ => cfg ← pure_go (GenerateSchedulerConfiguration params); encoded (encode_scheduler cfg)) files.

Definition prepareProxyFiles_Run (cluster ap : string) (nodes : list Node) (params : ProxyParams)
    (files : list fileData) : ctl (list fileData) :=
  ca ← store (GetCACertificate "kubernetes");
  let g n := '(crt, key) ← issueCertificate KubernetesCA_IssueForProxy;
             encoded (clientcmd_Write (proxyKubeconfig cluster ca crt key ap)) in
  files ← AddFile nodes proxyKubeconfigPath g files;
  AddFile nodes proxyConfigPath
    (fun n => cfg ← pure_go (GenerateProxyConfiguration params n); encoded (encode_proxy cfg)) files.

(** The kubelet keeps some settings of its running configuration. *)
Definition kubelet_config_of (params : KubeletParams) (nodeStatuses : gmap string NodeStatus) (n : Node)
    : ctl string :=
  let running := ns ← nodeStatuses !! node_Address n; kls_Config (ns_Kubelet ns) in
  cfg ← pure_go (GenerateKubeletConfiguration params (node_Address n) running);
  encoded (encode_kubelet cfg).
Definition kubelet_kubeconfig_of (cluster : string) (n : Node) : ctl string :=
  encoded (clientcmd_Write (kubeletKubeconfig cluster n (K8sPKIPath "ca.crt") (K8sPKIPath "kubelet.crt")
                              (K8sPKIPath "kubelet.key"))).
Definition prepareKubeletFiles_Run (cluster : string) (params : KubeletParams)
    (nodeStatuses : gmap string NodeStatus) (nodes : list Node) (files : list fileData) : ctl (list fileData) :=
  let conf := kubelet_CNIConfFile params in
  files ← (if (String.length (cni_Name conf) =? 0)%nat then mret files
           else AddFile nodes (path_Join [cniConfDir; cni_Name conf]) (constant (cni_Content conf)) files);
  files ← AddFile nodes kubeletConfigPath (kubelet_config_of params nodeStatuses) files;
  ca ← store (GetCACertificate CAKubernetes);
  files ← AddFile nodes (K8sPKIPath "ca.crt") (constant ca) files;
  files ← AddKeyPair nodes (K8sPKIPath "kubelet") (fun n => issueCertificate (KubernetesCA_IssueForKubelet n)) files;
  AddFile nodes kubeconfigPath (kubelet_kubeconfig_of cluster) files.
Definition prepareKubeletConfig_Run (cluster : string) (params : KubeletParams)
    (nodeStatuses : gmap string NodeStatus) (nodes : list Node) (files : list fileData) : ctl (list fileData) :=
  files ← AddFile nodes kubeletConfigPath (kubelet_config_of params nodeStatuses) files;
  files ← AddKeyPair nodes (K8sPKIPath "kubelet") (fun n => issueCertificate (KubernetesCA_IssueForKubelet n)) files;
  AddFile nodes kubeconfigPath (kubelet_kubeconfig_of cluster) files.

(** The commands that collect files. *)
Definition Prepare (c : Commander) (files : list fileData) : ctl (list fileData) :=
  match c with
  | prepareEtcdCertificatesCommand nodes => prepareEtcdCertificates_Run nodes files
  | prepareAPIServerFilesCommand nodes serviceSubnet clusterDomain params =>
      prepareAPIServerFiles_Run nodes serviceSubnet clusterDomain params files
  | prepareControllerManagerFilesCommand cluster nodes => prepareControllerManagerFiles_Run cluster nodes files
  | prepareSchedulerFilesCommand cluster nodes params => prepareSchedulerFiles_Run cluster nodes params files
  | prepareProxyFilesCommand cluster ap nodes params => prepareProxyFiles_Run cluster ap nodes params files
  | prepareKubeletFilesCommand cluster params nodeStatuses nodes =>
      prepareKubeletFiles_Run cluster params nodeStatuses nodes files
  | prepareKubeletConfigCommand cluster params nodeStatuses nodes =>
      prepareKubeletConfig_Run cluster params nodeStatuses nodes files
  | _ => mret files
  end.
End files.
