(* ===== verification/VaultCli.v ===== *)
(** * Setting up Vault (vault.go, pkg/ckecli/cmd/vault_*.go, server/tidy_certs.go)

    The commands of ckecli that prepare Vault and store keys in it, logging in to it, and the
    removal of expired certificates by the server.  What the commands print is left out. *)

From Stdlib Require Import ZArith Ascii String Lia.
From stdpp Require Import base gmap strings list.
From S2P Require Import Prelude GoLib GoFormat GoPath GoTime K8s Cluster Queue Resource Status Storage Reboot.
From S2P Require Import Operators Engine Strategy Survey Pki Files.

(** ** base64.StdEncoding *)
Definition base64_alphabet : string := "ABCDEFGHIJKLMNOPQRSTUVWXYZabcdefghijklmnopqrstuvwxyz0123456789+/".
Definition base64_char (n : Z) : string := String.substring (Z.to_nat (Z.land n 63)) 1 base64_alphabet.
Fixpoint EncodeToString (src : list Z) : string :=
  match src with
  | a :: b :: c :: rest =>
      let val := Z.lor (Z.lor (Z.shiftl a 16) (Z.shiftl b 8)) c in
      base64_char (Z.shiftr val 18) +:+ base64_char (Z.shiftr val 12)
        +:+ base64_char (Z.shiftr val 6) +:+ base64_char val +:+ EncodeToString rest
  | [a; b] =>
      let val := Z.lor (Z.shiftl a 16) (Z.shiftl b 8) in
      base64_char (Z.shiftr val 18) +:+ base64_char (Z.shiftr val 12) +:+ base64_char (Z.shiftr val 6) +:+ "="
  | [a] =>
      let val := Z.shiftl a 16 in base64_char (Z.shiftr val 18) +:+ base64_char (Z.shiftr val 12) +:+ "=="
  | [] => ""
  end.
Example encode_man : EncodeToString [77; 97; 110] = "TWFu".
Proof. reflexivity. Qed.
Example encode_pad : (EncodeToString [255; 254], EncodeToString [0]) = ("//4=", "AA==").
Proof. reflexivity. Qed.

(** A key of the API servers (k8s.io/apiserver) *)
Record Key := mkKey { key_Name : string; key_Secret : string }.

(** ** Authorities (vault_init.go, pki.go) *)
Record caParams := mkCaParams { ca_commonName : string; ca_key : string }.
Definition cas : list caParams :=
  [mkCaParams "server CA" CAServer; mkCaParams "etcd peer CA" CAEtcdPeer;
   mkCaParams "etcd client CA" CAEtcdClient; mkCaParams "kubernetes CA" CAKubernetes;
   mkCaParams "kubernetes aggregation CA" CAKubernetesAggregation;
   mkCaParams "kubernetes webhook CA" CAWebhook].
Definition CAKeys : list string :=
  [CAServer; CAEtcdPeer; CAEtcdClient; CAKubernetes; CAKubernetesAggregation; CAWebhook].
Definition ttl100Year : string := "876000h".
Definition ttl10Year : string := "87600h".
Definition CKESecret : string := "cke/secrets".
Definition newline_char : ascii := ascii_of_nat 10.
Definition ckePolicy : string :=
  let nl := String newline_char EmptyString in
  let q := String (ascii_of_nat 34) EmptyString in
  nl +:+ "path " +:+ q +:+ "cke/*" +:+ q +:+ nl +:+ "{" +:+ nl +:+ "  capabilities = ["
    +:+ Join ((fun c => q +:+ c +:+ q) <$> ["create"; "read"; "update"; "delete"; "list"; "sudo"]) ", "
    +:+ "]" +:+ nl +:+ "}".
(** The message Vault answers to a request to tidy. *)
Definition tidy_started : string :=
  "Tidy operation successfully started. Any information from the operation will be printed to Vault's server logs.".

Section vault_cli.
  Context {T : K8sTypes} {K : K8s} `{Runtime} `{!Etcd} `{!Platform} `{!Network} `{Docker} `{!Vault} `{!Encoders}.

(** Clients of Vault with their tokens, and the terminal.  [configured_client] makes a client from
    the environment with an address and the file of a CA, if they are not empty. *)
Class VaultAdmin := {
  Client : Type;
  configured_client : string -> string -> platform -> platform * result Client;
  client_Token : Client -> string;
  ReadString_newline : platform -> platform * result string;
  are_terminals : platform -> platform * bool;
  ReadPassword : platform -> platform * result string;
  userpass_login : Client -> string -> string -> platform -> platform * result (option string);
  os_ReadFile : string -> platform -> platform * result string;
  client_Address : Client -> string;
  AppendCertsFromPEM : string -> bool;
  NewClient : VaultConfig -> result Client;
  SetToken : string -> Client -> Client;
  approle_login : Client -> string -> string -> platform -> platform * result (option string);
  ListMounts : Client -> platform -> platform * result (gset string);
  mount_engine : Client -> string -> string -> options -> platform -> platform * result unit;
  PutPolicy : Client -> string -> string -> platform -> platform * result unit;
  logical_Read : Client -> string -> platform -> platform * result (option secret_data);
  logical_Write : Client -> string -> secret_data -> platform -> platform * result (option secret_data);
  (** the warnings of the answer, if there is one *)
  write_tidy : Client -> string -> options -> platform -> platform * result (option (list string))
}.
(** The keys in a configuration, JSON, and random numbers. *)
Class KeyRing := {
  aes_Keys : AESConfiguration -> list Key;
  with_Keys : list Key -> AESConfiguration -> AESConfiguration;
  zero_aes : AESConfiguration;
  encode_aes : AESConfiguration -> result string;
  random_bytes : nat -> platform -> platform * result (list Z)
}.
Context `{!VaultAdmin} `{!KeyRing}.

Definition strings_data (l : list (string * string)) : secret_data := SString <$> (list_to_map l : gmap string string).

(** ** Logging in (vault.go) *)
Definition VaultClient (cfg : VaultConfig) : ctl Client :=
  if negb (vc_CACert cfg =? "")%string && negb (AppendCertsFromPEM (vc_CACert cfg))
  then raise (ErrUnexpected "invalid CA cert")
  else
    match NewClient cfg with
    | Err e => raise e
    | Ok client =>
        secret ← ask_vault (approle_login client (vc_RoleID cfg) (vc_SecretID cfg));
        match secret with
        | None => raise (ErrUnexpected "failed to get secret")
        | Some token => mret (SetToken token client)
        end
    end.

(** [cliInfrastructure.Vault], in a process that runs one command. *)
Definition inf_Vault : ctl Client := cfg ← store GetVaultConfig; VaultClient cfg.
(** An administrator logs in with a token of the environment, or with a name and a password. *)
Definition readPasswordFromStdTerminal : ctl string :=
  ok ← net are_terminals;
  if (ok : bool) then ask_vault ReadPassword else raise (ErrUnexpected "stdin and stdout are not terminals").
Definition connectVault (endpoint caCertFile : string) : ctl Client :=
  vc ← ask_vault (configured_client endpoint caCertFile);
  if negb (client_Token vc =? "")%string then mret vc
  else
    line ← ask_vault ReadString_newline;
    let username := String.substring 0 (String.length line - 1) line in
    password ← readPasswordFromStdTerminal;
    secret ← ask_vault (userpass_login vc ("/auth/userpass/login/" +:+ username) password);
    match secret with
    | None => crash nil_dereference
    | Some token => mret (SetToken token vc)
    end.

(** ** Keys for Secrets (vault_enckey.go) *)
Definition generateKey : ctl (list Z) := ask_vault (random_bytes 32).
Definition rotateK8sEncryptionKey (vc : Client) : ctl unit :=
  secret ← ask_vault (logical_Read vc K8sSecret);
  let enckeys := default ∅ secret in
  cfg ← (match enckeys !! "aescbc" with
         | None => mret zero_aes
         | Some (SString data) => match decode_aes data with Ok cfg => mret cfg | Err e => raise e end
         | Some _ => crash "interface conversion: interface {} is not string"
         end);
  newKey ← generateKey;
  now ← net now_at;
  let new := mkKey (FormatRFC3339 (mkTime now 0)) (EncodeToString newKey) in
  let keys := match aes_Keys cfg with current :: _ => [new; current] | [] => [new] end in
  cfgData ← encoded (encode_aes (with_Keys keys cfg));
  _ ← ask_vault (logical_Write vc K8sSecret (<[ "aescbc" := SString cfgData ]> enckeys)); mret tt.
Definition vaultEncKey : ctl unit := vc ← inf_Vault; rotateK8sEncryptionKey vc.

(** ** Keys for the nodes (vault_ssh_privkey.go) *)
Definition vaultSSHPrivKey (host data : string) : ctl unit :=
  vc ← inf_Vault;
  secret ← ask_vault (logical_Read vc SSHSecret);
  let privkeys := default ∅ secret in
  _ ← ask_vault (logical_Write vc SSHSecret (<[ host := SString data ]> privkeys)); mret tt.

(** ** Preparing Vault (vault_init.go) *)
Definition is_mounted (path : string) (mounts : gset string) : bool :=
  bool_decide (path ∈ mounts) || bool_decide (path +:+ "/" ∈ mounts).
Definition createPKI (vc : Client) (ca : caParams) : ctl unit :=
  mounts ← ask_vault (ListMounts vc);
  let pkiKey := VaultPKIKey (ca_key ca) in
  if is_mounted pkiKey mounts then mret tt
  else ask_vault (mount_engine vc pkiKey "pki"
                    (opts [("max_lease_ttl", ttl100Year); ("default_lease_ttl", ttl10Year)])).
Definition createKV (vc : Client) : ctl unit :=
  mounts ← ask_vault (ListMounts vc);
  if is_mounted CKESecret mounts then mret tt
  else ask_vault (mount_engine vc CKESecret "kv" (opts [("version", "1")])).
Definition createRootCA (vc : Client) (ca : caParams) : ctl unit :=
  cert ← caught (store (GetCACertificate (ca_key ca)));
  match cert with
  | Ok _ => mret tt
  | Err ErrNotFound =>
      let pkiKey := VaultPKIKey (ca_key ca) in
      secret ← ask_vault (logical_Write vc (path_Join [pkiKey; "/root/generate/internal"])
        (strings_data [("common_name", ca_commonName ca); ("ttl", ttl100Year); ("format", "pem")]));
      match secret with
      | None => crash nil_dereference
      | Some data =>
          match data !! "certificate" with
          | None => raise (ErrUnexpected "failed to issue ca")
          | Some _ => pem ← string_in secret "certificate"; store (PutCACertificate (ca_key ca) pem)
          end
      end
  | Err e => raise e
  end.
Fixpoint for_cas (f : caParams -> ctl unit) (l : list caParams) : ctl unit :=
  match l with [] => mret tt | ca :: rest => _ ← f ca; for_cas f rest end.

(** The configuration of Vault that is stored, or a new one for a new role; [caCertFile] is the
    value of --cacert. *)
Definition vault_config (vc : Client) (caCertFile : string) : ctl VaultConfig :=
  cfg ← caught (store GetVaultConfig);
  match cfg with
  | Ok cfg => mret cfg
  | Err ErrNotFound =>
      _ ← ask_vault (logical_Write vc "auth/approle/role/cke"
            (strings_data [("policies", "cke"); ("period", "1h")]));
      secret ← ask_vault (logical_Read vc "auth/approle/role/cke/role-id");
      roleID ← string_in secret "role_id";
      secret ← ask_vault (logical_Write vc "auth/approle/role/cke/secret-id" ∅);
      secretID ← string_in secret "secret_id";
      pem ← (if (caCertFile =? "")%string then mret "" else ask_vault (os_ReadFile caCertFile));
      let cfg := mkVaultConfig (client_Address vc) pem roleID secretID in
      _ ← store (PutVaultConfig cfg); mret cfg
  | Err e => raise e
  end.
Definition initVault (endpoint caCertFile : string) : ctl unit :=
  vc ← connectVault endpoint caCertFile;
  _ ← for_cas (createPKI vc) cas;
  _ ← createKV vc;
  _ ← ask_vault (PutPolicy vc "cke" ckePolicy);
  cfg ← vault_config vc caCertFile;
  vc2 ← VaultClient cfg;
  _ ← for_cas (createRootCA vc2) cas;
  secret ← ask_vault (logical_Read vc2 K8sSecret);
  match secret with Some _ => mret tt | None => rotateK8sEncryptionKey vc2 end.

(** ** Expired certificates (tidy_certs.go, control.go) *)
Definition TidyExpiredCertificates (client : Client) (ca : string) : ctl unit :=
  let tidyParams := opts [("tidy_cert_store", "true"); ("tidy_revocation_list", "true"); ("safety_buffer", "1m0s")] in
  res ← ask_vault (write_tidy client (path_Join [ca; "tidy"]) tidyParams);
  match res with
  | None => crash nil_dereference
  | Some [] => raise (ErrUnexpected "may be failed to tidy certs, since an empty message is returned")
  | Some (warning :: rest) =>
      if negb (warning =? tidy_started)%string
      then raise (ErrUnexpected ("failed to tidy certs: " +:+ Join (warning :: rest) ", "))
      else mret tt
  end.
Fixpoint tidy_all (client : Client) (keys : list string) : ctl unit :=
  match keys with
  | [] => mret tt
  | ca :: rest => _ ← caught (TidyExpiredCertificates client (VaultPKIKey ca)); tidy_all client rest
  end.
Definition runTidyExpiredCertificates : ctl unit :=
  cfg ← caught (store GetVaultConfig);
  match cfg with
  | Err _ => mret tt
  | Ok cfg => client ← VaultClient cfg; tidy_all client CAKeys
  end.
End vault_cli.
