(* ===== verification/Commands.v ===== *)
(** * What commands do

    The commands of the operators that work on the etcd of the cluster and on the
    objects of the API server (op/etcd, op/kube_*.go, op/clusterdns, op/nodedns,
    op/resource.go, op/k8s/kubelet_boot.go), next to those on containers (Engine) and
    on the queues (Reboot), and how they describe themselves in the records of
    operations.  Those that collect and write files are in Files. *)

From Stdlib Require Import ZArith Ascii String Lia.
From stdpp Require Import base gmap strings list sorting.
From S2P Require Import Prelude GoLib GoFormat K8s Cluster Queue Resource Status Storage Reboot.
From S2P Require Import Dns Params Operators Engine Strategy Survey Pki Files.

(** ** Requests that change the cluster *)
Inductive KubeRequest {T : K8sTypes} : Type :=
| CreateEndpoints (ep : Endpoints)
| UpdateEndpoints (ep : Endpoints)
| CreateEndpointSlice (eps : EndpointSlice)
| UpdateEndpointSlice (eps : EndpointSlice)
| CreateService (namespace name : string) (svc : Service)
| UpdateService (namespace name : string) (svc : Service)
| CreateConfigMap (namespace : string) (cm : ConfigMap)
| UpdateConfigMap (namespace : string) (cm : ConfigMap)
| UpdateNode (n : KubeNode)
| PatchUnschedulable (name : string)
| DeleteNode (name : string)
| PatchObject (mapping : RESTMapping) (namespace : option string) (object : Object) (force : bool).
Inductive kube_answer : Type := Accepted | NotFound | Conflict | Refused.

Inductive EtcdRequest : Type :=
| MemberRemove (id : Z)
| UserAdd (name password : string)
| RoleAdd (name : string)
| RoleGrantPermission (name prefix : string)
| UserGrantRole (user role : string)
| AuthEnable.

(** A webhook: [ClientConfig.CABundle] and the rest. *)
Record Webhook (A : Type) := mkWebhook { wh_CABundle : string; wh_rest : A }.
Arguments mkWebhook {A} _ _.
Arguments wh_CABundle {A} _.
Arguments wh_rest {A} _.

Section commands.
  Context {T : K8sTypes} {K : K8s} `{Runtime} `{!Etcd} `{!Platform} `{!Network} `{Docker} `{!Vault}.

Class Executor := {
  kube_request : KubeRequest -> platform -> platform * kube_answer;
  get_node : string -> platform -> platform * answer KubeNode;
  etcd_request : list string -> EtcdRequest -> platform -> platform * bool;
  member_add : list string -> list string -> platform -> platform * option (list Member);
  endpoint_status : list string -> string -> platform -> platform * bool;
  (** 32 random bytes, in hexadecimal *)
  random_password : platform -> platform * option string;
  (** [ctx.Done()] is closed *)
  ctx_done : platform -> platform * bool;

  (** [runtime.DefaultUnstructuredConverter]: the webhooks of a configuration and the data
      of a Secret, and the fields of the content they are converted back to *)
  WebhookFields : Type;
  Field : Type;
  webhooks_from : GroupVersionKind -> Unstructured -> result (list (Webhook WebhookFields));
  webhooks_to : GroupVersionKind -> list (Webhook WebhookFields) -> result Field;
  secret_from : Unstructured -> result (gmap string string);
  secret_to : gmap string string -> result Field;
  text_field : string -> Field;
  set_field : string -> Field -> Unstructured -> Unstructured
}.
Context `{!Executor} `{!Tools} `{!Encoders} (IPAdd : list Z -> Z -> list Z) (cas : nat).

Definition require (ok : bool) (what : string) : ctl unit :=
  if ok then mret tt else raise (ErrUnexpected what).
Fixpoint each {A} (f : A -> ctl unit) (l : list A) : ctl unit :=
  match l with [] => mret tt | x :: rest => _ ← f x; each f rest end.

(** ** The API server *)
Definition kube (r : KubeRequest) : ctl unit :=
  a ← net (kube_request r);
  require (match a with Accepted => true | _ => false end) "request to the API server failed".

Definition etcd_service : Service := mkService [2379] "ClusterIP" "None".

Definition createEndpoints_Run (ep : Endpoints) : ctl unit := _ ← k8s_client; kube (CreateEndpoints ep).
Definition updateEndpoints_Run (ep : Endpoints) : ctl unit := _ ← k8s_client; kube (UpdateEndpoints ep).
Definition createEndpointSlice_Run (eps : EndpointSlice) : ctl unit :=
  _ ← k8s_client; kube (CreateEndpointSlice eps).
Definition updateEndpointSlice_Run (eps : EndpointSlice) : ctl unit :=
  _ ← k8s_client; kube (UpdateEndpointSlice eps).
Definition createEtcdService_Run : ctl unit :=
  _ ← k8s_client; kube (CreateService "kube-system" EtcdServiceName etcd_service).
Definition updateEtcdService_Run : ctl unit :=
  _ ← k8s_client; kube (UpdateService "kube-system" EtcdServiceName etcd_service).
Definition nodeUpdate_Run (nodes : list KubeNode) : ctl unit :=
  _ ← k8s_client; each (fun n => kube (UpdateNode n)) nodes.
Definition remove_node (n : KubeNode) : ctl unit :=
  if kn_Deleted n then mret tt
  else
    _ ← (if kn_Unschedulable n then mret tt else kube (PatchUnschedulable (kn_Name n)));
    kube (DeleteNode (kn_Name n)).
Definition nodeRemove_Run (nodes : list KubeNode) : ctl unit := _ ← k8s_client; each remove_node nodes.

(** A ConfigMap is created if there is none. *)
Definition create_config_map (name : string) (cm : ConfigMap) : ctl unit :=
  _ ← k8s_client;
  found ← optional (get_config_map "kube-system" name);
  match found with Some _ => mret tt | None => kube (CreateConfigMap "kube-system" cm) end.
Definition createClusterDNS_Run (domain : string) (dnsServers : list string) : ctl unit :=
  create_config_map ClusterDNSAppName (clusterdns_ConfigMap domain dnsServers).
Definition createNodeDNS_Run (clusterIP domain : string) (dnsServers : list string) : ctl unit :=
  create_config_map NodeDNSAppName (nodedns_ConfigMap clusterIP domain dnsServers true).
Definition updateConfigMap_Run (cm : ConfigMap) : ctl unit :=
  _ ← k8s_client; kube (UpdateConfigMap "kube-system" cm).

(** The loop of [waitKubeCommand]; a time-out is not an error. *)
Fixpoint wait_account (rounds : nat) : ctl unit :=
  match rounds with
  | O => mret tt
  | S n =>
      account ← optional (get_service_account "kube-system" "default");
      match account with Some _ => mret tt | None => wait_account n end
  end.
Definition waitKube_Run : ctl unit := _ ← k8s_client; wait_account 100.

(** ** kubelet (op/k8s/kubelet_boot.go) *)

(** [MatchTaint] *)
Definition MatchTaint (a b : Taint) : bool :=
  (taint_Key a =? taint_Key b)%string && (taint_Effect a =? taint_Effect b)%string.
(** One round of the loop: the taints, and whether they changed. *)
Fixpoint retaint (bootTaint : Taint) (taints : list Taint) : list Taint * bool :=
  match taints with
  | [] => ([bootTaint], true)
  | t :: rest =>
      if MatchTaint t bootTaint then
        if (taint_Value t =? taint_Value bootTaint)%string then (taints, false)
        else (mkTaint (taint_Key t) (taint_Value bootTaint) (taint_Effect t) :: rest, true)
      else let '(rest', changed) := retaint bootTaint rest in (t :: rest', changed)
  end.
Definition retaint_all (bootTaints taints : list Taint) : list Taint * bool :=
  foldl (fun '(ts, changed) b => let '(ts', c) := retaint b ts in (ts', changed || c)) (taints, false)
    bootTaints.
Definition with_taints (n : KubeNode) (taints : list Taint) : KubeNode :=
  mkKubeNode (kn_Name n) (kn_Labels n) (kn_Annotations n) taints (kn_Unschedulable n)
    (kn_Conditions n) (kn_Deleted n).

(** [retry.RetryOnConflict]: [steps] attempts in all. *)
Fixpoint retaint_node (steps : nat) (bootTaints : list Taint) (name : string) : ctl unit :=
  match steps with
  | O => raise (ErrUnexpected "failed to update a node")
  | S n =>
      r ← net (get_node name);
      match r with
      | Found node =>
          let '(taints, needUpdate) := retaint_all bootTaints (kn_Taints node) in
          if negb needUpdate then mret tt
          else
            a ← net (kube_request (UpdateNode (with_taints node taints)));
            match a with
            | Accepted => mret tt
            | Conflict => retaint_node n bootTaints name
            | _ => raise (ErrUnexpected "failed to update a node")
            end
      | _ => raise (ErrUnexpected "failed to get a node")
      end
  end.
(** [retry.DefaultRetry] *)
Definition DefaultRetry_Steps : nat := 5.
Definition retaintBeforeKubeletBoot_Run (nodes : list Node) (bootTaints : list Taint) : ctl unit :=
  _ ← k8s_client; each (fun n => retaint_node DefaultRetry_Steps bootTaints (Nodename n)) nodes.

(** Nine attempts, and a last one whose error is returned; waiting is interrupted when
    the context is done. *)
Fixpoint with_retries (rounds : nat) (try : ctl unit) : ctl unit :=
  match rounds with
  | O => try
  | S n =>
      r ← caught try;
      match r with
      | Ok _ => mret tt
      | Err _ =>
          done ← net ctx_done;
          if (done : bool) then raise (ErrUnexpected "context canceled") else with_retries n try
      end
  end.
Definition kubelets_ready (nodes : list Node) : ctl unit :=
  each (fun node => isReady ← CheckHealthz (node_Address node) 10248;
                    require isReady ("node is not ready: " +:+ node_Address node)) nodes.
Definition waitForKubeletReady_Run (nodes : list Node) : ctl unit := with_retries 9 (kubelets_ready nodes).

(** ** etcd (op/etcd) *)
Definition new_etcd_client (endpoints : list string) : ctl unit :=
  ok ← net (etcd_client endpoints); require ok "failed to create an etcd client".
Definition etcd_do (endpoints : list string) (r : EtcdRequest) : ctl unit :=
  ok ← net (etcd_request endpoints r); require ok "request to etcd failed".

(** How many of the endpoints answer. *)
Fixpoint healthy_members (endpoints eps : list string) (healthyMemberCount : Z) : ctl Z :=
  match eps with
  | [] => mret healthyMemberCount
  | ep :: rest =>
      ok ← net (endpoint_status endpoints ep);
      healthy_members endpoints rest (if (ok : bool) then healthyMemberCount + 1 else healthyMemberCount)
  end.
Definition etcd_in_sync (endpoints : list string) (checkRedundancy : bool) : ctl unit :=
  _ ← new_etcd_client endpoints;
  '(id, _) ← needed (lease_grant endpoints);
  if id =? NoLease then raise (ErrUnexpected "no lease")
  else if negb checkRedundancy then mret tt
  else
    healthyMemberCount ← healthy_members endpoints endpoints 0;
    require (negb (healthyMemberCount <=? (len endpoints + 1) / 2)) "etcd cluster is not redundant enough".
Definition waitEtcdSync_Run (endpoints : list string) (checkRedundancy : bool) : ctl unit :=
  with_retries 9 (etcd_in_sync endpoints checkRedundancy).

Definition removeMember_Run (endpoints : list string) (ids : list Z) : ctl unit :=
  _ ← new_etcd_client endpoints; each (fun id => etcd_do endpoints (MemberRemove id)) ids.

Fixpoint addressInURLs (address : string) (urls : list string) : result bool :=
  match urls with
  | [] => Ok false
  | u :: rest =>
      match url_host u with
      | Err e => Err e
      | Ok h => if (h =? address)%string then Ok true else addressInURLs address rest
      end
  end.
Fixpoint in_members (address : string) (members : list Member) : result bool :=
  match members with
  | [] => Ok false
  | m :: rest =>
      match addressInURLs address (mem_PeerURLs m) with
      | Err e => Err e
      | Ok true => Ok true
      | Ok false => in_members address rest
      end
  end.
(** Adding a member waits for some seconds first. *)
Definition ensure_member (endpoints : list string) (node : Node) : ctl (list Member) :=
  _ ← new_etcd_client endpoints;
  members ← needed (member_list endpoints);
  match in_members (node_Address node) members with
  | Err e => raise e
  | Ok true => mret members
  | Ok false =>
      done ← net ctx_done;
      if (done : bool) then raise (ErrUnexpected "context canceled")
      else needed (member_add endpoints ["https://" +:+ node_Address node +:+ ":2380"])
  end.
Definition addMember_Run (endpoints : list string) (node : Node) (opts : list string)
    (extra : ServiceParams) : ctl unit :=
  members ← ensure_member endpoints node;
  engine (node_Address node) (addMember (Ok members) node opts extra).

(** etcd_util.go *)
Definition AddUserRole (endpoints : list string) (name prefix : string) : ctl unit :=
  password ← needed random_password;
  _ ← etcd_do endpoints (UserAdd name password);
  if (prefix =? "")%string then mret tt
  else
    _ ← etcd_do endpoints (RoleAdd name);
    _ ← etcd_do endpoints (RoleGrantPermission name prefix);
    etcd_do endpoints (UserGrantRole name name).
Definition setupEtcdAuth_Run (endpoints : list string) : ctl unit :=
  _ ← new_etcd_client endpoints;
  _ ← AddUserRole endpoints "root" "";
  _ ← etcd_do endpoints (UserGrantRole "root" "root");
  _ ← AddUserRole endpoints "kube-apiserver" "/registry/";
  _ ← etcd_do endpoints (UserGrantRole "kube-apiserver" "root");
  etcd_do endpoints AuthEnable.

(** ** Resources (resource.go, op/resource.go) *)
Definition AnnotationResourceInjectCA : string := "cke.cybozu.com/inject-cacert".
Definition AnnotationResourceIssueCert : string := "cke.cybozu.com/issue-cert".
Definition KindMutatingWebhookConfiguration : string := "MutatingWebhookConfiguration".
Definition KindSecret : string := "Secret".
Definition KindValidatingWebhookConfiguration : string := "ValidatingWebhookConfiguration".

Definition with_content (o : Object) (content : Unstructured) : Object :=
  mkObject (ob_GVK o) (ob_Namespace o) (ob_Name o) (ob_Annotations o) content.
Definition annotate (o : Object) (key v : string) : Object :=
  mkObject (ob_GVK o) (ob_Namespace o) (ob_Name o) (<[ key := v ]> (ob_Annotations o)) (ob_Content o).

Definition is_webhook (kind : string) : bool :=
  (kind =? KindValidatingWebhookConfiguration)%string || (kind =? KindMutatingWebhookConfiguration)%string.
Definition converted {A} (r : result A) : ctl A := match r with Ok a => mret a | Err e => raise e end.
Definition injectCA (o : Object) : ctl Object :=
  cacert ← store (GetCACertificate CAWebhook);
  let gvk := ob_GVK o in
  if ((gvk_Version gvk =? "v1")%string || (gvk_Version gvk =? "v1beta1")%string) && is_webhook (gvk_Kind gvk)
  then
    webhooks ← converted (webhooks_from gvk (ob_Content o));
    field ← converted (webhooks_to gvk ((fun w => mkWebhook cacert (wh_rest w)) <$> webhooks));
    mret (with_content o (set_field "webhooks" field (ob_Content o)))
  else crash (gvk_String gvk).
Definition TLSCertKey : string := "tls.crt".
Definition TLSPrivateKeyKey : string := "tls.key".
Definition SecretTypeTLS : string := "kubernetes.io/tls".
Definition issueCert (o : Object) (svcName : string) : ctl Object :=
  data ← converted (secret_from (ob_Content o));
  '(cert, key) ← issueCertificate (WebhookCA_IssueCertificate (ob_Namespace o) svcName);
  field ← converted (secret_to (<[ TLSPrivateKeyKey := key ]> (<[ TLSCertKey := cert ]> data)));
  mret (with_content o (set_field "type" (text_field SecretTypeTLS) (set_field "data" field (ob_Content o)))).

(** The answer to the patch; [true] when it was accepted, [false] when the server does
    not know the kind of the resource. *)
Definition ApplyResource (data : string) (rev : Z) (trustedMappings : list TrustedRESTMapping)
    (forceConflicts : bool) : ctl bool :=
  match decode_object data with
  | None => raise (ErrUnexpected "failed to decode data into *Unstructured")
  | Some obj =>
      let obj := annotate obj AnnotationResourceRevision (FormatInt rev) in
      let ann := ob_Annotations obj in
      let gvk := ob_GVK obj in
      found ← net (rest_mapping gvk);
      match RESTMappingWithFallback (fun _ => found) gvk trustedMappings with
      | Err _ => raise (ErrUnexpected ("failed to find REST mapping for " +:+ gvk_String gvk))
      | Ok mapping =>
          obj ← (if is_webhook (gvk_Kind gvk)
                    && (default "" (ann !! AnnotationResourceInjectCA) =? "true")%string
                 then injectCA obj else mret obj);
          let svc := default "" (ann !! AnnotationResourceIssueCert) in
          obj ← (if (gvk_Kind gvk =? KindSecret)%string && negb (svc =? "")%string
                 then issueCert obj svc else mret obj);
          a ← net (kube_request (PatchObject mapping
                     (if rm_Namespaced mapping then Some (ob_Namespace obj) else None) obj forceConflicts));
          match a with
          | Accepted => mret true
          | NotFound => mret false
          | _ => raise (ErrUnexpected "failed to apply a resource")
          end
      end
  end.
(** The command always forces conflicts. *)
Definition applyResource_Run (resource : ResourceDefinition) (trustedMappings : list TrustedRESTMapping)
    : ctl unit :=
  ok ← net dynamic_client;
  _ ← require ok "failed to create a client";
  _ ← ApplyResource (rd_Definition resource) (rd_Revision resource) trustedMappings true; mret tt.

(** ** All commands *)

(** The nodes notified as failed are the result of some commands of the reboot queue. *)
Definition no_failures (m : ctl unit) : ctl (list string) := _ ← m; mret [].

(** [files] are those the operator has collected so far. *)
Definition run_command (c : Commander) (leaderKey : string) (files : list fileData) : ctl (list string) :=
  match c with
  | ImagePullCommand nodes img => no_failures (on_each_node nodes (fun _ => imagePull img))
  | RunContainerCommand nodes name img opts ps extra restart =>
      no_failures (on_each_node nodes (fun n => runContainer (node_Address n) name img opts ps extra restart))
  | StopContainersCommand nodes name => no_failures (on_each_node nodes (fun _ => stopContainer name))
  | KillContainersCommand nodes name => no_failures (on_each_node nodes (fun _ => killContainer name))
  | VolumeCreateCommand nodes v => no_failures (on_each_node nodes (fun _ => VolumeCreate v))
  | VolumeRemoveCommand nodes v => no_failures (on_each_node nodes (fun _ => volumeRemove v))
  | upgradeToVersion2Command nodes =>
      no_failures (_ ← on_each_node nodes (fun _ => upgradeVolume); store (PutConfigVersion leaderKey))
  | waitEtcdSyncCommand endpoints checkRedundancy => no_failures (waitEtcdSync_Run endpoints checkRedundancy)
  | setupEtcdAuthCommand endpoints => no_failures (setupEtcdAuth_Run endpoints)
  | addMemberCommand endpoints node opts extra => no_failures (addMember_Run endpoints node opts extra)
  | removeMemberCommand endpoints ids => no_failures (removeMember_Run endpoints ids)
  | retaintBeforeKubeletBootCommand nodes _ params =>
      no_failures (retaintBeforeKubeletBoot_Run nodes (BootTaints params))
  | waitForKubeletReadyCommand nodes => no_failures (waitForKubeletReady_Run nodes)
  | waitKubeCommand _ => no_failures waitKube_Run
  | createEndpointsCommand _ ep => no_failures (createEndpoints_Run ep)
  | updateEndpointsCommand _ ep => no_failures (updateEndpoints_Run ep)
  | createEndpointSliceCommand _ eps => no_failures (createEndpointSlice_Run eps)
  | updateEndpointSliceCommand _ eps => no_failures (updateEndpointSlice_Run eps)
  | createEtcdServiceCommand _ => no_failures createEtcdService_Run
  | updateEtcdServiceCommand _ => no_failures updateEtcdService_Run
  | nodeUpdateCommand _ nodes => no_failures (nodeUpdate_Run nodes)
  | nodeRemoveCommand _ nodes => no_failures (nodeRemove_Run nodes)
  | applyResourceCommand _ resource trustedMappings _ => no_failures (applyResource_Run resource trustedMappings)
  | createClusterDNSConfigMapCommand _ domain dnsServers => no_failures (createClusterDNS_Run domain dnsServers)
  | createNodeDNSConfigMapCommand _ clusterIP domain dnsServers =>
      no_failures (createNodeDNS_Run clusterIP domain dnsServers)
  | updateClusterDNSConfigMapCommand _ cm | updateNodeDNSConfigMapCommand _ cm =>
      no_failures (updateConfigMap_Run cm)
  | rebootDrainStartCommand entries protectedNamespaces protectedJobPods _ evictAttempts _ =>
      on_sys (rebootDrainStart_Run cas entries protectedNamespaces protectedJobPods evictAttempts)
  | rebootDeleteDaemonSetPodCommand entries _ => on_sys (rebootDeleteDaemonSetPod_Run entries)
  | rebootRebootCommand entries command timeoutSeconds retries _ =>
      on_sys (rebootReboot_Run cas command timeoutSeconds retries entries)
  | rebootDrainTimeoutCommand entries => no_failures (on_sys (rebootDrainTimeout_Run cas entries))
  | rebootUncordonCommand _ nodeNames => no_failures (on_sys (rebootUncordon_Run nodeNames))
  | rebootDequeueCommand entries => no_failures (on_sys (rebootDequeue_Run leaderKey entries))
  | repairDequeueCommand entry => no_failures (on_sys (repairDequeue_Run leaderKey entry))
  | repairDrainStartCommand entry protectedNamespaces protectedJobPods _ evictAttempts _ =>
      no_failures (on_sys (repairDrainStart_Run cas entry protectedNamespaces protectedJobPods evictAttempts))
  | repairDrainTimeoutCommand entry => no_failures (on_sys (repairDrainTimeout_Run cas entry))
  | repairExecuteCommand entry command timeoutSeconds retries _ cluster =>
      no_failures (on_sys (repairExecute_Run cas entry command timeoutSeconds retries cluster))
  | repairFinishCommand entry succeeded cluster => no_failures (on_sys (repairFinish cas entry succeeded cluster))
  | MakeDirsCommand nodes dirs mode => no_failures (makeDirs_Run nodes dirs mode)
  | emptyDirCommand nodes dir => no_failures (emptyDir_Run nodes dir)
  | installCNICommand nodes => no_failures (installCNI_Run nodes)
  | FilesBuilder nodes => no_failures (FilesBuilder_Run nodes files)
  | prepareEtcdCertificatesCommand _ | prepareAPIServerFilesCommand _ _ _ _
  | prepareControllerManagerFilesCommand _ _ | prepareSchedulerFilesCommand _ _ _
  | prepareProxyFilesCommand _ _ _ _ | prepareKubeletFilesCommand _ _ _ _
  | prepareKubeletConfigCommand _ _ _ _ => mret []
  end.
(** [Run] of a command: the nodes that failed, and the files the operator has then. *)
Definition Run (c : Commander) (leaderKey : string) (files : list fileData)
    : ctl (list string * list fileData) :=
  files' ← Prepare IPAdd c files; failed ← run_command c leaderKey files; mret (failed, files').
End commands.

(** ** Descriptions *)
Section descriptions.
  Context {T : K8sTypes}.

Definition Name (o : Operator) : string :=
  match o with
  | UpgradeOp _ _ => "upgrade"
  | RiversBootOp _ _ _ name _ _ => name +:+ "-bootstrap"
  | RiversRestartOp _ _ _ name _ _ => name +:+ "-restart"
  | EtcdBootOp _ _ => "etcd-bootstrap"
  | EtcdStartOp _ _ => "etcd-start"
  | EtcdWaitClusterOp _ => "etcd-wait-cluster"
  | EtcdAddMemberOp _ _ _ => "etcd-add-member"
  | EtcdRemoveMemberOp _ _ => "etcd-remove-member"
  | EtcdDestroyMemberOp _ _ _ => "etcd-destroy-member"
  | EtcdMarkMemberOp _ => "etcd-mark-member"
  | EtcdRestartOp _ _ _ => "etcd-restart"
  | APIServerRestartOp _ _ _ _ => "kube-apiserver-restart"
  | ControllerManagerBootOp _ _ _ _ => "kube-controller-manager-bootstrap"
  | ControllerManagerRestartOp _ _ _ _ => "kube-controller-manager-restart"
  | SchedulerBootOp _ _ _ => "kube-scheduler-bootstrap"
  | SchedulerRestartOp _ _ _ => "kube-scheduler-restart"
  | KubeletBootOp _ _ _ _ _ _ => "kubelet-bootstrap"
  | KubeletRestartOp _ _ _ _ => "kubelet-restart"
  | KubeProxyBootOp _ _ _ _ => "kube-proxy-bootstrap"
  | KubeProxyRestartOp _ _ _ _ => "kube-proxy-restart"
  | ContainerStopOp _ name => "stop-" +:+ name
  | KubeWaitOp _ => "wait-kubernetes"
  | KubeEndpointsCreateOp _ ep => "create-" +:+ ep_Name ep +:+ "-endpoints"
  | KubeEndpointsUpdateOp _ ep => "update-" +:+ ep_Name ep +:+ "-endpoints"
  | KubeEndpointSliceCreateOp _ eps => "create-" +:+ eps_Name eps +:+ "-endpointslice"
  | KubeEndpointSliceUpdateOp _ eps => "update-" +:+ eps_Name eps +:+ "-endpointslice"
  | KubeEtcdServiceCreateOp _ => "create-etcd-service"
  | KubeEtcdServiceUpdateOp _ => "update-etcd-service"
  | KubeNodeUpdateOp _ _ => "update-node"
  | KubeNodeRemoveOp _ _ => "remove-node"
  | ResourceApplyOp _ _ _ _ => "resource-apply"
  | ClusterDNSCreateConfigMapOp _ _ _ => "create-cluster-dns-configmap"
  | ClusterDNSUpdateConfigMapOp _ _ => "update-cluster-dns-configmap"
  | NodeDNSCreateConfigMapOp _ _ _ _ => "create-node-dns-configmap"
  | NodeDNSUpdateConfigMapOp _ _ => "update-node-dns-configmap"
  | RebootDrainStartOp _ _ _ => "reboot-drain-start"
  | RebootDeleteDaemonSetPodOp _ _ _ => "reboot-delete-daemonset-pod"
  | RebootRebootOp _ _ _ => "reboot-reboot"
  | RebootDrainTimeoutOp _ => "reboot-drain-timeout"
  | RebootUncordonOp _ _ => "reboot-uncordon"
  | RebootDequeueOp _ => "reboot-dequeue"
  | RebootCancelOp _ => "reboot-cancel"
  | RepairDequeueOp _ => "repair-dequeue"
  | RepairDrainStartOp _ _ _ => "repair-drain-start"
  | RepairDrainTimeoutOp _ => "repair-drain-timeout"
  | RepairExecuteOp _ _ _ => "repair-execute"
  | RepairFinishOp _ _ _ => "repair-finish"
  end.

(** [fmt.Sprintf("%v", nodes)] *)
Definition bracketed (nodes : list string) : string := "[" +:+ Join nodes " " +:+ "]".
(** The operators that are [InfoOperator]s, and what they tell about failed nodes. *)
Definition Info (o : Operator) (failedNodes : list string) : option string :=
  let about what := if (length failedNodes =? 0)%nat then "" else what +:+ bracketed failedNodes in
  match o with
  | RebootDrainStartOp _ _ _ => Some (about "failed to drain some nodes: ")
  | RebootDeleteDaemonSetPodOp _ _ _ => Some (about "failed to delete DaemonSet pods on some nodes: ")
  | RebootRebootOp _ _ _ => Some (about "failed to reboot some nodes: ")
  | _ => None
  end.

Definition entry_nodes (entries : list RebootQueueEntry) : string := Join (rqe_Node <$> entries) ",".
(** [c.endpoints.Subsets[0].Addresses] *)
Definition first_subset (ep : Endpoints) : go string :=
  subset ← index (ep_Subsets ep) 0; Ret (Join (ss_Addresses subset) ",").
Definition slice_addresses (eps : EndpointSlice) : string :=
  Join (eps_Endpoints eps ≫= e_Addresses) ",".

(** [Command()]; [files] are those the operator has collected. *)
Definition Command_of (files : list fileData) (c : Commander) : go Command :=
  match c with
  | ImagePullCommand _ img => Ret (mkCommand "image-pull" img)
  | StopContainersCommand _ name => Ret (mkCommand "stop-container" name)
  | KillContainersCommand _ name => Ret (mkCommand "kill-containers" name)
  | RunContainerCommand _ name _ _ _ _ _ => Ret (mkCommand "run-container" name)
  | VolumeCreateCommand _ v => Ret (mkCommand "volume-create" v)
  | VolumeRemoveCommand _ v => Ret (mkCommand "volume-remove" v)
  | MakeDirsCommand _ dirs _ => Ret (mkCommand "make-dirs" (Join dirs " "))
  | FilesBuilder _ => Ret (mkCommand "make-files" (Join (fd_name <$> files) ","))
  | upgradeToVersion2Command _ => Ret (mkCommand "upgrade-version-from-1-to-2" EtcdAddedMemberVolumeName)
  | prepareEtcdCertificatesCommand _ => Ret (mkCommand "prepare-etcd-certificates" "")
  | waitEtcdSyncCommand endpoints _ => Ret (mkCommand "wait-etcd-sync" (Join endpoints ","))
  | setupEtcdAuthCommand endpoints => Ret (mkCommand "setup-etcd-auth" (Join endpoints ","))
  | addMemberCommand _ _ _ _ => Ret (mkCommand "add-etcd-member" "")
  | removeMemberCommand _ ids => Ret (mkCommand "remove-etcd-member" (Join (FormatInt <$> ids) ","))
  | prepareAPIServerFilesCommand _ _ _ _ => Ret (mkCommand "prepare-apiserver-files" "")
  | prepareControllerManagerFilesCommand _ _ => Ret (mkCommand "prepare-controller-manager-files" "")
  | prepareSchedulerFilesCommand _ _ _ => Ret (mkCommand "prepare-scheduler-files" "")
  | prepareProxyFilesCommand _ _ _ _ => Ret (mkCommand "prepare-proxy-files" "")
  | emptyDirCommand _ dir => Ret (mkCommand "empty-dir" dir)
  | prepareKubeletFilesCommand _ _ _ _ => Ret (mkCommand "prepare-kubelet-files" "")
  | prepareKubeletConfigCommand _ _ _ _ => Ret (mkCommand "prepare-kubelet-config" "")
  | installCNICommand _ => Ret (mkCommand "install-cni" "")
  | retaintBeforeKubeletBootCommand _ _ _ => Ret (mkCommand "retaint-before-kubelet-boot" "")
  | waitForKubeletReadyCommand _ => Ret (mkCommand "wait-for-kubelet-ready" "")
  | waitKubeCommand _ => Ret (mkCommand "waitKubeCommand" "kube-system sa/default")
  | createEndpointsCommand _ ep => t ← first_subset ep; Ret (mkCommand "createEndpointsCommand" t)
  | updateEndpointsCommand _ ep => t ← first_subset ep; Ret (mkCommand "updateEndpointsCommand" t)
  | createEndpointSliceCommand _ eps => Ret (mkCommand "createEndpointSliceCommand" (slice_addresses eps))
  | updateEndpointSliceCommand _ eps => Ret (mkCommand "updateEndpointSliceCommand" (slice_addresses eps))
  | createEtcdServiceCommand _ => Ret (mkCommand "createEtcdServiceCommand" "")
  | updateEtcdServiceCommand _ => Ret (mkCommand "updateEtcdServiceCommand" "")
  | nodeUpdateCommand _ _ => Ret (mkCommand "updateNode" "")
  | nodeRemoveCommand _ nodes => Ret (mkCommand "removeNode" (Join (kn_Name <$> nodes) ","))
  | applyResourceCommand _ resource _ _ => Ret (mkCommand "apply-resource" (ResourceDefinition_String resource))
  | createClusterDNSConfigMapCommand _ _ _ | createNodeDNSConfigMapCommand _ _ _ _ =>
      Ret (mkCommand "createConfigMapCommand" "kube-system")
  | updateClusterDNSConfigMapCommand _ _ | updateNodeDNSConfigMapCommand _ _ =>
      Ret (mkCommand "updateConfigMapCommand" "kube-system")
  | rebootDrainStartCommand entries _ _ _ _ _ => Ret (mkCommand "rebootDrainStartCommand" (entry_nodes entries))
  | rebootDeleteDaemonSetPodCommand entries _ =>
      Ret (mkCommand "rebootDeleteDaemonSetPodCommand" (entry_nodes entries))
  | rebootRebootCommand entries _ _ _ _ => Ret (mkCommand "rebootRebootCommand" (entry_nodes entries))
  | rebootDrainTimeoutCommand entries => Ret (mkCommand "rebootDrainTimeoutCommand" (entry_nodes entries))
  | rebootUncordonCommand _ names => Ret (mkCommand "rebootUncordonCommand" (Join names ","))
  | rebootDequeueCommand entries => Ret (mkCommand "rebootDequeueCommand" (entry_nodes entries))
  | repairDequeueCommand entry => Ret (mkCommand "repairDequeueCommand" (rpe_Address entry))
  | repairDrainStartCommand entry _ _ _ _ _ => Ret (mkCommand "repairDrainStartCommand" (rpe_Address entry))
  | repairDrainTimeoutCommand entry => Ret (mkCommand "repairDrainTimeoutCommand" (rpe_Address entry))
  | repairExecuteCommand entry _ _ _ _ _ => Ret (mkCommand "repairExecuteCommand" (rpe_Address entry))
  | repairFinishCommand entry _ _ => Ret (mkCommand "repairFinishCommand" (rpe_Address entry))
  end.
End descriptions.
