(* ===== verification/Control.v ===== *)
(** * The control loop (server/control.go)

    One round of the loop of the leader: it reads the configuration, surveys the
    cluster, decides on operators and runs them one after the other, keeping a record
    of each in the storage.  What waits between the rounds and the watches are in Loop;
    the campaign for the leadership, logs and metrics are left out. *)

From Stdlib Require Import ZArith Ascii String Lia.
From stdpp Require Import base gmap strings list sorting.
From S2P Require Import Prelude GoLib GoFormat K8s Cluster Queue Resource Status Storage Reboot.
From S2P Require Import SabakanQuery Sabakan Integrate Operators Engine Strategy Survey Pki Files Commands.

(** [err.Error()] *)
Definition Error (e : error) : string :=
  match e with
  | ErrNotFound => "not found"
  | ErrNoLeader => "lost leadership"
  | ErrRepairProcedureNotFound => "repair procedure not found for repair queue entry"
  | ErrRepairOperationNotFound => "repair operation not found for repair queue entry"
  | ErrRepairStepOutOfRange => "repair step of repair queue entry is out of range"
  | ErrUnexpected msg => msg
  end.
(** [strings.Contains] *)
Fixpoint str_contains (s sub : string) : bool :=
  HasPrefix s sub || match s with "" => false | String _ rest => str_contains rest sub end.

Definition errCommandFailure : error := ErrUnexpected "command failed".
Definition is_command_failure (e : error) : bool :=
  match e with ErrUnexpected msg => (msg =? "command failed")%string | _ => false end.

Section control.
  Context {T : K8sTypes} {K : K8s} `{Runtime} `{!Etcd} `{!Platform} `{!Network} `{Docker} `{!Vault}.
  Context `{!Agents} `{!Executor} `{!Tools} `{!Encoders} (IPAdd : list Z -> Z -> list Z) (cas : nat).

(** [time.Now()] *)
Definition clock : ctl Z := net now_at.

(** ** Running an operator *)
Definition update_record (leaderKey : string) (r : OpRecord) : ctl unit := store (UpdateRecord leaderKey r).

(** The loop of [runOp] over the commands the operator issues.  [failed] are the nodes
    the commands notified as failed so far, [files] the files they have collected. *)
Fixpoint run_loop (leaderKey : string) (o : Operator) (cmds : list Commander) (failed : list string)
    (files : list fileData) (r : OpRecord) : ctl unit :=
  match cmds with
  | [] =>
      let r := match Info o failed with Some info => SetInfo info r | None => r end in
      now ← clock; update_record leaderKey (Complete now r)
  | c :: rest =>
      done ← net ctx_done;
      if (done : bool) then now ← clock; update_record leaderKey (Cancel now r)
      else
        command ← pure_go (Command_of files c);
        let r := SetCommand command r in
        _ ← update_record leaderKey r;
        res ← caught (Run IPAdd cas c leaderKey files);
        match res with
        | Ok (notified, files) => run_loop leaderKey o rest (failed ++ notified) files r
        | Err e =>
            now ← clock;
            _ ← update_record leaderKey (SetError now (Error e) r);
            raise errCommandFailure
        end
  end.
Definition runOp (leaderKey : string) (o : Operator) : ctl unit :=
  id ← store NextRecordID;
  targets ← pure_go (Targets url_host o);
  now ← clock;
  let r := NewRecord now id (Name o) targets in
  _ ← store (RegisterRecord leaderKey r);
  run_loop leaderKey o (commands o) [] [] r.

(** The operators one after the other; whether a command failed. *)
Fixpoint run_ops (leaderKey : string) (ops : list Operator) : ctl bool :=
  match ops with
  | [] => mret false
  | o :: rest =>
      r ← caught (runOp leaderKey o);
      match r with
      | Ok _ => run_ops leaderKey rest
      | Err e => if is_command_failure e then mret true else raise e
      end
  end.

(** ** The last operation of the previous leader *)
Definition checkLastOp (leaderKey : string) : ctl unit :=
  records ← store (GetRecords 1);
  match records with
  | [] => mret tt
  | r :: _ =>
      if (r_Status r =? StatusCancelled)%string || (r_Status r =? StatusCompleted)%string then mret tt
      else now ← clock; update_record leaderKey (Cancel now r)
  end.

(** ** One round *)

(** server/integrator.go: what an addon does; it is sabakan's integration, or none. *)
Record Integrator := mkIntegrator {
  addon_Init : string -> ctl unit;
  addon_Do : string -> option ClusterStatus -> ctl unit
}.
Context (static : list ResourceDefinition) (maxConcurrentUpdates : Z) (addon : option Integrator).

Definition do_addon (leaderKey : string) (status : option ClusterStatus) : ctl unit :=
  match addon with Some a => addon_Do a leaderKey status | None => mret tt end.

Definition prepare_service_account (leaderKey : string) : ctl unit :=
  r ← caught (store GetServiceAccountCert);
  match r with
  | Ok _ => mret tt
  | Err ErrNotFound =>
      '(crt, key) ← issueCertificate KubernetesCA_IssueForServiceAccount;
      store (PutServiceAccountData leaderKey crt key)
  | Err e => raise e
  end.

(** The flag that tells users whether the reboot queue is being processed. *)
Definition update_running (cs : ClusterStatus) : ctl unit :=
  currentRunningState ← store IsRebootQueueRunning;
  let nextRunningState := rbs_Enabled (cs_RebootQueue cs) && (0 <? len (rbs_Entries (cs_RebootQueue cs))) in
  if Bool.eqb currentRunningState nextRunningState then mret tt
  else store (SetRebootQueueRunning nextRunningState).

(** What follows a decision.  The result tells whether to wait before the next round. *)
Definition act (leaderKey : string) (status : ClusterStatus) (ops : list Operator) (phase : OperationPhase)
    : ctl bool :=
  match ops with
  | [] => _ ← do_addon leaderKey (Some status); mret true
  | _ =>
      _ ← (if decide (phase = PhaseRebootNodes) then do_addon leaderKey (Some status) else mret tt);
      run_ops leaderKey ops
  end.
(** What follows a survey. *)
Definition decide_and_run (leaderKey : string) (ts : Z) (cluster : Cluster) (status : ClusterStatus)
    : ctl bool :=
  constraints ← store GetConstraints;
  rcs ← store GetAllResources;
  _ ← update_running status;
  now ← clock;
  '(ops, phase) ← pure_go (DecideOps static now cluster status constraints rcs maxConcurrentUpdates);
  _ ← store (SetStatus (mkServerStatus phase ts));
  act leaderKey status ops phase.

(** What follows the connections to the nodes. *)
Definition survey_and_run (leaderKey : string) (ts : Z) (cluster : Cluster) : ctl bool :=
  _ ← prepare_service_account leaderKey;
  status ← caught (GetClusterStatus static cluster);
  match status with
  | Err _ => mret true
  | Ok status => decide_and_run leaderKey ts cluster status
  end.

Definition runOnce (leaderKey : string) : ctl bool :=
  ts ← clock;
  cluster ← caught (store GetCluster);
  match cluster with
  | Err ErrNotFound => _ ← do_addon leaderKey None; mret true
  | Err e => raise e
  | Ok cluster =>
      match Validate cluster false with
      | Some _ => mret true
      | None =>
          inf ← caught (NewInfrastructure cluster);
          match inf with
          | Err e => if str_contains (Error e) "403" then raise e else mret true
          | Ok _ => closing (survey_and_run leaderKey ts cluster)
          end
      end
  end.

(** [runLoop], for some rounds. *)
Fixpoint rounds (n : nat) (leaderKey : string) : ctl unit :=
  match n with O => mret tt | S n => _ ← runOnce leaderKey; rounds n leaderKey end.
(** [Run] once the server is the leader: it prepares the addon and looks after the
    operation the previous leader left. *)
Definition lead (n : nat) (leaderKey : string) : ctl unit :=
  _ ← (match addon with Some a => addon_Init a leaderKey | None => mret tt end);
  _ ← checkLastOp leaderKey;
  rounds n leaderKey.
End control.

(** ** The sabakan integration as the addon (sabakan/integrate.go) *)
Section sabakan_addon.
  Context {T : K8sTypes} {K : K8s} `{Runtime} `{!Etcd} `{!Platform} `{!Network} `{Docker} (cas : nat).

(** The answers of sabakan during a run. *)
Context (ask_sabakan : platform -> platform * (string -> option QueryVariables -> result (list Machine))).

Definition NewIntegrator : Integrator :=
  mkIntegrator
    (fun leaderKey => search ← net ask_sabakan; now ← clock; store (Init search now None leaderKey))
    (fun leaderKey status =>
       search ← net ask_sabakan; now ← clock; store (Do search now None cas leaderKey status)).
End sabakan_addon.
