(* ===== verification/Loop.v ===== *)
(** * Goroutines of the leader (server/control.go, server/watch.go)

    While a server leads it runs several goroutines: the loop of the rounds, the watch of the
    configuration, that of the addon, that of the leadership, and the removal of expired
    certificates.  Here they are steps on a shared state with the channels between them; what a
    round does is in Control.  The first error of a goroutine cancels the others, and the
    server goes on after all of them have ended. *)

From Stdlib Require Import ZArith Ascii String Lia.
From stdpp Require Import base strings list relations.
From S2P Require Import Prelude GoLib Storage.

(** [startWatcher]: it reads the configuration of Vault and connects to it; then it is about to send the
    first message, maybe after an error; then it watches.  From the reading on it has the keys of the
    values stored meanwhile. *)
Inductive watcher : Type :=
| Reading
| Connecting (events : list string)
| Ready (failed : bool) (events : list string)
| Watching (events : list string)
| WatcherEnded.
(** The loop of [runLoop]: it waits for the watcher, checks the context, runs a round, or
    waits at the end of a round that may have failed. *)
Inductive main_loop : Type :=
| Starting
| Checking
| InRound
| Idling (failed : bool)
| LoopEnded.
(** The watch of the addon, if there is one. *)
Inductive addon_watch : Type :=
| AddonStarting
| AddonWatching (events : list string)
| AddonEnded.

(** [sv_addonChan] tells whether [addonChan] holds a message; [watchChan] has no buffer.  The counters are the
    changes of the configuration and the resources, those known when the last round
    started, and the same for the messages of the addon. *)
Record server := mkServer {
  sv_cancelled : bool;
  sv_watcher : watcher;
  sv_loop : main_loop;
  sv_leadership : bool;
  sv_tidy : bool;
  sv_addon : addon_watch;
  sv_addonChan : bool;
  sv_changes : nat;
  sv_seen : nat;
  sv_messages : nat;
  sv_heard : nat
}.

(** ** Watches *)
(** The keys the watcher sends a message for. *)
Definition wakes (key : string) : bool := (key =? KeyCluster)%string || HasPrefix key KeyResourcePrefix.
(** [StartWatch] of the sabakan integration *)
Definition addon_wakes (key : string) : bool :=
  existsb (String.eqb key) [KeyConstraints; KeySabakanTemplate; KeySabakanURL].

Definition with_watcher (w : watcher) (s : server) : server :=
  mkServer (sv_cancelled s) w (sv_loop s) (sv_leadership s) (sv_tidy s) (sv_addon s) (sv_addonChan s)
    (sv_changes s) (sv_seen s) (sv_messages s) (sv_heard s).
Definition with_loop (l : main_loop) (s : server) : server :=
  mkServer (sv_cancelled s) (sv_watcher s) l (sv_leadership s) (sv_tidy s) (sv_addon s) (sv_addonChan s)
    (sv_changes s) (sv_seen s) (sv_messages s) (sv_heard s).
Definition with_addon (a : addon_watch) (s : server) : server :=
  mkServer (sv_cancelled s) (sv_watcher s) (sv_loop s) (sv_leadership s) (sv_tidy s) a (sv_addonChan s)
    (sv_changes s) (sv_seen s) (sv_messages s) (sv_heard s).
Definition with_channel (full : bool) (s : server) : server :=
  mkServer (sv_cancelled s) (sv_watcher s) (sv_loop s) (sv_leadership s) (sv_tidy s) (sv_addon s) full
    (sv_changes s) (sv_seen s) (sv_messages s) (sv_heard s).
Definition without_leadership (s : server) : server :=
  mkServer (sv_cancelled s) (sv_watcher s) (sv_loop s) false (sv_tidy s) (sv_addon s) (sv_addonChan s)
    (sv_changes s) (sv_seen s) (sv_messages s) (sv_heard s).
Definition without_tidy (s : server) : server :=
  mkServer (sv_cancelled s) (sv_watcher s) (sv_loop s) (sv_leadership s) false (sv_addon s) (sv_addonChan s)
    (sv_changes s) (sv_seen s) (sv_messages s) (sv_heard s).
(** The context is cancelled, or a goroutine returns an error. *)
Definition cancel (s : server) : server :=
  mkServer true (sv_watcher s) (sv_loop s) (sv_leadership s) (sv_tidy s) (sv_addon s) (sv_addonChan s)
    (sv_changes s) (sv_seen s) (sv_messages s) (sv_heard s).
Definition cancel_if (failed : bool) (s : server) : server := if failed then cancel s else s.

(** A value is stored under the key; the watches that have begun get an event. *)
Definition put_key (key : string) (s : server) : server :=
  mkServer (sv_cancelled s)
    (match sv_watcher s with
     | Connecting es => Connecting (es ++ [key])
     | Ready failed es => Ready failed (es ++ [key])
     | Watching es => Watching (es ++ [key])
     | w => w
     end)
    (sv_loop s) (sv_leadership s) (sv_tidy s)
    (match sv_addon s with AddonWatching es => AddonWatching (es ++ [key]) | a => a end) (sv_addonChan s)
    (if wakes key then S (sv_changes s) else sv_changes s) (sv_seen s) (sv_messages s) (sv_heard s).
(** A send that does not block, into the buffer of [addonChan] *)
Definition send_addon (s : server) : server :=
  mkServer (sv_cancelled s) (sv_watcher s) (sv_loop s) (sv_leadership s) (sv_tidy s) (sv_addon s) true
    (sv_changes s) (sv_seen s) (S (sv_messages s)) (sv_heard s).

(** ** The loop *)
Definition start_round (s : server) : server :=
  mkServer (sv_cancelled s) (sv_watcher s) InRound (sv_leadership s) (sv_tidy s) (sv_addon s) (sv_addonChan s)
    (sv_changes s) (sv_changes s) (sv_messages s) (sv_messages s).
(** [runOnce] returns. *)
Definition return_from (failed : bool) (s : server) : server :=
  if failed then cancel (with_loop LoopEnded s) else with_loop Checking s.
Definition end_round (wait failed : bool) (s : server) : server :=
  if wait then with_loop (Idling failed) s else return_from failed s.

Definition idling (s : server) : bool := match sv_loop s with Idling _ => true | _ => false end.

(** ** Steps *)
Inductive server_step : server -> server -> Prop :=
| step_cancel s : server_step s (cancel s)
| step_put key s : server_step s (put_key key s)
| step_leadership s : sv_leadership s = true -> server_step s (cancel (without_leadership s))
| step_tidy_end s : sv_tidy s = true -> sv_cancelled s = true -> server_step s (without_tidy s)
| step_tidy_fail s : sv_tidy s = true -> server_step s (cancel (without_tidy s))
| step_read s : sv_watcher s = Reading -> server_step s (with_watcher (Connecting []) s)
| step_read_fail s : sv_watcher s = Reading -> server_step s (with_watcher (Ready true []) s)
| step_connect failed es s :
    sv_watcher s = Connecting es -> server_step s (with_watcher (Ready failed es) s)
| step_ready es s :
    sv_watcher s = Ready false es -> sv_loop s = Starting ->
    server_step s (with_watcher (Watching es) (with_loop Checking s))
| step_ready_failed es s :
    sv_watcher s = Ready true es -> sv_loop s = Starting ->
    server_step s (cancel (with_watcher WatcherEnded (with_loop Checking s)))
| step_notify key es failed s :
    sv_watcher s = Watching (key :: es) -> wakes key = true -> sv_loop s = Idling failed ->
    server_step s (return_from failed (with_watcher (Watching es) s))
| step_drop key es s :
    sv_watcher s = Watching (key :: es) -> wakes key && idling s = false ->
    server_step s (with_watcher (Watching es) s)
| step_reconnect_fail es s :
    sv_watcher s = Watching (KeyVault :: es) -> server_step s (cancel (with_watcher WatcherEnded s))
| step_watch_end es s :
    sv_watcher s = Watching es -> sv_cancelled s = true -> server_step s (with_watcher WatcherEnded s)
| step_watch_fail es s :
    sv_watcher s = Watching es -> server_step s (cancel (with_watcher WatcherEnded s))
| step_never_started s :
    sv_loop s = Starting -> sv_cancelled s = true -> server_step s (with_loop LoopEnded s)
| step_round s : sv_loop s = Checking -> sv_cancelled s = false -> server_step s (start_round s)
| step_stop s : sv_loop s = Checking -> sv_cancelled s = true -> server_step s (with_loop LoopEnded s)
| step_round_end wait failed s : sv_loop s = InRound -> server_step s (end_round wait failed s)
| step_tick failed s : sv_loop s = Idling failed -> server_step s (return_from failed s)
| step_idle_cancelled failed s :
    sv_loop s = Idling failed -> sv_cancelled s = true -> server_step s (return_from failed s)
| step_message failed s :
    sv_loop s = Idling failed -> sv_addonChan s = true ->
    server_step s (return_from failed (with_channel false s))
| step_addon_start s : sv_addon s = AddonStarting -> server_step s (with_addon (AddonWatching []) s)
| step_addon_event key es s :
    sv_addon s = AddonWatching (key :: es) ->
    server_step s (let s := with_addon (AddonWatching es) s in if addon_wakes key then send_addon s else s)
| step_addon_end es s :
    sv_addon s = AddonWatching es -> sv_cancelled s = true -> server_step s (with_addon AddonEnded s)
| step_addon_fail es s :
    sv_addon s = AddonWatching es -> server_step s (cancel (with_addon AddonEnded s)).

(** [runLoop], after it has looked after the last operation *)
Definition runLoop (has_addon : bool) : server :=
  mkServer false Reading Starting true true (if has_addon then AddonStarting else AddonEnded) false 0 0 0 0.
(** [env.Wait] returns. *)
Definition all_ended (s : server) : Prop :=
  sv_watcher s = WatcherEnded /\ sv_loop s = LoopEnded /\ sv_leadership s = false /\ sv_tidy s = false
  /\ sv_addon s = AddonEnded.

(** ** Messages of the addon *)

(** The loop only rounds and waits after the watcher is ready, and the messages of the addon
    that were sent before the last round are heard or still in the channel. *)
Definition connected_first (s : server) : Prop :=
  match sv_watcher s with
  | Reading | Connecting _ | Ready _ _ => sv_loop s = Starting \/ sv_loop s = LoopEnded
  | _ => sv_loop s <> Starting
  end.
Definition messages_kept (s : server) : Prop :=
  sv_addonChan s = false -> sv_loop s = InRound \/ (exists failed, sv_loop s = Idling failed) ->
  sv_messages s = sv_heard s.

Ltac step_cases := 
  let H := fresh in
  intros H; destruct H; match goal with s : server |- _ => destruct s end;
  unfold connected_first, messages_kept, end_round, return_from, start_round, send_addon, put_key in *;
  cbn in *; subst; repeat (case_match; cbn in *; subst); try solve [naive_solver].

Lemma connected_first_step s s' : server_step s s' -> connected_first s -> connected_first s'.
Proof. step_cases. Qed.
Lemma messages_kept_step s s' : server_step s s' -> messages_kept s -> messages_kept s'.
Proof. step_cases. Qed.
Lemma reachable_ind_of (P : server -> Prop) has_addon s :
  P (runLoop has_addon) -> (forall s s', server_step s s' -> P s -> P s') ->
  rtc server_step (runLoop has_addon) s -> P s.
Proof. intros H0 Hs Hr. revert H0. induction Hr; eauto. Qed.

(** While a server leads, no message of the addon is lost: whenever the loop waits at the end
    of a round and the channel of the addon is empty, a round has started after the last
    message, however the goroutines interleave; and no round starts before the watcher has
    finished connecting to Vault. *)
Theorem addon_messages_heard has_addon s :
  rtc server_step (runLoop has_addon) s ->
  (idling s = true -> sv_addonChan s = false -> sv_messages s = sv_heard s)
  /\ (sv_loop s = InRound -> sv_watcher s = WatcherEnded \/ exists es, sv_watcher s = Watching es).
Proof.
  intros Hr. split.
  - intros Hi Hc. apply (reachable_ind_of messages_kept has_addon s); [|by eauto using messages_kept_step|done|done|].
    + by intros _ [?|[? ?]].
    + unfold idling in Hi. destruct (sv_loop s); naive_solver.
  - intros Hl. assert (connected_first s) as Hcf.
    { apply (reachable_ind_of connected_first has_addon s); [by left|by eauto using connected_first_step|done]. }
    unfold connected_first in Hcf. rewrite Hl in Hcf. destruct (sv_watcher s); naive_solver.
Qed.

(** A run where the configuration is stored while a round is running: the watcher finds nobody
    waiting. *)
Definition missed_change : list server :=
  let s0 := runLoop false in
  let s1 := with_watcher (Connecting []) s0 in
  let s2 := with_watcher (Ready false []) s1 in
  let s3 := with_watcher (Watching []) (with_loop Checking s2) in
  let s4 := start_round s3 in
  let s5 := put_key KeyCluster s4 in
  let s6 := with_watcher (Watching []) s5 in
  [s0; s1; s2; s3; s4; s5; s6; end_round true false s6].
Definition missed : server := List.last missed_change (runLoop false).
Lemma missed_reachable : rtc server_step (runLoop false) missed.
Proof.
  unfold missed, missed_change. cbn [List.last].
  eapply rtc_l; [by apply step_read|]. eapply rtc_l; [by apply (step_connect false [])|].
  eapply rtc_l; [by apply step_ready|]. eapply rtc_l; [by apply step_round|].
  eapply rtc_l; [apply (step_put KeyCluster)|]. eapply rtc_l; [by apply (step_drop KeyCluster [])|].
  eapply rtc_l; [by apply (step_round_end true false)|]. apply rtc_refl.
Qed.

(** A change of the configuration stored while a round is running may not wake the loop:
    the server reaches a state where it waits at the end of a round, not
    cancelled and with no event left to look at, although the configuration has changed since
    the round started; it starts the next round only at the next tick or change. *)
Theorem configuration_change_missed :
  exists s, rtc server_step (runLoop false) s /\ sv_loop s = Idling false /\ sv_cancelled s = false
    /\ sv_watcher s = Watching [] /\ (sv_seen s < sv_changes s)%nat.
Proof. exists missed. split; [apply missed_reachable|]. by vm_compute; repeat split; lia. Qed.

Lemma addon_messages_heard_witness : sv_messages missed = sv_heard missed.
Proof. apply (proj1 (addon_messages_heard false missed missed_reachable)); reflexivity. Defined.

(** ** Stopping *)

(** The loop has ended before the watcher could send its first message to it. *)
Definition wedged (s : server) : Prop :=
  sv_loop s = LoopEnded
  /\ match sv_watcher s with Reading | Connecting _ | Ready _ _ => True | _ => False end.
#[export] Instance wedged_dec s : Decision (wedged s).
Proof. unfold wedged. destruct (sv_loop s); try (right; naive_solver). destruct (sv_watcher s); (left; done) || (right; naive_solver). Defined.
Lemma wedged_step s s' : server_step s s' -> wedged s -> wedged s'.
Proof. unfold wedged. step_cases. Qed.
Lemma wedged_forever s s' : rtc server_step s s' -> wedged s -> wedged s'.
Proof. induction 1; eauto using wedged_step. Qed.

Definition may_reach (s : server) (P : server -> Prop) : Prop := exists s', rtc server_step s s' /\ P s'.
Lemma may_reach_now s (P : server -> Prop) : P s -> may_reach s P.
Proof. by exists s. Qed.
Lemma may_reach_step s s' P : server_step s s' -> may_reach s' P -> may_reach s P.
Proof. intros Hs (s'' & Hr & HP). exists s''. split; [by eapply rtc_l|done]. Qed.

Lemma ends_addon s : sv_cancelled s = true -> sv_watcher s = WatcherEnded -> sv_loop s = LoopEnded ->
  sv_leadership s = false -> sv_tidy s = false -> may_reach s all_ended.
Proof.
  intros Hc Hw Hl Hle Ht. destruct (sv_addon s) as [|es|] eqn:Ha.
  - eapply may_reach_step; [by apply step_addon_start|].
    eapply may_reach_step; [by apply (step_addon_end [])|]. by apply may_reach_now.
  - eapply may_reach_step; [by eapply step_addon_end|]. by apply may_reach_now.
  - by apply may_reach_now.
Qed.
Lemma ends_others s : sv_cancelled s = true -> sv_watcher s = WatcherEnded -> sv_loop s = LoopEnded ->
  may_reach s all_ended.
Proof.
  intros Hc Hw Hl.
  assert (forall s, sv_cancelled s = true -> sv_watcher s = WatcherEnded -> sv_loop s = LoopEnded ->
          sv_leadership s = false -> may_reach s all_ended) as Htidy.
  { clear. intros s Hc Hw Hl Hle. destruct (sv_tidy s) eqn:Ht; [|by apply ends_addon].
    eapply may_reach_step; [by apply step_tidy_end|]. by apply ends_addon. }
  destruct (sv_leadership s) eqn:Hle; [|by apply Htidy].
  eapply may_reach_step; [by apply step_leadership|]. by apply Htidy.
Qed.
Lemma ends_watcher s es : sv_cancelled s = true -> sv_watcher s = Watching es \/ sv_watcher s = WatcherEnded ->
  sv_loop s = LoopEnded -> may_reach s all_ended.
Proof.
  intros Hc [Hw|Hw] Hl; [|by apply ends_others].
  eapply may_reach_step; [by eapply step_watch_end|]. by apply ends_others.
Qed.
Lemma ends_loop s es : sv_cancelled s = true -> sv_watcher s = Watching es \/ sv_watcher s = WatcherEnded ->
  may_reach s all_ended.
Proof.
  intros Hc Hw.
  assert (forall s, sv_cancelled s = true -> sv_watcher s = Watching es \/ sv_watcher s = WatcherEnded ->
          sv_loop s = Checking -> may_reach s all_ended) as Hcheck.
  { clear. intros s Hc Hw Hl. eapply may_reach_step; [by apply step_stop|]. by apply (ends_watcher _ es). }
  destruct (sv_loop s) as [| | |[]|] eqn:Hl.
  - eapply may_reach_step; [by apply step_never_started|]. by apply (ends_watcher _ es).
  - by apply Hcheck.
  - eapply may_reach_step; [by apply (step_round_end false false)|]. by apply Hcheck.
  - eapply may_reach_step; [by apply (step_idle_cancelled true)|]. by apply (ends_watcher _ es).
  - eapply may_reach_step; [by apply (step_idle_cancelled false)|]. by apply Hcheck.
  - by apply (ends_watcher _ es).
Qed.
Lemma ends_ready s failed es : sv_cancelled s = true -> sv_watcher s = Ready failed es -> sv_loop s = Starting ->
  may_reach s all_ended.
Proof.
  intros Hc Hw Hl. destruct failed.
  - eapply may_reach_step; [by eapply step_ready_failed|]. apply (ends_loop _ es); [done|by right].
  - eapply may_reach_step; [by eapply step_ready|]. apply (ends_loop _ es); [done|by left].
Qed.

(** C19: A leading server can stop exactly as long as its loop has not ended before the watcher
    has sent its first message: from every other state it can reach the end of all goroutines
    after a cancellation, and in such a state the watcher waits for ever, whatever happens. *)
Theorem server_can_stop has_addon s :
  rtc server_step (runLoop has_addon) s ->
  (wedged s <-> ~ exists s', rtc server_step s s' /\ all_ended s').
Proof.
  intros Hr. split.
  - intros Hw (s' & Hs & He & _). destruct (wedged_forever s s' Hs Hw) as [_ Hw']. by rewrite He in Hw'.
  - intros Hno. assert (connected_first s) as Hcf.
    { apply (reachable_ind_of connected_first has_addon s); [by left|by eauto using connected_first_step|done]. }
    destruct (decide (wedged s)) as [|Hn]; [done|]. exfalso. apply Hno. change (may_reach s all_ended).
    eapply may_reach_step; [apply step_cancel|]. unfold wedged, connected_first in *.
    destruct (sv_watcher s) as [|es|failed es|es|] eqn:Hw.
    + eapply may_reach_step; [by apply step_read_fail|]. eapply ends_ready; [done..|]. cbn. naive_solver.
    + eapply may_reach_step; [by apply (step_connect true es)|]. eapply ends_ready; [done..|]. cbn. naive_solver.
    + eapply ends_ready; [done..|]. cbn. naive_solver.
    + apply (ends_loop _ es); [done|by left].
    + apply (ends_loop _ []); [done|by right].
Qed.

(** A server that is stopped before the watcher has read the configuration of Vault. *)
Definition stopped_early : server := with_loop LoopEnded (cancel (runLoop true)).
Lemma stopped_early_reachable : rtc server_step (runLoop true) stopped_early.
Proof.
  eapply rtc_l; [apply step_cancel|]. eapply rtc_l; [by apply step_never_started|]. apply rtc_refl.
Qed.

Lemma server_can_stop_witness : wedged stopped_early.
Proof.
  apply (proj2 (server_can_stop true stopped_early stopped_early_reachable)).
  intros (s' & Hs & He & _). destruct (wedged_forever _ _ Hs) as [_ Hw]; [by split|by rewrite He in Hw].
Defined.

(** A server whose context is cancelled right after it was elected may hang: it reaches a state
    where the context is cancelled, and whatever happens afterwards its goroutines never all end,
    so that it neither returns nor resigns. *)
Theorem shutdown_can_hang :
  exists s, rtc server_step (runLoop true) s /\ sv_cancelled s = true
    /\ forall s', rtc server_step s s' -> ~ all_ended s'.
Proof.
  exists stopped_early. split; [apply stopped_early_reachable|]. split; [done|].
  intros s' Hs (He & _). destruct (wedged_forever _ _ Hs) as [_ Hw]; [by split|by rewrite He in Hw].
Qed.
