(* ===== verification/LocalProxy.v ===== *)
(** * The local proxy (localproxy/)

    cke-localproxy runs kube-proxy and unbound on the machine it runs on.  Once in a while it
    looks whether they run as they should and boots or restarts them.  Logs are left out. *)

From Stdlib Require Import ZArith Ascii String Lia.
From stdpp Require Import base gmap strings list.
From S2P Require Import Prelude GoLib GoFormat K8s Cluster Queue Resource Status Storage Reboot Dns Params Cli.
From S2P Require Import Operators Engine Strategy Survey Pki Files Commands Control.

Definition UnboundImage : string := "ghcr.io/cybozu/unbound:1.25.1.1".
Definition unboundContainerName : string := "cke-unbound".
Definition unboundConfPath : string := "/etc/unbound/unbound.conf".

(** localproxy/status.go *)
Record status := mkStatus {
  lp_apiServers : list string;
  lp_proxyRunning : bool;
  lp_proxyImage : string;
  lp_unboundConf : string;
  lp_desiredUnboundConf : string;
  lp_unboundRunning : bool;
  lp_unboundImage : string
}.

(** localproxy/op.go *)
Definition localNode : Node := mkNode "localhost" "" "" false ∅ ∅ [].
Definition ckeNodes : list Node := [localNode].

Section localproxy.
  Context {T : K8sTypes} {K : K8s} `{Runtime} `{!Etcd} `{!Platform} `{!Network} `{Docker} `{!Vault}.
  Context `{!Agents} `{!Executor} `{!Tools} `{!Encoders} (IPAdd : list Z -> Z -> list Z) (cas : nat).

(** What docker ps prints, files of the machine, and connections to API servers. *)
Class LocalHost := {
  docker_ps_output : daemon -> daemon * option string;
  read_file : string -> daemon -> daemon * answer string;
  dial_api_server : string -> platform -> platform * bool
}.
Context `{!LocalHost}.

(** ** The engine (localproxy/infrastructure.go)

    There is one engine, whatever the address; the operators of the local proxy have no node but
    [localNode], so that the address is always the same.  The containers of tools differ from those of
    the nodes only in the labels of their volumes, which [DockerTool] does not have. *)
Definition local_volume_flag (m : Mount) : string :=
  let opts := [if mnt_ReadOnly m then "ro" else "rw"]
    ++ (if (0 <? String.length (mnt_Propagation m))%nat then [mnt_Propagation m] else [])
    ++ (if (0 <? String.length (mnt_Label m))%nat then [mnt_Label m] else [])
  in "--volume=" +:+ mnt_Source m +:+ ":" +:+ mnt_Destination m +:+ ":" +:+ Join opts ",".
(** Unlike that of the nodes, the engine removes containers when they end. *)
Definition local_RunSystem (name img : string) (opts : list string) (params extra : ServiceParams) : eng unit :=
  let flags :=
    ["--rm"; "--log-driver=journald"; "-d"; "--name=" +:+ name; "--read-only"; "--network=host"; "--uts=host"]
    ++ opts
    ++ (local_volume_flag <$> (ExtraBinds params ++ ExtraBinds extra))
    ++ env_flags (ExtraEnvvar params) ++ env_flags (ExtraEnvvar extra) in
  let label := mkLabel params extra in
  _ ← run (tee_label label);
  run (docker_run (mkDockerRun name flags label img (ExtraArguments params ++ ExtraArguments extra))).
Definition local_runContainer (address name img : string) (opts : list string) (ps : RunParams)
    (extra : ServiceParams) (restart : bool) : eng unit :=
  _ ← (if restart then Kill name else mret tt);
  exists_ ← Exists name;
  _ ← (if (exists_ : bool) then Remove name else mret tt);
  local_RunSystem name img opts (params_for ps address) extra.

(** The other operations of the engine are those of the nodes; the machine is always there. *)
Definition newInfrastructure : ctl unit := set_agents {[ "localhost" ]}.

(** [inf.Vault()]: the client is made with the configuration in the storage.  It is kept for the rest of the
    round; reading the configuration again would give the same. *)
Definition local_Vault : ctl VaultConfig := store GetVaultConfig.

(** ** The status *)
Fixpoint running_in (name : string) (lines : list string) : bool * string :=
  match lines with
  | [] => (false, "")
  | line :: rest =>
      match Fields line with
      | [n; image] => if (n =? name)%string then (true, image) else running_in name rest
      | _ => running_in name rest
      end
  end.
Definition newline : ascii := ascii_of_nat 10.
Definition isRunning (name : string) : eng (bool * string) :=
  stdout ← query docker_ps_output; mret (running_in name (Split stdout newline)).

Fixpoint dial_all (nodes : list Node) : ctl (list string) :=
  match nodes with
  | [] => mret []
  | n :: rest =>
      if negb (node_ControlPlane n) then dial_all rest
      else
        ok ← net (dial_api_server (node_Address n +:+ ":6443"));
        others ← dial_all rest;
        mret (if (ok : bool) then node_Address n :: others else others)
  end.
Definition read_conf : eng string := fun d =>
  match read_file unboundConfPath d with
  | (d', Found s) => (d', Ok s)
  | (d', Missing) => (d', Ok "")
  | (d', Failed) => (d', Err (ErrUnexpected "failed to read"))
  end.
(** A service that is missing is an error. *)
Definition needed_service (namespace name : string) : ctl Service :=
  r ← optional (get_service namespace name);
  match r with Some svc => mret svc | None => raise (ErrUnexpected "failed to get the service") end.
Definition local_dns_servers (cluster : Cluster) : ctl (list string) :=
  if (c_DNSService cluster =? "")%string then mret (c_DNSServers cluster)
  else
    match Split (c_DNSService cluster) "/" with
    | [namespace; name] =>
        svc ← needed_service namespace name;
        mret (if (svc_ClusterIP svc =? "")%string then [] else [svc_ClusterIP svc])
    | _ => raise (ErrUnexpected ("invalid service reference in cluster config: " +:+ c_DNSService cluster))
    end.
Definition getStatus : ctl status :=
  cluster ← store GetCluster;
  apiServers ← dial_all (c_Nodes cluster);
  match apiServers with
  | [] => raise (ErrUnexpected "no kube-apiserver is available")
  | _ =>
      '(proxyRunning, proxyImage) ← engine "localhost" (isRunning "kube-proxy");
      unboundConf ← engine "localhost" read_conf;
      _ ← k8s_client;
      clusterDNS ← needed_service "kube-system" "cluster-dns";
      if (svc_ClusterIP clusterDNS =? "")%string
      then raise (ErrUnexpected "no clusterIP has been assigned to cluster-dns")
      else
        kubeletConfig ← pure_go (GenerateKubeletConfiguration (opt_Kubelet (c_Options cluster)) "0.0.0.0" None);
        let domain := kc_ClusterDomain kubeletConfig in
        dnsServers ← local_dns_servers cluster;
        let unboundConfigMap := nodedns_ConfigMap (svc_ClusterIP clusterDNS) domain dnsServers false in
        '(unboundRunning, unboundImage) ← engine "localhost" (isRunning "cke-unbound");
        mret (mkStatus apiServers proxyRunning proxyImage unboundConf
                (default "" (cm_Data unboundConfigMap !! "unbound.conf")) unboundRunning unboundImage)
  end.

(** ** Operators (localproxy/op.go) *)
Inductive local_operator : Type :=
| ProxyOp (o : Operator)
| unboundBootOp (conf : string)
| unboundRestartOp (conf : string).

Definition unbound_params : ServiceParams :=
  mkServiceParams ["-c"; unboundConfPath] [mkMount "/etc/unbound" "/etc/unbound" true "" ""] ∅.
Definition unbound_commands (restart : bool) : list Commander :=
  [ImagePullCommand ckeNodes UnboundImage; FilesBuilder ckeNodes;
   RunContainerCommand ckeNodes unboundContainerName UnboundImage ["--cap-add=NET_BIND_SERVICE"]
     (SameParams unbound_params) no_params restart].
Definition local_commands (o : local_operator) : list Commander :=
  match o with
  | ProxyOp o => commands o
  | unboundBootOp _ => unbound_commands false
  | unboundRestartOp _ => unbound_commands true
  end.
(** The files an operator starts with. *)
Definition local_files (o : local_operator) : list fileData :=
  match o with
  | ProxyOp _ => []
  | unboundBootOp conf | unboundRestartOp conf => [mkFileData unboundConfPath {[ "localhost" := conf ]}]
  end.

(** ** The strategy (localproxy/strategy.go) *)
Definition decideOps (c : Cluster) (currentAP : string) (st : status) : string * list local_operator :=
  match lp_apiServers st with
  | [] => ("", [])
  | first :: _ =>
      let newAP := if Contains (lp_apiServers st) currentAP then currentAP else first in
      let apURL := "https://" +:+ newAP +:+ ":6443" in
      let proxy_ops :=
        if negb (lp_proxyRunning st) then
          [ProxyOp (KubeProxyBootOp ckeNodes (c_Name c) apURL (opt_Proxy (c_Options c)))]
        else if negb (newAP =? currentAP)%string || negb (lp_proxyImage st =? KubernetesImage)%string then
          [ProxyOp (KubeProxyRestartOp ckeNodes (c_Name c) apURL (opt_Proxy (c_Options c)))]
        else [] in
      let unbound_ops :=
        if negb (lp_unboundRunning st) then [unboundBootOp (lp_desiredUnboundConf st)]
        else if negb (lp_unboundConf st =? lp_desiredUnboundConf st)%string
                || negb (lp_unboundImage st =? UnboundImage)%string
        then [unboundRestartOp (lp_desiredUnboundConf st)]
        else [] in
      (newAP, proxy_ops ++ unbound_ops)
  end.

(** ** The loop (localproxy/run.go) *)
Definition local_Run (c : Commander) (files : list fileData) : ctl (list fileData) :=
  match c with
  | RunContainerCommand nodes name img opts ps extra restart =>
      _ ← on_each_node nodes (fun n => local_runContainer (node_Address n) name img opts ps extra restart);
      mret files
  | prepareProxyFilesCommand _ _ _ _ =>
      _ ← local_Vault; '(_, files) ← Run IPAdd cas c "" files; mret files
  | _ => '(_, files) ← Run IPAdd cas c "" files; mret files
  end.
Fixpoint run_local_commands (cmds : list Commander) (files : list fileData) : ctl unit :=
  match cmds with
  | [] => mret tt
  | c :: rest =>
      done ← net ctx_done;
      if (done : bool) then mret tt
      else files ← local_Run c files; run_local_commands rest files
  end.
Definition local_runOp (o : local_operator) : ctl unit := run_local_commands (local_commands o) (local_files o).
Fixpoint run_all_ops (ops : list local_operator) : ctl unit :=
  match ops with
  | [] => mret tt
  | o :: rest => _ ← caught (local_runOp o); run_all_ops rest
  end.
(** The API server to use from now on. *)
Definition local_runOnce (currentAP : string) : ctl string :=
  _ ← newInfrastructure;
  cluster ← caught (store GetCluster);
  match cluster with
  | Err ErrNotFound => mret currentAP
  | Err e => raise e
  | Ok cluster =>
      st ← caught getStatus;
      match st with
      | Err _ => mret currentAP
      | Ok st =>
          let '(ap, ops) := decideOps cluster currentAP st in
          match ops with
          | [] => mret currentAP
          | _ => _ ← run_all_ops ops; mret ap
          end
      end
  end.
End localproxy.
