(* ===== verification/Samples.v ===== *)
(** * Sample clusters

    A cluster of three control plane nodes and two workers on which every
    service runs with its current parameters, and variations of its status.
    The witnesses of the strategy's properties evaluate on them. *)

From Stdlib Require Import ZArith Ascii String Lia.
From stdpp Require Import base gmap strings list.
From S2P Require Import Prelude GoLib K8s Cluster Queue Resource Status Dns Params NodeFilter.
From S2P Require Import Operators Strategy.

Definition sample_now : Z := 1800000000 * 10 ^ 9.

Section samples.
  Existing Instance sample_types.
  Existing Instance sample_k8s.
  Existing Instance std_runtime.

Definition get {A} (d : A) (m : go A) : A := match m with Ret a => a | Panic _ => d end.

Definition running (image : string) (builtIn extra : ServiceParams) : ServiceStatus :=
  mkServiceStatus true image builtIn extra.

(** The status of a node on which everything is up to date. *)
Definition good_status (c : Cluster) (n : Node) : NodeStatus :=
  let opts := c_Options c in
  let cp := ControlPlanes (c_Nodes c) in
  let isCP := node_ControlPlane n in
  let on (s : ServiceStatus) := if isCP then s else zero_ServiceStatus in
  let kubeletConfig := get zero_KubeletConfiguration
        (GenerateKubeletConfiguration (opt_Kubelet opts) (node_Address n) None) in
  let api := opt_APIServer opts in
  mkNodeStatus true
    (mkEtcdStatus (on (running EtcdImage (etcd_BuiltInParams n (addrs cp) "new")
                         (etcd_ServiceParams (opt_Etcd opts)))) isCP isCP)
    (running ToolsImage (RiversParams cp RiversUpstreamPort RiversListenPort) (opt_Rivers opts))
    (on (running ToolsImage (RiversParams cp EtcdRiversUpstreamPort EtcdRiversListenPort)
           (opt_EtcdRivers opts)))
    (mkKubeComponentStatus
       (on (running KubernetesImage
              (apiserver_params (node_Address n) (c_ServiceSubnet c) (AuditLogEnabled api)
                 (AuditLogPolicy api) (AuditLogPath api) (kc_ClusterDomain kubeletConfig))
              (api_ServiceParams api))) isCP)
    (mkKubeComponentStatus
       (on (running KubernetesImage (ControllerManagerParams (c_Name c) (c_ServiceSubnet c))
              (opt_ControllerManager opts))) isCP)
    (mkSchedulerStatus
       (on (running KubernetesImage scheduler_params (sched_ServiceParams (opt_Scheduler opts))))
       isCP
       (Some (get zero_KubeSchedulerConfiguration
                (GenerateSchedulerConfiguration (opt_Scheduler opts)))))
    (mkProxyStatus
       (running KubernetesImage proxy_params (proxy_ServiceParams (opt_Proxy opts))) true
       (Some (get zero_KubeProxyConfiguration (GenerateProxyConfiguration (opt_Proxy opts) n))))
    (mkKubeletStatus
       (running KubernetesImage (KubeletServiceParams n (opt_Kubelet opts))
          (kubelet_ServiceParams (opt_Kubelet opts))) true (Some kubeletConfig)).

Definition with_ssh (b : bool) (st : NodeStatus) : NodeStatus :=
  mkNodeStatus b (ns_Etcd st) (ns_Rivers st) (ns_EtcdRivers st) (ns_APIServer st)
    (ns_ControllerManager st) (ns_Scheduler st) (ns_Proxy st) (ns_Kubelet st).

(** A node that cannot be surveyed has the zero status. *)
Definition unreachable_status : NodeStatus :=
  mkNodeStatus false (mkEtcdStatus zero_ServiceStatus false false) zero_ServiceStatus
    zero_ServiceStatus (mkKubeComponentStatus zero_ServiceStatus false)
    (mkKubeComponentStatus zero_ServiceStatus false)
    (mkSchedulerStatus zero_ServiceStatus false None) (mkProxyStatus zero_ServiceStatus false None)
    (mkKubeletStatus zero_ServiceStatus false None).

Definition with_apiserver (s : KubeComponentStatus) (st : NodeStatus) : NodeStatus :=
  mkNodeStatus (ns_SSHConnected st) (ns_Etcd st) (ns_Rivers st) (ns_EtcdRivers st) s
    (ns_ControllerManager st) (ns_Scheduler st) (ns_Proxy st) (ns_Kubelet st).

Definition with_etcd (s : EtcdStatus) (st : NodeStatus) : NodeStatus :=
  mkNodeStatus (ns_SSHConnected st) s (ns_Rivers st) (ns_EtcdRivers st) (ns_APIServer st)
    (ns_ControllerManager st) (ns_Scheduler st) (ns_Proxy st) (ns_Kubelet st).

(** The API server of the node runs another image. *)
Definition old_apiserver (st : NodeStatus) : NodeStatus :=
  let svc := kcs_Service (ns_APIServer st) in
  with_apiserver (mkKubeComponentStatus
    (mkServiceStatus true "ghcr.io/cybozu/kubernetes:1.34.0" (ss_BuiltInParams svc)
       (ss_ExtraParams svc)) (kcs_IsHealthy (ns_APIServer st))) st.

(** The API server of the node runs but does not answer. *)
Definition sick_apiserver (st : NodeStatus) : NodeStatus :=
  with_apiserver (mkKubeComponentStatus (kcs_Service (ns_APIServer st)) false) st.

Definition good_statuses (c : Cluster) : gmap string NodeStatus :=
  foldl (fun m n => <[ node_Address n := good_status c n ]> m) ∅ (c_Nodes c).

Definition good_etcd (c : Cluster) : EtcdClusterStatus :=
  let cp := ControlPlanes (c_Nodes c) in
  mkEtcdClusterStatus true
    (foldl (fun m n => <[ node_Address n := mkMember 1 (node_Address n) [] ]> m) ∅ cp)
    (foldl (fun m n => <[ node_Address n := true ]> m) ∅ cp).

Definition good_object (c : Cluster) (n : Node) : KubeNode :=
  updated_attrs n (mkKubeNode (Nodename n) ∅ ∅ [] false [("Ready", "True")] false) (c_TaintCP c).

Definition good_k8s (c : Cluster) : KubernetesClusterStatus :=
  let cp := addrs (ControlPlanes (c_Nodes c)) in
  let domain := kc_ClusterDomain (get zero_KubeletConfiguration
        (GenerateKubeletConfiguration (opt_Kubelet (c_Options c)) "0.0.0.0" None)) in
  let master := mkEndpointParams "default" "kubernetes" cp [] 6443 "https" "kubernetes" in
  let etcd := mkEndpointParams "kube-system" EtcdEndpointsName cp [] 2379 "" EtcdServiceName in
  mkKubernetesClusterStatus true (good_object c <$> c_Nodes c) None
    (mkClusterDNSStatus (Some (clusterdns_ConfigMap domain (c_DNSServers c))) "10.68.0.10")
    (Some (nodedns_ConfigMap "10.68.0.10" domain (c_DNSServers c) true))
    (Some (expected_endpoints master)) (Some (expected_slice master))
    (Some (mkService [2379] "ClusterIP" "None"))
    (Some (expected_endpoints etcd)) (Some (expected_slice etcd)) ∅.

Definition no_repairs : RepairQueueStatus := mkRepairQueueStatus true [] ∅ ∅.
Definition no_reboots : RebootQueueStatus := mkRebootQueueStatus true [] [] [] [] [] [].

Definition status_with (c : Cluster) (nodes : gmap string NodeStatus)
    (repairs : RepairQueueStatus) (reboots : RebootQueueStatus) : ClusterStatus :=
  mkClusterStatus ConfigVersion nodes (good_etcd c) (good_k8s c) repairs reboots.

Definition sample_cluster1 : Cluster := sample_cluster sample_nodes (Some 2).
Definition sample_status : ClusterStatus :=
  status_with sample_cluster1 (good_statuses sample_cluster1) no_repairs no_reboots.

(** The same survey with some nodes changed. *)
Definition sample_status_on (changes : list (string * (NodeStatus -> NodeStatus)))
    : ClusterStatus :=
  status_with sample_cluster1
    (foldl (fun m '(a, f) => alter f a m) (good_statuses sample_cluster1) changes)
    no_repairs no_reboots.

Definition sample_decide (cs : ClusterStatus) : go (list Operator * OperationPhase) :=
  DecideOps [] sample_now sample_cluster1 cs DefaultConstraints [] 10.

(** Nothing is left to do on the sample cluster. *)
Example sample_completed : sample_decide sample_status = Ret ([], PhaseCompleted).
Proof. vm_compute. reflexivity. Qed.

(** A cluster without etcd data is bootstrapped, unless a control plane node
    is unreachable. *)
Definition no_etcd (st : NodeStatus) : NodeStatus :=
  with_etcd (mkEtcdStatus zero_ServiceStatus false false) st.
Definition no_etcd_on_cp : list (string * (NodeStatus -> NodeStatus)) :=
  [("10.0.0.11", no_etcd); ("10.0.0.12", no_etcd); ("10.0.0.13", no_etcd)].
Example sample_etcd_boot :
  snd <$> sample_decide (sample_status_on no_etcd_on_cp) = Ret PhaseEtcdBoot.
Proof. vm_compute. reflexivity. Qed.
Example sample_etcd_boot_aborted :
  sample_decide (sample_status_on (no_etcd_on_cp ++ [("10.0.0.12", with_ssh false)]))
  = Ret ([], PhaseEtcdBootAborted).
Proof. vm_compute. reflexivity. Qed.

(** Two outdated API servers are updated one at a time, behind endpoints that
    no longer list the one being restarted. *)
Example sample_apiserver_update :
  exists ep eps restart,
    sample_decide (sample_status_on [("10.0.0.12", old_apiserver); ("10.0.0.13", old_apiserver)])
    = Ret ([KubeEndpointsUpdateOp (Some (sample_node "10.0.0.11" true)) ep;
            KubeEndpointSliceUpdateOp (Some (sample_node "10.0.0.11" true)) eps;
            APIServerRestartOp [sample_node "10.0.0.12" true] "10.68.0.0/16"
              (opt_APIServer sample_options) restart], PhaseK8sStart).
Proof. eexists _, _, _. vm_compute. reflexivity. Qed.
End samples.
