(* ===== verification/StrategyTotal.v ===== *)
(** * The strategy never panics

    For a validated configuration and a status that covers every node of it,
    [DecideOps] returns: no nil pointer is dereferenced, no configuration
    generator panics, no slice is cut out of bounds and the repair loop stops. *)

From Stdlib Require Import ZArith Ascii String Lia.
From stdpp Require Import base gmap strings list.
From S2P Require Import Prelude GoLib K8s Cluster Queue Resource Status Dns Params NodeFilter.
From S2P Require Import Operators Strategy.

Create HintDb cke_total.

Section total.
  Context {T : K8sTypes} {K : K8s} `{Runtime}.
  Implicit Types (c : Cluster) (cs : ClusterStatus) (nf : NodeFilter).

(** ** Well-formed inputs *)

(** What [GetClusterStatus] and the repair queue guarantee: a status for every
    node of the configuration, and steps that count from zero. *)
Record complete_status c cs : Prop := {
  st_nodes : forall n, n ∈ c_Nodes c -> is_Some (cs_NodeStatuses cs !! node_Address n);
  st_steps : forall e, e ∈ rps_Entries (cs_RepairQueue cs) -> 0 <= rpe_Step e
}.

(** The same for a filter. *)
Record wf_filter nf : Prop := {
  wf_valid : valid_cluster (nf_cluster nf);
  wf_all : has_status nf (AllNodes nf);
  wf_cp : forall n, n ∈ ControlPlaneNodes nf -> n ∈ AllNodes nf;
  wf_map : forall a n, nf_nodeMap nf !! a = Some n -> n ∈ AllNodes nf
}.

Lemma NewNodeFilter_wf c cs :
  valid_cluster c -> complete_status c cs -> wf_filter (NewNodeFilter c cs).
Proof.
  intros Hv Hs. split.
  - by rewrite NewNodeFilter_cluster.
  - intros n. rewrite NewNodeFilter_nodes. unfold nodeStatus. rewrite NewNodeFilter_status.
    apply (st_nodes _ _ Hs).
  - intros n. rewrite NewNodeFilter_cp, NewNodeFilter_nodes. apply cp_subset.
  - intros a n Hn. rewrite NewNodeFilter_nodes. by apply NewNodeFilter_nodeMap in Hn as [? _].
Qed.

(** The filters that may skip the targets keep a sublist of them. *)
Lemma ProxyStopped_sub nf l r n : ProxyStopped nf l = Ret r -> n ∈ r -> n ∈ l.
Proof.
  unfold ProxyStopped. case_match; [intros [= <-]; set_solver|apply go_filter_sub].
Qed.
Lemma ProxyRunningUnexpectedly_sub nf l r n :
  ProxyRunningUnexpectedly nf l = Ret r -> n ∈ r -> n ∈ l.
Proof.
  unfold ProxyRunningUnexpectedly. case_match; [intros [= <-]; set_solver|apply go_filter_sub].
Qed.
Lemma ProxyOutdated_sub nf l p r n : ProxyOutdated nf l p = Ret r -> n ∈ r -> n ∈ l.
Proof.
  unfold ProxyOutdated. case_match; [intros [= <-]; set_solver|apply go_filter_sub].
Qed.
Lemma SchedulerOutdated_sub nf l p r n : SchedulerOutdated nf l p = Ret r -> n ∈ r -> n ∈ l.
Proof. unfold SchedulerOutdated. intros Hr. go_inv Hr. by apply (go_filter_sub _ _ _ _ Hr). Qed.
Lemma APIServerOutdated_sub nf l r n : APIServerOutdated nf l = Ret r -> n ∈ r -> n ∈ l.
Proof. unfold APIServerOutdated. intros Hr. go_inv Hr. by apply (go_filter_sub _ _ _ _ Hr). Qed.

(** ** Filters return *)
Section filters.
  Context (nf : NodeFilter) (Hwf : wf_filter nf).

Lemma cp_has_status : has_status nf (ControlPlaneNodes nf).
Proof. intros n Hn. by apply (wf_all _ Hwf), (wf_cp _ Hwf). Qed.

Lemma all_has_status : has_status nf (AllNodes nf).
Proof. apply (wf_all _ Hwf). Qed.

Lemma filtered_has_status (p : Node -> go bool) l r :
  has_status nf l -> go_filter p l = Ret r -> has_status nf r.
Proof. intros Hl Hr n Hn. by apply Hl, (go_filter_sub _ _ _ _ Hr). Qed.

Lemma SSHConnected_returns l : has_status nf l -> returns (SSHConnected nf l).
Proof. apply filter_status_returns. Qed.
Lemma SSHNotConnected_returns l : has_status nf l -> returns (SSHNotConnected nf l).
Proof. apply filter_status_returns. Qed.

Lemma kubelet_config_returns addr running :
  returns (GenerateKubeletConfiguration (opt_Kubelet (c_Options (nf_cluster nf))) addr running).
Proof. apply GenerateKubeletConfiguration_ok, (wf_valid _ Hwf). Qed.

Lemma first_healthy_returns l : has_status nf l -> returns (first_healthy nf l).
Proof.
  induction l as [|n l IH]; intros Hl; simpl; [apply returns_ret|]. go_returns.
  - apply returns_deref, Hl. set_solver.
  - case_match; [apply returns_ret|]. apply IH. intros m Hm. apply Hl. set_solver.
Qed.

Lemma HealthyAPIServer_returns : returns (HealthyAPIServer nf).
Proof. apply first_healthy_returns, cp_has_status. Qed.

Lemma status_filter_returns (k : Node -> NodeStatus -> go bool) l :
  has_status nf l -> (forall n st, returns (k n st)) ->
  returns (go_filter (fun n => st ← deref (nodeStatus nf n); k n st) l).
Proof.
  intros Hl Hk. apply returns_go_filter. intros n Hn. go_returns; [by apply returns_deref, Hl|].
  apply Hk.
Qed.

Lemma APIServerOutdated_returns l : has_status nf l -> returns (APIServerOutdated nf l).
Proof.
  intros Hl. unfold APIServerOutdated. go_returns; [apply kubelet_config_returns|].
  apply status_filter_returns; [done|]. intros. apply returns_ret.
Qed.

Lemma SchedulerOutdated_returns l :
  has_status nf l ->
  returns (SchedulerOutdated nf l (opt_Scheduler (c_Options (nf_cluster nf)))).
Proof.
  intros Hl. unfold SchedulerOutdated. go_returns.
  - apply GenerateSchedulerConfiguration_ok, (wf_valid _ Hwf).
  - by apply filter_status_returns.
Qed.

Lemma KubeletOutdated_returns l : has_status nf l -> returns (KubeletOutdated nf l).
Proof.
  intros Hl. apply status_filter_returns; [done|]. intros. go_returns.
  apply kubelet_config_returns.
Qed.

Lemma KubeletUnrecognized_returns l : has_status nf l -> returns (KubeletUnrecognized nf l).
Proof. intros Hl. apply status_filter_returns; [done|]. intros. apply returns_ret. Qed.

Lemma ProxyStopped_returns l : has_status nf l -> returns (ProxyStopped nf l).
Proof.
  intros. unfold ProxyStopped. case_match; [apply returns_ret|by apply filter_status_returns].
Qed.
Lemma ProxyRunningUnexpectedly_returns l :
  has_status nf l -> returns (ProxyRunningUnexpectedly nf l).
Proof.
  intros. unfold ProxyRunningUnexpectedly.
  case_match; [apply returns_ret|by apply filter_status_returns].
Qed.
Lemma ProxyOutdated_returns l :
  has_status nf l -> returns (ProxyOutdated nf l (opt_Proxy (c_Options (nf_cluster nf)))).
Proof.
  intros Hl. unfold ProxyOutdated. case_match; [apply returns_ret|].
  apply status_filter_returns; [done|]. intros. go_returns.
  apply GenerateProxyConfiguration_ok, (wf_valid _ Hwf).
Qed.

Lemma EtcdStopped_returns l : has_status nf l -> returns (EtcdStopped nf l).
Proof.
  intros Hl. apply returns_go_filter. intros n Hn.
  repeat (case_match; go_returns); by apply returns_deref, Hl.
Qed.

Lemma EtcdBootstrapped_returns : returns (EtcdBootstrapped nf).
Proof.
  apply returns_go_existsb. intros n Hn. go_returns. by apply returns_deref, cp_has_status.
Qed.

Lemma EtcdOutdatedMembers_returns : returns (EtcdOutdatedMembers nf).
Proof. apply status_filter_returns; [apply cp_has_status|]. intros. apply returns_ret. Qed.

Lemma map_has_status a n : nf_nodeMap nf !! a = Some n -> is_Some (nodeStatus nf n).
Proof. intros Hn. by eapply (wf_all _ Hwf), (wf_map _ Hwf). Qed.

Lemma count_in_sync_returns l k : returns (count_in_sync nf l k).
Proof.
  revert k. induction l as [|[a [|]] l IH]; intros k; simpl; [apply returns_ret|apply IH|].
  destruct (nf_nodeMap nf !! a) as [n|] eqn:Hn; [|apply returns_ret].
  case_match; [apply returns_ret|]. go_returns.
  - by eapply returns_deref, map_has_status.
  - case_match; [apply returns_ret|apply IH].
Qed.

Lemma EtcdIsGoodForRepair_returns n : returns (EtcdIsGoodForRepair nf n).
Proof.
  unfold EtcdIsGoodForRepair. case_match; [apply returns_ret|]. go_returns.
  - apply count_in_sync_returns.
  - case_match; apply returns_ret.
Qed.

Lemma EtcdUnmarkedMembers_returns : returns (EtcdUnmarkedMembers nf).
Proof.
  unfold EtcdUnmarkedMembers. generalize (range (es_InSyncMembers (cs_Etcd (nf_status nf)))).
  intros l. induction l as [|[a [|]] l IH]; simpl; [apply returns_ret| |apply IH].
  destruct (nf_nodeMap nf !! a) as [n|] eqn:Hn; [|apply IH].
  case_match; [apply IH|]. go_returns.
  - by eapply returns_deref, map_has_status.
  - case_match; [apply IH|]. go_returns. apply IH.
Qed.

Lemma EtcdNonCPMembers_has_status b : has_status nf (fst (EtcdNonCPMembers nf b)).
Proof.
  unfold EtcdNonCPMembers. intros n. simpl. rewrite list_elem_of_fmap.
  intros ([n' i] & -> & Hin). apply list_elem_of_omap in Hin as ([a v] & _ & Hv).
  destruct (nf_nodeMap nf !! a) as [m|] eqn:Hm; [|done].
  do 2 (case_match; [done|]). injection Hv as <- _. simpl. by eapply map_has_status.
Qed.
End filters.

(** ** The parts of the strategy return *)

Lemma limited_op_for_returns max nodes mk : 0 <= max -> returns (limited_op_for max nodes mk).
Proof.
  intros Hm. unfold limited_op_for. case_match; [apply returns_ret|]. go_returns.
  apply returns_slice_to. unfold len. simpl. lia.
Qed.

Lemma decideEpEpsOps_returns expect actualEP actualEPS api :
  returns (decideEpEpsOps expect actualEP actualEPS api).
Proof.
  unfold decideEpEpsOps. go_returns.
  - unfold decideEpOp. destruct actualEP as [[ns name labels subsets]|]; [|apply returns_ret].
    cbn [ep_Subsets ep_Labels]. destruct subsets as [|sub [|]]; try apply returns_ret.
    case_match; [apply returns_ret|]. simpl.
    destruct (ss_Ports sub) as [|[pn port] [|]]; try apply returns_ret.
    repeat (case_match; try apply returns_ret).
  - unfold decideEpsOp. destruct actualEPS as [eps|]; [|apply returns_ret].
    do 3 (case_match; [apply returns_ret|]). go_returns.
    + apply returns_go_existsb. intros [x y] Hxy%elem_of_zip_r.
      unfold endpoint_differs. case_match; [|apply returns_ret]. go_returns.
      apply returns_deref. unfold expected_slice in Hxy. cbn [eps_Endpoints] in Hxy.
      apply list_elem_of_fmap in Hxy as (ip & -> & _). by eexists.
    + case_match; [apply returns_ret|].
      destruct (eps_Ports eps) as [|[[nm|] pt] [|]]; try apply returns_ret.
      cbn [index expected_slice eps_Ports]. simpl. case_match; [apply returns_ret|].
      destruct pt; [|apply returns_ret]. simpl. case_match; apply returns_ret.
Qed.

Section parts.
  Context (c : Cluster) (cs : ClusterStatus) (nf : NodeFilter).
  Context (Hwf : wf_filter nf) (Hc : nf_cluster nf = c) (Hcs : nf_status nf = cs).
  Context (max : Z) (Hmax : 0 <= max).

(** Every list of nodes the strategy filters comes from the nodes of the
    cluster by filters. *)
Ltac node_list :=
  solve [ apply cp_has_status; assumption
        | apply all_has_status; assumption
        | match goal with
          | Hr : ?f = Ret ?r |- has_status _ ?r =>
              let n := fresh in let Hn := fresh in
              intros n Hn;
              first [ apply (filter_status_sub _ _ _ _ _ Hr) in Hn
                    | apply (go_filter_sub _ _ _ _ Hr) in Hn
                    | apply (SchedulerOutdated_sub _ _ _ _ _ Hr) in Hn
                    | apply (APIServerOutdated_sub _ _ _ _ Hr) in Hn
                    | apply (ProxyOutdated_sub _ _ _ _ _ Hr) in Hn
                    | apply (ProxyStopped_sub _ _ _ _ Hr) in Hn
                    | apply (ProxyRunningUnexpectedly_sub _ _ _ _ Hr) in Hn ];
              first [ apply (all_has_status _ Hwf _ Hn) | apply (cp_has_status _ Hwf _ Hn) ]
          end ].
Ltac part :=
  first [ apply limited_op_for_returns; assumption
        | apply HealthyAPIServer_returns; assumption
        | apply kubelet_config_returns; assumption
        | apply decideEpEpsOps_returns
        | apply APIServerOutdated_returns; [assumption|node_list]
        | apply SchedulerOutdated_returns; [assumption|node_list]
        | apply KubeletOutdated_returns; [assumption|node_list]
        | apply KubeletUnrecognized_returns; node_list
        | apply ProxyStopped_returns; node_list
        | apply ProxyRunningUnexpectedly_returns; node_list
        | apply ProxyOutdated_returns; [assumption|node_list]
        | apply filter_status_returns; node_list ].

Lemma riversOps_returns : returns (riversOps c nf max).
Proof. unfold riversOps. go_returns; part. Qed.

Lemma masterEndpointOps_returns marked : returns (masterEndpointOps cs nf marked).
Proof. unfold masterEndpointOps. go_returns; part. Qed.

Lemma master_ops_if_healthy_returns : returns (master_ops_if_healthy cs nf).
Proof.
  unfold master_ops_if_healthy. go_returns; [part|].
  case_match; [apply masterEndpointOps_returns|apply returns_ret].
Qed.

Lemma apiserver_restart_returns nodes : returns (apiserver_restart c nodes).
Proof. unfold apiserver_restart. rewrite <- Hc. go_returns; part. Qed.

(** The API servers looked at first are the stopped ones and the unhealthy and
    outdated ones. *)
Lemma apiserverOps_returns : returns (apiserverOps c nf cs).
Proof.
  unfold apiserverOps. go_returns; try part.
  - apply SSHConnected_returns. intros n Hn.
    match goal with Ho : APIServerOutdated _ _ = Ret _, Hu : APIServerUnhealthy _ _ = Ret _ |- _ =>
      apply (APIServerOutdated_sub _ _ _ _ Ho) in Hn;
      apply (filter_status_sub _ _ _ _ _ Hu) in Hn end.
    by apply cp_has_status.
  - case_match.
    + go_returns; try part. case_match; go_returns;
        first [part|apply master_ops_if_healthy_returns|idtac].
      case_match; go_returns;
        first [apply masterEndpointOps_returns|apply apiserver_restart_returns].
    + go_returns; [apply master_ops_if_healthy_returns|apply apiserver_restart_returns].
Qed.

Lemma k8sOps_returns : returns (k8sOps c nf cs max).
Proof.
  unfold k8sOps. go_returns; [apply apiserverOps_returns|].
  destruct a as [ops [|]]; [apply returns_ret|]. rewrite <- Hc.
  go_returns; try part. case_match; [part|apply returns_ret].
Qed.

Lemma etcdMaintOp_returns : returns (etcdMaintOp c nf).
Proof.
  unfold etcdMaintOp. destruct (EtcdNonClusterMembers nf false); [|apply returns_ret].
  pose proof (EtcdNonCPMembers_has_status nf Hwf false) as Hf.
  pose proof (EtcdNonCPMembers_has_status nf Hwf true) as Ht.
  destruct (EtcdNonCPMembers nf false) as [[|n ns] ids]; cbn [fst] in *;
    [|go_returns; by apply SSHConnected_returns].
  destruct (EtcdUnstartedMembers nf); [|apply returns_ret].
  go_returns; [by apply EtcdUnmarkedMembers_returns|]. case_match; [|apply returns_ret].
  case_match; [apply returns_ret|]. case_match; [|apply returns_ret].
  case_match; [|apply returns_ret].
  destruct (EtcdNonCPMembers nf true) as [[|m ms] ids']; cbn [fst] in *.
  - go_returns; [by apply EtcdOutdatedMembers_returns|]. case_match; apply returns_ret.
  - go_returns. by apply SSHConnected_returns.
Qed.

Lemma decideClusterDNSOps_returns api ks : returns (decideClusterDNSOps api c ks).
Proof.
  unfold decideClusterDNSOps. rewrite <- Hc. go_returns; [part|].
  case_match; [case_match|]; apply returns_ret.
Qed.

Lemma decideNodeDNSOps_returns api ks : returns (decideNodeDNSOps api c ks).
Proof.
  unfold decideNodeDNSOps. case_match; [apply returns_ret|]. rewrite <- Hc. go_returns; [part|].
  case_match; [case_match|]; apply returns_ret.
Qed.

Lemma etcdEndpointOps_returns marked : returns (etcdEndpointOps cs nf marked).
Proof. unfold etcdEndpointOps. go_returns; part. Qed.

Lemma k8sMaintOps_returns static resources : returns (k8sMaintOps static c cs resources nf).
Proof.
  unfold k8sMaintOps. go_returns; [part|]. case_match; [apply returns_ret|]. go_returns.
  - apply decideClusterDNSOps_returns.
  - apply decideNodeDNSOps_returns.
  - apply etcdEndpointOps_returns.
Qed.

Lemma clean_targets_returns p : returns (clean_targets c nf p).
Proof.
  apply returns_go_filter. intros n Hn. rewrite <- Hc in Hn. go_returns.
  - apply returns_deref. by apply (wf_all _ Hwf).
  - case_match; apply returns_ret.
Qed.

Lemma cleanOps_returns : returns (cleanOps c nf).
Proof. unfold cleanOps. go_returns; apply clean_targets_returns. Qed.

Lemma rebootUncordonOp_returns : returns (rebootUncordonOp cs nf).
Proof. unfold rebootUncordonOp. case_match; [apply returns_ret|]. go_returns; part. Qed.

Lemma rebootOps_returns constraints : returns (rebootOps c cs constraints nf).
Proof.
  unfold rebootOps. go_returns_cases; try part.
  apply SSHNotConnected_returns. intros n [Hn _]%elem_of_filterb. by apply all_has_status.
Qed.

(** ** The repair loop *)

Lemma GetCurrentRepairStep_returns (e : RepairQueueEntry) :
  0 <= rpe_Step e -> returns (GetCurrentRepairStep e c).
Proof.
  intros He. unfold GetCurrentRepairStep. case_match; [|apply returns_ret].
  destruct (Z.leb_spec (len (RepairSteps a)) (rpe_Step e)); [apply returns_ret|].
  go_returns. unfold index. rewrite (proj2 (Z.ltb_ge _ _)) by lia. unfold len in *.
  destruct (lookup_lt_is_Some_2 (RepairSteps a) (Z.to_nat (rpe_Step e))) as [x ->]; [lia|].
  apply returns_ret.
Qed.

(** A waiting entry takes no jump, whatever the fuel. *)
Lemma run_step_waiting fuel now lim (e : RepairQueueEntry) :
  0 <= rpe_Step e -> rpe_StepStatus e = RepairStepStatusWaiting ->
  returns (run_step fuel c cs nf now lim e).
Proof.
  intros He Hw. destruct fuel; cbn [run_step]; rewrite Hw; go_returns_cases; try part;
    first [by apply GetCurrentRepairStep_returns | discriminate].
Qed.

Lemma run_step_returns fuel now lim (e : RepairQueueEntry) :
  0 <= rpe_Step e -> returns (run_step (S fuel) c cs nf now lim e).
Proof.
  intros He. cbn [run_step]. go_returns_cases; try part;
    try by apply GetCurrentRepairStep_returns.
  apply run_step_waiting; simpl; [lia|done].
Qed.

Lemma repair_loop_returns now lim n m es :
  (forall e, e ∈ es -> 0 <= rpe_Step e) -> returns (repair_loop c cs nf now lim n m es).
Proof.
  revert n m. induction es as [|e es IH]; intros n m Hes; cbn [repair_loop];
    [apply returns_ret|].
  case_match; [apply returns_ret|]. case_match; [apply IH; set_solver|].
  case_match; [apply IH; set_solver|]. go_returns.
  - apply (run_step_returns 0), Hes. set_solver.
  - apply IH. set_solver.
Qed.

Lemma sortedEntries_sub servers now e :
  e ∈ sortedEntries cs servers now -> e ∈ rps_Entries (cs_RepairQueue cs).
Proof. unfold sortedEntries. rewrite !elem_of_app, !elem_of_filterb. naive_solver. Qed.

Lemma repairOps_returns now :
  (forall e, e ∈ rps_Entries (cs_RepairQueue cs) -> 0 <= rpe_Step e) ->
  returns (repairOps c cs nf now).
Proof.
  intros Hsteps. unfold repairOps. go_returns. apply repair_loop_returns.
  intros e He%sortedEntries_sub. by apply Hsteps.
Qed.

(** ** The whole decision *)
Lemma DecideOps_filter_returns static now constraints resources :
  NewNodeFilter c cs = nf ->
  (forall e, e ∈ rps_Entries (cs_RepairQueue cs) -> 0 <= rpe_Step e) ->
  returns (DecideOps static now c cs constraints resources max).
Proof.
  intros Hnf Hsteps. unfold DecideOps. rewrite Hnf. go_returns_cases; try part;
    first
      [ apply riversOps_returns | apply EtcdBootstrapped_returns; assumption
      | apply EtcdStopped_returns, cp_has_status; assumption
      | apply k8sOps_returns | apply etcdMaintOp_returns | apply k8sMaintOps_returns
      | apply cleanOps_returns | apply rebootUncordonOp_returns | by apply repairOps_returns
      | apply EtcdIsGoodForRepair_returns; assumption | apply rebootOps_returns | idtac ].
Qed.
End parts.
End total.
