(* ===== verification/SurveyProps.v ===== *)
(** * What the survey reports

    A survey changes neither the storage nor containers and volumes, it does not
    panic for a validated configuration, and the statuses it reports are those of the
    containers and volumes on the nodes; they are all the strategy needs. *)

From Stdlib Require Import ZArith Ascii String Lia.
From stdpp Require Import base gmap strings list sorting.
From S2P Require Import Prelude GoLib GoFormat K8s Cluster Queue Resource Status Storage StorageProps Reboot.
From S2P Require Import Dns Params NodeFilter Operators Engine Strategy StrategyTotal Survey.

Create HintDb looks.

(** ** Operations that only look

    They leave the stored values alone and do not panic. *)
Section storage_looks.
  Context {T : K8sTypes} `{!Etcd}.

Definition sto_looks {A} (m : sto A) : Prop :=
  forall d, kvs (fst (m d)) = kvs d /\ forall w, snd (m d) <> Panicked w.

Lemma sto_looks_ret {A} (a : A) : sto_looks (mret a).
Proof. done. Qed.
Lemma sto_looks_throw {A} e : sto_looks (throw (A := A) e).
Proof. done. Qed.
Lemma sto_looks_bind {A B} (m : sto A) (k : A -> sto B) :
  sto_looks m -> (forall a, sto_looks (k a)) -> sto_looks (m ≫= k).
Proof.
  intros Hm Hk d. destruct (Hm d) as [Hd Hp]. unfold mbind, sto_bind.
  destruct (m d) as [d1 [[a|e]|w|]]; cbn in *; [|done|by edestruct Hp|done].
  destruct (Hk a d1) as [-> ?]. done.
Qed.
Lemma sto_looks_Get key : sto_looks (Get key).
Proof. intros d. by destruct (Get_cases key d) as (d' & Hs & [->| ->]). Qed.
Lemma sto_looks_GetPrefix prefix order : sto_looks (GetPrefix prefix order 0).
Proof. intros d. by destruct (GetPrefix_cases prefix order d) as (d' & Hs & [(l & -> & _)| ->]). Qed.
End storage_looks.

#[export] Hint Resolve sto_looks_ret sto_looks_throw sto_looks_Get sto_looks_GetPrefix : looks.
Ltac sto_looks :=
  repeat first [ by auto with looks | apply sto_looks_bind; [|intros ?]
               | match goal with |- sto_looks (match ?x with _ => _ end) => destruct x end ].

Section storage_operations.
  Context {T : K8sTypes} `{!Etcd} `{Runtime}.

Lemma looks_get_flag key : sto_looks (get_flag key).
Proof. unfold get_flag. sto_looks. Qed.
Lemma looks_text_of kv : sto_looks (text_of kv).
Proof. unfold text_of, malformed. sto_looks. Qed.
Lemma looks_GetConfigVersion : sto_looks GetConfigVersion.
Proof.
  assert (sto_looks (getStringValue KeyConfigVersion)) as Hg.
  { unfold getStringValue. sto_looks. apply looks_text_of. }
  intros d. destruct (Hg d) as [Hd Hp]. unfold GetConfigVersion.
  destruct (getStringValue KeyConfigVersion d) as [d1 [[v|[]]|w|]]; by cbn in *.
Qed.
Lemma looks_entries_of {E} `{!QueueEntry E} l : sto_looks (entries_of (E := E) l).
Proof.
  induction l as [|[k kv] l IH]; cbn [entries_of]; [apply sto_looks_ret|].
  unfold Storage.entry_of, malformed. sto_looks.
Qed.
Lemma looks_GetEntries {E} `{!QueueEntry E} : sto_looks (GetEntries (E := E)).
Proof. unfold GetEntries. sto_looks. apply looks_entries_of. Qed.
Lemma looks_GetAllResources : sto_looks GetAllResources.
Proof.
  unfold GetAllResources. sto_looks. rename a into l.
  induction l as [|[k kv] l IH]; cbn [resources_of]; [apply sto_looks_ret|].
  apply sto_looks_bind; [|intros; apply sto_looks_bind; [apply IH|sto_looks]].
  unfold resource_of. apply sto_looks_bind; [apply looks_text_of|intros; sto_looks].
Qed.
End storage_operations.
#[export] Hint Resolve looks_get_flag looks_text_of looks_GetConfigVersion looks_GetEntries
  looks_GetAllResources : looks.

Section queue_looks.
  Context {T : K8sTypes} {K : K8s} `{!Etcd} `{!Platform}.

(** The stored values and the agents are the same. *)
Definition same_sys (s s' : sys) : Prop := kvs (s_etcd s') = kvs (s_etcd s) /\ s_agents s' = s_agents s.
Lemma same_sys_refl s : same_sys s s.
Proof. done. Qed.
Lemma same_sys_trans s1 s2 s3 : same_sys s1 s2 -> same_sys s2 s3 -> same_sys s1 s3.
Proof. intros [? ?] [? ?]. split; congruence. Qed.

Definition drn_looks {A} (m : drn A) : Prop :=
  forall s, same_sys s (fst (m s)) /\ forall w, snd (m s) <> Panicked w.

Lemma drn_looks_ret {A} (a : A) : drn_looks (mret a).
Proof. done. Qed.
Lemma drn_looks_throws {A} e : drn_looks (throws (A := A) e).
Proof. done. Qed.
Lemma drn_looks_bind {A B} (m : drn A) (k : A -> drn B) :
  drn_looks m -> (forall a, drn_looks (k a)) -> drn_looks (m ≫= k).
Proof.
  intros Hm Hk d. destruct (Hm d) as [Hd Hp]. unfold mbind, drn_bind.
  destruct (m d) as [d1 [[a|e]|w|]]; cbn in *; [|done|by edestruct Hp|done].
  destruct (Hk a d1) as [? ?]. split; [by eapply same_sys_trans|done].
Qed.
Lemma drn_looks_attempt {A} (m : drn A) : drn_looks m -> drn_looks (attempt m).
Proof.
  intros Hm d. destruct (Hm d) as [Hd Hp]. unfold attempt.
  destruct (m d) as [d1 [r|w|]]; cbn in *; [done|by edestruct Hp|done].
Qed.
Lemma drn_looks_storage {A} (m : sto A) : sto_looks m -> drn_looks (storage m).
Proof.
  intros Hm s. destruct (Hm (s_etcd s)) as [Hd Hp]. unfold storage.
  by destruct (m (s_etcd s)) as [d r].
Qed.
Lemma drn_looks_ask {A} (f : platform -> platform * A) : drn_looks (ask f).
Proof. intros s. unfold ask. by destruct (f (s_platform s)). Qed.
Lemma drn_looks_request {A} c (f : platform -> platform * A) : drn_looks (request_api c f).
Proof. intros s. unfold request_api. by destruct (f (s_platform s)). Qed.
Lemma drn_looks_query {A} (f : platform -> platform * option A) : drn_looks (query_api f).
Proof. apply drn_looks_bind; [apply drn_looks_ask|by intros []]. Qed.
Lemma drn_looks_for_all {A} (f : A -> drn unit) l :
  (forall x, drn_looks (f x)) -> drn_looks (for_all f l).
Proof.
  intros Hf. induction l as [|x l IH]; cbn [for_all]; [done|]. by apply drn_looks_bind.
Qed.
Lemma drn_looks_filter {A} (f : A -> drn bool) l :
  (forall x, drn_looks (f x)) -> drn_looks (filter_by f l).
Proof.
  intros Hf. induction l as [|x l IH]; cbn [filter_by]; [done|].
  apply drn_looks_bind; [done|intros b]. by apply drn_looks_bind.
Qed.
Lemma drn_looks_collect f l m :
  (forall x, drn_looks (f x)) -> drn_looks (collect f l m).
Proof.
  intros Hf. revert m. induction l as [|x l IH]; intros m; cbn [collect]; [done|].
  apply drn_looks_bind; [done|intros b; apply IH].
Qed.
End queue_looks.
#[export] Hint Resolve drn_looks_ret drn_looks_throws drn_looks_ask drn_looks_request drn_looks_query : looks.
Ltac drn_looks :=
  repeat first [ by auto with looks | apply drn_looks_bind; [|intros ?] | apply drn_looks_attempt
               | apply drn_looks_for_all; intros ? | apply drn_looks_filter; intros ?
               | apply drn_looks_collect; intros ?
               | apply drn_looks_storage; by (unfold IsRebootQueueDisabled, IsRepairQueueDisabled,
                   GetRebootsEntries, GetRepairsEntries; auto with looks)
               | match goal with |- drn_looks (match ?x with _ => _ end) => destruct x end ].

Section queues.
  Context {T : K8sTypes} {K : K8s} `{!Etcd} `{!Platform}.

Lemma looks_checkPodDeletion node : drn_looks (checkPodDeletion node).
Proof. unfold checkPodDeletion, enumeratePods, handle_pod. drn_looks. Qed.
Lemma looks_K8sClient : drn_looks K8sClient.
Proof. unfold K8sClient. drn_looks. Qed.
Lemma looks_runCommand t c : drn_looks (runCommand t c).
Proof. unfold runCommand. drn_looks. Qed.
#[local] Hint Resolve looks_checkPodDeletion looks_K8sClient looks_runCommand : looks.

Lemma looks_drain_loop c t l completed timedout : drn_looks (drain_loop c t l completed timedout).
Proof.
  revert completed timedout. induction l as [|e l IH]; intros; cbn [drain_loop]; [done|].
  unfold drain_completed. drn_looks.
Qed.
Lemma looks_GetRebootQueueStatus c apis : drn_looks (GetRebootQueueStatus c apis).
Proof.
  unfold GetRebootQueueStatus, CheckDrainCompletion, CheckRebootDequeue, rebootCompleted. drn_looks.
  apply looks_drain_loop.
Qed.
Lemma looks_GetRepairQueueStatus c : drn_looks (GetRepairQueueStatus c).
Proof.
  unfold GetRepairQueueStatus, repair_healthy, repair_drained, isRepairTargetHealthy. drn_looks.
Qed.
End queues.

(** ** Containers and volumes are only looked at *)
Section engine_looks.
  Context `{Docker} `{Runtime}.

(** The daemons before and after a computation are related. *)
Definition eng_rel (R : daemon -> daemon -> Prop) {A} (m : eng A) : Prop := forall d, R d (fst (m d)).

Section relation.
  Context (R : daemon -> daemon -> Prop) `{!PreOrder R}.

Lemma eng_rel_end {A} (m : eng A) d d' r : m d = (d', r) -> eng_rel R m -> R d d'.
Proof. intros Hd Hm. specialize (Hm d). by rewrite Hd in Hm. Qed.
Lemma eng_rel_ret {A} (a : A) : eng_rel R (mret a).
Proof. intros d. reflexivity. Qed.
Lemma eng_rel_bind {A B} (m : eng A) (k : A -> eng B) :
  eng_rel R m -> (forall a, eng_rel R (k a)) -> eng_rel R (m ≫= k).
Proof.
  intros Hm Hk d. specialize (Hm d). unfold mbind, eng_bind. destruct (m d) as [d1 [a|e]]; cbn in *; [|done].
  etransitivity; [done|apply Hk].
Qed.
Lemma eng_rel_query {A} (cmd : daemon -> daemon * option A) :
  (forall d, R d (fst (cmd d))) -> eng_rel R (query cmd).
Proof. intros Hc d. specialize (Hc d). unfold query. by destruct (cmd d) as [d1 [a|]]. Qed.
Lemma eng_rel_run (cmd : daemon -> daemon * bool) : (forall d, R d (fst (cmd d))) -> eng_rel R (run cmd).
Proof. intros Hc d. specialize (Hc d). unfold run. by destruct (cmd d) as [d1 []]. Qed.

Lemma eng_rel_VolumeExists v : (forall d, R d (fst (docker_volume_list d))) -> eng_rel R (VolumeExists v).
Proof. intros Hl. apply eng_rel_bind; [by apply eng_rel_query|intros; apply eng_rel_ret]. Qed.
Lemma eng_rel_Inspect names :
  (forall l d, R d (fst (docker_ps l d))) -> (forall l d, R d (fst (docker_inspect l d))) ->
  eng_rel R (Inspect names).
Proof.
  intros Hps Hinspect. unfold Inspect. generalize 2%nat.
  assert (forall again, eng_rel R again -> eng_rel R (inspect_round names again)) as Hr.
  { intros again Ha. apply eng_rel_bind.
    - apply eng_rel_bind; [by apply eng_rel_query|intros; apply eng_rel_ret].
    - intros ids d. unfold inspect_ids. destruct (snd <$> range ids) as [|i l] eqn:Hi; [reflexivity|].
      rewrite <- Hi. pose proof (Hinspect (snd <$> range ids) d) as Hs.
      destruct (docker_inspect (snd <$> range ids) d) as [d1 [djs|]]; cbn in Hs.
      + etransitivity; [exact Hs|]. generalize (∅ : gmap string ServiceStatus). clear - PreOrder0.
        induction djs as [|[x ct] djs IH]; intros acc; cbn; [reflexivity|].
        destruct (ct_Label ct); [apply IH|reflexivity].
      + etransitivity; [exact Hs|apply Ha]. }
  induction n as [|n IH]; apply Hr; [intros d; reflexivity|apply IH].
Qed.
End relation.

Lemma same_state_refl d : same_state d d.
Proof. done. Qed.
#[export] Instance same_state_preorder : PreOrder same_state.
Proof. split; [intros d; apply same_state_refl|intros d1 d2 d3; apply same_state_trans]. Qed.

Definition eng_looks {A} (m : eng A) : Prop := eng_rel same_state m.
Lemma looks_VolumeExists v : eng_looks (VolumeExists v).
Proof. apply eng_rel_VolumeExists; [apply _|apply volume_list_same]. Qed.
Lemma looks_Inspect names : eng_looks (Inspect names).
Proof. apply eng_rel_Inspect; [apply _|apply ps_same|apply inspect_same]. Qed.
End engine_looks.

(** ** Computations of the server that only look *)
Section server_looks.
  Context {T : K8sTypes} {K : K8s} `{Runtime} `{!Etcd} `{!Platform} `{!Network} `{Docker}.

(** The stored values, the agents, the containers and the volumes are the same. *)
Definition kept_site (s s' : site) : Prop :=
  same_sys (st_sys s) (st_sys s')
  /\ forall a, same_state (st_world s a) (st_world s' a).

Lemma kept_refl s : kept_site s s.
Proof. split; [done|intros; apply same_state_refl]. Qed.
Lemma kept_trans s1 s2 s3 : kept_site s1 s2 -> kept_site s2 s3 -> kept_site s1 s3.
Proof.
  intros [E1 W1] [E2 W2]. split; [by eapply same_sys_trans|]. intros a. eapply same_state_trans; [apply W1|apply W2].
Qed.

Definition looks {A} (m : ctl A) : Prop :=
  forall s, kept_site s (fst (m s)) /\ forall w, snd (m s) <> Panicked w.

Lemma looks_ret {A} (a : A) : looks (mret a).
Proof. intros s. split; [apply kept_refl|done]. Qed.
Lemma looks_raise {A} e : looks (raise (A := A) e).
Proof. intros s. split; [apply kept_refl|done]. Qed.
Lemma looks_bind {A B} (m : ctl A) (k : A -> ctl B) :
  looks m -> (forall a, looks (k a)) -> looks (m ≫= k).
Proof.
  intros Hm Hk s. destruct (Hm s) as [Hd Hp]. unfold mbind, ctl_bind.
  destruct (m s) as [s1 [[a|e]|w|]]; cbn in *; [|done|by edestruct Hp|done].
  destruct (Hk a s1) as [? ?]. split; [by eapply kept_trans|done].
Qed.
Lemma looks_caught {A} (m : ctl A) : looks m -> looks (caught m).
Proof.
  intros Hm s. destruct (Hm s) as [Hd Hp]. unfold caught.
  destruct (m s) as [s1 [r|w|]]; cbn in *; [done|by edestruct Hp|done].
Qed.
Lemma looks_on_sys {A} (m : drn A) : drn_looks m -> looks (on_sys m).
Proof.
  intros Hm s. destruct (Hm (st_sys s)) as [Hd Hp]. unfold on_sys.
  destruct (m (st_sys s)) as [y r]; cbn in *. split; [|done]. split; [done|intros; apply same_state_refl].
Qed.
Lemma looks_store {A} (m : sto A) : sto_looks m -> looks (store m).
Proof. intros Hm. by apply looks_on_sys, drn_looks_storage. Qed.
Lemma looks_net {A} (f : platform -> platform * A) : looks (net f).
Proof. apply looks_on_sys, drn_looks_ask. Qed.

(** On a node with an agent. *)
Definition looks_at {A} (a : string) (m : ctl A) : Prop :=
  forall s, connected a s = true -> kept_site s (fst (m s)) /\ forall w, snd (m s) <> Panicked w.
Lemma looks_looks_at {A} a (m : ctl A) : looks m -> looks_at a m.
Proof. intros Hm s _. apply Hm. Qed.
Lemma connected_kept a s s' : kept_site s s' -> connected a s' = connected a s.
Proof. intros [[_ E] _]. unfold connected. by rewrite E. Qed.
Lemma looks_at_bind {A B} a (m : ctl A) (k : A -> ctl B) :
  looks_at a m -> (forall x, looks_at a (k x)) -> looks_at a (m ≫= k).
Proof.
  intros Hm Hk s Hc. destruct (Hm s Hc) as [Hd Hp]. unfold mbind, ctl_bind.
  destruct (m s) as [s1 [[x|e]|w|]]; cbn in *; [|done|by edestruct Hp|done].
  destruct (Hk x s1) as [? ?]; [by rewrite (connected_kept _ _ _ Hd)|]. split; [by eapply kept_trans|done].
Qed.
Lemma looks_Agent {A} a (k : bool -> ctl A) : looks (k false) -> looks_at a (k true) -> looks (Agent a ≫= k).
Proof.
  intros Hf Ht s. change ((Agent a ≫= k) s) with (k (connected a s) s).
  destruct (connected a s) eqn:Hc; [by apply Ht|apply Hf].
Qed.
Lemma looks_at_engine {A} a (m : eng A) : eng_looks m -> looks_at a (engine a m).
Proof.
  intros Hm s Hc. specialize (Hm (st_world s a)). unfold engine. rewrite Hc.
  destruct (m (st_world s a)) as [d r]; cbn in *. split; [|done]. split; [done|]. intros a'. cbn.
  unfold set_daemon. destruct (String.eqb_spec a' a) as [->|]; [done|apply same_state_refl].
Qed.
Lemma looks_needed {A} (f : platform -> platform * option A) : looks (needed f).
Proof. apply looks_bind; [apply looks_net|]. intros [a|]; [apply looks_ret|apply looks_raise]. Qed.
Lemma looks_optional {A} (f : platform -> platform * answer A) : looks (optional f).
Proof.
  apply looks_bind; [apply looks_net|]. intros [a| |]; [apply looks_ret|apply looks_ret|apply looks_raise].
Qed.
End server_looks.
#[export] Hint Resolve looks_ret looks_raise looks_net looks_needed looks_optional looks_Inspect
  looks_VolumeExists : looks.
Ltac looks :=
  repeat first [ by auto with looks | apply looks_bind; [|intros ?] | apply looks_caught
               | apply looks_at_bind; [|intros ?] | apply looks_at_engine; by auto with looks
               | apply looks_store; by auto with looks
               | match goal with |- looks (match ?x with _ => _ end) => destruct x end ].

Section survey_looks.
  Context {T : K8sTypes} {K : K8s} `{Runtime} `{!Etcd} `{!Platform} `{!Network} `{Docker}.
  Implicit Types (c : Cluster) (n : Node).

Lemma looks_health st check : looks check -> looks (health st check).
Proof. intros Hc. unfold health. looks. Qed.
Lemma looks_at_cat a path : looks_at a (cat a path).
Proof.
  apply looks_at_engine. intros d. pose proof (cat_same path d) as Hc. by destruct (run_cat path d).
Qed.
Lemma looks_at_health a st check : looks check -> looks_at a (health st check).
Proof. intros Hc. by apply looks_looks_at, looks_health. Qed.
Lemma looks_GetNodeStatus n c : looks (GetNodeStatus n c).
Proof.
  unfold GetNodeStatus, scheduler_status, proxy_status, kubelet_status, checkAPIServerHealth,
    checkSecureHealthz, CheckHealthz, failed_request.
  apply looks_Agent; cbn [negb]; [looks|].
  repeat first [ apply looks_at_bind; [|intros ?] | apply looks_at_cat | apply looks_at_health; by looks
               | apply looks_at_engine; by auto with looks | apply looks_looks_at; by looks
               | match goal with |- looks_at _ (match ?x with _ => _ end) => destruct x end ].
Qed.
Lemma looks_survey_nodes c nodes statuses : looks (survey_nodes c nodes statuses).
Proof.
  revert statuses. induction nodes as [|n nodes IH]; intros; cbn [survey_nodes]; [looks|].
  apply looks_bind; [apply looks_GetNodeStatus|intros; apply IH].
Qed.
Lemma looks_in_sync names rev m : looks (in_sync_members names rev m).
Proof.
  revert m. induction names as [|x names IH]; intros; cbn [in_sync_members]; unfold getEtcdMemberInSync; looks.
Qed.
Lemma looks_GetEtcdClusterStatus nodes : looks (GetEtcdClusterStatus nodes).
Proof.
  unfold GetEtcdClusterStatus, getEtcdMembers, failed_request. looks. apply looks_in_sync.
Qed.
Lemma looks_survey_resources c resources s : looks (survey_resources c resources s).
Proof.
  revert s. induction resources as [|r resources IH]; intros; cbn [survey_resources]; [looks|]. looks.
Qed.
Lemma looks_k8s_client : looks k8s_client.
Proof. apply looks_on_sys, looks_K8sClient. Qed.
End survey_looks.

(** ** The status of a node *)
Section reports.
  Context {T : K8sTypes} {K : K8s} `{Runtime} `{!Etcd} `{!Platform} `{!Network} `{Docker}.
  Implicit Types (c : Cluster) (n : Node) (ns : NodeStatus) (d : daemon).

Lemma ctl_bind_Ok {A B} (m : ctl A) (k : A -> ctl B) s s' b :
  (m ≫= k) s = (s', Done (Ok b)) ->
  exists s1 a, m s = (s1, Done (Ok a)) /\ k a s1 = (s', Done (Ok b)).
Proof.
  unfold mbind, ctl_bind. destruct (m s) as [s1 [[a|e]|w|]]; [eauto|done..].
Qed.
Lemma looks_Ok {A} (m : ctl A) s s' o : looks m -> m s = (s', o) -> kept_site s s'.
Proof. intros Hm Hs. destruct (Hm s) as [Hk _]. by rewrite Hs in Hk. Qed.

(** The services of a node, by the names of their containers. *)
Definition services_of ns : list (string * ServiceStatus) :=
  [(EtcdContainerName, etcd_Service (ns_Etcd ns)); (RiversContainerName, ns_Rivers ns);
   (EtcdRiversContainerName, ns_EtcdRivers ns);
   (KubeAPIServerContainerName, kcs_Service (ns_APIServer ns));
   (KubeControllerManagerContainerName, kcs_Service (ns_ControllerManager ns));
   (KubeSchedulerContainerName, scs_Service (ns_Scheduler ns));
   (KubeProxyContainerName, pxs_Service (ns_Proxy ns)); (KubeletContainerName, kls_Service (ns_Kubelet ns))].

(** The status of a service is that of its container. *)
Definition container_status d (name : string) (st : ServiceStatus) : Prop :=
  match ps_a d !! name with
  | Some ct => exists l, ct_Label ct = Some l /\ st = service_status ct l
  | None => st = zero_ServiceStatus
  end.

(** What the status of a node that answers says. *)
Record reports c d ns : Prop := {
  rp_services : forall name st, (name, st) ∈ services_of ns -> container_status d name st;
  rp_data : etcd_HasData (ns_Etcd ns) = true <-> EtcdVolumeName (opt_Etcd (c_Options c)) ∈ volumes d;
  rp_added : etcd_IsAddedMember (ns_Etcd ns) = true
    <-> EtcdVolumeName (opt_Etcd (c_Options c)) ∈ volumes d /\ EtcdAddedMemberVolumeName ∈ volumes d;
  rp_apiserver : kcs_IsHealthy (ns_APIServer ns) = true -> ss_Running (kcs_Service (ns_APIServer ns)) = true;
  rp_manager : kcs_IsHealthy (ns_ControllerManager ns) = true ->
    ss_Running (kcs_Service (ns_ControllerManager ns)) = true;
  rp_scheduler : scs_IsHealthy (ns_Scheduler ns) = true -> ss_Running (scs_Service (ns_Scheduler ns)) = true;
  rp_proxy : pxs_IsHealthy (ns_Proxy ns) = true -> ss_Running (pxs_Service (ns_Proxy ns)) = true;
  rp_kubelet : kls_IsHealthy (ns_Kubelet ns) = true -> ss_Running (kls_Service (ns_Kubelet ns)) = true
}.
Definition node_status c (agent : bool) d ns : Prop :=
  if agent then ns_SSHConnected ns = true /\ reports c d ns else ns = zero_NodeStatus.

Lemma reports_same c d d' ns : same_state d' d -> reports c d ns -> reports c d' ns.
Proof.
  intros [Hp Hv] [Hs ? ? ? ? ? ? ?]. split; rewrite <- ?Hv; try done.
  intros name st Hin. specialize (Hs name st Hin). unfold container_status in *. by rewrite <- Hp.
Qed.

Lemma health_running st check s s' b : health st check s = (s', Done (Ok b)) -> b = true -> ss_Running st = true.
Proof. unfold health. destruct (ss_Running st); [done|]. by intros [= _ <-]. Qed.
Lemma scheduler_status_Ok a st s s' r :
  scheduler_status a st s = (s', Done (Ok r)) ->
  scs_Service r = st /\ (scs_IsHealthy r = true -> ss_Running st = true).
Proof.
  intros (s1 & b & Hh & Hk)%ctl_bind_Ok. pose proof (health_running _ _ _ _ _ Hh) as Hb.
  destruct (ss_Running st) eqn:Hr; [apply ctl_bind_Ok in Hk as (s2 & [data|] & _ & Hk); [|done]|];
    by injection Hk as _ <-.
Qed.
Lemma proxy_status_Ok a st s s' r :
  proxy_status a st s = (s', Done (Ok r)) ->
  pxs_Service r = st /\ (pxs_IsHealthy r = true -> ss_Running st = true).
Proof.
  intros (s1 & b & Hh & Hk)%ctl_bind_Ok. pose proof (health_running _ _ _ _ _ Hh) as Hb.
  destruct (ss_Running st) eqn:Hr; [apply ctl_bind_Ok in Hk as (s2 & data & _ & Hk)|]; by injection Hk as _ <-.
Qed.
Lemma kubelet_status_Ok a st s s' r :
  kubelet_status a st s = (s', Done (Ok r)) ->
  kls_Service r = st /\ (kls_IsHealthy r = true -> ss_Running st = true).
Proof.
  intros (s1 & b & Hh & Hk)%ctl_bind_Ok. pose proof (health_running _ _ _ _ _ Hh) as Hb.
  destruct (ss_Running st) eqn:Hr; [apply ctl_bind_Ok in Hk as (s2 & data & _ & Hk)|]; by injection Hk as _ <-.
Qed.

Lemma engine_Ok {A} a (m : eng A) s s' r :
  engine a m s = (s', Done (Ok r)) -> connected a s = true /\ exists d, m (st_world s a) = (d, Ok r).
Proof.
  unfold engine. destruct (connected a s); [|done].
  destruct (m (st_world s a)) as [d [x|e]]; [intros [= _ <-]; eauto|done].
Qed.

Lemma engine_looks_Ok {A} a (m : eng A) s s' r :
  eng_looks m -> engine a m s = (s', Done (Ok r)) -> kept_site s s'.
Proof.
  intros Hm Hr. pose proof Hr as [Hc _]%engine_Ok. destruct (looks_at_engine a m Hm s Hc) as [Hk _].
  by rewrite Hr in Hk.
Qed.

Lemma inspected_services d ss name :
  (forall name, name ∈ inspected_names -> reported (ps_a d) name (ss !! name)) ->
  name ∈ inspected_names -> container_status d name (service_of ss name).
Proof.
  intros Hr Hn. specialize (Hr name Hn). unfold reported, container_status, service_of in *.
  destruct (ps_a d !! name) as [ct|]; [destruct Hr as (l & ? & ->)|rewrite Hr]; eauto.
Qed.

Lemma GetNodeStatus_Ok n c s s' ns :
  GetNodeStatus n c s = (s', Done (Ok ns)) ->
  node_status c (connected (node_Address n) s) (st_world s (node_Address n)) ns.
Proof.
  unfold GetNodeStatus. set (a := node_Address n).
  intros (s1 & b & G1 & Hk)%ctl_bind_Ok. injection G1 as <- <-.
  destruct (connected a s); cbn in Hk; [|by injection Hk as _ <-].
  apply ctl_bind_Ok in Hk as (s2 & ss & G2 & Hk). apply ctl_bind_Ok in Hk as (s3 & b3 & G3 & Hk).
  apply ctl_bind_Ok in Hk as (s4 & b4 & G4 & Hk). apply ctl_bind_Ok in Hk as (s5 & b5 & G5 & Hk).
  apply ctl_bind_Ok in Hk as (s6 & b6 & G6 & Hk). apply ctl_bind_Ok in Hk as (s7 & r7 & G7 & Hk).
  apply ctl_bind_Ok in Hk as (s8 & r8 & G8 & Hk). apply ctl_bind_Ok in Hk as (s9 & r9 & G9 & Hk).
  injection Hk as _ <-. split; [done|].
  pose proof (engine_looks_Ok _ _ _ _ _ (looks_Inspect _) G2) as [_ K2].
  pose proof (engine_looks_Ok _ _ _ _ _ (looks_VolumeExists _) G3) as [_ K3].
  apply engine_Ok in G2 as (_ & d2 & [_ G2]%Inspect_Ok). apply engine_Ok in G3 as (_ & d3 & [_ G3]%VolumeExists_Ok).
  apply engine_Ok in G4 as (_ & d4 & [_ G4]%VolumeExists_Ok).
  destruct (K2 a) as [P2 V2]. destruct (K3 a) as [P3 V3]. rewrite V3, V2 in G4. rewrite V2 in G3.
  apply scheduler_status_Ok in G7 as [E7 G7]. apply proxy_status_Ok in G8 as [E8 G8].
  apply kubelet_status_Ok in G9 as [E9 G9].
  split; cbn; rewrite ?E7, ?E8, ?E9; try done; try (by eapply health_running).
  - intros name st. unfold services_of. cbn. rewrite E7, E8, E9. rewrite !elem_of_cons, elem_of_nil.
    intros Hin. repeat destruct Hin as [Hin|Hin]; try done; injection Hin as -> ->;
      (apply inspected_services; [done|by apply (bool_decide_unpack _)]).
  - rewrite andb_true_iff. by rewrite G3, G4.
Qed.
End reports.

(** ** The whole survey *)
Section whole.
  Context {T : K8sTypes} {K : K8s} `{Runtime} `{!Etcd} `{!Platform} `{!Network} `{Docker}.
  Context (static : list ResourceDefinition) (c : Cluster).
  Implicit Types (statuses : gmap string NodeStatus).

Lemma survey_nodes_Ok nodes statuses s s' r :
  survey_nodes c nodes statuses s = (s', Done (Ok r)) ->
  (forall a ns, statuses !! a = Some ns -> node_status c (connected a s) (st_world s a) ns) ->
  (forall n, n ∈ nodes -> is_Some (r !! node_Address n))
  /\ (forall a, is_Some (statuses !! a) -> is_Some (r !! a))
  /\ (forall a ns, r !! a = Some ns -> node_status c (connected a s) (st_world s a) ns).
Proof.
  revert statuses s. induction nodes as [|n nodes IH]; intros statuses s; cbn [survey_nodes].
  { intros [= _ <-]. set_solver. }
  intros (s1 & ns & Hn & Hk)%ctl_bind_Ok Hst. pose proof (looks_Ok _ _ _ _ (looks_GetNodeStatus n c) Hn) as Hkept.
  assert (forall a x, node_status c (connected a s1) (st_world s1 a) x
                      <-> node_status c (connected a s) (st_world s a) x) as Hsame.
  { intros a x. rewrite (connected_kept _ _ _ Hkept). destruct Hkept as [_ K1]. unfold node_status.
    destruct (connected a s); [|done]. split; (intros [? ?]; split; [done|]);
      (eapply reports_same; [|done]); [apply K1|]. destruct (K1 a). by split. }
  destruct (IH _ _ Hk) as (Hdom & Hold & Hall).
  { intros a x. rewrite lookup_insert_Some. intros [[<- <-]|[_ Hx]]; rewrite Hsame; [by eapply GetNodeStatus_Ok|eauto]. }
  split; [|split].
  - intros x [->|Hx]%elem_of_cons; [|by apply Hdom]. apply Hold. rewrite lookup_insert_eq. eauto.
  - intros a Ha. apply Hold. destruct (decide (a = node_Address n)) as [->|];
      [rewrite lookup_insert_eq; eauto|by rewrite lookup_insert_ne].
  - intros a x Hx. rewrite <- Hsame. by apply Hall.
Qed.

Lemma first_with_returns p statuses nodes :
  (forall n, n ∈ nodes -> is_Some (statuses !! node_Address n)) ->
  returns (first_with p statuses nodes).
Proof.
  induction nodes as [|n nodes IH]; intros Hn; cbn [first_with]; [by eexists|].
  destruct (Hn n) as [ns Hns]; [by left|]. rewrite Hns. cbn.
  destruct (p ns); [by eexists|]. apply IH. intros x Hx. apply Hn. by right.
Qed.

Lemma looks_GetKubernetesClusterStatus :
  Validate c false = None -> looks (GetKubernetesClusterStatus static c).
Proof.
  intros Hv. assert (looks (dns_service c)) as Hd.
  { unfold dns_service. destruct (0 <? _)%nat eqn:Hl; [|looks].
    destruct (vc_dns _ (Validate_ok c Hv)) as (x & y & ->); [|looks].
    intros He. by rewrite He in Hl. }
  unfold GetKubernetesClusterStatus, getClusterDNSStatus, getNodeDNSStatus, failed_request.
  repeat (apply looks_bind; [first [apply looks_k8s_client|done|looks; apply looks_k8s_client]|intros ?]).
  looks. apply looks_survey_resources.
Qed.

(** Stored repair entries have steps that are not negative. *)
Definition repair_steps_ok (m : gmap string KV) : Prop :=
  forall key e rev, m !! key = Some (mkKV (RepairJSON e) rev) -> 0 <= rpe_Step e.

Lemma entries_of_stored l d d' es e :
  entries_of (E := RepairQueueEntry) l d = (d', Done (Ok es)) -> e ∈ es ->
  exists key kv, (key, kv) ∈ l /\ kv_Value kv = RepairJSON e.
Proof.
  revert d d' es. induction l as [|[key kv] l IH]; intros d d' es; cbn [entries_of].
  { intros [= _ <-] ?%elem_of_nil. done. }
  unfold mbind, sto_bind, Storage.entry_of. cbn. destruct (kv_Value kv) eqn:Hkv; try done. cbn.
  destruct (entries_of l d) as [d1 [[es'|]|w|]] eqn:Hes; [|done..]. intros [= _ <-] [->|Hin]%elem_of_cons.
  - exists key, kv. split; [by left|done].
  - destruct (IH _ _ _ Hes Hin) as (k & v & ? & ?). exists k, v. split; [by right|done].
Qed.
Lemma GetRepairsEntries_stored d d' es e :
  GetRepairsEntries d = (d', Done (Ok es)) -> e ∈ es ->
  exists key rev, kvs d !! key = Some (mkKV (RepairJSON e) rev).
Proof.
  unfold GetRepairsEntries, GetEntries, mbind, sto_bind.
  destruct (GetPrefix_cases data_prefix (Some false) d) as (d1 & _ & [(l & -> & Hl)| ->]); [|done].
  intros Hes Hin. destruct (entries_of_stored _ _ _ _ _ Hes Hin) as (key & [v rev] & Hk & Hv).
  cbn in Hv. subst v. destruct Hl as [Hp _]. rewrite Hp, elem_of_prefixed in Hk.
  exists key, rev. apply Hk.
Qed.

Lemma drn_bind_done {A B} (m : drn A) (k : A -> drn B) s s' b :
  (m ≫= k) s = (s', Done (Ok b)) ->
  exists s1 a, m s = (s1, Done (Ok a)) /\ k a s1 = (s', Done (Ok b)).
Proof. unfold mbind, drn_bind. destruct (m s) as [s1 [[a|e]|w|]]; [eauto|done..]. Qed.
Lemma drn_looks_Ok {A} (m : drn A) s s' o : drn_looks m -> m s = (s', o) -> kvs (s_etcd s') = kvs (s_etcd s).
Proof. intros Hm Hs. destruct (Hm s) as [[Hk _] _]. by rewrite Hs in Hk. Qed.

Lemma repair_survey_steps s s' q :
  GetRepairQueueStatus c s = (s', Done (Ok q)) -> repair_steps_ok (kvs (s_etcd s)) ->
  forall e, e ∈ rps_Entries q -> 0 <= rpe_Step e.
Proof.
  unfold GetRepairQueueStatus. intros (s1 & [] & G1 & Hk)%drn_bind_done Hok e.
  apply drn_bind_done in Hk as (s2 & b & G2 & Hk). apply drn_bind_done in Hk as (s3 & es & G3 & Hk).
  apply drn_bind_done in Hk as (s4 & m4 & _ & Hk). apply drn_bind_done in Hk as (s5 & m5 & _ & Hk).
  injection Hk as _ <-. cbn. intros (e0 & -> & He)%list_elem_of_fmap_1.
  apply (drn_looks_Ok _ _ _ _ looks_K8sClient) in G1.
  apply (drn_looks_Ok _ _ _ _ (drn_looks_storage _ (looks_get_flag _))) in G2.
  unfold storage in G3. destruct (GetRepairsEntries (s_etcd s2)) as [d3 r3] eqn:Hg.
  injection G3 as _ ->. destruct (GetRepairsEntries_stored _ _ _ _ Hg He) as (key & rev & Hkey).
  rewrite G2, G1 in Hkey. specialize (Hok _ _ _ Hkey). unfold FillNodename. by split_match.
Qed.

(** What the survey gives. *)
Lemma GetClusterStatus_Ok s s' cs :
  Validate c false = None -> GetClusterStatus static c s = (s', Done (Ok cs)) ->
  (forall n, n ∈ c_Nodes c -> is_Some (cs_NodeStatuses cs !! node_Address n))
  /\ (forall a ns, cs_NodeStatuses cs !! a = Some ns -> node_status c (connected a s) (st_world s a) ns)
  /\ (repair_steps_ok (kvs (s_etcd (st_sys s))) ->
      forall e, e ∈ rps_Entries (cs_RepairQueue cs) -> 0 <= rpe_Step e).
Proof.
  intros Hv. unfold GetClusterStatus. intros (s1 & statuses & G1 & Hk)%ctl_bind_Ok.
  pose proof (looks_Ok _ _ _ _ (looks_survey_nodes _ _ _) G1) as [[E1 _] _].
  destruct (survey_nodes_Ok _ _ _ _ _ G1) as (Hdom & _ & Hall); [intros ? ?; by rewrite lookup_empty|].
  apply ctl_bind_Ok in Hk as (s2 & v & G2 & Hk).
  pose proof (looks_Ok _ _ _ _ (looks_store _ looks_GetConfigVersion) G2) as [[E2 _] _].
  apply ctl_bind_Ok in Hk as (s3 & [n|] & G3 & Hk); [|injection Hk as _ <-; set_solver].
  apply ctl_bind_Ok in Hk as (s4 & [ecs|e] & G4 & Hk); [|injection Hk as _ <-; set_solver].
  pose proof (looks_Ok _ _ _ _ (looks_caught _ (looks_GetEtcdClusterStatus _)) G4) as [[E4 _] _].
  apply ctl_bind_Ok in Hk as (s5 & [m|] & G5 & Hk); [|injection Hk as _ <-; set_solver].
  apply ctl_bind_Ok in Hk as (s6 & kcs & G6 & Hk).
  pose proof (looks_Ok _ _ _ _ (looks_GetKubernetesClusterStatus Hv) G6) as [[E6 _] _].
  apply ctl_bind_Ok in Hk as (s7 & rq & G7 & Hk). apply ctl_bind_Ok in Hk as (s8 & bq & _ & Hk).
  injection Hk as _ <-. split; [done|]. split; [done|]. intros Hok. cbn.
  unfold on_sys in G7. destruct (GetRepairQueueStatus c (st_sys s6)) as [y r] eqn:Hq. injection G7 as _ ->.
  eapply (repair_survey_steps _ _ _ Hq). rewrite E6.
  assert (forall A (m : go A) x x' r, pure_go m x = (x', Done (Ok r)) -> x' = x) as Hpure.
  { intros A m0 x x' r0. destruct m0; cbn; [by intros [= <- _]|done]. }
  rewrite (Hpure _ _ _ _ _ G5), E4, (Hpure _ _ _ _ _ G3). by rewrite E2, E1.
Qed.

Lemma looks_bind_at {A B} (m : ctl A) (k : A -> ctl B) s :
  looks m -> (forall s1 a, m s = (s1, Done (Ok a)) -> looks (k a)) ->
  kept_site s (fst ((m ≫= k) s)) /\ forall w, snd ((m ≫= k) s) <> Panicked w.
Proof.
  intros Hm Hk. destruct (Hm s) as [K1 P1]. unfold mbind, ctl_bind.
  destruct (m s) as [s1 [[a|e]|w|]]; cbn in *; [|done|by edestruct P1|done].
  destruct (Hk s1 a eq_refl s1) as [? ?]. split; [by eapply kept_trans|done].
Qed.

Lemma looks_GetClusterStatus : Validate c false = None -> looks (GetClusterStatus static c).
Proof.
  intros Hv s. apply looks_bind_at; [apply looks_survey_nodes|]. intros s1 statuses G1.
  destruct (survey_nodes_Ok _ _ _ _ _ G1) as (Hdom & _ & _); [intros ? ?; by rewrite lookup_empty|].
  assert (forall p, looks (pure_go (first_with p statuses (ControlPlanes (c_Nodes c))))) as Hfirst.
  { intros p. destruct (first_with_returns p statuses (ControlPlanes (c_Nodes c))) as [r ->]; [|apply looks_ret].
    intros n [Hn _]%elem_of_filterb. by apply Hdom. }
  apply looks_bind; [apply looks_store, looks_GetConfigVersion|intros v].
  apply looks_bind; [apply Hfirst|intros [n|]; [|apply looks_ret]].
  apply looks_bind; [apply looks_caught, looks_GetEtcdClusterStatus|intros [ecs|e]; [|apply looks_ret]].
  apply looks_bind; [apply Hfirst|intros [m|]; [|apply looks_ret]].
  apply looks_bind; [by apply looks_GetKubernetesClusterStatus|intros kcs].
  apply looks_bind; [apply looks_on_sys, looks_GetRepairQueueStatus|intros rq].
  apply looks_bind; [apply looks_on_sys, looks_GetRebootQueueStatus|intros bq; apply looks_ret].
Qed.

(** C13: what the survey of a cluster reports.  For a validated configuration it does
    not panic, and it changes neither the stored values nor containers and volumes.
    The statuses it returns cover every node: a node without an agent has the
    zero status; for one with an agent, each service is reported exactly as its container
    is, the flags of etcd say which volumes exist, and only components that run are
    healthy. *)
Theorem survey_exact s :
  Validate c false = None ->
  kept_site s (fst (GetClusterStatus static c s))
  /\ (forall w, snd (GetClusterStatus static c s) <> Panicked w)
  /\ forall cs, snd (GetClusterStatus static c s) = Done (Ok cs) ->
       forall n, n ∈ c_Nodes c -> exists ns, cs_NodeStatuses cs !! node_Address n = Some ns
         /\ node_status c (connected (node_Address n) s) (st_world s (node_Address n)) ns.
Proof.
  intros Hv. destruct (looks_GetClusterStatus Hv s) as [Hk Hp]. split; [done|]. split; [done|].
  intros cs Hcs n Hn. destruct (GetClusterStatus static c s) as [s' o] eqn:G. cbn in Hcs. subst o.
  destruct (GetClusterStatus_Ok _ _ _ Hv G) as (Hdom & Hall & _). destruct (Hdom n Hn) as [ns Hns]. eauto.
Qed.
End whole.
