(* ===== verification/PkiProps.v ===== *)
(** * What certificates are issued with

    Roles in Vault outlive the requests that create them.  All requests that share a role
    agree on its options, so every certificate is issued with the options its request
    has, except those of the one-time role: a request of it that fails after it has created
    the role leaves it to the next one. *)

From Stdlib Require Import ZArith Ascii String Lia.
From stdpp Require Import base gmap strings list.
From S2P Require Import Prelude GoLib GoFormat GoPath K8s Cluster Queue Resource Status Storage StorageProps.
From S2P Require Import Reboot RebootProps Operators Engine Strategy Survey SurveyProps Pki.

(** ** All requests of the program *)
Inductive Certificate : Type :=
| EtcdServer (node : Node)
| EtcdPeer (node : Node)
| EtcdForAPIServer
| EtcdRoot
| EtcdClient (username ttl : string)
| UserCert (userName groupName ttl : string)
| APIServer (node : Node) (serviceSubnet clusterDomain : string)
| Scheduler
| ControllerManager
| Kubelet (node : Node)
| Proxy
| ServiceAccount
| AggregationClient
| Webhook (namespace name : string).

Section requests.
  Context (IPAdd : list Z -> Z -> list Z).

Definition request_of (k : Certificate) : result Request :=
  match k with
  | EtcdServer node => Ok (EtcdCA_IssueServerCert node)
  | EtcdPeer node => Ok (EtcdCA_IssuePeerCert node)
  | EtcdForAPIServer => Ok EtcdCA_IssueForAPIServer
  | EtcdRoot => Ok EtcdCA_IssueRoot
  | EtcdClient username ttl => Ok (IssueEtcdClientCertificate username ttl)
  | UserCert userName groupName ttl => Ok (KubernetesCA_IssueUserCert userName groupName ttl)
  | APIServer node subnet domain => KubernetesCA_IssueForAPIServer IPAdd node subnet domain
  | Scheduler => Ok KubernetesCA_IssueForScheduler
  | ControllerManager => Ok KubernetesCA_IssueForControllerManager
  | Kubelet node => Ok (KubernetesCA_IssueForKubelet node)
  | Proxy => Ok KubernetesCA_IssueForProxy
  | ServiceAccount => Ok KubernetesCA_IssueForServiceAccount
  | AggregationClient => Ok AggregationCA_IssueClientCertificate
  | Webhook namespace name => Ok (WebhookCA_IssueCertificate namespace name)
  end.
Definition requested (r : Request) : Prop := exists k, request_of k = Ok r.

Definition path_of (r : Request) : string := role_path (rq_ca r) (rq_role r).

(** Requests with the same role agree on whether it is kept, and on its options if so. *)
Lemma same_role r1 r2 :
  requested r1 -> requested r2 -> path_of r1 = path_of r2 ->
  rq_onetime r1 = rq_onetime r2 /\ (rq_onetime r1 = false -> rq_roleOpts r1 = rq_roleOpts r2).
Proof.
  assert (forall k r, request_of k = Ok r ->
    match k with APIServer n sub dom => exists o, r = mkRequest CAKubernetes RoleSystem false
                   (opts [("ttl", "87600h"); ("max_ttl", "87600h"); ("enforce_hostnames", "false");
                          ("allow_any_name", "true")]) o | _ => True end) as Hapi.
  { intros [] r; try done. cbn. unfold KubernetesCA_IssueForAPIServer.
    destruct (ParseCIDR _) as [[ip ?]|]; [|done]. intros [= <-]. by eexists. }
  intros [k1 G1] [k2 G2]. pose proof (Hapi _ _ G1) as A1. pose proof (Hapi _ _ G2) as A2.
  destruct k1; destruct k2; try (injection G1 as <-); try (injection G2 as <-);
    match type of A1 with ex _ => destruct A1 as [o1 ->] | _ => idtac end;
    match type of A2 with ex _ => destruct A2 as [o2 ->] | _ => idtac end;
    first [ by split | by intros Hp; exfalso; vm_compute in Hp; discriminate Hp ].
Qed.
End requests.

(** The authorities and roles of the requests. *)
Definition known (ca role : string) : Prop :=
  (ca, role) ∈ [(CAServer, RoleSystem); (CAEtcdPeer, RoleSystem); (CAEtcdClient, RoleSystem);
    (CAEtcdClient, RoleAdmin); (CAKubernetes, RoleAdmin); (CAKubernetes, RoleSystem);
    (CAKubernetes, RoleKubeScheduler); (CAKubernetes, RoleKubeControllerManager);
    (CAKubernetes, RoleKubelet); (CAKubernetes, RoleKubeProxy); (CAKubernetes, RoleServiceAccount);
    (CAKubernetesAggregation, RoleSystem); (CAWebhook, RoleSystem)].
Lemma requested_known IPAdd r : requested IPAdd r -> known (rq_ca r) (rq_role r).
Proof.
  intros [k Hk]. destruct k; cbn in Hk; unfold KubernetesCA_IssueForAPIServer in Hk; repeat case_match; try done;
    injection Hk as <-; unfold known; by apply (bool_decide_unpack _).
Qed.

(** ** Vault's secrets engine for certificates

    Roles are stored under their paths, a certificate is issued with the options of its
    role and those of its request; what fails may or may not have happened. *)
Section laws.
  Context {T : K8sTypes} {K : K8s} `{Runtime} `{!Etcd} `{!Platform} `{!Network} `{Docker} `{!Vault}.

Class VaultLaws := {
  roles : platform -> gmap string options;
  (** the certificate is signed by the authority with the options of a role and of a
      request *)
  signed : string -> options -> options -> string -> Prop;
  client_roles : forall p, roles (fst (vault_client p)) = roles p;
  read_roles : forall path p, roles (fst (vault_read path p)) = roles p;
  read_role : forall ca role p secret, known ca role -> snd (vault_read (role_path ca role) p) = Ok secret ->
    secret = None <-> roles p !! role_path ca role = None;
  write_role : forall ca role o p p' r, known ca role -> vault_write (role_path ca role) o p = (p', r) ->
    roles p' = <[ role_path ca role := o ]> (roles p)
    \/ (exists e, r = Err e) /\ roles p' = roles p;
  issue_roles : forall ca role o p, known ca role ->
    roles (fst (vault_write (issue_path ca role) o p)) = roles p;
  issue_signs : forall ca role o p data crt, known ca role ->
    snd (vault_write (issue_path ca role) o p) = Ok (Some data) ->
    data !! "certificate" = Some (SString crt) ->
    exists ro, roles p !! role_path ca role = Some ro /\ signed ca ro o crt;
  delete_role : forall ca role p p' r, known ca role -> vault_delete (role_path ca role) p = (p', r) ->
    roles p' = delete (role_path ca role) (roles p) \/ (exists e, r = Err e) /\ roles p' = roles p
}.
Context `{!VaultLaws} (IPAdd : list Z -> Z -> list Z).
Implicit Types (s : site) (r : Request).

Definition roles_at s : gmap string options := roles (s_platform (st_sys s)).

(** The roles that are kept have the options of the requests; the other one does not
    exist. *)
Definition roles_ok (m : gmap string options) : Prop :=
  forall r o, requested IPAdd r -> m !! path_of r = Some o -> rq_onetime r = false /\ o = rq_roleOpts r.

Lemma ask_vault_bind {A B} (f : platform -> platform * result A) (k : A -> ctl B) s :
  exists s1, s_platform (st_sys s1) = fst (f (s_platform (st_sys s)))
    /\ ((exists a, snd (f (s_platform (st_sys s))) = Ok a /\ (ask_vault f ≫= k) s = k a s1)
        \/ exists e, snd (f (s_platform (st_sys s))) = Err e /\ (ask_vault f ≫= k) s = (s1, Done (Err e))).
Proof.
  unfold ask_vault, net, on_sys, ask, mbind, ctl_bind.
  destruct (f (s_platform (st_sys s))) as [p [a|e]];
    exists (mkSite (mkSys (s_etcd (st_sys s)) p (s_calls (st_sys s)) (s_agents (st_sys s))) (st_world s));
    (split; [reflexivity|]); [left|right]; eauto.
Qed.
Ltac vault_step s1 a E Ha :=
  match goal with
  | |- context [(ask_vault ?f ≫= ?k) ?s] =>
      let e := fresh "e" in
      destruct (ask_vault_bind f k s) as (s1 & E & [(a & Ha & ->)|(e & Ha & ->)])
  end.

Lemma addRole_cases r s s' x :
  known (rq_ca r) (rq_role r) ->
  addRole (rq_ca r) (rq_role r) (rq_roleOpts r) s = (s', x) ->
  (roles_at s' = roles_at s /\ (x = Done (Ok tt) -> is_Some (roles_at s !! path_of r)))
  \/ roles_at s !! path_of r = None /\ roles_at s' = <[ path_of r := rq_roleOpts r ]> (roles_at s).
Proof.
  intros Hknown. unfold addRole. vault_step s1 secret E1 G1.
  2: { intros [= <- <-]. left. split; [|done]. unfold roles_at. by rewrite E1, read_roles. }
  assert (roles_at s1 = roles_at s) as R1 by (unfold roles_at; by rewrite E1, read_roles).
  pose proof (read_role _ _ _ _ Hknown G1) as Hr. fold (path_of r) (roles_at s) in Hr.
  destruct secret as [data|].
  { intros [= <- <-]. left. split; [done|]. intros _. apply not_eq_None_Some. intros Hn. by apply Hr in Hn. }
  vault_step s2 y E2 G2; destruct (vault_write _ _ _) as [p2 y2] eqn:Hw; cbn in *; subst y2;
    assert (roles_at s2 = roles p2) as R2 by (unfold roles_at; by rewrite E2); apply write_role in Hw as [Hw|[[e' He'] Hw]]; try exact Hknown; fold (path_of r) (roles_at s1) in Hw; rewrite R1 in Hw;
    intros [= <- <-]; try done; rewrite R2.
  - right. split; [by apply Hr|exact Hw].
  - right. split; [by apply Hr|exact Hw].
  - left. by split.
Qed.

Lemma deleteRole_cases ca role s s' x :
  known ca role ->
  deleteRole ca role s = (s', x) ->
  x <> Done (Ok tt) \/ roles_at s' = delete (role_path ca role) (roles_at s).
Proof.
  intros Hknown. unfold deleteRole. vault_step s1 u E1 G1; [|intros [= <- <-]; by left].
  vault_step s2 u2 E2 G2; [|intros [= <- <-]; by left]. intros [= <- <-]. right.
  unfold roles_at. rewrite E2, read_roles, E1.
  destruct (vault_delete _ _) as [p [|]] eqn:Hd; [|done]. cbn in *.
  by apply delete_role in Hd as [->|[[? ?] _]].
Qed.

Lemma roles_ok_insert m r :
  requested IPAdd r -> rq_onetime r = false -> roles_ok m -> roles_ok (<[ path_of r := rq_roleOpts r ]> m).
Proof.
  intros Hr Hone Hm r2 o Hr2. rewrite lookup_insert_Some. intros [[Hp <-]|[_ Ho]]; [|by apply Hm].
  destruct (same_role IPAdd r r2 Hr Hr2 Hp) as [H1' H2']. rewrite <- H1'. split; [done|by apply H2'].
Qed.

Lemma string_in_Ok secret key s s' v :
  string_in secret key s = (s', Done (Ok v)) -> s' = s /\ exists data, secret = Some data /\ data !! key = Some (SString v).
Proof.
  unfold string_in. destruct secret as [data|]; [|done]. destruct (data !! key) as [[w| |]|] eqn:E; [|done..].
  intros [= <- <-]. split; [done|]. eauto.
Qed.
Lemma string_in_state secret key s : fst (string_in secret key s) = s.
Proof. unfold string_in. by repeat case_match. Qed.
Lemma bind_state {A B} (m : ctl A) (k : A -> ctl B) s s' x :
  (m ≫= k) s = (s', x) ->
  (exists s1 a, m s = (s1, Done (Ok a)) /\ k a s1 = (s', x))
  \/ fst (m s) = s' /\ forall b, x <> Done (Ok b).
Proof.
  unfold mbind, ctl_bind. destruct (m s) as [s1 [[a|e]|w|]]; [eauto|..]; intros [= <- <-]; by right.
Qed.

(** The certificate is issued with the options the role has. *)
Lemma issue_with_role r o s s' x :
  known (rq_ca r) (rq_role r) ->
  roles_at s !! path_of r = Some o ->
  (secret ← ask_vault (vault_write (issue_path (rq_ca r) (rq_role r)) (rq_certOpts r));
   crt ← string_in secret "certificate";
   _ ← (if rq_onetime r then deleteRole (rq_ca r) (rq_role r) else mret tt);
   key ← string_in secret "private_key";
   mret (crt, key)) s = (s', x) ->
  (rq_onetime r = false -> roles_at s' = roles_at s)
  /\ forall crt key, x = Done (Ok (crt, key)) ->
       signed (rq_ca r) o (rq_certOpts r) crt
       /\ roles_at s' = if rq_onetime r then delete (path_of r) (roles_at s) else roles_at s.
Proof.
  intros Hknown Hrole. vault_step s1 secret E1 G1.
  2: { intros [= <- <-]. split; [|done]. intros _. unfold roles_at. by rewrite E1, (issue_roles _ _ _ _ Hknown). }
  assert (roles_at s1 = roles_at s) as R1 by (unfold roles_at; by rewrite E1, (issue_roles _ _ _ _ Hknown)).
  intros [(s2 & crt & Hcrt & Hk)|[Hs Hx]]%bind_state;
    [apply string_in_Ok in Hcrt as (-> & data & -> & Hcrt)|].
  2: { rewrite string_in_state in Hs. subst s1. split; [done|]. intros. by edestruct Hx. }
  destruct (issue_signs _ _ _ _ _ _ Hknown G1 Hcrt) as (ro & Hro & Hsigned). fold (path_of r) (roles_at s) in Hro.
  rewrite Hrole in Hro. injection Hro as <-.
  assert (forall s3 y, (key ← string_in (Some data) "private_key"; mret (crt, key)) s3 = (s', y) ->
            s' = s3 /\ forall c key, y = Done (Ok (c, key)) -> c = crt) as Hkey.
  { intros s3 y [(s4 & key & Hin & Hret)|[Hs Hx]]%bind_state.
    - apply string_in_Ok in Hin as [-> _]. injection Hret as <- <-. split; [done|]. by intros ? ? [= <- _].
    - rewrite string_in_state in Hs. split; [done|]. intros. by edestruct Hx. }
  destruct (rq_onetime r); apply bind_state in Hk as [(s3 & u & Hd & Hk)|[Hs Hx]].
  - apply Hkey in Hk as [-> Hc]. split; [done|]. intros c key ->. rewrite (Hc c key eq_refl).
    split; [done|]. destruct u. apply (deleteRole_cases _ _ _ _ _ Hknown) in Hd as [?| ->]; [done|]. by rewrite R1.
  - split; [done|]. intros. by edestruct Hx.
  - injection Hd as <- _. apply Hkey in Hk as [-> Hc]. split; [done|]. intros c key ->.
    by rewrite (Hc c key eq_refl).
  - subst s'. split; [done|]. intros. by edestruct Hx.
Qed.

(** C15: every certificate is issued with the options of its role and of its request.  As
    long as the roles in Vault are those of the requests of this program and the role of
    one-time requests does not exist, a request that succeeds gives a certificate with
    the options it asked for and leaves the roles so.  Requests of roles that are kept
    leave the roles so whatever their outcome is. *)
Theorem certificates_as_requested r s s' x :
  requested IPAdd r -> roles_ok (roles_at s) -> issueCertificate r s = (s', x) ->
  (rq_onetime r = false -> roles_ok (roles_at s'))
  /\ forall crt key, x = Done (Ok (crt, key)) ->
       signed (rq_ca r) (rq_roleOpts r) (rq_certOpts r) crt /\ roles_ok (roles_at s').
Proof.
  intros Hr Hok. pose proof (requested_known _ _ Hr) as Hknown. unfold issueCertificate. vault_step s1 u E1 G1;
    assert (roles_at s1 = roles_at s) as R1 by (unfold roles_at; by rewrite E1, client_roles).
  2: { intros [= <- <-]. by rewrite R1. }
  rewrite <- R1 in Hok. clear s u E1 G1 R1.
  intros [(s2 & [] & Ha & Hk)|[Hs Hx]]%bind_state.
  2: { split; [|intros; by edestruct Hx]. intros Hone. destruct (addRole _ _ _ s1) as [s2 y] eqn:Ha. cbn in Hs.
       subst s2. apply (addRole_cases _ _ _ _ Hknown) in Ha as [[-> _]|[_ ->]]; [done|]. by apply roles_ok_insert. }
  apply (addRole_cases _ _ _ _ Hknown) in Ha as [[R2 Hsome]|[Hn R2]].
  - destruct (Hsome eq_refl) as [o Ho]. destruct (Hok _ _ Hr Ho) as [Hone ->]. rewrite <- R2 in Ho, Hok.
    destruct (issue_with_role _ _ _ _ _ Hknown Ho Hk) as [H1' H2']. rewrite Hone in *.
    split; [by rewrite H1'|]. intros c key Hx. by destruct (H2' c key Hx) as [? ->].
  - destruct (issue_with_role r (rq_roleOpts r) s2 s' x Hknown) as [H1' H2']; [by rewrite R2, lookup_insert_eq|done|].
    destruct (rq_onetime r) eqn:Hone.
    + split; [done|]. intros c key Hx. destruct (H2' c key Hx) as [? ->]. split; [done|].
      by rewrite R2, delete_insert_id.
    + rewrite H1' by done. rewrite R2. assert (roles_ok (<[ path_of r := rq_roleOpts r ]> (roles_at s1))) as Hi
        by (by apply roles_ok_insert). split; [done|]. intros c key Hx. by destruct (H2' c key Hx) as [? _].
Qed.

(** A role that is there already is used as it is.  When a one-time request has
    left the role of users behind, the next certificate of a user is issued with the
    options of that role, for the group of the earlier request, whatever group it is
    requested for. *)
Theorem user_gets_left_role userName groupName ttl o s s' crt key :
  roles_at s !! role_path CAKubernetes RoleAdmin = Some o ->
  issueCertificate (KubernetesCA_IssueUserCert userName groupName ttl) s = (s', Done (Ok (crt, key))) ->
  signed CAKubernetes o (rq_certOpts (KubernetesCA_IssueUserCert userName groupName ttl)) crt.
Proof.
  intros Ho. set (r := KubernetesCA_IssueUserCert userName groupName ttl).
  change (roles_at s !! path_of r = Some o) in Ho. unfold issueCertificate.
  assert (known (rq_ca r) (rq_role r)) as Hknown 
    by (apply (requested_known IPAdd); by exists (UserCert userName groupName ttl)).
  vault_step s1 u E1 G1; [|done].
  assert (roles_at s1 = roles_at s) as R1 by (unfold roles_at; by rewrite E1, client_roles).
  intros [(s2 & [] & Ha & Hk)|[_ Hx]]%bind_state; [|by edestruct Hx].
  apply (addRole_cases _ _ _ _ Hknown) in Ha as [[R2 _]|[Hn _]]; [|by rewrite R1, Ho in Hn].
  eapply issue_with_role in Hk as [_ Hk]; [|done|rewrite R2, R1; exact Ho]. by destruct (Hk crt key eq_refl).
Qed.
End laws.
