(* ===== verification/Lab.v ===== *)
(** * A laboratory

    Concrete instances of everything the server talks to, on which the witnesses run the
    model: a platform with a clock and the roles of Vault, nodes whose files are a map,
    API servers and an etcd that accept every request. *)

From Stdlib Require Import ZArith Ascii String Lia.
From stdpp Require Import base gmap strings list sorting.
From S2P Require Import Prelude GoLib GoFormat GoPath K8s Cluster Queue Resource Status Storage StorageProps Reboot Dns.
From S2P Require Import Params NodeFilter Operators Engine Strategy Survey Pki Files Commands Control PkiProps.

#[local] Existing Instance sample_types.
#[local] Existing Instance sample_k8s.
#[local] Existing Instance std_runtime.
#[local] Existing Instance memory_etcd.
#[local] Existing Instance memory_docker.

(** The objects of the API server, by name. *)
Record objects := mkObjects {
  lo_nodes : gmap string KubeNode;
  lo_services : gmap string Service;
  lo_configs : gmap string ConfigMap;
  lo_endpoints : gmap string Endpoints;
  lo_slices : gmap string EndpointSlice
}.
Record lab := mkLab {
  lab_time : Z;
  lab_roles : gmap string options;
  lab_secrets : gmap string secret_data;
  lab_objects : objects
}.

Program Definition lab_platform : Platform := {|
  platform := lab;
  now_at p := (mkLab (lab_time p + 10 ^ 9) (lab_roles p) (lab_secrets p) (lab_objects p), lab_time p);
  int63n _ p := (p, 0);
  run_program _ _ p := (p, Some "");
  connect p := (p, true);
  pods_on_node node p := (p, Some []);
  daemon_sets p := (p, Some []);
  pods_selected _ _ p := (p, Some []);
  namespaces_selected _ p := (p, Some ["default"]);
  volumes_in_use _ p := (p, Some false);
  evict_pod _ _ _ p := (p, Evicted);
  delete_pod _ _ p := (p, Deleted);
  cordon_node _ p := (p, true);
  uncordon_node _ p := (p, true)
|}.
Next Obligation. intros n p Hn. cbn. lia. Qed.
#[local] Existing Instance lab_platform.

Definition lab_cluster : Cluster := sample_cluster sample_nodes (Some 2).
Definition returned {A} (m : go A) : option A := match m with Ret a => Some a | Panic _ => None end.
Definition found {A} (o : option A) : answer A := match o with Some a => Found a | None => Missing end.

(** The text of a configuration is the name it is generated for; it is decoded to that one, with its type. *)
Definition scheduler_typed (c : KubeSchedulerConfiguration) : KubeSchedulerConfiguration :=
  mkKubeSchedulerConfiguration (mkTypeMeta "kubescheduler.config.k8s.io/v1" "KubeSchedulerConfiguration")
    (sc_ClientConnection_Kubeconfig c) (sc_LeaderElect c) (sc_rest c).
Definition proxy_typed (c : KubeProxyConfiguration) : KubeProxyConfiguration :=
  mkKubeProxyConfiguration (mkTypeMeta "kubeproxy.config.k8s.io/v1alpha1" "KubeProxyConfiguration")
    (pc_HostnameOverride c) (pc_MetricsBindAddress c) (pc_TCPEstablishedTimeout c)
    (pc_TCPCloseWaitTimeout c) (pc_Mode c) (pc_ClientConnection_Kubeconfig c) (pc_rest c).
Definition kubelet_typed (c : KubeletConfiguration) : KubeletConfiguration :=
  mkKubeletConfiguration (mkTypeMeta "kubelet.config.k8s.io/v1beta1" "KubeletConfiguration")
    (kc_ClusterDomain c) (kc_RuntimeRequestTimeout c) (kc_HealthzBindAddress c)
    (kc_VolumePluginDir c) (kc_TLSCertFile c) (kc_TLSPrivateKeyFile c) (kc_Authentication c)
    (kc_AuthorizationMode c) (kc_ClusterDNS c) (kc_RegisterWithTaints c) (kc_Cgroups c) (kc_rest c).
Definition lab_scheduler (_ : string) : option KubeSchedulerConfiguration :=
  scheduler_typed <$> returned (GenerateSchedulerConfiguration (opt_Scheduler sample_options)).
Definition lab_proxy (a : string) : option KubeProxyConfiguration :=
  proxy_typed <$> returned (GenerateProxyConfiguration (opt_Proxy sample_options) (sample_node a false)).
Definition lab_kubelet (a : string) : option KubeletConfiguration :=
  kubelet_typed <$> returned (GenerateKubeletConfiguration (opt_Kubelet sample_options) a None).
(** Other configurations are not encoded. *)
Definition known_as (name : string) (same : bool) : result string :=
  if same then Ok name else Err (ErrUnexpected "unknown configuration").

Definition lab_network : Network := {|
  http_get _ p := (p, Some "ok");
  https_get _ p := (p, Some "ok");
  decode_scheduler := lab_scheduler;
  decode_proxy := lab_proxy;
  decode_kubelet := lab_kubelet;
  decode_object _ := None;
  etcd_client _ p := (p, true);
  member_list _ p := (p, Some ((fun '(i, a) => mkMember i a ["https://" +:+ a +:+ ":2380"]) <$>
    [(1, "10.0.0.11"); (2, "10.0.0.12"); (3, "10.0.0.13")]));
  lease_grant _ p := (p, Some (1, 1));
  get_health _ p := (p, Some 1);
  url_host s := Ok s;
  list_namespaces _ p := (p, true);
  get_service_account _ _ p := (p, Found tt);
  list_nodes p := (p, Some (map_to_list (lo_nodes (lab_objects p))).*2);
  get_service _ name p := (p, found (lo_services (lab_objects p) !! name));
  get_config_map _ name p := (p, found (lo_configs (lab_objects p) !! name));
  get_endpoints _ name p := (p, found (lo_endpoints (lab_objects p) !! name));
  get_endpoint_slice _ name p := (p, found (lo_slices (lab_objects p) !! name));
  dynamic_client p := (p, true);
  rest_mapping _ p := (p, Err (ErrUnexpected "no match"));
  get_object _ _ _ p := (p, Missing)
|}.
#[local] Existing Instance lab_network.

(** ** Vault

    A certificate is a text with the organization of its role and its name.  Vault refuses
    a lifetime it cannot parse. *)
Definition known_pairs : list (string * string) :=
  [(CAServer, RoleSystem); (CAEtcdPeer, RoleSystem); (CAEtcdClient, RoleSystem);
   (CAEtcdClient, RoleAdmin); (CAKubernetes, RoleAdmin); (CAKubernetes, RoleSystem);
   (CAKubernetes, RoleKubeScheduler); (CAKubernetes, RoleKubeControllerManager);
   (CAKubernetes, RoleKubelet); (CAKubernetes, RoleKubeProxy); (CAKubernetes, RoleServiceAccount);
   (CAKubernetesAggregation, RoleSystem); (CAWebhook, RoleSystem)].
Definition certificate_text (ca : string) (ro o : options) : string :=
  "CA=" +:+ ca +:+ " O=" +:+ default "" (ro !! "organization") +:+ " CN=" +:+ default "" (o !! "common_name").
Definition issuer_of (path : string) : option (string * string) :=
  List.find (fun '(ca, role) => (issue_path ca role =? path)%string) known_pairs.

Definition lab_vault : Vault := {|
  vault_client p := (p, Ok tt);
  vault_read path p :=
    (p, Ok (if (path =? K8sSecret)%string || (path =? SSHSecret)%string then lab_secrets p !! path
            else (fun _ => ∅) <$> lab_roles p !! path));
  vault_write path o p :=
    match issuer_of path with
    | None => (mkLab (lab_time p) (<[ path := o ]> (lab_roles p)) (lab_secrets p) (lab_objects p), Ok None)
    | Some (ca, role) =>
        (p, match lab_roles p !! role_path ca role with
            | None => Err (ErrUnexpected "unknown role")
            | Some ro =>
                if (default "" (o !! "ttl") =? "junk")%string then Err (ErrUnexpected "invalid ttl")
                else let crt := certificate_text ca ro o in
                     Ok (Some {[ "certificate" := SString crt; "private_key" := SString ("key of " +:+ crt) ]})
            end)
    end;
  vault_delete path p := (mkLab (lab_time p) (delete path (lab_roles p)) (lab_secrets p) (lab_objects p), Ok tt)
|}.
#[local] Existing Instance lab_vault.

Lemma known_cases (P : string -> string -> Prop) :
  Forall (fun x => P x.1 x.2) known_pairs -> forall ca role, known ca role -> P ca role.
Proof. rewrite Forall_forall. intros HP ca role Hk. by apply (HP (ca, role)). Qed.
(** The paths of the roles and of the requests are different. *)
Lemma role_path_known ca role :
  known ca role -> issuer_of (role_path ca role) = None /\ role_path ca role <> K8sSecret /\ role_path ca role <> SSHSecret.
Proof.
  revert ca role. apply (known_cases (fun ca role => issuer_of (role_path ca role) = None
    /\ role_path ca role <> K8sSecret /\ role_path ca role <> SSHSecret)). repeat (constructor; [split_and!; vm_compute; congruence|]). constructor.
Qed.
Lemma issue_path_known ca role : known ca role -> issuer_of (issue_path ca role) = Some (ca, role).
Proof.
  revert ca role. apply (known_cases (fun ca role => issuer_of (issue_path ca role) = Some (ca, role))).
  repeat (constructor; [vm_compute; reflexivity|]). constructor.
Qed.

Definition lab_vault_laws : VaultLaws.
Proof.
  refine {| roles := (lab_roles : platform -> gmap string options);
            signed ca ro o crt := crt = certificate_text ca ro o |}; try done.
  - intros ca role p secret Hk. cbn [vault_read lab_vault snd].
    destruct (role_path_known _ _ Hk) as (_ & ->%String.eqb_neq & ->%String.eqb_neq).
    intros [= <-]. by destruct (lab_roles p !! role_path ca role).
  - intros ca role o p p' r Hk. cbn [vault_write lab_vault].
    destruct (role_path_known _ _ Hk) as (-> & _ & _). intros [= <- _]. by left.
  - intros ca role o p Hk. cbn [vault_write lab_vault]. by rewrite (issue_path_known _ _ Hk).
  - intros ca role o p data crt Hk. cbn [vault_write lab_vault]. rewrite (issue_path_known _ _ Hk).
    cbn [snd]. destruct (lab_roles p !! role_path ca role) as [ro|]; [|done]. destruct (_ =? _)%string; [done|].
    intros [= <-] Hc. exists ro. split; [done|]. by injection Hc as <-.
  - intros ca role p p' r _ [= <- _]. by left.
Defined.
#[local] Existing Instance lab_vault_laws.

(** ** Nodes *)
Definition with_files (d : memory) (fs : gmap string string) : memory :=
  mkMemory (mem_containers d) (mem_volumes d) fs.
Definition lab_tool (t : DockerTool) (d : memory) : memory * bool :=
  match dt_command t, dt_input t with
  | ["write_files"; prefix], Some files =>
      match write_files (dt_volumes t) prefix files (mem_files d) with
      | Some fs => (with_files d fs, true)
      | None => (d, false)
      end
  | _, _ => (d, true)
  end.
Definition lab_tools : Tools.
Proof.
  refine {| docker_tool := (lab_tool : DockerTool -> daemon -> daemon * bool);
            host_files := (mem_files : daemon -> gmap string string) |}.
  - intros t d. cbn. unfold lab_tool. repeat case_match; split; done.
  - intros t d d' prefix files Ht _ Hc Hi. cbn in Ht. unfold lab_tool in Ht. rewrite Hc, Hi in Ht.
    destruct (write_files _ _ _ _) as [fs|]; [|done]. by injection Ht as <-.
Defined.
#[local] Existing Instance lab_tools.

Definition config_text (c : api_Config) : string :=
  Join ((fun '(name, c) => "server " +:+ ac_Server c +:+ " of " +:+ name) <$> map_to_list (cfg_Clusters c)) ";"
  +:+ Join ((fun '(name, a) => " user " +:+ name +:+ " " +:+ ai_ClientCertificate a +:+ ai_ClientCertificateData a)
              <$> map_to_list (cfg_AuthInfos c)) ";".
Definition lab_encoders : Encoders := {|
  AESConfiguration := string;
  decode_aes s := Ok s;
  encode_encryption l := Ok (Join (flat_map (@rc_Resources _) l) ",");
  encode_scheduler c := known_as (sc_ClientConnection_Kubeconfig c)
    (scheduler_DeepEqual (scheduler_typed c) (lab_scheduler (sc_ClientConnection_Kubeconfig c)));
  encode_proxy c := known_as (pc_HostnameOverride c)
    (proxy_DeepEqual (proxy_typed c) (lab_proxy (pc_HostnameOverride c)));
  encode_kubelet c := known_as (Join (kc_ClusterDNS c) ",")
    (kubelet_DeepEqual (kubelet_typed c) (lab_kubelet (Join (kc_ClusterDNS c) ",")));
  clientcmd_Write c := Ok (config_text c)
|}.
#[local] Existing Instance lab_encoders.

(** The API server stores the objects it is given. *)
Definition apply_request (r : KubeRequest) (o : objects) : objects :=
  match r with
  | CreateEndpoints ep | UpdateEndpoints ep =>
      mkObjects (lo_nodes o) (lo_services o) (lo_configs o) (<[ ep_Name ep := ep ]> (lo_endpoints o)) (lo_slices o)
  | CreateEndpointSlice eps | UpdateEndpointSlice eps =>
      mkObjects (lo_nodes o) (lo_services o) (lo_configs o) (lo_endpoints o) (<[ eps_Name eps := eps ]> (lo_slices o))
  | CreateService _ name svc | UpdateService _ name svc =>
      mkObjects (lo_nodes o) (<[ name := svc ]> (lo_services o)) (lo_configs o) (lo_endpoints o) (lo_slices o)
  | CreateConfigMap _ cm | UpdateConfigMap _ cm =>
      mkObjects (lo_nodes o) (lo_services o) (<[ cm_Name cm := cm ]> (lo_configs o)) (lo_endpoints o) (lo_slices o)
  | UpdateNode n =>
      mkObjects (<[ kn_Name n := n ]> (lo_nodes o)) (lo_services o) (lo_configs o) (lo_endpoints o) (lo_slices o)
  | DeleteNode name =>
      mkObjects (delete name (lo_nodes o)) (lo_services o) (lo_configs o) (lo_endpoints o) (lo_slices o)
  | PatchUnschedulable _ | PatchObject _ _ _ _ => o
  end.
(** The nodes of the configuration can be reached. *)
Definition lab_agents : Agents :=
  {| SSHAgent n _ p := (p, bool_decide (node_Address n ∈ (node_Address <$> sample_nodes))) |}.
Definition lab_executor : Executor := {|
  kube_request r p := (mkLab (lab_time p) (lab_roles p) (lab_secrets p) (apply_request r (lab_objects p)), Accepted);
  get_node _ p := (p, Missing);
  etcd_request _ _ p := (p, true);
  member_add _ _ p := (p, Some []);
  endpoint_status _ _ p := (p, true);
  random_password p := (p, Some "00ff");
  ctx_done p := (p, false);
  WebhookFields := unit;
  Field := unit;
  webhooks_from _ _ := Ok [];
  webhooks_to _ _ := Ok tt;
  secret_from _ := Ok ∅;
  secret_to _ := Ok tt;
  text_field _ := tt;
  set_field _ _ u := u
|}.

(** [netutil.IPAdd] on the last byte. *)
Definition lab_IPAdd (ip : list Z) (n : Z) : list Z :=
  List.removelast ip ++ [List.last ip 0 + n].

(** ** The site

    The storage of a server that leads, with the certificates of the authorities and a
    configuration of three control plane nodes and two workers. *)
Definition text_at (key text : string) : string * (value * positive) := (key, (Text text, 1%positive)).
Definition lab_store : etcd :=
  list_to_map [("leader/1", (Text "host", 1%positive)); (KeyCluster, (ClusterJSON lab_cluster, 1%positive));
    (KeyConstraints, (ConstraintsJSON DefaultConstraints, 1%positive));
    text_at KeyConfigVersion ConfigVersion;
    text_at (KeyCA +:+ CAServer) "server CA"; text_at (KeyCA +:+ CAEtcdPeer) "peer CA";
    text_at (KeyCA +:+ CAEtcdClient) "client CA"; text_at (KeyCA +:+ CAKubernetes) "k8s CA";
    text_at (KeyCA +:+ CAKubernetesAggregation) "aggregation CA"].
Definition bare_node : memory := mkMemory ∅ ∅ ∅.
(** The nodes are registered and ready, and there is a service for DNS. *)
Definition lab_start : objects :=
  mkObjects (list_to_map ((fun n => (Nodename n, mkKubeNode (Nodename n) ∅ ∅ [] false [(NodeReady, "True")] false))
                            <$> sample_nodes))
    {[ ClusterDNSAppName := mkService [53] "ClusterIP" "10.68.0.10" ]} ∅ ∅ ∅.
Definition lab_stored : gmap string secret_data :=
  {[ K8sSecret := {[ "aescbc" := SString "aes-key" ]}; SSHSecret := {[ "" := SString "ssh key" ]} ]}.
Definition lab_site : site :=
  mkSite (mkSys lab_store (mkLab (1800000000 * 10 ^ 9) ∅ lab_stored lab_start) [] ∅) (fun _ => bare_node).
