(* ===== verification/FilesProps.v ===== *)
(** * Which files services get

    The commands that collect files refine a plan: a list of paths and what is to be in
    them.  Once the files are written, every node has the files of the plan, with the
    certificates and private keys that were issued for it. *)

From Stdlib Require Import ZArith Ascii String Lia.
From stdpp Require Import base gmap strings list.
From S2P Require Import Prelude GoLib GoFormat GoPath K8s Cluster Queue Resource Status Storage StorageProps.
From S2P Require Import Reboot Params NodeFilter Operators Engine Strategy Survey SurveyProps Pki PkiProps Files.

(** ** Computations that keep the storage, containers and volumes *)
Section keeps.
  Context {T : K8sTypes} {K : K8s} `{Runtime} `{!Etcd} `{!Platform} `{!Network} `{Docker} `{!Vault}.
  Implicit Types (s : site).

Definition keeps {A} (m : ctl A) : Prop := forall s, kept_site s (fst (m s)).

Lemma looks_keeps {A} (m : ctl A) : looks m -> keeps m.
Proof. intros Hm s. apply Hm. Qed.
Lemma keeps_ret {A} (a : A) : keeps (mret a).
Proof. intros s. apply kept_refl. Qed.
Lemma keeps_raise {A} e : keeps (raise (A := A) e).
Proof. intros s. apply kept_refl. Qed.
Lemma keeps_crash {A} w : keeps (crash (A := A) w).
Proof. intros s. apply kept_refl. Qed.
Lemma keeps_pure_go {A} (m : go A) : keeps (pure_go m).
Proof. destruct m; [apply keeps_ret|apply keeps_crash]. Qed.
Lemma keeps_bind {A B} (m : ctl A) (k : A -> ctl B) : keeps m -> (forall a, keeps (k a)) -> keeps (m ≫= k).
Proof.
  intros Hm Hk s. specialize (Hm s). unfold mbind, ctl_bind.
  destruct (m s) as [s1 [[a|e]|w|]]; cbn in *; [|done..]. eapply kept_trans; [done|apply Hk].
Qed.
Lemma keeps_caught {A} (m : ctl A) : keeps m -> keeps (caught m).
Proof. intros Hm s. specialize (Hm s). unfold caught. by destruct (m s) as [s1 []]. Qed.
Lemma keeps_net {A} (f : platform -> platform * A) : keeps (net f).
Proof. apply looks_keeps, looks_net. Qed.
Lemma looks_getStringValue key : sto_looks (getStringValue key).
Proof. unfold getStringValue. sto_looks. Qed.
Lemma keeps_text key : keeps (store (getStringValue key)).
Proof. apply looks_keeps, looks_store, looks_getStringValue. Qed.
Lemma keeps_ask_vault {A} (f : platform -> platform * result A) : keeps (ask_vault f).
Proof. apply keeps_bind; [apply keeps_net|]. intros [a|e]; [apply keeps_ret|apply keeps_raise]. Qed.
Lemma keeps_encoded r : keeps (encoded r).
Proof. destruct r; [apply keeps_ret|apply keeps_raise]. Qed.
Lemma keeps_string_in secret key : keeps (string_in secret key).
Proof. intros s. rewrite string_in_state. apply kept_refl. Qed.
End keeps.
Create HintDb keeps.
#[export] Hint Resolve keeps_ret keeps_raise keeps_crash keeps_pure_go keeps_net keeps_text keeps_ask_vault
  keeps_encoded keeps_string_in : keeps.
Ltac keeps :=
  repeat first [ by auto with keeps | apply keeps_bind; [|intros ?] | apply keeps_caught
               | match goal with |- keeps (match ?x with _ => _ end) => destruct x end ].

Section keeps_files.
  Context {T : K8sTypes} {K : K8s} `{Runtime} `{!Etcd} `{!Platform} `{!Network} `{Docker} `{!Vault}.
  Context `{!Tools} `{!Encoders} (IPAdd : list Z -> Z -> list Z).

Lemma keeps_issueCertificate r : keeps (issueCertificate r).
Proof. unfold issueCertificate, addRole, deleteRole. keeps. Qed.
Lemma keeps_gather {A} (f : Node -> ctl A) nodes m : (forall n, keeps (f n)) -> keeps (gather f nodes m).
Proof. intros Hf. revert m. induction nodes as [|n nodes IH]; intros m; cbn [gather]; keeps. Qed.
Lemma keeps_AddFile nodes name f files : (forall n, keeps (f n)) -> keeps (AddFile nodes name f files).
Proof. intros Hf. unfold AddFile, gathered. keeps. by apply keeps_gather. Qed.
Lemma keeps_AddKeyPair nodes name f files : (forall n, keeps (f n)) -> keeps (AddKeyPair nodes name f files).
Proof. intros Hf. unfold AddKeyPair, gathered. keeps. by apply keeps_gather. Qed.
Lemma keeps_Prepare c files : keeps (Prepare IPAdd c files).
Proof.
  destruct c; unfold Prepare; try apply keeps_ret;
    unfold prepareEtcdCertificates_Run, prepareAPIServerFiles_Run, prepareControllerManagerFiles_Run,
      prepareSchedulerFiles_Run, prepareProxyFiles_Run, prepareKubeletFiles_Run, prepareKubeletConfig_Run,
      getEncryptionConfiguration, getEncryptionSecret, GetCACertificate, GetServiceAccountCert,
      GetServiceAccountKey;
    repeat first [ progress keeps | apply keeps_issueCertificate | apply keeps_gather; intros ?
                 | unfold constant, api_server_pair, kubelet_config_of, kubelet_kubeconfig_of ].
Qed.
End keeps_files.

(** ** Plans *)
Section plans.
  Context {T : K8sTypes} {K : K8s} `{Runtime} `{!Etcd} `{!Platform} `{!Network} `{Docker} `{!Vault}.
  Context `{!Tools} `{!Encoders} (IPAdd : list Z -> Z -> list Z).
  Implicit Types (s : site) (n : Node) (m : gmap string KV).

Inductive content : Type :=
| StoredText (key : string)                          (** a text in the storage *)
| Given (data : string)
| Generated (f : Node -> go (result string))         (** a configuration generated for the node *)
| KubeconfigOf (r : Request) (cfg : string -> string -> string -> api_Config)
                                                     (** with a certificate issued for the file *)
| EncryptionConfig.                                  (** with a key from Vault *)
Inductive entry : Type :=
| File (name : string) (c : content)
| KeyPair (name : string) (r : Node -> result Request).   (** a certificate issued for the node, and its key *)

Definition names_of (e : entry) : list string :=
  match e with File name _ => [name] | KeyPair name _ => [name +:+ ".crt"; name +:+ ".key"] end.

Definition issued_pair (r : Request) (crt key : string) : Prop :=
  exists s s', issueCertificate r s = (s', Done (Ok (crt, key))).
Definition stored_text m (key data : string) : Prop := exists rev, m !! key = Some (mkKV (Text data) rev).
Definition provides m (c : content) n (data : string) : Prop :=
  match c with
  | StoredText key => stored_text m key data
  | Given d => data = d
  | Generated f => f n = Ret (Ok data)
  | KubeconfigOf r cfg => exists ca crt key, stored_text m (KeyCA +:+ CAKubernetes) ca
      /\ issued_pair r crt key /\ clientcmd_Write (cfg ca crt key) = Ok data
  | EncryptionConfig => exists text aes, decode_aes text = Ok aes
      /\ encode_encryption [mkResourceConfiguration ["secrets"] [AESCBC aes; Identity]] = Ok data
  end.
(** The files in [has] are those the entry asks for on a node. *)
Definition entry_ok m (has : string -> string -> Prop) n (e : entry) : Prop :=
  match e with
  | File name c => exists data, has name data /\ provides m c n data
  | KeyPair name r => exists q crt key, r n = Ok q /\ issued_pair q crt key
      /\ has (name +:+ ".crt") crt /\ has (name +:+ ".key") key
  end.

(** ** The plans of the commands *)
Definition encoded_by {A} (gen : go A) (encode : A -> result string) : go (result string) :=
  match gen with Ret a => Ret (encode a) | Panic w => Panic w end.
Definition kubelet_config_plan (params : KubeletParams) (nodeStatuses : gmap string NodeStatus) : entry :=
  File kubeletConfigPath (Generated (fun n =>
    encoded_by (GenerateKubeletConfiguration params (node_Address n)
                  (ns ← nodeStatuses !! node_Address n; kls_Config (ns_Kubelet ns))) encode_kubelet)).
Definition kubelet_kubeconfig_plan (cluster : string) : entry :=
  File kubeconfigPath (Generated (fun n => Ret (clientcmd_Write
    (kubeletKubeconfig cluster n (K8sPKIPath "ca.crt") (K8sPKIPath "kubelet.crt") (K8sPKIPath "kubelet.key"))))).
Definition kubelet_pair_plan : entry :=
  KeyPair (K8sPKIPath "kubelet") (fun n => Ok (KubernetesCA_IssueForKubelet n)).

Definition plan_of (c : Commander) : option (list Node * list entry) :=
  match c with
  | prepareEtcdCertificatesCommand nodes =>
      Some (nodes, [KeyPair (EtcdPKIPath "server") (fun n => Ok (EtcdCA_IssueServerCert n));
                    KeyPair (EtcdPKIPath "peer") (fun n => Ok (EtcdCA_IssuePeerCert n));
                    File (EtcdPKIPath "ca-peer.crt") (StoredText (KeyCA +:+ CAEtcdPeer));
                    File (EtcdPKIPath "ca-client.crt") (StoredText (KeyCA +:+ CAEtcdClient))])
  | prepareAPIServerFilesCommand nodes subnet domain params =>
      Some (nodes, [KeyPair (K8sPKIPath "apiserver") (fun n => KubernetesCA_IssueForAPIServer IPAdd n subnet domain);
                    KeyPair (K8sPKIPath "apiserver-etcd-client") (fun _ => Ok EtcdCA_IssueForAPIServer);
                    File (K8sPKIPath "ca.crt") (StoredText (KeyCA +:+ CAKubernetes));
                    File (K8sPKIPath "etcd-ca.crt") (StoredText (KeyCA +:+ CAServer));
                    File (K8sPKIPath "service-account" +:+ ".crt") (StoredText KeyServiceAccountCert);
                    File (K8sPKIPath "service-account" +:+ ".key") (StoredText KeyServiceAccountKey);
                    File (K8sPKIPath "aggregation-ca.crt") (StoredText (KeyCA +:+ CAKubernetesAggregation));
                    KeyPair (K8sPKIPath "aggregation") (fun _ => Ok AggregationCA_IssueClientCertificate);
                    File encryptionConfigFile EncryptionConfig]
                   ++ (if AuditLogEnabled params
                       then [File (auditPolicyFilePath (AuditLogPolicy params)) (Given (AuditLogPolicy params))]
                       else []))
  | prepareControllerManagerFilesCommand cluster nodes =>
      Some (nodes, [File ControllerManagerKubeConfigPath
                      (KubeconfigOf KubernetesCA_IssueForControllerManager (controllerManagerKubeconfig cluster));
                    File (K8sPKIPath "service-account.key") (StoredText KeyServiceAccountKey)])
  | prepareSchedulerFilesCommand cluster nodes params =>
      Some (nodes, [File SchedulerKubeConfigPath
                      (KubeconfigOf KubernetesCA_IssueForScheduler (schedulerKubeconfig cluster));
                    File SchedulerConfigPath (Generated (fun _ =>
                      encoded_by (GenerateSchedulerConfiguration params) encode_scheduler))])
  | prepareProxyFilesCommand cluster ap nodes params =>
      Some (nodes, [File proxyKubeconfigPath
                      (KubeconfigOf KubernetesCA_IssueForProxy (fun ca crt key => proxyKubeconfig cluster ca crt key ap));
                    File proxyConfigPath (Generated (fun n =>
                      encoded_by (GenerateProxyConfiguration params n) encode_proxy))])
  | prepareKubeletFilesCommand cluster params nodeStatuses nodes =>
      let conf := kubelet_CNIConfFile params in
      Some (nodes, (if (String.length (cni_Name conf) =? 0)%nat then []
                    else [File (path_Join [cniConfDir; cni_Name conf]) (Given (cni_Content conf))])
                   ++ [kubelet_config_plan params nodeStatuses;
                       File (K8sPKIPath "ca.crt") (StoredText (KeyCA +:+ CAKubernetes));
                       kubelet_pair_plan; kubelet_kubeconfig_plan cluster])
  | prepareKubeletConfigCommand cluster params nodeStatuses nodes =>
      Some (nodes, [kubelet_config_plan params nodeStatuses; kubelet_pair_plan; kubelet_kubeconfig_plan cluster])
  | _ => None
  end.

(** ** Collecting the files of a plan *)
Definition collected (files : list fileData) n (name data : string) : Prop :=
  exists fd, fd ∈ files /\ fd_name fd = name /\ fd_dataMap fd !! node_Address n = Some data.
Definition collects m (nodes : list Node) (plan : list entry) (files files' : list fileData) : Prop :=
  exists new, files' = files ++ new /\ fd_name <$> new = plan ≫= names_of
    /\ forall n e, n ∈ nodes -> e ∈ plan -> entry_ok m (collected new n) n e.
(** The computation adds the files of the plan. *)
Definition collecting m nodes plan files (k : ctl (list fileData)) : Prop :=
  forall s s' files', kvs (s_etcd (st_sys s)) = m -> k s = (s', Done (Ok files')) ->
    collects m nodes plan files files'.

Lemma entry_ok_mono m (has has' : string -> string -> Prop) n e :
  (forall name data, has name data -> has' name data) -> entry_ok m has n e -> entry_ok m has' n e.
Proof. destruct e; cbn; naive_solver. Qed.
Lemma collects_app m nodes p1 p2 f1 f2 f3 :
  collects m nodes p1 f1 f2 -> collects m nodes p2 f2 f3 -> collects m nodes (p1 ++ p2) f1 f3.
Proof.
  intros (x & -> & Hx & Ex) (y & -> & Hy & Ey). exists (x ++ y). rewrite app_assoc, fmap_app, bind_app, Hx, Hy.
  split; [done|]. split; [done|]. intros n e Hn [He|He]%elem_of_app;
    [eapply entry_ok_mono; [|by apply Ex]|eapply entry_ok_mono; [|by apply Ey]];
    intros name data (fd & Hfd & Hr); exists fd; rewrite elem_of_app; tauto.
Qed.

(** Nodes with one address are the same node. *)
Definition by_address (nodes : list Node) : Prop :=
  forall n n', n ∈ nodes -> n' ∈ nodes -> node_Address n = node_Address n' -> n = n'.
Lemma NoDup_by_address nodes : NoDup (node_Address <$> nodes) -> by_address nodes.
Proof. intros Hnd n n' Hn Hn' E. by apply (NoDup_fmap_elem_inj node_Address nodes). Qed.

Lemma gather_Ok {A} (f : Node -> ctl A) nodes (m0 m1 : gmap string A) s s' :
  gather f nodes m0 s = (s', Done (Ok (m1, None))) -> by_address nodes ->
  (forall n, n ∈ nodes -> exists s1 s2 a, f n s1 = (s2, Done (Ok a)) /\ m1 !! node_Address n = Some a)
  /\ forall a, ~ a ∈ node_Address <$> nodes -> m1 !! a = m0 !! a.
Proof.
  revert m0 s. induction nodes as [|n nodes IH]; intros m0 s; cbn [gather fmap list_fmap].
  { intros [= _ <-] _. split; [by intros ? ?%elem_of_nil|done]. }
  intros (s1 & r & Hr & Hk)%ctl_bind_Ok Hby.
  apply ctl_bind_Ok in Hk as (s2 & [m2 e] & Hg & Hk). injection Hk as -> -> Hk.
  destruct r as [a|]; [|done]. subst e. destruct (IH _ _ Hg) as [Hin Hout].
  { intros x x' Hx Hx'. apply Hby; by right. } split.
  - intros n' [->|Hn']%elem_of_cons; [|by apply Hin].
    destruct (decide (node_Address n ∈ node_Address <$> nodes)) as [(x & Hx & Hxin)%list_elem_of_fmap|Hnew].
    { rewrite (Hby n x) by (done || left || by right). by apply Hin. }
    unfold caught in Hr. destruct (f n s) as [s3 [r3|w|]] eqn:Hf; try done. injection Hr as _ ->.
    exists s, s3, a. split; [done|]. rewrite Hout by done. apply lookup_insert_eq.
  - intros a' Ha'. rewrite not_elem_of_cons in Ha'. rewrite Hout by tauto. apply lookup_insert_ne. naive_solver.
Qed.
Lemma gathered_Ok {A} (f : Node -> ctl A) nodes s s' (m1 : gmap string A) :
  gathered f nodes s = (s', Done (Ok m1)) -> by_address nodes ->
  forall n, n ∈ nodes -> exists s1 s2 a, f n s1 = (s2, Done (Ok a)) /\ m1 !! node_Address n = Some a.
Proof.
  unfold gathered. intros (s1 & [m2 [e|]] & Hg & Hk)%ctl_bind_Ok; [done|]. injection Hk as _ ->.
  intros Hby. by apply (gather_Ok _ _ _ _ _ _ Hg).
Qed.

Lemma AddFile_collects m nodes name f c files s s' files' :
  by_address nodes ->
  (forall n s1 s2 data, f n s1 = (s2, Done (Ok data)) -> provides m c n data) ->
  AddFile nodes name f files s = (s', Done (Ok files')) -> collects m nodes [File name c] files files'.
Proof.
  intros Hnd Hf (s1 & dm & Hg & Hk)%ctl_bind_Ok. injection Hk as _ <-.
  eexists; split; [done|]. split; [done|]. intros n e Hn ->%list_elem_of_singleton.
  destruct (gathered_Ok _ _ _ _ _ Hg Hnd n Hn) as (s2 & s3 & data & Hd & Hm). exists data.
  split; [|by eapply Hf]. exists (mkFileData name dm). split; [by left|done].
Qed.
Lemma AddKeyPair_collects m nodes name f r files s s' files' :
  by_address nodes ->
  (forall n s1 s2 crt key, f n s1 = (s2, Done (Ok (crt, key))) -> exists q, r n = Ok q /\ issued_pair q crt key) ->
  AddKeyPair nodes name f files s = (s', Done (Ok files')) -> collects m nodes [KeyPair name r] files files'.
Proof.
  intros Hnd Hf (s1 & dm & Hg & Hk)%ctl_bind_Ok. injection Hk as _ <-.
  eexists; split; [done|]. split; [done|]. intros n e Hn ->%list_elem_of_singleton.
  destruct (gathered_Ok _ _ _ _ _ Hg Hnd n Hn) as (s2 & s3 & [crt key] & Hd & Hm).
  destruct (Hf _ _ _ _ _ Hd) as (q & Hq & Hi). exists q, crt, key. split; [done|]. split; [done|].
  split; [exists (mkFileData (name +:+ ".crt") (fst <$> dm))|exists (mkFileData (name +:+ ".key") (snd <$> dm))];
    (split; [|split; [reflexivity|cbn; rewrite lookup_fmap, Hm; reflexivity]]).
  - left.
  - right. left.
Qed.

Lemma getStringValue_Ok key d d' v :
  getStringValue key d = (d', Done (Ok v)) -> stored_text (kvs d) key v.
Proof.
  unfold getStringValue, mbind, sto_bind. destruct (Get_cases key d) as (d1 & _ & [->| ->]); [|done].
  unfold stored_text. destruct (kvs d !! key) as [[w rev]|]; [|done]. unfold text_of. cbn.
  destruct w; try done. intros [= _ ->]. by exists rev.
Qed.

Section collecting.
  Context (m : gmap string KV) (nodes : list Node) (Hnd : by_address nodes).

Lemma collecting_nil files : collecting m nodes [] files (mret files).
Proof.
  intros s s' files' _ [= _ <-]. exists []. rewrite app_nil_r. split; [done|]. split; [done|].
  by intros n e _ ?%elem_of_nil.
Qed.
Lemma collecting_then p1 p2 files (k : ctl (list fileData)) (k2 : list fileData -> ctl (list fileData)) :
  keeps k -> collecting m nodes p1 files k -> (forall f, collecting m nodes p2 f (k2 f)) ->
  collecting m nodes (p1 ++ p2) files (k ≫= k2).
Proof.
  intros Hk Hc Hk2 s s' files' Hs (s1 & f1 & G1 & G2)%ctl_bind_Ok.
  specialize (Hk s) as [[Hkv _] _]. rewrite G1 in Hkv. cbn in Hkv.
  eapply collects_app; [by eapply Hc|eapply Hk2; [|done]; congruence].
Qed.
Lemma collecting_file name f c files :
  (forall n s1 s2 data, f n s1 = (s2, Done (Ok data)) -> provides m c n data) ->
  collecting m nodes [File name c] files (AddFile nodes name f files).
Proof. intros Hf s s' files' _. by apply AddFile_collects. Qed.
Lemma collecting_pair name f r files :
  (forall n s1 s2 crt key, f n s1 = (s2, Done (Ok (crt, key))) -> exists q, r n = Ok q /\ issued_pair q crt key) ->
  collecting m nodes [KeyPair name r] files (AddKeyPair nodes name f files).
Proof. intros Hf s s' files' _. by apply AddKeyPair_collects. Qed.
(** A pair of stored texts. *)
Lemma collecting_texts name k1 k2 crt key files :
  stored_text m k1 crt -> stored_text m k2 key ->
  collecting m nodes [File (name +:+ ".crt") (StoredText k1); File (name +:+ ".key") (StoredText k2)] files
    (AddKeyPair nodes name (fun _ => mret (crt, key)) files).
Proof.
  intros Hc Hk s s' files' _ (s1 & dm & Hg & Hr)%ctl_bind_Ok. injection Hr as _ <-.
  eexists; split; [done|]. split; [done|]. intros n e Hn He.
  destruct (gathered_Ok _ _ _ _ _ Hg Hnd n Hn) as (s2 & s3 & a & Ha & Hm). injection Ha as _ <-.
  apply elem_of_cons in He as [->|He]; [exists crt|apply list_elem_of_singleton in He as ->; exists key];
    (split; [|done]);
    [exists (mkFileData (name +:+ ".crt") (fst <$> dm))|exists (mkFileData (name +:+ ".key") (snd <$> dm))];
    (split; [|split; [reflexivity|cbn; rewrite lookup_fmap, Hm; reflexivity]]).
  - left.
  - right. left.
Qed.
Lemma collecting_read key plan files (k : string -> ctl (list fileData)) :
  (forall v, stored_text m key v -> collecting m nodes plan files (k v)) ->
  collecting m nodes plan files (store (getStringValue key) ≫= k).
Proof.
  intros Hk s s' files' Hs (s1 & v & G1 & G2)%ctl_bind_Ok.
  pose proof (keeps_text key s) as [[Hkv _] _]. rewrite G1 in Hkv. cbn in Hkv.
  eapply Hk; [|by rewrite Hkv|exact G2]. revert G1. unfold store, on_sys, storage. rewrite <- Hs.
  destruct (getStringValue key (s_etcd (st_sys s))) as [d o] eqn:Hg. intros [= _ ->].
  by eapply getStringValue_Ok.
Qed.
Lemma collecting_skip {A} plan files (c : ctl A) (k : A -> ctl (list fileData)) :
  keeps c -> (forall a, (exists s s', c s = (s', Done (Ok a))) -> collecting m nodes plan files (k a)) ->
  collecting m nodes plan files (c ≫= k).
Proof.
  intros Hc Hk s s' files' Hs (s1 & a & G1 & G2)%ctl_bind_Ok. specialize (Hc s) as [[Hkv _] _]. rewrite G1 in Hkv.
  cbn in Hkv. eapply Hk; [by eexists _, _|by rewrite Hkv|done].
Qed.
Lemma collecting_ret {A} plan files (a : A) (k : A -> ctl (list fileData)) :
  collecting m nodes plan files (k a) -> collecting m nodes plan files (mret a ≫= k).
Proof. done. Qed.
Lemma collecting_cons e p2 files (k : ctl (list fileData)) (k2 : list fileData -> ctl (list fileData)) :
  keeps k -> collecting m nodes [e] files k -> (forall f, collecting m nodes p2 f (k2 f)) ->
  collecting m nodes (e :: p2) files (k ≫= k2).
Proof. apply (collecting_then [e]). Qed.
Lemma collecting_cons2 e1 e2 p2 files (k : ctl (list fileData)) (k2 : list fileData -> ctl (list fileData)) :
  keeps k -> collecting m nodes [e1; e2] files k -> (forall f, collecting m nodes p2 f (k2 f)) ->
  collecting m nodes (e1 :: e2 :: p2) files (k ≫= k2).
Proof. apply (collecting_then [e1; e2]). Qed.
End collecting.

Lemma encoded_Ok r s s' data : encoded r s = (s', Done (Ok data)) -> r = Ok data.
Proof. destruct r; [|done]. by intros [= _ ->]. Qed.
Lemma generated_provides {A} (gen : go A) (encode : A -> result string) s s' data :
  (cfg ← pure_go gen; encoded (encode cfg)) s = (s', Done (Ok data)) -> encoded_by gen encode = Ret (Ok data).
Proof.
  intros (s1 & cfg & Hg & He%encoded_Ok)%ctl_bind_Ok. destruct gen; [|done]. injection Hg as _ <-. cbn. by rewrite He.
Qed.
Lemma kubeconfig_provides m r cfg ca n s s' data :
  stored_text m (KeyCA +:+ CAKubernetes) ca ->
  ('(crt, key) ← issueCertificate r; encoded (clientcmd_Write (cfg ca crt key))) s = (s', Done (Ok data)) ->
  provides m (KubeconfigOf r cfg) n data.
Proof.
  intros Hca (s1 & [crt key] & Hi & He%encoded_Ok)%ctl_bind_Ok. exists ca, crt, key. split; [done|].
  split; [by exists s, s1|done].
Qed.

Ltac keeps_one :=
  first [ apply keeps_AddFile | apply keeps_AddKeyPair ]; intros ?;
  unfold constant, api_server_pair, kubelet_config_of, kubelet_kubeconfig_of;
  repeat first [ progress keeps | apply keeps_issueCertificate ].
Ltac one_entry :=
  first
    [ apply collecting_pair; [assumption|]; intros ? ? ? ? ? ?;
      eexists; (split; [reflexivity|eexists _, _; eassumption])
    | apply collecting_file; [assumption|]; intros ? ? ? ? ? ];
  first
    [ match goal with G : constant _ _ _ = _ |- _ => by injection G as _ <- end
    | by eapply generated_provides
    | by eapply kubeconfig_provides
    | match goal with G : kubelet_kubeconfig_of _ _ _ = _ |- _ => apply encoded_Ok in G; cbn; by rewrite G end
    | idtac ].
Ltac collect_step :=
  first
    [ apply collecting_read; intros ? ?
    | apply collecting_cons; [keeps_one|one_entry|intros ?]
    | one_entry ].

Lemma api_server_collects m nodes subnet domain params files :
  by_address nodes ->
  exists plan, plan_of (prepareAPIServerFilesCommand nodes subnet domain params) = Some (nodes, plan)
    /\ collecting m nodes plan files (prepareAPIServerFiles_Run IPAdd nodes subnet domain params files).
Proof.
  intros Hnd. eexists. split; [reflexivity|]. unfold prepareAPIServerFiles_Run. cbn [app].
  apply collecting_cons; [keeps_one| |intros f1].
  { apply collecting_pair; [done|]. intros n s1 s2 crt key. unfold api_server_pair.
    destruct (KubernetesCA_IssueForAPIServer _ _ _ _) as [q|]; [|done]. intros Hi. exists q.
    split; [done|by exists s1, s2]. }
  collect_step. collect_step. collect_step. collect_step. collect_step.
  apply collecting_read. intros crt Hcrt. apply collecting_read. intros key Hkey.
  apply collecting_cons2; [keeps_one|by apply collecting_texts|intros ?].
  collect_step. collect_step. collect_step.
  apply collecting_skip; [unfold getEncryptionConfiguration, getEncryptionSecret; keeps|].
  intros enc (s1 & s2 & Henc). apply ctl_bind_Ok in Henc as (s3 & text & _ & Henc).
  destruct (decode_aes text) as [aes|e] eqn:Hdec; [|done]. injection Henc as _ <-.
  apply collecting_skip; [apply keeps_encoded|]. intros data (s4 & s5 & He%encoded_Ok).
  apply collecting_cons; [keeps_one| |intros ?].
  { apply collecting_file; [done|]. intros n s6 s7 d G. injection G as _ <-. by exists text, aes. }
  destruct (AuditLogEnabled params); [|apply collecting_nil]. collect_step.
Qed.

Lemma Prepare_collects m c nodes plan files :
  plan_of c = Some (nodes, plan) -> by_address nodes ->
  collecting m nodes plan files (Prepare IPAdd c files).
Proof.
  intros Hp Hnd. destruct c; try done.
  2: { injection Hp as <- <-. by apply (api_server_collects m nodes0 serviceSubnet clusterDomain params files) in Hnd
         as (? & [= <-] & ?). }
  all: injection Hp as <- <-; cbn [Prepare];
    unfold prepareEtcdCertificates_Run, prepareControllerManagerFiles_Run, prepareSchedulerFiles_Run,
      prepareProxyFiles_Run, prepareKubeletFiles_Run, prepareKubeletConfig_Run, kubelet_config_plan,
      kubelet_kubeconfig_plan, kubelet_pair_plan.
  1-4: repeat collect_step.
  - destruct (String.length _ =? 0)%nat; cbn [app]; [apply collecting_ret|]; repeat collect_step.
  - repeat collect_step.
Qed.

(** ** Writing the files *)
Definition good_path (name : string) : Prop :=
  exists l e, Forall plain l /\ l <> [] /\ plain e /\ plain (e +:+ ".tmp") /\ name = absolute (l ++ [e]).
Definition good_names (names : list string) : Prop :=
  NoDup names /\ forall name, name ∈ names -> good_path name /\ ~ (name +:+ ".tmp") ∈ names.

(** The directories of the files, mounted. *)
Definition is_parent (names : list string) (b : Mount) : Prop :=
  exists name, name ∈ names /\ b = mkMount (Dir name) (path_Join ["/mnt"; Dir name]) false "" LabelPrivate.

Lemma parent_binds_spec names :
  (forall b, b ∈ parent_binds names -> is_parent names b)
  /\ forall name, name ∈ names -> exists b, b ∈ parent_binds names /\ mnt_Source b = Dir name.
Proof.
  assert (forall (m0 : gmap string Mount) l,
    (forall d b, m0 !! d = Some b -> mnt_Source b = d) ->
    (forall d b, foldl parent_bind m0 l !! d = Some b ->
       mnt_Source b = d /\ (m0 !! d = Some b \/ is_parent l b))
    /\ (forall d, is_Some (m0 !! d) \/ (exists name, name ∈ l /\ Dir name = d) ->
         is_Some (foldl parent_bind m0 l !! d))) as Hfold.
  { intros m0 l. revert m0. induction l as [|p l IH]; intros m0 Hm0; cbn [foldl].
    { split; [eauto|]. intros d [?|(name & ?%elem_of_nil & _)]; done. }
    set (b0 := mkMount (Dir p) (path_Join ["/mnt"; Dir p]) false "" LabelPrivate).
    assert (parent_bind m0 p = m0 /\ is_Some (m0 !! Dir p)
            \/ parent_bind m0 p = <[ Dir p := b0 ]> m0) as Hp.
    { unfold parent_bind. destruct (m0 !! Dir p) eqn:E; [left|by right]. eauto. }
    destruct (IH (parent_bind m0 p)) as [I1 I2].
    { intros d b. destruct Hp as [[-> _]| ->]; [apply Hm0|]. rewrite lookup_insert_Some.
      intros [[<- <-]|[_ ?]]; [done|by apply Hm0]. }
    split.
    - intros d b Hb. destruct (I1 d b Hb) as [Hsrc [Hl|(name & Hn & ->)]].
      + split; [done|]. destruct Hp as [[Hp _]|Hp]; rewrite Hp in Hl; [by left|].
        apply lookup_insert_Some in Hl as [[_ <-]|[_ ?]]; [right|by left]. exists p. split; [left|done].
      + split; [done|]. right. exists name. split; [by right|done].
    - intros d Hd. apply I2. destruct Hd as [Hd|(name & [->|Hn]%elem_of_cons & <-)].
      + left. destruct Hp as [[-> _]| ->]; [done|]. rewrite lookup_insert_is_Some. destruct (decide (Dir p = d)); auto.
      + left. destruct Hp as [[-> ?]| ->]; [done|]. by rewrite lookup_insert_eq.
      + right. eauto. }
  destruct (Hfold ∅ names) as [F1 F2]; [intros ? ?; by rewrite lookup_empty|].
  assert (forall b, b ∈ parent_binds names <-> exists d, foldl parent_bind ∅ names !! d = Some b) as Hin.
  { intros b. unfold parent_binds. rewrite list_elem_of_fmap. split.
    - intros ([d b'] & -> & Hr). exists d. by apply elem_of_range in Hr.
    - intros [d Hd]. exists (d, b). split; [done|]. by apply elem_of_range. }
  split.
  - intros b [d Hd]%Hin. destruct (F1 d b Hd) as [_ [Hl|?]]; [by rewrite lookup_empty in Hl|done].
  - intros name Hn. destruct (F2 (Dir name)) as [b Hb]; [right; eauto|]. exists b. split; [apply Hin; eauto|].
    by destruct (F1 _ _ Hb).
Qed.

Lemma plain_mnt : plain "mnt".
Proof. split; by apply (bool_decide_unpack _). Qed.
Lemma below_mnt l : Forall plain l -> l <> [] -> path_Join ["/mnt"; absolute l] = absolute ("mnt" :: l).
Proof. apply (absolute_under "mnt"), plain_mnt. Qed.
(** A path below [/mnt] whose directory is mounted is that of the host. *)
Lemma host_path_mounted names l e name :
  good_names names -> name ∈ names -> Forall plain l -> l <> [] -> plain e -> Dir name = absolute l ->
  host_path (volume_of <$> parent_binds names) (absolute ("mnt" :: l ++ [e])) = Some (absolute (l ++ [e])).
Proof.
  intros [_ Hgood] Hn Hl Hne He Hdir. destruct (parent_binds_spec names) as [P1 P2].
  assert (Forall plain ("mnt" :: l)) as Hml by (constructor; [apply plain_mnt|done]).
  unfold host_path. rewrite app_comm_cons, Dir_absolute, Base_absolute by done.
  destruct (List.find _ _) as [[[src dst] wr]|] eqn:Hf.
  - apply List.find_some in Hf as [Hin Hd]. apply list_elem_of_In in Hin.
    apply list_elem_of_fmap in Hin as (b & Hb & Hbin). destruct (P1 b Hbin) as (name2 & Hn2 & ->).
    injection Hb as -> -> ->. bool_hyps. destruct (Hgood _ Hn2) as [(l2 & e2 & Hl2 & Hne2 & He2 & _ & ->) _].
    rewrite Dir_absolute in * by done. rewrite below_mnt in * by done.
    match goal with G : absolute _ = absolute _ |- _ => apply absolute_inj in G as [= ->];
      [|constructor; [apply plain_mnt|done]|done] end.
    by rewrite absolute_snoc.
  - destruct (P2 name Hn) as (b & Hb & Hsrc). pose proof (List.find_none _ _ Hf (volume_of b)) as Hno.
    exfalso. destruct (P1 b Hb) as (name2 & Hn2 & ->). cbn in Hsrc. rewrite Hsrc, Hdir in *.
    rewrite below_mnt in * by done. unfold volume_of in Hno. cbn [mnt_Source mnt_Destination mnt_ReadOnly] in Hno.
    rewrite String.eqb_refl in Hno. discriminate Hno. apply list_elem_of_In.
    apply (list_elem_of_fmap_2 volume_of) in Hb. exact Hb.
Qed.

(** Extracting an archive gives the host the files in it, and changes no other file but
    temporary ones. *)
Definition untouched (names : list string) (fs fs' : gmap string string) : Prop :=
  forall p, ~ p ∈ names -> ~ (exists name, name ∈ names /\ p = name +:+ ".tmp") -> fs' !! p = fs !! p.

Lemma copyFile_good names name data fs :
  good_names names -> name ∈ names ->
  copyFile (volume_of <$> parent_binds names) (path_Join ["/mnt"; name]) data fs
    = Some (<[ name := data ]> (delete (name +:+ ".tmp") fs)).
Proof.
  intros Hg Hn. pose proof Hg as [_ Hgood].
  destruct (Hgood _ Hn) as [(l & e & Hl & Hne & He & Het & ->) _].
  assert (Forall plain (l ++ [e])) as Hle by (apply Forall_app; split; [done|by constructor]).
  unfold copyFile. rewrite below_mnt by (done || by destruct l).
  rewrite (app_comm_cons l [e]), absolute_suffix, <- !app_comm_cons.
  rewrite (host_path_mounted names l (e +:+ ".tmp") (absolute (l ++ [e]))) by (done || by apply Dir_absolute).
  cbn. rewrite (host_path_mounted names l e (absolute (l ++ [e]))) by (done || by apply Dir_absolute).
  cbn. by rewrite absolute_suffix, delete_insert_eq.
Qed.
Lemma write_files_good names (files : archive) fs :
  good_names names -> (forall x, x ∈ files.*1 -> x ∈ names) -> NoDup files.*1 ->
  exists fs', write_files (volume_of <$> parent_binds names) "/mnt" files fs = Some fs'
    /\ (forall name data, (name, data) ∈ files -> fs' !! name = Some data)
    /\ (forall p, ~ p ∈ files.*1 -> ~ (exists name, name ∈ names /\ p = name +:+ ".tmp") -> fs' !! p = fs !! p).
Proof.
  intros Hg. revert fs. induction files as [|[name data] files IH]; intros fs Hin Hnd; cbn [write_files].
  { exists fs. split; [done|]. split; [by intros ? ? ?%elem_of_nil|done]. }
  cbn in Hin, Hnd. apply NoDup_cons in Hnd as [Hnew Hnd].
  rewrite copyFile_good by (done || apply Hin; left). cbn.
  destruct (IH (<[ name := data ]> (delete (name +:+ ".tmp") fs))) as (fs' & -> & F1 & F2);
    [intros; apply Hin; by right|done|].
  exists fs'. split; [done|].
  assert (forall p, p ∈ names -> ~ (exists name, name ∈ names /\ p = name +:+ ".tmp")) as Htmp.
  { intros p Hp (q & Hq & ->). destruct Hg as [_ Hg]. by destruct (Hg _ Hq) as [_ []]. }
  split.
  - intros name' data' [[= -> ->]|Hf]%elem_of_cons; [|by apply F1].
    rewrite F2 by (done || apply Htmp, Hin; left). apply lookup_insert_eq.
  - intros p Hp Hpt. cbn in Hp. rewrite not_elem_of_cons in Hp. rewrite F2 by tauto.
    rewrite lookup_insert_ne by naive_solver. apply lookup_delete_ne. intros <-. apply Hpt.
    exists name. split; [apply Hin; left|done].
Qed.

Lemma archive_names n files : (archive_for n files).*1 = fd_name <$> files.
Proof. unfold archive_for. by rewrite <- list_fmap_compose. Qed.

(** The nodes before the first one without an agent. *)
Lemma with_agents_sub s nodes n : n ∈ with_agents s nodes -> n ∈ nodes.
Proof.
  induction nodes as [|x nodes IH]; cbn [with_agents]; [done|].
  destruct (connected _ _); [|by intros ?%elem_of_nil]. rewrite !elem_of_cons. naive_solver.
Qed.
Lemma with_agents_all s nodes : length (with_agents s nodes) = length nodes -> with_agents s nodes = nodes.
Proof.
  induction nodes as [|x nodes IH]; cbn [with_agents]; [done|]. destruct (connected _ _); [|done].
  cbn. intros [= Hl]. by rewrite IH.
Qed.
Lemma on_each_node_Ok nodes f s s' :
  on_each_node nodes f s = (s', Done (Ok tt)) ->
  exists w, on_nodes nodes f (st_world s) = (w, None) /\ s' = mkSite (st_sys s) w.
Proof.
  unfold on_each_node. destruct (on_nodes (with_agents s nodes) f (st_world s)) as [w e] eqn:Hon.
  destruct (_ =? _)%nat eqn:Hl; [|done]. apply Nat.eqb_eq, with_agents_all in Hl. rewrite Hl in Hon.
  destruct e; [done|]. intros [= <-]. eauto.
Qed.

(** Running the builder of files. *)
Lemma FilesBuilder_writes nodes files s s' :
  good_names (fd_name <$> files) -> FilesBuilder_Run nodes files s = (s', Done (Ok tt)) ->
  (forall n fd, n ∈ nodes -> fd ∈ files ->
     host_files (st_world s' (node_Address n)) !! fd_name fd
       = Some (default "" (fd_dataMap fd !! node_Address n)))
  /\ forall a, untouched (fd_name <$> files) (host_files (st_world s a)) (host_files (st_world s' a)).
Proof.
  intros Hg. unfold FilesBuilder_Run. set (f := fun n : Node => engine_RunWithInput _ _ _ _ _).
  intros (w & Hon & ->)%on_each_node_Ok. cbn.
  assert (forall n d d' u, f n d = (d', Ok u) ->
    (forall fd, fd ∈ files -> host_files d' !! fd_name fd = Some (default "" (fd_dataMap fd !! node_Address n)))
    /\ untouched (fd_name <$> files) (host_files d) (host_files d')) as Hf.
  { intros n d d' u Hr. subst f. cbn in Hr. unfold engine_RunWithInput, run in Hr.
    destruct (docker_tool _ d) as [d1 []] eqn:Ht; [|done]. injection Hr as <- _.
    eapply tool_write_files in Ht; [|reflexivity..]. cbn in Ht.
    destruct (write_files_good (fd_name <$> files) (archive_for n files) (host_files d)) as (fs' & Hw & F1 & F2);
      [done|by rewrite archive_names|rewrite archive_names; apply Hg|].
    rewrite Hw in Ht. injection Ht as ->. split.
    - intros fd Hfd. apply F1. by apply (list_elem_of_fmap_2
        (fun f => (fd_name f, default "" (fd_dataMap f !! node_Address n)))).
    - intros p Hp Hpt. apply F2; [by rewrite archive_names|done]. }
  split.
  - intros n fd Hn Hfd.
    apply (on_nodes_post (fun d => host_files d !! fd_name fd
             = Some (default "" (fd_dataMap fd !! node_Address n))) nodes f (st_world s) w (node_Address n));
      [|done|by apply list_elem_of_fmap_2].
    intros n2 d d' u Hn2 Ha Hr. destruct (Hf _ _ _ _ Hr) as [H1' _]. rewrite <- Ha. by apply H1'.
  - apply (on_nodes_rel (fun d d' => untouched _ (host_files d) (host_files d')) nodes f (st_world s) w);
      [done| |intros n d d' u _ Hr; by apply (Hf _ _ _ _ Hr)|done].
    intros d1 d2 d3 U1 U2 p Hp Hpt. by rewrite U2, U1.
Qed.

(** ** The paths of the plans *)
Definition good_pathb (name : string) : bool :=
  match Split name "/" with
  | "" :: l => let dir := List.removelast l in let e := List.last l "" in
      bool_decide (Forall plain dir /\ dir <> [] /\ plain e /\ plain (e +:+ ".tmp"))
  | _ => false
  end.
Definition good_namesb (names : list string) : bool :=
  bool_decide (NoDup names)
  && forallb (fun name => good_pathb name && bool_decide (~ (name +:+ ".tmp") ∈ names)) names.

Lemma good_pathb_ok name : good_pathb name = true -> good_path name.
Proof.
  unfold good_pathb. destruct (Split name "/") as [|x l] eqn:Hs; [done|]. destruct x; [|done].
  intros (Hd & Hne & He & Het)%bool_decide_eq_true. exists (List.removelast l), (List.last l "").
  split_and!; [done..|]. assert (l <> []) as Hl by (by intros ->).
  rewrite <- (List.app_removelast_last "" Hl). by apply Split_is_absolute.
Qed.
Lemma good_namesb_ok names : good_namesb names = true -> good_names names.
Proof.
  unfold good_namesb. intros [Hnd%bool_decide_eq_true Hall]%andb_prop. split; [done|]. intros name Hn.
  apply List.forallb_forall with (x := name) in Hall; [|by apply list_elem_of_In].
  apply andb_prop in Hall as [?%good_pathb_ok ?%bool_decide_eq_true]. done.
Qed.

(** One more path, in a directory none of the others are in. *)
Lemma good_names_insert name pre names names' :
  good_names names -> good_path name -> HasPrefix name pre = true ->
  forallb (fun x => negb (HasPrefix x pre) && negb (HasPrefix (x +:+ ".tmp") pre)) names = true ->
  names' ≡ₚ name :: names -> good_names names'.
Proof.
  intros [Hnd Hall] Hname [t Ht]%HasPrefix_split Hpre Hp.
  assert (forall x, x ∈ names -> HasPrefix x pre = false /\ HasPrefix (x +:+ ".tmp") pre = false) as Hx.
  { intros x Hx. apply List.forallb_forall with (x := x) in Hpre; [|by apply list_elem_of_In].
    apply andb_prop in Hpre as [?%negb_true_iff ?%negb_true_iff]. done. }
  assert (HasPrefix (name +:+ ".tmp") pre = true) as Htmp
    by (rewrite Ht, <- string_app_assoc; apply HasPrefix_app).
  assert (HasPrefix name pre = true) as Hpn by (rewrite Ht; apply HasPrefix_app). clear Ht.
  split.
  - rewrite Hp. constructor; [|done]. intros Hin. apply Hx in Hin as [? _]. congruence.
  - intros x. rewrite Hp. intros [->|Hin]%elem_of_cons; (split; [|rewrite not_elem_of_cons; split]).
    + done.
    + apply suffix_differs.
    + intros Hin. apply Hx in Hin as [? _]. congruence.
    + by apply Hall.
    + intros E. destruct (Hx x Hin) as [_ Hf]. congruence.
    + by apply Hall.
Qed.

Lemma good_path_in (dir : list string) e :
  Forall plain dir -> dir <> [] -> plain e -> good_path (absolute (dir ++ [e])).
Proof.
  intros Hd Hne He. exists dir, e. split_and!; [done..| |done].
  apply plain_app; [done|by apply (bool_decide_unpack _)|].
  clear. induction e as [|c e IH]; [vm_compute; lia|]. change (String c e +:+ ".tmp") with (String c (e +:+ ".tmp")).
  cbn [String.length]. lia.
Qed.
Lemma audit_policy_path policy : good_path (auditPolicyFilePath policy).
Proof.
  unfold auditPolicyFilePath.
  change ("/etc/kubernetes/apiserver/audit-policy-" +:+ md5_hex policy +:+ ".yaml")
    with (absolute (["etc"; "kubernetes"; "apiserver"] ++ ["audit-policy-" +:+ md5_hex policy +:+ ".yaml"])).
  apply good_path_in; [by apply (bool_decide_unpack _)|done|].
  apply plain_app; [by apply (bool_decide_unpack _)| |].
  2: { generalize (md5_hex policy +:+ ".yaml"). intros t.
       change ("audit-policy-" +:+ t) with (String "a" (String "u" (String "d" ("it-policy-" +:+ t)))).
       cbn [String.length]. lia. }
  apply no_slash_app; [|by apply (bool_decide_unpack _)]. intros Hin.
  pose proof (md5_hex_filename policy) as Hall. rewrite List.forallb_forall in Hall.
  apply list_elem_of_In, Hall in Hin. by vm_compute in Hin.
Qed.

(** The name of the configuration file for CNI is one of a file. *)
Definition cni_name_ok (c : Commander) : Prop :=
  match c with
  | prepareKubeletFilesCommand _ params _ _ =>
      cni_Name (kubelet_CNIConfFile params) <> "" ->
      match_filename (cni_Name (kubelet_CNIConfFile params)) = true
      /\ ~ cni_Name (kubelet_CNIConfFile params) ∈ ["."; ".."]
  | _ => True
  end.
Lemma cni_path name : plain name -> path_Join [cniConfDir; name] = absolute (["etc"; "cni"; "net.d"] ++ [name]).
Proof.
  intros Hn. unfold path_Join. cbn [List.filter].
  assert ((name =? "")%string = false) as He by (apply String.eqb_neq; intros ->; by apply (proj1 Hn); left). rewrite He.
  change (Clean (absolute ["etc"; "cni"; "net.d"] +:+ "/" +:+ name) = absolute (["etc"; "cni"; "net.d"] ++ [name])).
  rewrite <- absolute_snoc by done. apply Clean_absolute. apply Forall_app. split; [by apply (bool_decide_unpack _)|].
  by constructor.
Qed.
Ltac names := apply good_namesb_ok; vm_compute; reflexivity.
Lemma plans_good c nodes plan :
  plan_of c = Some (nodes, plan) -> cni_name_ok c -> good_names (plan ≫= names_of).
Proof.
  intros Hp Hc. destruct c; try done; injection Hp as <- <-.
  - names.
  - destruct (AuditLogEnabled params); [|names].
    match goal with |- good_names (?p ≫= _) => rewrite <- (take_drop 9 p), bind_app; cbn [take drop app] end.
    eapply (good_names_insert (auditPolicyFilePath (AuditLogPolicy params)) "/etc/kubernetes/apiserver/audit-policy-");
      [|apply audit_policy_path|apply HasPrefix_app| |apply (Permutation_app_comm _ [auditPolicyFilePath (AuditLogPolicy params)])];
      [names|vm_compute; reflexivity].
  - names.
  - names.
  - names.
  - cbn in Hc. destruct (kubelet_CNIConfFile params) as [name text]. cbn [cni_Name cni_Content] in *.
    destruct (String.length name =? 0)%nat eqn:He; [names|].
    destruct Hc as [Hm Hd]; [by intros ->|]. pose proof (filename_plain _ Hm Hd) as Hpl.
    match goal with |- good_names ((_ ++ ?p) ≫= _) =>
      eapply (good_names_insert (path_Join [cniConfDir; name]) "/etc/cni/net.d/" (p ≫= names_of)) end;
      [| | | |reflexivity].
    + names.
    + rewrite cni_path by done. apply good_path_in; [by apply (bool_decide_unpack _)|done..].
    + rewrite cni_path, absolute_snoc by done. apply (HasPrefix_app "/etc/cni/net.d/").
    + vm_compute. reflexivity.
  - names.
Qed.

(** C14: the files of a service on the nodes.  When the command that prepares the files of etcd, of
    the API server, of the controller manager, of the scheduler, of the proxy or of the kubelet
    succeeds, and then the command that writes them does, each node of the command has every file of
    the service: the certificates, keys and CA bundles as they are stored or as Vault has answered
    the request for that node, the kubeconfig with its certificate, the encryption configuration, and
    the configuration file generated for that node.  No other file of any machine has changed. *)
Theorem service_files_written c nodes plan s s1 files s2 :
  plan_of c = Some (nodes, plan) -> cni_name_ok c -> NoDup (node_Address <$> nodes) ->
  Prepare IPAdd c [] s = (s1, Done (Ok files)) -> FilesBuilder_Run nodes files s1 = (s2, Done (Ok tt)) ->
  (forall n e, n ∈ nodes -> e ∈ plan ->
     entry_ok (kvs (s_etcd (st_sys s))) (fun name data => host_files (st_world s2 (node_Address n)) !! name = Some data) n e)
  /\ forall a, untouched (plan ≫= names_of) (host_files (st_world s1 a)) (host_files (st_world s2 a)).
Proof.
  intros Hp Hg%(plans_good _ _ _ Hp) Hnd Hprep Hrun.
  destruct (Prepare_collects (kvs (s_etcd (st_sys s))) c nodes plan [] Hp (NoDup_by_address _ Hnd) s s1 files eq_refl Hprep)
    as (new & -> & Hnames & Hall). cbn in *. rewrite <- Hnames in Hg |- *.
  destruct (FilesBuilder_writes nodes new s1 s2 Hg Hrun) as [Hw Hu]. split; [|done].
  intros n e Hn He. eapply entry_ok_mono; [|by apply Hall].
  intros name data (fd & Hfd & <- & Hd). by rewrite (Hw n fd Hn Hfd), Hd.
Qed.
End plans.
