(* ===== verification/StrategySafety.v ===== *)
(** * Safety of the strategy

    A specification of [DecideOps] by rules, one per phase, each with what was
    established before the phase is entered; then what the operators of each
    phase may touch. *)

From Stdlib Require Import ZArith Ascii String Lia.
From stdpp Require Import base gmap strings list.
From S2P Require Import Prelude GoLib K8s Cluster Queue Resource Status Dns Params NodeFilter.
From S2P Require Import Operators Strategy Samples StrategyTotal.

Section safety.
  Context {T : K8sTypes} {K : K8s} `{Runtime}.
  Implicit Types (nf : NodeFilter) (o : Operator).

(** ** Phases by rules *)
Section rules.
  Context (static : list ResourceDefinition) (now : Z) (c : Cluster) (cs : ClusterStatus).
  Context (constraints : Constraints) (resources : list ResourceDefinition) (max : Z).
Let nf := NewNodeFilter c cs.
Let cp := ControlPlaneNodes nf.

(** What is known after each group of steps of [DecideOps]. *)
Definition past_rivers : Prop :=
  cs_ConfigVersion cs = ConfigVersion /\ riversOps c nf max = Ret [].
Definition past_etcd : Prop :=
  past_rivers /\ EtcdBootstrapped nf = Ret true
  /\ (exists stopped, EtcdStopped nf cp = Ret stopped /\ SSHConnected nf stopped = Ret [])
  /\ es_IsHealthy (cs_Etcd cs) = true.
Definition past_k8s : Prop := past_etcd /\ k8sOps c nf cs max = Ret [].
Definition past_maint : Prop :=
  past_k8s
  /\ (exists unreachable, SSHNotConnected nf cp = Ret unreachable
      /\ (unreachable = [] -> etcdMaintOp c nf = Ret None))
  /\ k8sMaintOps static c cs resources nf = Ret [] /\ cleanOps c nf = Ret []
  /\ rebootUncordonOp cs nf = Ret None.

(** The rules: in which situation a phase issues which operators. *)
Inductive decided : list Operator -> OperationPhase -> Prop :=
| decided_upgrade_aborted n ns :
    cs_ConfigVersion cs <> ConfigVersion -> SSHNotConnected nf cp = Ret (n :: ns) ->
    decided [] PhaseUpgradeAborted
| decided_upgrade :
    cs_ConfigVersion cs <> ConfigVersion -> SSHNotConnected nf cp = Ret [] ->
    decided [UpgradeOp (cs_ConfigVersion cs) cp] PhaseUpgrade
| decided_rivers ops :
    cs_ConfigVersion cs = ConfigVersion -> riversOps c nf max = Ret ops -> ops <> [] ->
    decided ops PhaseRivers
| decided_boot_aborted n ns :
    past_rivers -> EtcdBootstrapped nf = Ret false -> SSHNotConnected nf cp = Ret (n :: ns) ->
    decided [] PhaseEtcdBootAborted
| decided_boot :
    past_rivers -> EtcdBootstrapped nf = Ret false -> SSHNotConnected nf cp = Ret [] ->
    decided [EtcdBootOp cp (opt_Etcd (c_Options c))] PhaseEtcdBoot
| decided_start stopped nodes :
    past_rivers -> EtcdBootstrapped nf = Ret true -> EtcdStopped nf cp = Ret stopped ->
    SSHConnected nf stopped = Ret nodes -> nodes <> [] ->
    decided [EtcdStartOp nodes (opt_Etcd (c_Options c))] PhaseEtcdStart
| decided_wait :
    past_rivers -> es_IsHealthy (cs_Etcd cs) = false ->
    decided [EtcdWaitClusterOp cp] PhaseEtcdWait
| decided_k8s ops :
    past_etcd -> k8sOps c nf cs max = Ret ops -> ops <> [] -> decided ops PhaseK8sStart
| decided_etcd_maint o :
    past_k8s -> SSHNotConnected nf cp = Ret [] -> etcdMaintOp c nf = Ret (Some o) ->
    decided [o] PhaseEtcdMaintain
| decided_k8s_maint ops :
    past_k8s -> k8sMaintOps static c cs resources nf = Ret ops -> ops <> [] ->
    decided ops PhaseK8sMaintain
| decided_clean ops :
    past_k8s -> k8sMaintOps static c cs resources nf = Ret [] -> cleanOps c nf = Ret ops ->
    ops <> [] -> decided ops PhaseStopCP
| decided_uncordon o :
    past_k8s -> cleanOps c nf = Ret [] -> rebootUncordonOp cs nf = Ret (Some o) ->
    decided [o] PhaseUncordonNodes
| decided_repair_refused ops :
    past_maint -> repairOps c cs nf now = Ret (ops, true) ->
    EtcdIsGoodForRepair nf (ControlPlaneCount constraints) = Ret false ->
    decided [] PhaseRepairMachines
| decided_repair ops :
    past_maint -> repairOps c cs nf now = Ret (ops, true) ->
    EtcdIsGoodForRepair nf (ControlPlaneCount constraints) = Ret true ->
    decided ops PhaseRepairMachines
| decided_reboot_refused rops ops :
    past_maint -> repairOps c cs nf now = Ret (rops, false) ->
    rebootOps c cs constraints nf = Ret ops -> ops <> [] -> EtcdIsGood nf = false ->
    decided [] PhaseRebootNodes
| decided_reboot rops ops :
    past_maint -> repairOps c cs nf now = Ret (rops, false) ->
    rebootOps c cs constraints nf = Ret ops -> ops <> [] -> EtcdIsGood nf = true ->
    decided ops PhaseRebootNodes
| decided_completed rops :
    past_maint -> repairOps c cs nf now = Ret (rops, false) ->
    rebootOps c cs constraints nf = Ret [] ->
    decided [] PhaseCompleted.

Lemma length_pos {A} (l : list A) : 
  (0 <? length l)%nat = true /\ l <> [] \/ (0 <? length l)%nat = false /\ l = [].
Proof. destruct l; auto. Qed.

Local Ltac some_ops Hd l :=
  destruct (length_pos l) as [[Hlen Hne]|[Hlen ->]];
  [rewrite Hlen in Hd; injection Hd as <- <-; by eauto using decided
  |rewrite Hlen in Hd; clear Hlen].

(** The second half, once etcd and the Kubernetes components are in place. *)
Definition decide_rest : go (list Operator * OperationPhase) :=
  ops ← k8sMaintOps static c cs resources nf;
  if (0 <? length ops)%nat then Ret (ops, PhaseK8sMaintain) else
  ops ← cleanOps c nf;
  if (0 <? length ops)%nat then Ret (ops, PhaseStopCP) else
  uncordon ← rebootUncordonOp cs nf;
  match uncordon with
  | Some o => Ret ([o], PhaseUncordonNodes)
  | None =>
  r ← repairOps c cs nf now;
  let '(ops, phaseRepair) := r in
  if (phaseRepair : bool) then
    good ← EtcdIsGoodForRepair nf (ControlPlaneCount constraints);
    if negb good then Ret ([], PhaseRepairMachines) else Ret (ops, PhaseRepairMachines)
  else
  ops ← rebootOps c cs constraints nf;
  if (0 <? length ops)%nat then
    if negb (EtcdIsGood nf) then Ret ([], PhaseRebootNodes) else Ret (ops, PhaseRebootNodes)
  else Ret ([], PhaseCompleted)
  end.

Lemma decide_rest_decided unreachable ops phase :
  past_k8s -> SSHNotConnected nf cp = Ret unreachable ->
  (unreachable = [] -> etcdMaintOp c nf = Ret None) ->
  decide_rest = Ret (ops, phase) -> decided ops phase.
Proof.
  intros Hpk Hun Hmaint Hd. unfold decide_rest in Hd.
  apply bind_Ret_inv in Hd as (ops1 & Hk8s & Hd). some_ops Hd ops1.
  apply bind_Ret_inv in Hd as (ops2 & Hclean & Hd). some_ops Hd ops2.
  apply bind_Ret_inv in Hd as ([o|] & Hunc & Hd).
  { injection Hd as <- <-. by eauto using decided. }
  assert (Hpm : past_maint) by (split_and!; eauto).
  apply bind_Ret_inv in Hd as ([ops3 [|]] & Hrep & Hd).
  { apply bind_Ret_inv in Hd as ([|] & Hgood & Hd); injection Hd as <- <-;
      eauto using decided. }
  apply bind_Ret_inv in Hd as (ops4 & Hreb & Hd).
  destruct (length_pos ops4) as [[Hlen Hne]|[_ ->]].
  - rewrite Hlen in Hd. destruct (EtcdIsGood nf) eqn:Hg; injection Hd as <- <-;
      eauto using decided.
  - injection Hd as <- <-. eauto using decided.
Qed.

(** Every decision of the function is one of the rules. *)
Lemma DecideOps_decided ops phase :
  DecideOps static now c cs constraints resources max = Ret (ops, phase) -> decided ops phase.
Proof.
  unfold DecideOps. fold nf. fold cp. intros Hd.
  destruct (String.eqb_spec (cs_ConfigVersion cs) ConfigVersion) as [Hver|Hver]; simpl in Hd.
  2: { go_inv Hd. destruct v as [|n ns]; simpl in Hd; injection Hd as <- <-;
       by econstructor. }
  apply bind_Ret_inv in Hd as (ops1 & Hrivers & Hd). some_ops Hd ops1.
  assert (Hpr : past_rivers) by done.
  apply bind_Ret_inv in Hd as ([|] & Hboot & Hd); simpl in Hd.
  2: { go_inv Hd. destruct v as [|n ns]; simpl in Hd; injection Hd as <- <-; by econstructor. }
  apply bind_Ret_inv in Hd as (stopped & Hst & Hd).
  apply bind_Ret_inv in Hd as (nodes & Hssh & Hd). some_ops Hd nodes.
  destruct (es_IsHealthy (cs_Etcd cs)) eqn:Hh; simpl in Hd.
  2: { injection Hd as <- <-. by econstructor. }
  assert (Hpe : past_etcd) by (split_and!; eauto).
  apply bind_Ret_inv in Hd as (ops2 & Hk8s & Hd). some_ops Hd ops2.
  apply bind_Ret_inv in Hd as (unreachable & Hun & Hd).
  apply bind_Ret_inv in Hd as (maint & Hmaint & Hd).
  destruct maint as [o|].
  - injection Hd as <- <-. destruct unreachable; [|done]. by apply decided_etcd_maint.
  - apply (decide_rest_decided unreachable); [done|done| |done].
    intros ->. done.
Qed.
End rules.

(** ** Which nodes the operators work on *)

(** A node of the configuration whose agent answered in the last survey. *)
Definition reachable (c : Cluster) (cs : ClusterStatus) (n : Node) : Prop :=
  n ∈ c_Nodes c
  /\ exists st, cs_NodeStatuses cs !! node_Address n = Some st /\ ns_SSHConnected st = true.

Section reach.
  Context (c : Cluster) (cs : ClusterStatus).
Let nf := NewNodeFilter c cs.
Let cp := ControlPlaneNodes nf.

Lemma cp_nodes n : n ∈ cp -> n ∈ c_Nodes c /\ node_ControlPlane n = true.
Proof.
  unfold cp, nf. rewrite NewNodeFilter_cp. unfold ControlPlanes, filterNodes.
  by rewrite elem_of_filterb.
Qed.

Lemma reachable_connected l r :
  (forall n, n ∈ l -> n ∈ c_Nodes c) -> SSHConnected nf l = Ret r ->
  forall n, n ∈ r -> reachable c cs n.
Proof.
  intros Hl Hr n Hn. destruct (SSHConnected_inv _ _ _ _ Hr Hn) as [Hin (st & Hst & Hc)].
  split; [by apply Hl|]. exists st. split; [|done].
  unfold nodeStatus, nf in Hst. by rewrite NewNodeFilter_status in Hst.
Qed.

Lemma reachable_cp n :
  SSHNotConnected nf cp = Ret [] -> n ∈ cp -> reachable c cs n.
Proof.
  intros Hu Hn. destruct (filter_status_has _ _ _ _ Hu n Hn) as [st Hst].
  split; [by apply cp_nodes|]. exists st. split.
  - unfold nodeStatus, nf in Hst. by rewrite NewNodeFilter_status in Hst.
  - by apply (SSHNotConnected_nil _ _ _ Hu Hn).
Qed.

(** An operator that only works on reachable nodes. *)
Definition safe_op o : Prop := forall n, n ∈ op_nodes o -> reachable c cs n.
Definition safe_ops (ops : list Operator) : Prop := forall o, o ∈ ops -> safe_op o.

Lemma safe_ops_app ops1 ops2 : safe_ops ops1 -> safe_ops ops2 -> safe_ops (ops1 ++ ops2).
Proof. intros H1 H2 o [?|?]%elem_of_app; auto. Qed.
Lemma safe_ops_nil : safe_ops [].
Proof. by intros o ?%elem_of_nil. Qed.
Lemma safe_ops_single o : safe_op o -> safe_ops [o].
Proof. by intros Ho o' ->%list_elem_of_singleton. Qed.
Lemma safe_op_none o : op_nodes o = [] -> safe_op o.
Proof. intros Ho n. rewrite Ho. by intros ?%elem_of_nil. Qed.

Lemma op_for_safe nodes mk :
  (forall ns, op_nodes (mk ns) = ns) -> (forall n, n ∈ nodes -> reachable c cs n) ->
  safe_ops (op_for nodes mk).
Proof.
  intros Hmk Hn. unfold op_for. destruct nodes; [apply safe_ops_nil|].
  apply safe_ops_single. intros n'. rewrite Hmk. apply Hn.
Qed.

(** [limited_op_for] gives at most one operator, on at most [max] of the nodes. *)
Lemma limited_op_for_inv max nodes mk ops :
  limited_op_for max nodes mk = Ret ops ->
  ops = [] \/ exists sub, ops = [mk sub] /\ (forall n, n ∈ sub -> n ∈ nodes)
                     /\ len sub <= Z.max 0 max.
Proof.
  unfold limited_op_for. destruct nodes as [|x nodes]; [intros [= <-]; auto|].
  intros (sub & Hs & [= <-])%bind_Ret_inv. right. exists sub. split; [done|].
  apply slice_to_inv in Hs as ->. split.
  - intros n Hn. apply elem_of_take in Hn as (i & Hi & _). by apply list_elem_of_lookup_2 in Hi.
  - unfold len. rewrite length_take. lia.
Qed.

Lemma limited_op_for_safe max nodes mk ops :
  limited_op_for max nodes mk = Ret ops ->
  (forall ns, op_nodes (mk ns) = ns) -> (forall n, n ∈ nodes -> reachable c cs n) ->
  safe_ops ops.
Proof.
  intros [->|(sub & -> & Hsub & _)]%limited_op_for_inv Hmk Hn; [apply safe_ops_nil|].
  apply safe_ops_single. intros n'. rewrite Hmk. auto.
Qed.

Lemma all_nodes n : n ∈ AllNodes nf -> n ∈ c_Nodes c.
Proof. unfold nf. by rewrite NewNodeFilter_nodes. Qed.

(** The nodes of a filter that is applied to nodes of the cluster. *)
Local Ltac filtered Hf :=
  let n := fresh "n" in let Hn := fresh "Hn" in
  intros n Hn;
  first
    [ apply (go_filter_sub _ _ _ _ Hf) in Hn
    | apply (ProxyStopped_sub _ _ _ _ Hf) in Hn
    | apply (ProxyRunningUnexpectedly_sub _ _ _ _ Hf) in Hn
    | apply (ProxyOutdated_sub _ _ _ _ _ Hf) in Hn
    | apply (SchedulerOutdated_sub _ _ _ _ _ Hf) in Hn
    | apply (APIServerOutdated_sub _ _ _ _ Hf) in Hn ];
  first [by apply all_nodes | by apply cp_nodes].

Local Ltac safe_parts :=
  repeat match goal with
  | |- safe_ops (_ ++ _) => apply safe_ops_app
  | |- safe_ops (op_for _ _) => apply op_for_safe; [done|]
  | Hl : limited_op_for _ _ _ = Ret ?ops |- safe_ops ?ops =>
      apply (limited_op_for_safe _ _ _ _ Hl); [done|]
  | Hs : SSHConnected nf ?l = Ret ?r |- forall n, n ∈ ?r -> reachable c cs n =>
      apply (reachable_connected l); [|exact Hs]
  | Hf : _ = Ret ?l |- forall n, n ∈ ?l -> n ∈ c_Nodes c => filtered Hf
  end.

Lemma riversOps_safe max ops : riversOps c nf max = Ret ops -> safe_ops ops.
Proof. unfold riversOps. intros Hops. go_inv Hops. safe_parts. Qed.

(** ** Operators on the API server *)

Lemma decideEpOp_shape expect actual api r :
  decideEpOp expect actual api = Ret r ->
  r = None \/ r = Some (KubeEndpointsCreateOp api expect)
  \/ r = Some (KubeEndpointsUpdateOp api expect).
Proof. unfold decideEpOp. intros Hr. go_inv_cases Hr; auto. Qed.

Lemma decideEpsOp_shape expect actual api r :
  decideEpsOp expect actual api = Ret r ->
  r = None \/ r = Some (KubeEndpointSliceCreateOp api expect)
  \/ r = Some (KubeEndpointSliceUpdateOp api expect).
Proof. unfold decideEpsOp. intros Hr. go_inv_cases Hr; auto. Qed.

Lemma decideEpEpsOps_shape p ep eps api ops o :
  decideEpEpsOps p ep eps api = Ret ops -> o ∈ ops ->
  o ∈ [KubeEndpointsCreateOp api (expected_endpoints p);
       KubeEndpointsUpdateOp api (expected_endpoints p);
       KubeEndpointSliceCreateOp api (expected_slice p);
       KubeEndpointSliceUpdateOp api (expected_slice p)].
Proof.
  unfold decideEpEpsOps. intros Hops. go_inv Hops.
  apply decideEpOp_shape in Hv as [->|[-> | ->]];
  apply decideEpsOp_shape in Hv0 as [->|[-> | ->]]; simpl;
    rewrite ?elem_of_cons, ?elem_of_nil; tauto.
Qed.

(** The operators on endpoints talk to the API server they are given. *)
Lemma decideEpEpsOps_api p ep eps api ops o :
  decideEpEpsOps p ep eps api = Ret ops -> o ∈ ops ->
  apiserver_of o = Some api /\ op_nodes o = [].
Proof.
  intros Hops Ho%(decideEpEpsOps_shape _ _ _ _ _ _ Hops).
  rewrite !elem_of_cons, elem_of_nil in Ho.
  by destruct Ho as [->|[->|[->|[->|[]]]]].
Qed.

Lemma masterEndpointOps_api marked ops o :
  masterEndpointOps cs nf marked = Ret ops -> o ∈ ops ->
  (exists api, HealthyAPIServer nf = Ret api /\ apiserver_of o = Some api) /\ op_nodes o = [].
Proof.
  unfold masterEndpointOps. intros Hops Ho. go_inv Hops.
  destruct (decideEpEpsOps_api _ _ _ _ _ _ Hops Ho). eauto.
Qed.

Lemma masterEndpointOps_safe marked ops :
  masterEndpointOps cs nf marked = Ret ops -> safe_ops ops.
Proof.
  intros Hops o Ho. apply safe_op_none. by apply (masterEndpointOps_api _ _ _ Hops Ho).
Qed.

Lemma master_ops_if_healthy_safe ops : master_ops_if_healthy cs nf = Ret ops -> safe_ops ops.
Proof.
  unfold master_ops_if_healthy. intros Hops. go_inv_cases Hops; [|apply safe_ops_nil].
  by eapply masterEndpointOps_safe.
Qed.

Lemma apiserver_restart_inv nodes o :
  apiserver_restart c nodes = Ret o ->
  exists domain, o = APIServerRestartOp nodes (c_ServiceSubnet c) (opt_APIServer (c_Options c)) domain.
Proof. unfold apiserver_restart. intros Ho. go_inv Ho. eauto. Qed.

Lemma apiserver_restart_safe nodes o :
  apiserver_restart c nodes = Ret o -> (forall n, n ∈ nodes -> reachable c cs n) ->
  safe_ops [o].
Proof. intros (domain & ->)%apiserver_restart_inv Hn. by apply safe_ops_single. Qed.

(** ** API servers by rules *)

Definition api_healthy (n : Node) : Prop :=
  exists st, cs_NodeStatuses cs !! node_Address n = Some st
             /\ kcs_IsHealthy (ns_APIServer st) = true.
Definition api_down (n : Node) : Prop :=
  exists st, cs_NodeStatuses cs !! node_Address n = Some st
             /\ (ss_Running (kcs_Service (ns_APIServer st)) = false
                 \/ kcs_IsHealthy (ns_APIServer st) = false).

Inductive api_decision : list Operator -> bool -> Prop :=
| api_repair nodes ops restart :
    (forall n, n ∈ nodes -> n ∈ cp /\ reachable c cs n /\ api_down n) ->
    master_ops_if_healthy cs nf = Ret ops -> apiserver_restart c nodes = Ret restart ->
    api_decision (ops ++ [restart]) true
| api_hold ops :
    master_ops_if_healthy cs nf = Ret ops -> api_decision ops true
| api_update target ops restart :
    target ∈ cp -> (forall n, n ∈ cp -> reachable c cs n /\ api_healthy n) ->
    masterEndpointOps cs nf [node_Address target] = Ret ops ->
    apiserver_restart c [target] = Ret restart ->
    api_decision (ops ++ [restart]) true
| api_good ops :
    (forall n, n ∈ cp -> reachable c cs n /\ api_healthy n) ->
    APIServerOutdated nf cp = Ret [] ->
    masterEndpointOps cs nf (rebootNextCandidates cs) = Ret ops ->
    api_decision ops false.

Lemma nodeStatus_nf n : nodeStatus nf n = cs_NodeStatuses cs !! node_Address n.
Proof. unfold nodeStatus, nf. by rewrite NewNodeFilter_status. Qed.

(** A filter that keeps nothing: every target fails its condition. *)
Lemma filter_status_nil p l n :
  filter_status nf p l = Ret [] -> n ∈ l ->
  exists st, cs_NodeStatuses cs !! node_Address n = Some st /\ p st = false.
Proof.
  intros Hr Hn. destruct (filter_status_has _ _ _ _ Hr n Hn) as [st Hst].
  rewrite <- nodeStatus_nf. exists st. split; [done|].
  destruct (p st) eqn:Hp; [|done]. exfalso.
  assert (n ∈ ([] : list Node)) as ?%elem_of_nil; [|done].
  apply (filter_status_inv _ _ _ _ Hr). eauto.
Qed.

Lemma stopped_down l r n : APIServerStopped nf l = Ret r -> n ∈ r -> api_down n.
Proof.
  intros Hr (_ & st & Hst & Hp)%(filter_status_inv _ _ _ _ Hr).
  rewrite nodeStatus_nf in Hst. exists st. split; [done|]. left. by apply negb_true_iff.
Qed.

Lemma unhealthy_down l r n : APIServerUnhealthy nf l = Ret r -> n ∈ r -> api_down n.
Proof.
  intros Hr (_ & st & Hst & Hp)%(filter_status_inv _ _ _ _ Hr).
  rewrite nodeStatus_nf in Hst. exists st. split; [done|]. right. by apply negb_true_iff.
Qed.

Lemma all_reachable_healthy :
  SSHNotConnected nf cp = Ret [] -> APIServerUnhealthy nf cp = Ret [] ->
  forall n, n ∈ cp -> reachable c cs n /\ api_healthy n.
Proof.
  intros Hu Hh n Hn. split; [by apply reachable_cp|].
  destruct (filter_status_nil _ _ _ Hh Hn) as (st & Hst & Hp). exists st.
  split; [done|]. by apply negb_false_iff.
Qed.

(** Among reachable nodes nothing is dropped by [SSHConnected]. *)
Lemma SSHConnected_all l r :
  SSHConnected nf l = Ret r -> (forall n, n ∈ l -> reachable c cs n) ->
  forall n, n ∈ l -> n ∈ r.
Proof.
  intros Hr Hl n Hn. apply (filter_status_inv _ _ _ _ Hr). split; [done|].
  destruct (Hl n Hn) as (_ & st & Hst & Hc). exists st. by rewrite nodeStatus_nf.
Qed.

Lemma repair_targets stopped unhealthy outdated nodes1 nodes2 n :
  APIServerStopped nf cp = Ret stopped -> SSHConnected nf stopped = Ret nodes1 ->
  APIServerUnhealthy nf cp = Ret unhealthy -> APIServerOutdated nf unhealthy = Ret outdated ->
  SSHConnected nf outdated = Ret nodes2 -> n ∈ nodes1 ++ nodes2 ->
  n ∈ cp /\ reachable c cs n /\ api_down n.
Proof.
  intros Hst Hc1 Huh Hout Hc2 [Hn|Hn]%elem_of_app.
  - destruct (SSHConnected_inv _ _ _ _ Hc1 Hn) as [Hin _].
    pose proof (go_filter_sub _ _ _ _ Hst Hin) as Hcp. split_and!; [done| |].
    + apply (reachable_connected stopped nodes1); [|done|done].
      intros m Hm. apply cp_nodes. by apply (go_filter_sub _ _ _ _ Hst).
    + by apply (stopped_down _ _ _ Hst).
  - destruct (SSHConnected_inv _ _ _ _ Hc2 Hn) as [Hin _].
    pose proof (APIServerOutdated_sub _ _ _ _ Hout Hin) as Hin'.
    pose proof (go_filter_sub _ _ _ _ Huh Hin') as Hcp. split_and!; [done| |].
    + apply (reachable_connected outdated nodes2); [|done|done].
      intros m Hm. apply cp_nodes. apply (go_filter_sub _ _ _ _ Huh).
      by apply (APIServerOutdated_sub _ _ _ _ Hout).
    + by apply (unhealthy_down _ _ _ Huh).
Qed.

Lemma apiserverOps_decision ops skip :
  apiserverOps c nf cs = Ret (ops, skip) -> api_decision ops skip.
Proof.
  unfold apiserverOps. fold cp. intros Hd.
  do 5 (apply bind_Ret_inv in Hd as (? & ? & Hd)).
  destruct (_ ++ _) as [|n ns] eqn:Hnodes; cbv zeta in Hd.
  2: { go_inv Hd. eapply api_repair; [|done|done].
       intros m Hm. eapply repair_targets; [done..|]. by rewrite Hnodes. }
  apply bind_Ret_inv in Hd as (unreachable & Hun & Hd).
  apply bind_Ret_inv in Hd as (unhealthy & Huh & Hd).
  destruct unreachable, unhealthy; cbn [length Nat.ltb Nat.leb orb] in Hd;
    try (go_inv Hd; by apply api_hold).
  pose proof (all_reachable_healthy Hun Huh) as Hall.
  apply bind_Ret_inv in Hd as (outdated & Hout & Hd).
  apply bind_Ret_inv in Hd as (nodes & Hc & Hd).
  pose proof (fun n => APIServerOutdated_sub _ _ _ n Hout) as Hsub.
  destruct nodes as [|target nodes]; go_inv Hd.
  - apply api_good; [done| |done]. destruct outdated as [|n outdated]; [done|]. exfalso.
    assert (n ∈ ([] : list Node)) as ?%elem_of_nil; [|done].
    apply (SSHConnected_all _ _ Hc); [|set_solver]. intros m Hm. by apply Hall, Hsub.
  - eapply api_update; [|done..]. apply Hsub. apply (filter_status_sub _ _ _ _ _ Hc). set_solver.
Qed.

Lemma apiserverOps_safe ops skip : apiserverOps c nf cs = Ret (ops, skip) -> safe_ops ops.
Proof.
  intros [nodes ops' restart Hn Hm Hr|ops' Hm|t ops' restart Ht Hall Hm Hr|ops' Hall Ho Hm]
    %apiserverOps_decision;
    repeat apply safe_ops_app; try by eapply master_ops_if_healthy_safe.
  - apply (apiserver_restart_safe _ _ Hr). intros n ?%Hn. naive_solver.
  - by eapply masterEndpointOps_safe.
  - apply (apiserver_restart_safe _ _ Hr). intros n ->%list_elem_of_singleton. by apply Hall.
  - by eapply masterEndpointOps_safe.
Qed.

Lemma k8sOps_safe max ops : k8sOps c nf cs max = Ret ops -> safe_ops ops.
Proof.
  unfold k8sOps. intros Hd. apply bind_Ret_inv in Hd as ([aops [|]] & Ha & Hd).
  { injection Hd as <-. by eapply apiserverOps_safe. }
  go_inv Hd. repeat apply safe_ops_app; try (by safe_parts); [by eapply apiserverOps_safe|].
  match goal with Hi : (if InPlaceUpdate _ then _ else _) = _ |- _ =>
    destruct (InPlaceUpdate _); [|injection Hi as <-; apply safe_ops_nil] end.
  safe_parts.
Qed.

(** ** etcd maintenance *)
Lemma nodeMap_nodes a n : nf_nodeMap nf !! a = Some n -> n ∈ c_Nodes c.
Proof. by intros [? _]%NewNodeFilter_nodeMap. Qed.

Lemma EtcdNonCPMembers_nodes b n :
  n ∈ fst (EtcdNonCPMembers nf b) -> n ∈ c_Nodes c /\ node_ControlPlane n = false.
Proof.
  unfold EtcdNonCPMembers. simpl. intros ([m id] & -> & ([k v] & _ & Hm)%list_elem_of_omap)
    %list_elem_of_fmap.
  destruct (nf_nodeMap nf !! k) as [x|] eqn:Hx; [|done].
  destruct (node_ControlPlane x) eqn:Hcp; [done|]. split_match_in Hm; [done|].
  injection Hm as <- <-. simpl. eauto using nodeMap_nodes.
Qed.

Lemma nodeMap_cp a n : nf_nodeMap nf !! a = Some n -> node_ControlPlane n = true -> n ∈ cp.
Proof.
  intros Hn%nodeMap_nodes Hcp. unfold cp, nf. rewrite NewNodeFilter_cp.
  unfold ControlPlanes, filterNodes. by apply elem_of_filterb.
Qed.

Lemma EtcdUnstartedMembers_cp n : n ∈ EtcdUnstartedMembers nf -> n ∈ cp.
Proof.
  unfold EtcdUnstartedMembers. intros ([k v] & _ & Hm)%list_elem_of_omap.
  destruct (nf_nodeMap nf !! k) as [x|] eqn:Hx; [|done].
  destruct (node_ControlPlane x) eqn:Hcp; [|done]. simpl in Hm. split_match_in Hm; [done|].
  injection Hm as <-. eauto using nodeMap_cp.
Qed.

Lemma unmarked_members_cp l r n : unmarked_members nf l = Ret r -> n ∈ r -> n ∈ cp.
Proof.
  revert r. induction l as [|[k v] l IH]; intros r Hr; cbn [unmarked_members] in Hr.
  { injection Hr as <-. by intros ?%elem_of_nil. }
  destruct v; cbn [negb] in Hr; [|eauto].
  destruct (nf_nodeMap nf !! k) as [x|] eqn:Hx; [|eauto].
  destruct (node_ControlPlane x) eqn:Hcp; cbn [negb] in Hr; [|eauto].
  apply bind_Ret_inv in Hr as (st & _ & Hr). destruct (etcd_IsAddedMember _); [eauto|].
  go_inv Hr. intros [->|?]%elem_of_cons; eauto using nodeMap_cp.
Qed.

Lemma EtcdNewMembers_cp n : n ∈ EtcdNewMembers nf -> n ∈ cp.
Proof. unfold EtcdNewMembers. by intros [? _]%elem_of_filterb. Qed.

Lemma etcdMaintOp_safe o :
  SSHNotConnected nf cp = Ret [] -> etcdMaintOp c nf = Ret (Some o) -> safe_op o.
Proof.
  intros Hun. pose proof (fun n => reachable_cp n Hun) as Hcp.
  assert (forall b ns ids targets, EtcdNonCPMembers nf b = (ns, ids) ->
            SSHConnected nf ns = Ret targets -> safe_op (EtcdDestroyMemberOp cp targets ids))
    as Hdestroy.
  { intros b ns ids targets Hns Hc. refine (reachable_connected ns targets _ Hc).
    intros n Hn. apply (EtcdNonCPMembers_nodes b). by rewrite Hns. }
  unfold etcdMaintOp. intros Hd. go_inv_cases Hd; try done;
    try (by apply safe_op_none); try (by eapply Hdestroy); intros m Hm; apply Hcp; simpl in Hm.
  - apply list_elem_of_singleton in Hm as ->. apply (go_filter_sub _ _ _ _ Hv0). set_solver.
  - apply list_elem_of_singleton in Hm as ->. apply EtcdNewMembers_cp.
    match goal with He : EtcdNewMembers nf = _ |- _ => rewrite He end. set_solver.
  - by apply (unmarked_members_cp _ _ _ Hv).
  - apply list_elem_of_singleton in Hm as ->. apply EtcdUnstartedMembers_cp.
    match goal with He : EtcdUnstartedMembers nf = _ |- _ => rewrite He end. set_solver.
Qed.

Lemma clean_targets_inv p r :
  clean_targets c nf p = Ret r ->
  forall n, n ∈ r -> reachable c cs n /\ node_ControlPlane n = false.
Proof.
  intros Hr n [Hin Hn]%(go_filter_inv _ _ _ Hr).
  apply bind_Ret_inv in Hn as (st & Hst & Hn).
  destruct (cs_NodeStatuses (nf_status nf) !! node_Address n) as [st'|] eqn:Hs; [|done].
  injection Hst as ->. unfold nf in Hs. rewrite NewNodeFilter_status in Hs.
  destruct (ns_SSHConnected st) eqn:Hc; [|done]. destruct (node_ControlPlane n); [done|].
  split; [|done]. split; [done|eauto].
Qed.

Lemma cleanOps_safe ops : cleanOps c nf = Ret ops -> safe_ops ops.
Proof.
  unfold cleanOps. intros Hd. go_inv Hd.
  repeat apply safe_ops_app; apply op_for_safe; try done;
    match goal with Hc : clean_targets _ _ _ = Ret ?r |- forall n, n ∈ ?r -> _ =>
      intros n Hn; by apply (clean_targets_inv _ _ Hc) end.
Qed.

(** ** Operators on the API server, continued *)

(** The operators each phase may issue. *)
Definition restarts_api o : bool :=
  match o with APIServerRestartOp _ _ _ _ => true | _ => false end.
Definition component_op o : bool :=
  match o with
  | ControllerManagerBootOp _ _ _ _ | ControllerManagerRestartOp _ _ _ _
  | SchedulerBootOp _ _ _ | SchedulerRestartOp _ _ _
  | KubeletBootOp _ _ _ _ _ _ | KubeletRestartOp _ _ _ _
  | KubeProxyBootOp _ _ _ _ | KubeProxyRestartOp _ _ _ _ | ContainerStopOp _ _ => true
  | _ => false
  end.
Definition endpoints_op o : bool :=
  match o with
  | KubeEndpointsCreateOp _ _ | KubeEndpointsUpdateOp _ _
  | KubeEndpointSliceCreateOp _ _ | KubeEndpointSliceUpdateOp _ _ => true
  | _ => false
  end.
Definition allowed (phase : OperationPhase) o : bool :=
  match phase, o with
  | PhaseUpgrade, UpgradeOp _ _ => true
  | PhaseRivers, (RiversBootOp _ _ _ _ _ _ | RiversRestartOp _ _ _ _ _ _) => true
  | PhaseEtcdBoot, EtcdBootOp _ _ => true
  | PhaseEtcdStart, EtcdStartOp _ _ => true
  | PhaseEtcdWait, EtcdWaitClusterOp _ => true
  | PhaseK8sStart, _ => endpoints_op o || restarts_api o || component_op o
  | PhaseEtcdMaintain,
      (EtcdAddMemberOp _ _ _ | EtcdRemoveMemberOp _ _ | EtcdDestroyMemberOp _ _ _
      | EtcdMarkMemberOp _ | EtcdRestartOp _ _ _) => true
  | PhaseK8sMaintain,
      (KubeWaitOp _ | KubeEtcdServiceCreateOp _ | KubeEtcdServiceUpdateOp _
      | KubeNodeUpdateOp _ _ | KubeNodeRemoveOp _ _ | ResourceApplyOp _ _ _ _
      | ClusterDNSCreateConfigMapOp _ _ _ | ClusterDNSUpdateConfigMapOp _ _
      | NodeDNSCreateConfigMapOp _ _ _ _ | NodeDNSUpdateConfigMapOp _ _) => true
  | PhaseK8sMaintain, _ => endpoints_op o
  | PhaseStopCP, ContainerStopOp _ _ => true
  | PhaseUncordonNodes, RebootUncordonOp _ _ => true
  | PhaseRepairMachines,
      (RepairDequeueOp _ | RepairDrainStartOp _ _ _ | RepairDrainTimeoutOp _
      | RepairExecuteOp _ _ _ | RepairFinishOp _ _ _) => true
  | PhaseRebootNodes,
      (RebootDrainStartOp _ _ _ | RebootDeleteDaemonSetPodOp _ _ _ | RebootRebootOp _ _ _
      | RebootDrainTimeoutOp _ | RebootDequeueOp _ | RebootCancelOp _) => true
  | _, _ => false
  end.

(** An operator of the phase whose API server is [api] and which works on no
    node through its agent. *)
Definition api_op (phase : OperationPhase) (api : option Node) o : Prop :=
  (apiserver_of o = Some api \/ apiserver_of o = None)
  /\ op_nodes o = [] /\ allowed phase o = true.
Definition api_ops (phase : OperationPhase) (api : option Node) (ops : list Operator) : Prop :=
  forall o, o ∈ ops -> api_op phase api o.

Lemma api_ops_app phase api ops1 ops2 :
  api_ops phase api ops1 -> api_ops phase api ops2 -> api_ops phase api (ops1 ++ ops2).
Proof. intros H1 H2 o [?|?]%elem_of_app; auto. Qed.
Lemma api_ops_nil phase api : api_ops phase api [].
Proof. by intros o ?%elem_of_nil. Qed.
Lemma api_ops_cons phase api o ops :
  api_op phase api o -> api_ops phase api ops -> api_ops phase api (o :: ops).
Proof. by intros Ho Hops o' [->|?]%elem_of_cons; auto. Qed.
Hint Resolve api_ops_app api_ops_nil api_ops_cons : core.
Hint Extern 0 (api_op _ _ _) => split; [solve [auto]|split; reflexivity] : core.

Lemma decideEpEpsOps_ops p ep eps api ops :
  decideEpEpsOps p ep eps api = Ret ops -> api_ops PhaseK8sMaintain api ops.
Proof.
  intros Hops o Ho%(decideEpEpsOps_shape _ _ _ _ _ _ Hops).
  rewrite !elem_of_cons, elem_of_nil in Ho. destruct Ho as [->|[->|[->|[->|[]]]]]; auto.
Qed.

Lemma etcdEndpointOps_ops marked ops api :
  HealthyAPIServer nf = Ret api -> etcdEndpointOps cs nf marked = Ret ops -> api_ops PhaseK8sMaintain api ops.
Proof.
  unfold etcdEndpointOps. intros Hapi Hd. rewrite Hapi in Hd. cbn [mbind go_bind] in Hd.
  go_inv Hd. apply api_ops_app; [|by eapply decideEpEpsOps_ops].
  unfold decideEtcdServiceOps.
  repeat split_match; simpl; auto.
Qed.

Lemma decideClusterDNSOps_ops api ks ops :
  decideClusterDNSOps api c ks = Ret ops -> api_ops PhaseK8sMaintain api ops.
Proof. unfold decideClusterDNSOps. intros Hd. go_inv_cases Hd; auto. Qed.

Lemma decideNodeDNSOps_ops api ks ops : decideNodeDNSOps api c ks = Ret ops -> api_ops PhaseK8sMaintain api ops.
Proof. unfold decideNodeDNSOps. intros Hd. go_inv_cases Hd; auto. Qed.

Lemma resource_op_ops api mappings ks isReady res :
  api_ops PhaseK8sMaintain api (resource_op api mappings ks isReady res).
Proof. unfold resource_op. repeat split_match; auto. Qed.

Lemma decideResourceOps_ops static api mappings ks resources isReady :
  api_ops PhaseK8sMaintain api (decideResourceOps static api mappings ks resources isReady).
Proof.
  intros o. unfold decideResourceOps. rewrite elem_of_app, !list_elem_of_bind.
  intros [(res & Ho & _)|(res & Ho & _)]; by apply resource_op_ops in Ho.
Qed.

Lemma k8sMaintOps_ops static resources api ops :
  HealthyAPIServer nf = Ret api -> k8sMaintOps static c cs resources nf = Ret ops ->
  api_ops PhaseK8sMaintain api ops.
Proof.
  unfold k8sMaintOps. intros Hapi Hd. rewrite Hapi in Hd. cbn [mbind go_bind] in Hd.
  destruct (ks_IsControlPlaneReady _); simpl in Hd.
  - go_inv Hd.
    apply api_ops_app; [apply decideResourceOps_ops|].
    apply api_ops_app; [by eapply decideClusterDNSOps_ops|].
    apply api_ops_app; [by eapply decideNodeDNSOps_ops|].
    apply api_ops_app; [by eapply etcdEndpointOps_ops|].
    apply api_ops_app; split_match; auto.
  - injection Hd as <-. auto.
Qed.

(** The operators of the queues have no API server among their targets and
    work on no node. *)
Lemma rebootOps_ops api constraints ops : rebootOps c cs constraints nf = Ret ops -> api_ops PhaseRebootNodes api ops.
Proof.
  unfold rebootOps. cbv zeta. intros Hd.
  match type of Hd with match ?qs with _ => _ end = _ =>
    assert (api_ops PhaseRebootNodes api qs) by (apply api_ops_app; split_match; auto); destruct qs end;
    go_inv_cases Hd; auto.
  apply api_ops_app; [go_inv_cases Hv; auto|].
  apply api_ops_app; [go_inv_cases Hv0; auto|]. split_match; auto.
Qed.

Lemma rebootUncordonOp_ops api o : rebootUncordonOp cs nf = Ret (Some o) -> api_op PhaseUncordonNodes api o.
Proof. unfold rebootUncordonOp. intros Hd. go_inv_cases Hd; [done|auto]. Qed.

Lemma run_step_ops api fuel now lim e r : run_step fuel c cs nf now lim e = Ret r -> api_ops PhaseRepairMachines api (fst r).
Proof.
  revert e r. induction fuel as [|fuel IH]; intros e r Hd; cbn [run_step] in Hd;
    go_inv_cases Hd; simpl; eauto.
Qed.

Lemma repair_loop_ops api now lim n m es r :
  repair_loop c cs nf now lim n m es = Ret r -> api_ops PhaseRepairMachines api (fst r).
Proof.
  revert n m r. induction es as [|e es IH]; intros n m r Hd; cbn [repair_loop] in Hd;
    go_inv_cases Hd; simpl; eauto using run_step_ops.
Qed.

Lemma repairOps_ops api now ops b : repairOps c cs nf now = Ret (ops, b) -> api_ops PhaseRepairMachines api ops.
Proof.
  unfold repairOps. intros Hd. go_inv Hd. apply api_ops_app; [|by eapply repair_loop_ops].
  intros o. unfold first_loop_ops. rewrite list_elem_of_bind. intros (e & Ho & _).
  revert Ho. split_match; rewrite ?elem_of_nil, ?list_elem_of_singleton; try done;
    intros ->; auto.
Qed.

Lemma api_ops_safe phase api ops : api_ops phase api ops -> safe_ops ops.
Proof. intros Hops o Ho. apply safe_op_none. by apply Hops. Qed.

Lemma EtcdStart_safe stopped nodes params :
  EtcdStopped nf cp = Ret stopped -> SSHConnected nf stopped = Ret nodes ->
  safe_op (EtcdStartOp nodes params).
Proof.
  intros Hst Hc. refine (reachable_connected stopped nodes _ Hc).
  intros n Hn. apply cp_nodes. by apply (go_filter_sub _ _ _ _ Hst).
Qed.

Lemma k8sMaintOps_safe static resources ops :
  k8sMaintOps static c cs resources nf = Ret ops -> safe_ops ops.
Proof.
  intros Hd. destruct (HealthyAPIServer nf) as [api|] eqn:Hapi.
  - by eapply api_ops_safe, k8sMaintOps_ops.
  - unfold k8sMaintOps in Hd. by rewrite Hapi in Hd.
Qed.

Lemma repairOps_safe now ops b : repairOps c cs nf now = Ret (ops, b) -> safe_ops ops.
Proof. intros Hd. by eapply (api_ops_safe _ None), repairOps_ops. Qed.
Lemma rebootOps_safe constraints ops : rebootOps c cs constraints nf = Ret ops -> safe_ops ops.
Proof. intros Hd. by eapply (api_ops_safe _ None), rebootOps_ops. Qed.
Lemma rebootUncordonOp_safe o : rebootUncordonOp cs nf = Ret (Some o) -> safe_op o.
Proof. intros Hd. apply safe_op_none. by apply (rebootUncordonOp_ops None) in Hd as (_ & ? & _). Qed.

(** Every decision is safe. *)
Lemma decided_safe static now constraints resources max ops phase :
  decided static now c cs constraints resources max ops phase -> safe_ops ops.
Proof.
  intros Hd; destruct Hd;
    try apply safe_ops_nil;
    eauto using riversOps_safe, k8sOps_safe, k8sMaintOps_safe, cleanOps_safe, repairOps_safe,
      rebootOps_safe;
    apply safe_ops_single; eauto using EtcdStart_safe, etcdMaintOp_safe, rebootUncordonOp_safe.
  - intros n Hn. by apply reachable_cp.
  - intros n Hn. by apply reachable_cp.
  - by apply safe_op_none.
Qed.

(** ** The operators of a phase *)
Definition of_phase (phase : OperationPhase) (ops : list Operator) : Prop :=
  forall o, o ∈ ops -> allowed phase o = true.

Lemma of_phase_app phase ops1 ops2 :
  of_phase phase ops1 -> of_phase phase ops2 -> of_phase phase (ops1 ++ ops2).
Proof. intros H1 H2 o [?|?]%elem_of_app; auto. Qed.
Lemma of_phase_single phase o : allowed phase o = true -> of_phase phase [o].
Proof. by intros Ho o' ->%list_elem_of_singleton. Qed.
Lemma of_phase_nil phase : of_phase phase [].
Proof. by intros o ?%elem_of_nil. Qed.
Lemma op_for_phase phase nodes mk :
  (forall ns, allowed phase (mk ns) = true) -> of_phase phase (op_for nodes mk).
Proof. intros Hmk. destruct nodes; [apply of_phase_nil|]. by apply of_phase_single. Qed.
Lemma limited_op_for_phase phase max nodes mk ops :
  limited_op_for max nodes mk = Ret ops -> (forall ns, allowed phase (mk ns) = true) ->
  of_phase phase ops.
Proof.
  intros [->|(sub & -> & _)]%limited_op_for_inv Hmk; [apply of_phase_nil|].
  by apply of_phase_single.
Qed.
Lemma api_ops_phase phase api ops : api_ops phase api ops -> of_phase phase ops.
Proof. intros Hops o Ho. by apply Hops. Qed.

Lemma riversOps_phase max ops : riversOps c nf max = Ret ops -> of_phase PhaseRivers ops.
Proof.
  unfold riversOps. intros Hd. go_inv Hd.
  repeat apply of_phase_app; by eapply limited_op_for_phase.
Qed.
Lemma cleanOps_phase ops : cleanOps c nf = Ret ops -> of_phase PhaseStopCP ops.
Proof.
  unfold cleanOps. intros Hd. go_inv Hd. repeat apply of_phase_app; by apply op_for_phase.
Qed.
Lemma etcdMaintOp_phase o : etcdMaintOp c nf = Ret (Some o) -> allowed PhaseEtcdMaintain o = true.
Proof. unfold etcdMaintOp. intros Hd. go_inv_cases Hd; done. Qed.
Lemma k8sMaintOps_phase static resources ops :
  k8sMaintOps static c cs resources nf = Ret ops -> of_phase PhaseK8sMaintain ops.
Proof.
  intros Hd. destruct (HealthyAPIServer nf) as [api|] eqn:Hapi.
  - by eapply api_ops_phase, k8sMaintOps_ops.
  - unfold k8sMaintOps in Hd. by rewrite Hapi in Hd.
Qed.

(** ** The other Kubernetes components *)

(** The operators on every node are limited. *)
Definition limited_op o : bool :=
  match o with
  | RiversBootOp _ _ _ _ _ _ | RiversRestartOp _ _ _ _ _ _
  | KubeletBootOp _ _ _ _ _ _ | KubeletRestartOp _ _ _ _
  | KubeProxyBootOp _ _ _ _ | KubeProxyRestartOp _ _ _ _ | ContainerStopOp _ _ => true
  | _ => false
  end.

Definition within (max : Z) o : Prop := limited_op o = true -> len (op_nodes o) <= Z.max 0 max.
Definition components (max : Z) (ops : list Operator) : Prop :=
  forall o, o ∈ ops -> component_op o = true /\ within max o.

Lemma components_app max ops1 ops2 :
  components max ops1 -> components max ops2 -> components max (ops1 ++ ops2).
Proof. intros H1 H2 o [?|?]%elem_of_app; auto. Qed.
Lemma components_op_for max nodes mk :
  (forall ns, component_op (mk ns) = true /\ limited_op (mk ns) = false) ->
  components max (op_for nodes mk).
Proof.
  intros Hmk o. destruct nodes; simpl; [by intros ?%elem_of_nil|].
  intros ->%list_elem_of_singleton. destruct (Hmk (n :: nodes)) as [Hc Hl].
  split; [done|]. unfold within. by rewrite Hl.
Qed.
Lemma components_limited max nodes mk ops :
  limited_op_for max nodes mk = Ret ops ->
  (forall ns, component_op (mk ns) = true /\ op_nodes (mk ns) = ns) -> components max ops.
Proof.
  intros [->|(sub & -> & _ & Hlen)]%limited_op_for_inv Hmk o; [by intros ?%elem_of_nil|].
  intros ->%list_elem_of_singleton. destruct (Hmk sub) as [Hc Hn].
  split; [done|]. intros _. by rewrite Hn.
Qed.

(** [k8sOps] is a decision on the API servers, followed by other components
    only when the API servers are all in order. *)
Lemma k8sOps_decision max ops :
  k8sOps c nf cs max = Ret ops ->
  api_decision ops true
  \/ exists aops rest, api_decision aops false /\ ops = aops ++ rest /\ components max rest.
Proof.
  unfold k8sOps. intros Hd. apply bind_Ret_inv in Hd as ([aops [|]] & Ha & Hd).
  { injection Hd as <-. left. by apply apiserverOps_decision. }
  right. exists aops. go_inv Hd. eexists. split; [by apply apiserverOps_decision|].
  split; [done|]. clear Ha aops.
  repeat apply components_app; try (by apply components_op_for);
    try (by eapply components_limited).
  match goal with Hi : (if InPlaceUpdate _ then _ else _) = _ |- _ =>
    destruct (InPlaceUpdate _); [|injection Hi as <-; by intros o ?%elem_of_nil] end.
  by eapply components_limited.
Qed.

Lemma riversOps_limited max ops o :
  riversOps c nf max = Ret ops -> o ∈ ops -> len (op_nodes o) <= Z.max 0 max.
Proof.
  unfold riversOps. intros Hd. go_inv Hd. rewrite !elem_of_app.
  intros [Ho|[Ho|[Ho|Ho]]];
    match goal with Hl : limited_op_for _ _ _ = Ret ?ops, Ho : o ∈ ?ops |- _ =>
      apply limited_op_for_inv in Hl as [->|(sub & -> & _ & Hlen)];
        [by apply elem_of_nil in Ho|apply list_elem_of_singleton in Ho as ->; done] end.
Qed.

(** What a decision on the API servers contains. *)
Lemma api_decision_ops aops skip o :
  api_decision aops skip -> o ∈ aops ->
  (exists marked ops, masterEndpointOps cs nf marked = Ret ops /\ o ∈ ops)
  \/ restarts_api o = true.
Proof.
  assert (forall ops, master_ops_if_healthy cs nf = Ret ops -> o ∈ ops ->
            exists marked ops, masterEndpointOps cs nf marked = Ret ops /\ o ∈ ops) as Hm.
  { unfold master_ops_if_healthy. intros ops Hd Ho. go_inv_cases Hd; [by eauto|].
    by apply elem_of_nil in Ho. }
  intros Hd Ho. destruct Hd;
    try (apply elem_of_app in Ho as [Ho|Ho%list_elem_of_singleton]); eauto; right; subst;
    match goal with Hr : apiserver_restart _ _ = Ret _ |- _ =>
      by apply apiserver_restart_inv in Hr as (? & ->) end.
Qed.

Lemma no_master_restart marked ops o :
  masterEndpointOps cs nf marked = Ret ops -> o ∈ ops -> restarts_api o = true -> False.
Proof.
  intros Hm Hin Hr. destruct (masterEndpointOps_api _ _ _ Hm Hin) as [(? & ? & ?) _].
  by destruct o.
Qed.

Lemma api_decision_restart aops skip nodes subnet params domain :
  api_decision aops skip -> APIServerRestartOp nodes subnet params domain ∈ aops ->
  (forall n, n ∈ nodes -> api_down n)
  \/ exists n, nodes = [n] /\ n ∈ cp
        /\ forall m, m ∈ cp -> reachable c cs m /\ api_healthy m.
Proof.
  assert (forall ops, master_ops_if_healthy cs nf = Ret ops ->
            APIServerRestartOp nodes subnet params domain ∈ ops -> False) as Hm.
  { unfold master_ops_if_healthy. intros ops Hd Ho. go_inv_cases Hd;
      [by eapply no_master_restart|by apply elem_of_nil in Ho]. }
  intros [ns ops restart Hn Hops Hr|ops Hops|t ops restart Ht Hall Hops Hr|ops Hall Hout Hops] Hin.
  - apply elem_of_app in Hin as [Hin|Hin%list_elem_of_singleton]; [by destruct (Hm _ Hops Hin)|].
    apply apiserver_restart_inv in Hr as (? & ->). injection Hin as -> _ _ _.
    left. intros n Hin. by apply Hn.
  - by destruct (Hm _ Hops Hin).
  - apply elem_of_app in Hin as [Hin|Hin%list_elem_of_singleton];
      [by destruct (no_master_restart _ _ _ Hops Hin)|].
    apply apiserver_restart_inv in Hr as (? & ->). injection Hin as -> _ _ _. eauto 6.
  - by destruct (no_master_restart _ _ _ Hops Hin).
Qed.

Lemma masterEndpointOps_phase marked ops :
  masterEndpointOps cs nf marked = Ret ops -> of_phase PhaseK8sStart ops.
Proof.
  unfold masterEndpointOps. intros Hd. go_inv Hd. intros o Ho.
  apply (decideEpEpsOps_shape _ _ _ _ _ _ Hd) in Ho.
  rewrite !elem_of_cons, elem_of_nil in Ho. by destruct Ho as [->|[->|[->|[->|[]]]]].
Qed.

Lemma k8sOps_phase max ops : k8sOps c nf cs max = Ret ops -> of_phase PhaseK8sStart ops.
Proof.
  assert (forall aops skip, api_decision aops skip -> of_phase PhaseK8sStart aops) as Hapi.
  { intros aops skip Ha o Ho. apply (api_decision_ops _ _ _ Ha) in Ho
      as [(marked & mops & Hm & Ho)|Hr]; [by eapply masterEndpointOps_phase|].
    simpl. rewrite Hr. by rewrite orb_true_r. }
  intros [Ha|(aops & rest & Ha & -> & Hrest)]%k8sOps_decision; [by eauto|].
  apply of_phase_app; [by eauto|]. intros o [Hc _]%Hrest. simpl. rewrite Hc. apply orb_true_r.
Qed.

Lemma decided_phase static now constraints resources max ops phase :
  decided static now c cs constraints resources max ops phase -> of_phase phase ops.
Proof.
  intros Hd; destruct Hd; try apply of_phase_nil; try (by apply of_phase_single);
    eauto using riversOps_phase, cleanOps_phase, k8sMaintOps_phase, k8sOps_phase.
  - by apply of_phase_single, etcdMaintOp_phase.
  - apply of_phase_single. by apply (rebootUncordonOp_ops None) in H2 as (_ & _ & ?).
  - by eapply (api_ops_phase _ None), repairOps_ops.
  - by eapply (api_ops_phase _ None), rebootOps_ops.
Qed.

Lemma decided_restart static now constraints resources max ops phase o :
  decided static now c cs constraints resources max ops phase ->
  o ∈ ops -> restarts_api o = true -> k8sOps c nf cs max = Ret ops.
Proof.
  intros Hd Ho Hr. pose proof (decided_phase _ _ _ _ _ _ _ Hd o Ho) as Ha.
  destruct o; try done. destruct phase; try done. by inversion Hd.
Qed.
End reach.
End safety.
