(* ===== verification/ControlProps.v ===== *)
(** * What the control loop guarantees

    The record of an operation tells what became of it, an operation left by the
    previous leader is closed, containers are only changed on nodes of a validated
    configuration that answered the survey, and reading, surveying and deciding do not
    panic. *)

From Stdlib Require Import ZArith Ascii String Lia.
From stdpp Require Import base gmap strings list sorting.
From S2P Require Import Prelude GoLib GoFormat K8s Cluster Queue Resource Status Storage StorageProps Reboot.
From S2P Require Import NodeFilter Integrate Operators Engine Strategy Survey Pki Files Commands Control.
From S2P Require Import StrategyTotal SurveyProps PkiProps FilesProps StrategySafety.

(** ** Steps on the storage *)
Section steps.
  Context {T : K8sTypes} {K : K8s} `{Runtime} `{!Etcd} `{!Platform} `{!Network} `{Docker}.
  Implicit Types (s : site).

Definition stored_at s : gmap string KV := kvs (s_etcd (st_sys s)).

Lemma on_sys_world {A} (m : drn A) s : st_world (fst (on_sys m s)) = st_world s.
Proof. unfold on_sys. by destruct (m (st_sys s)). Qed.
Lemma store_eq {A} (m : sto A) s :
  store m s = (mkSite (mkSys (fst (m (s_etcd (st_sys s)))) (s_platform (st_sys s)) (s_calls (st_sys s)) (s_agents (st_sys s)))
                 (st_world s), snd (m (s_etcd (st_sys s)))).
Proof. unfold store, on_sys, storage. by destruct (m (s_etcd (st_sys s))). Qed.

Lemma update_record_Ok leaderKey r s s' u :
  update_record leaderKey r s = (s', Done (Ok u)) ->
  exists rev, stored_at s' = <[ recordKey r := mkKV (RecordJSON r) rev ]> (stored_at s).
Proof.
  unfold update_record. rewrite store_eq. unfold UpdateRecord, stored_at.
  destruct (as_leader_cases leaderKey [OpPut (recordKey r) (RecordJSON r)] (s_etcd (st_sys s))) as (d' & Hd).
  destruct Hd as [(-> & _ & (rev & _ & _ & Hw))|[(-> & _)|[-> _]]]; cbn; intros [= <- _]; try done.
  exists rev. exact Hw.
Qed.
Lemma update_record_Err leaderKey r s s' e :
  update_record leaderKey r s = (s', Done (Err e)) -> is_command_failure e = false.
Proof.
  unfold update_record. rewrite store_eq. unfold UpdateRecord.
  destruct (as_leader_cases leaderKey [OpPut (recordKey r) (RecordJSON r)] (s_etcd (st_sys s))) as (d' & Hd).
  by destruct Hd as [(-> & _)|[(-> & _)|[-> _]]]; intros [= _ <-].
Qed.
Lemma update_record_world leaderKey r s s' o :
  update_record leaderKey r s = (s', o) -> st_world s' = st_world s.
Proof. unfold update_record. rewrite store_eq. by intros [= <- _]. Qed.
(** Containers, volumes, files and agents are the same. *)
Definition same_nodes s s1 : Prop := st_world s1 = st_world s /\ s_agents (st_sys s1) = s_agents (st_sys s).
Lemma update_record_nodes leaderKey r s s' o : update_record leaderKey r s = (s', o) -> same_nodes s s'.
Proof. unfold update_record. rewrite store_eq. by intros [= <- _]. Qed.
Lemma ret_bind {A B} (a : A) (k : A -> ctl B) s : (mret (M := ctl) a ≫= k) s = k a s.
Proof. done. Qed.
Lemma net_bind {A B} (f : platform -> platform * A) (k : A -> ctl B) s :
  exists s1 a, (net f ≫= k) s = k a s1 /\ st_world s1 = st_world s /\ stored_at s1 = stored_at s /\ same_nodes s s1.
Proof.
  unfold net, on_sys, ask, mbind, ctl_bind. destruct (f (s_platform (st_sys s))) as [p a].
  eexists _, a. split; [done|]. done.
Qed.
End steps.

Ltac net_step x :=
  let s1 := fresh "s" in let Hw := fresh "Hw" in let Hs := fresh "Hs" in let Hn := fresh "Hnodes" in
  match goal with
  | |- context [(net ?f ≫= ?k) ?s] => destruct (net_bind f k s) as (s1 & x & -> & Hw & Hs & Hn)
  end.

(** ** Records of operations *)
Section records.
  Context {T : K8sTypes} {K : K8s} `{Runtime} `{!Etcd} `{!Platform} `{!Network} `{Docker} `{!Vault}.
  Context `{!Agents} `{!Executor} `{!Tools} `{!Encoders} (IPAdd : list Z -> Z -> list Z).
  Context (cas : nat) (leaderKey : string).
  Implicit Types (s : site) (o : Operator) (r : OpRecord).



(** The commands run one after the other, each without an error, with the files the
    ones before have collected; in between only the storage changes. *)
Inductive executed : list Commander -> list fileData -> site -> list fileData -> site -> Prop :=
| executed_nil files s : executed [] files s files s
| executed_record cmds files s s1 files' s' :
    same_nodes s s1 -> executed cmds files s1 files' s' -> executed cmds files s files' s'
| executed_command c cmds files s files1 s1 files' s' notified :
    Run IPAdd cas c leaderKey files s = (s1, Done (Ok (notified, files1))) ->
    executed cmds files1 s1 files' s' -> executed (c :: cmds) files s files' s'.


Definition recorded s r : Prop := exists rev, stored_at s !! recordKey r = Some (mkKV (RecordJSON r) rev).

(** How far an operator has come: all its commands have run, it was told to stop before one, it is about to
    run a command, or a command has failed. *)
Inductive progress : Type :=
| Finished
| Interrupted
| Starting (c : Commander) (files : list fileData)
| Failed (c : Commander) (files : list fileData) (e : error).
Inductive reached (cmds : list Commander) (files : list fileData) s : progress -> site -> Prop :=
| reached_end files' s' : executed cmds files s files' s' -> reached cmds files s Finished s'
| reached_stop ran rest files' s' :
    cmds = ran ++ rest -> rest <> [] -> executed ran files s files' s' -> reached cmds files s Interrupted s'
| reached_start ran c rest files' s' :
    cmds = ran ++ c :: rest -> executed ran files s files' s' -> reached cmds files s (Starting c files') s'
| reached_failure ran c rest files' s1 s' e :
    cmds = ran ++ c :: rest -> executed ran files s files' s1 ->
    Run IPAdd cas c leaderKey files' s1 = (s', Done (Err e)) -> reached cmds files s (Failed c files' e) s'.

(** The record [r] of the operation registered as [r0] tells how far it has come. *)
Definition tells (r0 : OpRecord) (p : progress) r : Prop :=
  r_ID r = r_ID r0 /\ r_Operation r = r_Operation r0 /\ r_Targets r = r_Targets r0 /\ r_StartAt r = r_StartAt r0
  /\ match p with
     | Finished => r_Status r = StatusCompleted /\ r_Error r = ""
     | Interrupted => r_Status r = StatusCancelled /\ r_Error r = ""
     | Starting c files => r_Status r = StatusRunning /\ r_Error r = "" /\ Command_of files c = Ret (r_Command r)
     | Failed c files e =>
         r_Status r = StatusCancelled /\ r_Error r = Error e /\ Command_of files c = Ret (r_Command r)
     end.
Definition result_of (p : progress) : option (result unit) :=
  match p with
  | Finished | Interrupted => Some (Ok tt)
  | Starting _ _ => None
  | Failed _ _ _ => Some (Err errCommandFailure)
  end.
(** Nothing but a question to the platform in between. *)
Definition asked s s1 : Prop := same_nodes s s1 /\ s_etcd (st_sys s1) = s_etcd (st_sys s).

(** What became of an operator registered as [r0] that issues some commands: [runOp] returns, with the stored
    record telling how far it came; or the record that tells it could not be stored, and the error
    is that of the storage; or a command, which the stored record says is running, does not
    return; or what to record about the next command cannot be computed. *)
Inductive op_outcome (r0 : OpRecord) (cmds : list Commander) (files : list fileData) s
    : site * outcome unit -> Prop :=
| op_returned p s1 s' r res :
    reached cmds files s p s1 -> same_nodes s1 s' -> recorded s' r -> tells r0 p r -> result_of p = Some res ->
    op_outcome r0 cmds files s (s', Done res)
| op_unrecorded p s1 s2 s' r e :
    reached cmds files s p s1 -> asked s1 s2 -> tells r0 p r ->
    update_record leaderKey r s2 = (s', Done (Err e)) -> is_command_failure e = false -> op_outcome r0 cmds files s (s', Done (Err e))
| op_panicked c files1 s1 s' r w :
    reached cmds files s (Starting c files1) s1 -> recorded s1 r -> tells r0 (Starting c files1) r ->
    Run IPAdd cas c leaderKey files1 s1 = (s', Panicked w) -> op_outcome r0 cmds files s (s', Panicked w)
| op_retrying c files1 s1 s' r :
    reached cmds files s (Starting c files1) s1 -> recorded s1 r -> tells r0 (Starting c files1) r ->
    Run IPAdd cas c leaderKey files1 s1 = (s', Retrying) -> op_outcome r0 cmds files s (s', Retrying)
| op_unnamed c files1 s1 w :
    reached cmds files s (Starting c files1) s1 -> Command_of files1 c = Panic w ->
    op_outcome r0 cmds files s (s1, Panicked w).

Lemma reached_record cmds files s s1 p s' : same_nodes s s1 -> reached cmds files s1 p s' -> reached cmds files s p s'.
Proof. intros Hn. destruct 1; econstructor; try done; by eapply executed_record. Qed.
Lemma reached_command c cmds files files1 s s1 ns p s' :
  Run IPAdd cas c leaderKey files s = (s1, Done (Ok (ns, files1))) ->
  reached cmds files1 s1 p s' -> reached (c :: cmds) files s p s'.
Proof.
  intros Hr. destruct 1; subst.
  - eapply reached_end. by eapply executed_command.
  - eapply (reached_stop _ _ _ (c :: ran)); try done. by eapply executed_command.
  - eapply (reached_start _ _ _ (c :: ran)); [done|]. by eapply executed_command.
  - eapply (reached_failure _ _ _ (c :: ran)); [done| |done]. by eapply executed_command.
Qed.
Lemma op_outcome_mono r0 cmds files s cmds' files' s' x :
  (forall p s1, reached cmds' files' s' p s1 -> reached cmds files s p s1) ->
  op_outcome r0 cmds' files' s' x -> op_outcome r0 cmds files s x.
Proof.
  intros Hr. destruct 1; [eapply op_returned|eapply op_unrecorded|eapply op_panicked|eapply op_retrying|eapply op_unnamed];
    eauto.
Qed.

Lemma asked_refl s : asked s s.
Proof. done. Qed.
Lemma clock_asked s : exists s1 now, clock s = (s1, Done (Ok now)) /\ asked s s1.
Proof. unfold clock, net, on_sys, ask. destruct (now_at _) as [q now]. by eexists _, now. Qed.
Lemma update_record_done r s : exists s' res, update_record leaderKey r s = (s', Done res).
Proof.
  unfold update_record. rewrite store_eq. unfold UpdateRecord.
  destruct (as_leader_cases leaderKey [OpPut (recordKey r) (RecordJSON r)] (s_etcd (st_sys s))) as (d' & Hd).
  destruct Hd as [(-> & _)|[(-> & _)|[-> _]]]; eauto.
Qed.
Lemma update_recorded r s s' u : update_record leaderKey r s = (s', Done (Ok u)) -> same_nodes s s' /\ recorded s' r.
Proof.
  intros Hu. split; [by eapply update_record_nodes|]. apply update_record_Ok in Hu as [rev Hs].
  exists rev. rewrite Hs. apply lookup_insert_eq.
Qed.

(** The last thing an operator does is to update the record. *)
Lemma update_outcome r0 cmds files p s s1 s2 r res :
  reached cmds files s p s1 -> asked s1 s2 -> tells r0 p r -> result_of p = Some res ->
  op_outcome r0 cmds files s
    (let '(s', o) := update_record leaderKey r s2 in (s', match o with Done (Ok _) => Done res | o => o end)).
Proof.
  intros Hp Ha Ht Hres. destruct (update_record_done r s2) as (s' & [u|e] & Hu); rewrite Hu.
  - apply update_recorded in Hu as [Hn Hrec]. eapply op_returned; try done.
    destruct Ha as [[Hw2 Ha2] _], Hn as [Hw3 Ha3]. split; congruence.
  - eapply op_unrecorded; try done. by eapply update_record_Err.
Qed.
Lemma update_outcome_Ok r0 cmds files p s s1 s2 r :
  reached cmds files s p s1 -> asked s1 s2 -> tells r0 p r -> result_of p = Some (Ok tt) ->
  op_outcome r0 cmds files s (update_record leaderKey r s2).
Proof.
  intros Hp Ha Ht Hres. pose proof (update_outcome r0 cmds files p s s1 s2 r _ Hp Ha Ht Hres) as Ho.
  destruct (update_record leaderKey r s2) as [s' [[[]|e]|w|]]; exact Ho.
Qed.

(** The loop, with a record that tells no error. *)
Definition same_op (r0 r : OpRecord) : Prop :=
  r_ID r = r_ID r0 /\ r_Operation r = r_Operation r0 /\ r_Targets r = r_Targets r0 /\ r_StartAt r = r_StartAt r0
  /\ r_Error r = "".

Lemma command_outcome r0 o c cmds failed r files s s1 :
  (forall failed files r s, same_op r0 r ->
     op_outcome r0 cmds files s (run_loop IPAdd cas leaderKey o cmds failed files r s)) ->
  same_op r0 r -> r_Status r = StatusRunning -> Command_of files c = Ret (r_Command r) -> same_nodes s s1 ->
  recorded s1 r ->
  op_outcome r0 (c :: cmds) files s
    ((res ← caught (Run IPAdd cas c leaderKey files);
      match res with
      | Ok (notified, files) => run_loop IPAdd cas leaderKey o cmds (failed ++ notified) files r
      | Err e =>
          now ← clock; _ ← update_record leaderKey (SetError now (Error e) r); raise errCommandFailure
      end) s1).
Proof.
  intros IH Hr Hst Hc Hn Hrec. unfold mbind at 1, ctl_bind at 1, caught.
  assert (executed [] files s files s1) as Hex by (eapply executed_record; [done|apply executed_nil]).
  assert (reached (c :: cmds) files s (Starting c files) s1) as Hstart
    by (by eapply (reached_start _ _ _ [])).
  assert (tells r0 (Starting c files) r) as Htells by (unfold tells; unfold same_op in Hr; naive_solver).
  destruct (Run IPAdd cas c leaderKey files s1) as [s2 [[[ns files1]|e]|w|]] eqn:Hrun.
  - eapply op_outcome_mono; [|by apply IH]. intros p s' Hp.
    eapply reached_record; [done|]. by eapply reached_command.
  - destruct (clock_asked s2) as (s3 & now & Hnow & Ha). unfold mbind at 1, ctl_bind at 1. rewrite Hnow.
    assert (reached (c :: cmds) files s (Failed c files e) s2) as Hp by (by eapply (reached_failure _ _ _ [])).
    assert (tells r0 (Failed c files e) (SetError now (Error e) r)) as Ht
      by (unfold tells; unfold same_op in Hr; cbn; naive_solver).
    pose proof (update_outcome r0 _ _ _ s s2 s3 _ _ Hp Ha Ht eq_refl) as Ho.
    unfold mbind, ctl_bind. destruct (update_record leaderKey _ s3) as [s' [[[]|e']|w|]]; exact Ho.
  - by eapply op_panicked.
  - by eapply op_retrying.
Qed.

Lemma run_loop_outcome r0 o cmds failed files r s :
  same_op r0 r -> op_outcome r0 cmds files s (run_loop IPAdd cas leaderKey o cmds failed files r s).
Proof.
  revert failed files r s. induction cmds as [|c cmds IH]; intros failed files r s Hr; cbn [run_loop].
  - set (r' := match Info o failed with Some info => SetInfo info r | None => r end).
    assert (same_op r0 r') as Hr' by (unfold r'; by destruct (Info o failed)).
    destruct (clock_asked s) as (s1 & now & Hnow & Ha). unfold mbind, ctl_bind. rewrite Hnow.
    apply (update_outcome_Ok r0 _ _ Finished s s s1); [eapply reached_end, executed_nil|done| |done].
    unfold tells. unfold same_op in Hr'. cbn. naive_solver.
  - net_step stop. destruct stop.
    { destruct (clock_asked s0) as (s1 & now & Hnow & Ha). unfold mbind, ctl_bind. rewrite Hnow.
      apply (update_outcome_Ok r0 _ _ Interrupted s s0 s1); [|done| |done].
      - eapply (reached_stop _ _ _ []); [done|done|]. eapply executed_record; [done|apply executed_nil].
      - unfold tells. unfold same_op in Hr. cbn. naive_solver. }
    assert (reached (c :: cmds) files s (Starting c files) s0) as Hstart.
    { eapply (reached_start _ _ _ []); [done|]. eapply executed_record; [done|apply executed_nil]. }
    unfold pure_go. destruct (Command_of files c) as [command|w] eqn:Hc; [|by eapply op_unnamed].
    rewrite ret_bind.
    assert (same_op r0 (SetCommand command r)) as Hr1 by (unfold same_op in *; cbn; naive_solver).
    unfold mbind at 1, ctl_bind at 1.
    destruct (update_record_done (SetCommand command r) s0) as (s1 & [[]|e] & Hu); rewrite Hu.
    + apply update_recorded in Hu as [Hn Hrec]. apply command_outcome; try done.
      destruct Hnodes as [Hw1 Ha1], Hn as [Hw2 Ha2]. split; congruence.
    + eapply op_unrecorded; [exact Hstart|apply asked_refl| |exact Hu|by eapply update_record_Err].
      unfold tells. unfold same_op in Hr1. naive_solver.
Qed.

(** The part of [runOp] before the first command. *)
Definition register (o : Operator) : ctl OpRecord :=
  id ← store NextRecordID;
  targets ← pure_go (Targets url_host o);
  now ← clock;
  let r := NewRecord now id (Name o) targets in
  _ ← store (RegisterRecord leaderKey r); mret r.

Lemma runOp_register o s :
  runOp IPAdd cas leaderKey o s
  = match register o s with
    | (s0, Done (Ok r)) => run_loop IPAdd cas leaderKey o (commands o) [] [] r s0
    | (s0, Done (Err e)) => (s0, Done (Err e))
    | (s0, Panicked w) => (s0, Panicked w)
    | (s0, Retrying) => (s0, Retrying)
    end.
Proof.
  unfold runOp, register, mbind, ctl_bind. destruct (store NextRecordID s) as [s1 [[id|e]|w|]]; [|done..].
  destruct (pure_go _ s1) as [s2 [[ts|e]|w|]]; [|done..]. destruct (clock s2) as [s3 [[now|e]|w|]]; [|done..].
  by destruct (store _ s3) as [s4 [[[]|e]|w|]].
Qed.
Lemma register_keeps o s : same_nodes s (fst (register o s)).
Proof.
  unfold register, mbind, ctl_bind, pure_go. rewrite store_eq.
  destruct (NextRecordID _) as [d1 [[id|e]|w|]]; [|done..]. cbn [fst snd].
  destruct (Targets url_host o) as [ts|w]; [|done]. cbn. unfold clock, net, on_sys, ask. cbn.
  destruct (now_at _) as [q now]. rewrite store_eq. cbn.
  by destruct (RegisterRecord _ _ _) as [d2 [[[]|e]|w|]].
Qed.
Lemma register_Ok o s s0 r :
  register o s = (s0, Done (Ok r)) ->
  same_op r r /\ r_Operation r = Name o /\ r_Status r = StatusNew /\ Targets url_host o = Ret (r_Targets r).
Proof.
  unfold register. intros (s1 & id & _ & Hk)%ctl_bind_Ok. apply ctl_bind_Ok in Hk as (s2 & ts & Hts & Hk).
  apply ctl_bind_Ok in Hk as (s3 & now & _ & Hk). apply ctl_bind_Ok in Hk as (s4 & [] & _ & Hk).
  injection Hk as _ <-. unfold pure_go in Hts. destruct (Targets url_host o); [|done].
  by injection Hts as _ <-.
Qed.


Lemma runOp_Ok_executed o s s' :
  runOp IPAdd cas leaderKey o s = (s', Done (Ok tt)) ->
  exists ran rest files' s1, commands o = ran ++ rest /\ executed ran [] s files' s1 /\ same_nodes s1 s'.
Proof.
  rewrite runOp_register. pose proof (register_keeps o s) as Hk.
  destruct (register o s) as [s0 [[r|e]|w|]] eqn:Hr; [|done..]. cbn in Hk. intros Hrun.
  destruct (register_Ok _ _ _ _ Hr) as [Hop _].
  pose proof (run_loop_outcome r o (commands o) [] [] r s0 Hop) as Ho. rewrite Hrun in Ho.
  inversion Ho as [p s1 s2 r' res Hp Hn _ _ Hres| | | |]; subst.
  inversion Hp; subst; try done.
  - eexists _, [], _, _. rewrite app_nil_r. split; [done|]. split; [by eapply executed_record|done].
  - eexists _, _, _, _. split; [done|]. split; [by eapply executed_record|done].
Qed.


(** ** The operation of the previous leader *)
Definition newest_record (m : gmap string KV) (key : string) (kv : KV) : Prop :=
  m !! key = Some kv /\ HasPrefix key KeyRecords = true
  /\ forall key', HasPrefix key' KeyRecords = true -> is_Some (m !! key') ->
       key' = key \/ str_less key' key = true.
(** Records are stored under their keys. *)
Definition records_keyed (m : gmap string KV) : Prop :=
  forall key kv r, HasPrefix key KeyRecords = true -> m !! key = Some kv ->
    kv_Value kv = RecordJSON r -> recordKey r = key.
Definition finished r : Prop := r_Status r = StatusCancelled \/ r_Status r = StatusCompleted.

Lemma newest_unique m m' key kv key' kv' :
  (forall k, HasPrefix k KeyRecords = true -> is_Some (m !! k) <-> is_Some (m' !! k)) ->
  newest_record m key kv -> newest_record m' key' kv' -> key = key'.
Proof.
  intros Hm (Hk & Hp & Hn) (Hk' & Hp' & Hn').
  destruct (Hn key') as [?|Hl]; [done|apply Hm; eauto|done|].
  destruct (Hn' key) as [?|Hl']; [done|apply Hm; eauto|done|].
  pose proof (str_less_trans _ _ _ Hl Hl') as Hx. by rewrite str_less_irrefl in Hx.
Qed.
Lemma GetRecords_newest d d' rs :
  GetRecords 1 d = (d', Done (Ok rs)) ->
  kvs d' = kvs d
  /\ match rs with
     | [] => forall key, HasPrefix key KeyRecords = true -> kvs d !! key = None
     | r :: _ => exists key kv, newest_record (kvs d) key kv /\ kv_Value kv = RecordJSON r
     end.
Proof.
  unfold GetRecords, GetPrefix, request, mbind, sto_bind.
  destruct (etcd_prefix KeyRecords (Some true) 1 d) as [d1 [l|]] eqn:Hg; [|done].
  apply prefix_spec in Hg as [Hs Hl]. destruct (Hl l eq_refl) as ([|[key kv] all] & [Hp Hsort] & ->).
  - intros [= <- <-]. split; [done|]. intros key Hk. apply eq_None_not_Some. intros [kv Hkv].
    assert ((key, kv) ∈ prefixed KeyRecords (kvs d)) as Hin by (by apply elem_of_prefixed).
    rewrite <- Hp in Hin. by apply elem_of_nil in Hin.
  - change (records_of _ d1) with ((r ← record_of kv; rs ← mret []; mret (r :: rs)) d1).
    unfold record_of. destruct (kv_Value kv) eqn:Hv; try done.
    intros [= <- <-]. split; [done|]. exists key, kv. split; [|done].
    assert ((key, kv) ∈ prefixed KeyRecords (kvs d)) as Hin by (rewrite <- Hp; left).
    apply elem_of_prefixed in Hin as [Hkv Hk]. split_and!; [done..|].
    intros key' Hk' [kv' Hkv'].
    assert ((key', kv') ∈ prefixed KeyRecords (kvs d)) as Hin by (by apply elem_of_prefixed).
    rewrite <- Hp in Hin. apply elem_of_cons in Hin as [[= -> _]|Hin]; [by left|right].
    apply StronglySorted_inv in Hsort as [_ Hf]. rewrite Forall_forall in Hf. by apply (Hf _ Hin).
Qed.

(** C20: A new leader closes the operation its predecessor left: once [checkLastOp] has
    succeeded, the newest record in the storage is completed or cancelled, no other value
    has changed, and nothing was done on the nodes. *)
Theorem orphan_closed s s' u :
  records_keyed (stored_at s) -> checkLastOp leaderKey s = (s', Done (Ok u)) ->
  st_world s' = st_world s
  /\ (forall key kv, newest_record (stored_at s') key kv ->
       (exists r, kv_Value kv = RecordJSON r /\ finished r)
       /\ forall key', key' <> key -> stored_at s' !! key' = stored_at s !! key').
Proof.
  intros Hkeyed. unfold checkLastOp. intros (s1 & rs & Hg & Hk)%ctl_bind_Ok.
  rewrite store_eq in Hg. injection Hg as <- Hg.
  destruct (GetRecords 1 (s_etcd (st_sys s))) as [d1 o1] eqn:He; cbn in *; subst o1.
  apply GetRecords_newest in He as [Hd Hn]. destruct rs as [|r rs].
  { injection Hk as <- _. split; [done|]. unfold stored_at; cbn. rewrite Hd.
    intros key kv (Hkv & Hp & _). by rewrite (Hn key Hp) in Hkv. }
  destruct Hn as (key0 & kv0 & Hnew & Hv). pose proof Hnew as (Hkv0 & Hp0 & _).
  destruct (_ || _)%bool eqn:Hf.
  - injection Hk as <- _. split; [done|]. unfold stored_at; cbn. rewrite Hd.
    intros key kv Hnew2. pose proof (newest_unique _ _ _ _ _ _ (fun _ _ => iff_refl _) Hnew Hnew2) as <-.
    destruct Hnew2 as [Hkv _]. rewrite Hkv0 in Hkv. injection Hkv as <-. split; [|done].
    exists r. split; [done|].
    apply orb_true_iff in Hf as [Hf%String.eqb_eq|Hf%String.eqb_eq]; [by left|by right].
  - unfold clock in Hk. revert Hk. net_step now. intros Hu.
    pose proof (update_record_world _ _ _ _ _ Hu) as Hw2.
    apply update_record_Ok in Hu as [rev Hst]. rewrite Hs in Hst. unfold stored_at in Hst at 2. cbn in Hst.
    rewrite Hd in Hst. change (recordKey (Cancel now r)) with (recordKey r) in Hst.
    rewrite (Hkeyed key0 kv0 r Hp0 Hkv0 Hv) in Hst. split; [by rewrite Hw2, Hw|].
    intros key kv Hnew2. rewrite Hst in Hnew2 |- *.
    assert (key = key0) as ->.
    { eapply newest_unique; [|done..]. intros k _. rewrite lookup_insert_is_Some.
      destruct (decide (k = key0)) as [->|]; naive_solver. }
    destruct Hnew2 as [Hkv _]. rewrite lookup_insert_eq in Hkv. injection Hkv as <-.
    split; [eexists; split; [done|by left]|]. intros key' Hne. by apply lookup_insert_ne.
Qed.
End records.

(** ** The nodes a command works on

    [within P m]: containers and volumes change at most on the addresses in [P]. *)
Section within.
  Context {T : K8sTypes} {K : K8s} `{Runtime} `{!Etcd} `{!Platform} `{!Network} `{Docker} `{!Vault}.
  Context `{!Agents} `{!Executor} `{!Tools} `{!Encoders} (IPAdd : list Z -> Z -> list Z).
  Context (P : string -> Prop).

Definition within {A} (m : ctl A) : Prop :=
  forall s a, ~ P a -> same_state (st_world s a) (st_world (fst (m s)) a).

Lemma within_ret {A} (a : A) : within (mret a).
Proof. intros s x _. apply same_state_refl. Qed.
Lemma within_raise {A} e : within (raise (A := A) e).
Proof. intros s x _. apply same_state_refl. Qed.
Lemma within_crash {A} w : within (crash (A := A) w).
Proof. intros s x _. apply same_state_refl. Qed.
Lemma within_pure_go {A} (m : go A) : within (pure_go m).
Proof. destruct m; [apply within_ret|apply within_crash]. Qed.
Lemma within_bind {A B} (m : ctl A) (k : A -> ctl B) : within m -> (forall a, within (k a)) -> within (m ≫= k).
Proof.
  intros Hm Hk s x Hx. specialize (Hm s x Hx). unfold mbind, ctl_bind.
  destruct (m s) as [s1 [[a|e]|w|]]; cbn in *; [|done..].
  eapply same_state_trans; [done|by apply Hk].
Qed.
Lemma within_caught {A} (m : ctl A) : within m -> within (caught m).
Proof. intros Hm s x Hx. specialize (Hm s x Hx). unfold caught. by destruct (m s) as [s1 []]. Qed.
Lemma within_on_sys {A} (m : drn A) : within (on_sys m).
Proof. intros s x _. rewrite on_sys_world. apply same_state_refl. Qed.
Lemma within_net {A} (f : platform -> platform * A) : within (net f).
Proof. apply within_on_sys. Qed.
Lemma within_store {A} (m : sto A) : within (store m).
Proof. apply within_on_sys. Qed.
Lemma within_needed {A} (f : platform -> platform * option A) : within (needed f).
Proof. apply within_bind; [apply within_net|]. intros [a|]; [apply within_ret|apply within_raise]. Qed.
Lemma within_optional {A} (f : platform -> platform * answer A) : within (optional f).
Proof.
  apply within_bind; [apply within_net|]. intros [a| |]; [apply within_ret|apply within_ret|apply within_raise].
Qed.
Lemma within_engine {A} a (m : eng A) : P a -> within (engine a m).
Proof.
  intros Ha s x Hx. unfold engine. destruct (connected a s); [|apply same_state_refl].
  destruct (m (st_world s a)) as [d r]. cbn. unfold set_daemon.
  destruct (String.eqb_spec x a) as [->|]; [done|apply same_state_refl].
Qed.
Lemma within_on_each_node nodes f :
  (forall n, n ∈ nodes -> P (node_Address n)) -> within (on_each_node nodes f).
Proof.
  intros Hn0 s x Hx. unfold on_each_node.
  assert (forall n, n ∈ with_agents s nodes -> P (node_Address n)) as Hn by (intros n Hin%with_agents_sub; auto).
  revert Hn. generalize (with_agents s nodes) at 1 2 3. clear Hn0. intros reached Hn.
  assert (fst (on_nodes reached f (st_world s)) x = st_world s x) as Hw.
  - clear nodes. generalize (st_world s). induction reached as [|n nodes IH]; intros w; cbn [on_nodes]; [done|].
    assert (fst (on_node (node_Address n) (f n) w) x = w x) as Hw1.
    { unfold on_node. destruct (f n (w (node_Address n))) as [d [u|e]]; cbn; unfold set_daemon;
        (destruct (String.eqb_spec x (node_Address n)) as [->|]; [|done]; destruct Hx; apply Hn; left). }
    destruct (on_node _ _ _) as [w1 e1]. specialize (IH ltac:(intros; apply Hn; by right) w1).
    destruct (on_nodes nodes f w1) as [w2 e2]. cbn in *. congruence.
  - destruct (on_nodes reached f (st_world s)) as [w e]. cbn in *. rewrite Hw. apply same_state_refl.
Qed.
Lemma within_each {A} (f : A -> ctl unit) l : (forall x, within (f x)) -> within (each f l).
Proof. intros Hf. induction l as [|x l IH]; cbn [each]; [apply within_ret|]. by apply within_bind. Qed.
Lemma within_require b what : within (require b what).
Proof. destruct b; [apply within_ret|apply within_raise]. Qed.
Lemma within_kube r : within (kube r).
Proof. apply within_bind; [apply within_net|intros; apply within_require]. Qed.
Lemma within_with_retries n m : within m -> within (with_retries n m).
Proof.
  intros Hm. induction n as [|n IH]; cbn [with_retries]; [done|].
  apply within_bind; [by apply within_caught|]. intros [u|e]; [apply within_ret|].
  apply within_bind; [apply within_net|]. intros []; [apply within_raise|done].
Qed.
Lemma within_keeps {A} (m : ctl A) : keeps m -> within m.
Proof. intros Hm s a _. apply Hm. Qed.
Lemma within_issueCertificate r : within (issueCertificate r).
Proof. apply within_keeps, keeps_issueCertificate. Qed.
End within.
Create HintDb within.
#[export] Hint Resolve within_ret within_raise within_crash within_pure_go within_on_sys within_net within_store within_needed
  within_optional within_require within_kube within_issueCertificate : within.
Ltac stay_within :=
  repeat first [ by auto with within | apply within_bind; [|intros ?] | apply within_caught
               | apply within_each; intros ? | apply within_with_retries
               | match goal with |- within _ (match ?x with _ => _ end) => destruct x end ].

Section within_commands.
  Context {T : K8sTypes} {K : K8s} `{Runtime} `{!Etcd} `{!Platform} `{!Network} `{Docker} `{!Vault}.
  Context `{!Agents} `{!Executor} `{!Tools} `{!Encoders} (IPAdd : list Z -> Z -> list Z).
  Context (cas : nat) (leaderKey : string) (P : string -> Prop).

Lemma within_wait_account n : within P (wait_account n).
Proof. induction n as [|n IH]; cbn [wait_account]; stay_within. Qed.
Lemma within_retaint_node n taints name : within P (retaint_node n taints name).
Proof. induction n as [|n IH]; cbn [retaint_node]; stay_within. Qed.
Lemma within_healthy_members endpoints eps n : within P (healthy_members endpoints eps n).
Proof. revert n. induction eps as [|ep eps IH]; intros; cbn [healthy_members]; stay_within. Qed.
Lemma within_ApplyResource data rev tms force : within P (ApplyResource data rev tms force).
Proof. unfold ApplyResource, injectCA, issueCert, converted. stay_within. Qed.

Lemma within_Run c files :
  (forall n, n ∈ command_nodes c -> P (node_Address n)) -> within P (Run IPAdd cas c leaderKey files).
Proof.
  intros Hn. apply within_bind; [apply within_keeps, keeps_Prepare|intros files'].
  apply within_bind; [|intros; apply within_ret].
  assert (forall f, within P (on_each_node (command_nodes c) f)) as Hec by (intros; by apply within_on_each_node).
  destruct c; unfold run_command, no_failures; cbn [command_nodes] in *; stay_within;
    unfold waitEtcdSync_Run, etcd_in_sync, setupEtcdAuth_Run, AddUserRole, addMember_Run, ensure_member,
      removeMember_Run, retaintBeforeKubeletBoot_Run, waitForKubeletReady_Run, kubelets_ready, CheckHealthz,
      waitKube_Run, createEndpoints_Run, updateEndpoints_Run, createEndpointSlice_Run,
      updateEndpointSlice_Run, createEtcdService_Run, updateEtcdService_Run, nodeUpdate_Run, nodeRemove_Run,
      remove_node, applyResource_Run, createClusterDNS_Run, createNodeDNS_Run, create_config_map,
      updateConfigMap_Run, new_etcd_client, etcd_do, k8s_client, makeDirs_Run, emptyDir_Run, installCNI_Run,
      FilesBuilder_Run; stay_within;
    auto using within_wait_account, within_retaint_node, within_healthy_members, within_ApplyResource.
  apply within_engine, Hn. left.
Qed.
End within_commands.

(** ** One round *)

(** What neither changes containers and volumes nor panics. *)
Section quiet.
  Context {T : K8sTypes} {K : K8s} `{Runtime} `{!Etcd} `{!Platform} `{!Network} `{Docker}.

Definition same_world (s s' : site) : Prop := forall a, same_state (st_world s a) (st_world s' a).
Definition quiet_end {A} (s : site) (x : site * outcome A) : Prop :=
  same_world s (fst x) /\ forall w, snd x <> Panicked w.
Definition sto_calm {A} (m : sto A) : Prop := forall d w, snd (m d) <> Panicked w.

Lemma same_world_refl s s' : st_world s' = st_world s -> same_world s s'.
Proof. intros Hw a. rewrite Hw. apply same_state_refl. Qed.
Lemma same_world_trans s1 s2 s3 : same_world s1 s2 -> same_world s2 s3 -> same_world s1 s3.
Proof. intros W1 W2 a. eapply same_state_trans; [apply W1|apply W2]. Qed.

(** A step that is quiet: either it is the last one, or the rest follows. *)
Lemma quiet_then {A B} (m : ctl A) (k : A -> ctl B) s :
  quiet_end s (m s) ->
  quiet_end s ((m ≫= k) s)
  \/ exists s1 a, m s = (s1, Done (Ok a)) /\ same_world s s1 /\ (m ≫= k) s = k a s1.
Proof.
  intros [Hw Hp]. unfold mbind, ctl_bind.
  destruct (m s) as [s1 [[a|e]|w|]]; cbn in *; [right; eauto|by left|by edestruct Hp|by left].
Qed.
Lemma quiet_store {A} (m : sto A) s : sto_calm m -> quiet_end s (store m s).
Proof. intros Hm. rewrite store_eq. split; [by apply same_world_refl|apply Hm]. Qed.
Lemma quiet_net {A} (f : platform -> platform * A) s : quiet_end s (net f s).
Proof. destruct (looks_net f s) as [[_ Hw] Hp]. by split. Qed.
Lemma quiet_caught {A} (m : ctl A) s : quiet_end s (m s) -> quiet_end s (caught m s).
Proof.
  intros [Hw Hp]. unfold quiet_end, caught in *.
  destruct (m s) as [s1 [r|w|]]; cbn in *; [done|by edestruct Hp|done].
Qed.
Lemma bind_panics {A B} (m : ctl A) (k : A -> ctl B) s s' w :
  (m ≫= k) s = (s', Panicked w) ->
  m s = (s', Panicked w) \/ exists s1 a, m s = (s1, Done (Ok a)) /\ k a s1 = (s', Panicked w).
Proof. unfold mbind, ctl_bind. destruct (m s) as [s1 [[a|e]|v|]]; [eauto|done|by intros [= -> ->]; left|done]. Qed.
Lemma looks_calm {A} (m : sto A) : sto_looks m -> sto_calm m.
Proof. intros Hm d w. apply Hm. Qed.
Lemma calm_as_leader leaderKey ops : sto_calm (as_leader leaderKey ops).
Proof. intros d w. by destruct (as_leader_cases leaderKey ops d) as (d' & [(-> & _)|[(-> & _)|[-> _]]]). Qed.
Lemma calm_Put key v : sto_calm (Put key v).
Proof.
  intros d w. unfold Put, Txn, request, mbind, sto_bind. by destruct (etcd_txn _ _ d) as [d' [[]|]].
Qed.
End quiet.

Section round.
  Context {T : K8sTypes} {K : K8s} `{Runtime} `{!Etcd} `{!Platform} `{!Network} `{Docker} `{!Vault}.
  Context `{!Agents} `{!Executor} `{!Tools} `{!Encoders} (IPAdd : list Z -> Z -> list Z).
  Context (cas : nat) (static : list ResourceDefinition) (max : Z) (addon : option Integrator).
  Context (leaderKey : string).
  Implicit Types (s : site) (c : Cluster).

Definition steps_kept s s' : Prop := repair_steps_ok (stored_at s) -> repair_steps_ok (stored_at s').

Lemma quiet_bind_all {A B} (m : ctl A) (k : A -> ctl B) s :
  quiet_end s (m s) -> (forall s1 a, quiet_end s1 (k a s1)) -> quiet_end s ((m ≫= k) s).
Proof.
  intros Hm Hk. destruct (quiet_then m k s Hm) as [?|(s1 & a & _ & Hw & ->)]; [done|].
  destruct (Hk s1 a) as [Hw1 Hp]. split; [by eapply same_world_trans|done].
Qed.
Lemma quiet_mret {A} (a : A) s : quiet_end s (mret (M := ctl) a s).
Proof. split; [by apply same_world_refl|done]. Qed.
Lemma quiet_raise {A} e s : quiet_end s (raise (A := A) e s).
Proof. split; [by apply same_world_refl|done]. Qed.

Lemma looks_GetServiceAccountCert : sto_looks GetServiceAccountCert.
Proof. unfold GetServiceAccountCert, getStringValue. sto_looks. Qed.
Lemma looks_GetCluster : sto_looks GetCluster.
Proof. unfold GetCluster, cluster_of, malformed. sto_looks. Qed.
Lemma looks_GetConstraints : sto_looks GetConstraints.
Proof. unfold GetConstraints, malformed. sto_looks. Qed.

(** *** The parts of a round

    What a round does before it connects to the nodes, before it surveys them, before it decides, and before
    it runs the operators; an invalid configuration ends it. *)
Definition read_cluster : ctl (Z * Cluster) := ts ← clock; c ← store GetCluster; mret (ts, c).
Definition connected_round : ctl (Z * Cluster) :=
  '(ts, c) ← read_cluster;
  match Validate c false with
  | Some e => raise e
  | None => _ ← NewInfrastructure c; mret (ts, c)
  end.
Definition surveyed_round : ctl (Z * Cluster * ClusterStatus) :=
  '(ts, c) ← connected_round;
  _ ← prepare_service_account leaderKey;
  cs ← GetClusterStatus static c; mret (ts, c, cs).
Definition decision (ts : Z) c (cs : ClusterStatus) : ctl (list Operator * OperationPhase) :=
  constraints ← store GetConstraints;
  rcs ← store GetAllResources;
  _ ← update_running cs;
  now ← clock;
  '(ops, phase) ← pure_go (DecideOps static now c cs constraints rcs max);
  _ ← store (SetStatus (mkServerStatus phase ts)); mret (ops, phase).

(** Computations that leave the stored values, containers and volumes alone, whatever they do
    to the agents. *)
Definition inert {A} (m : ctl A) : Prop :=
  forall s, same_world s (fst (m s)) /\ stored_at (fst (m s)) = stored_at s.
Lemma inert_keeps {A} (m : ctl A) : keeps m -> inert m.
Proof. intros Hm s. destruct (Hm s) as [[? _] ?]. by split. Qed.
Lemma inert_bind {A B} (m : ctl A) (k : A -> ctl B) : inert m -> (forall a, inert (k a)) -> inert (m ≫= k).
Proof.
  intros Hm Hk s. destruct (Hm s) as [W1 E1]. unfold mbind, ctl_bind.
  destruct (m s) as [s1 [[a|e]|w|]]; cbn in *; [|done..].
  destruct (Hk a s1) as [W2 E2]. split; [by eapply same_world_trans|congruence].
Qed.
Lemma inert_set_agents agents : inert (set_agents agents).
Proof. intros s. split; [by apply same_world_refl|done]. Qed.
Lemma keeps_connect_nodes privkeys nodes agents : keeps (connect_nodes privkeys nodes agents).
Proof.
  revert agents. induction nodes as [|n nodes IH]; intros agents; cbn [connect_nodes]; [apply keeps_ret|].
  apply keeps_bind; [apply keeps_caught; unfold private_key; keeps|]. intros [key|e].
  - apply keeps_bind; [apply keeps_net|intros ok; apply IH].
  - apply keeps_bind; [apply IH|intros []; apply keeps_ret].
Qed.
Lemma inert_NewInfrastructure c : inert (NewInfrastructure c).
Proof.
  unfold NewInfrastructure. apply inert_bind; [apply inert_keeps; keeps|intros ?].
  apply inert_bind; [apply inert_keeps; keeps|intros [privkeys|]]; [|apply inert_keeps; keeps].
  apply inert_bind; [apply inert_keeps, keeps_connect_nodes|]. intros [agents [e|]];
    [apply inert_keeps; keeps|apply inert_set_agents].
Qed.
(** The end of a round: its agents are closed. *)
Definition closed {A} (x : site * outcome A) : site * outcome A := (fst (set_agents ∅ (fst x)), snd x).
Lemma quiet_closed {A} s (x : site * outcome A) : quiet_end s x -> quiet_end s (closed x).
Proof. done. Qed.

(** The request of the certificate for service accounts panics. *)
Definition certificate_panics s (w : string) : Prop :=
  exists s1 s2, caught (store GetServiceAccountCert) s = (s1, Done (Ok (Err ErrNotFound)))
    /\ issueCertificate KubernetesCA_IssueForServiceAccount s1 = (s2, Panicked w).
Lemma prepare_service_account_cases s s' x :
  prepare_service_account leaderKey s = (s', x) ->
  same_world s s' /\ forall w, x = Panicked w -> certificate_panics s w.
Proof.
  unfold prepare_service_account. intros Hp.
  assert (within (fun _ => False) (prepare_service_account leaderKey)) as Hw
    by (unfold prepare_service_account; stay_within).
  split; [intros a; specialize (Hw s a); unfold prepare_service_account in Hw; rewrite Hp in Hw; apply Hw; by intros []|].
  intros w ->. revert Hp. unfold mbind at 1, ctl_bind at 1.
  pose proof (looks_calm _ looks_GetServiceAccountCert (s_etcd (st_sys s))) as Hc. unfold certificate_panics, caught.
  rewrite store_eq. destruct (GetServiceAccountCert _) as [d [r|v|]]; cbn in Hc |- *; [|by edestruct Hc|done].
  destruct r as [?|[]]; try done. intros Hp.
  apply bind_panics in Hp as [Hi|(s1 & [crt key] & _ & Hput)]; [eauto|].
  rewrite store_eq in Hput. injection Hput as _ Hput. by apply calm_as_leader in Hput.
Qed.
Lemma steps_prepare_service_account s s' u :
  prepare_service_account leaderKey s = (s', Done (Ok u)) -> steps_kept s s'.
Proof.
  unfold prepare_service_account, steps_kept. intros (s1 & r & Hg & Hk)%ctl_bind_Ok.
  apply looks_Ok in Hg as [[E1 _] _]; [|apply looks_caught, looks_store, looks_GetServiceAccountCert].
  unfold stored_at. rewrite <- E1. destruct r as [?|[]]; try done; [by injection Hk as <- _|].
  apply ctl_bind_Ok in Hk as (s2 & [crt key] & G2 & Hk).
  pose proof (keeps_issueCertificate KubernetesCA_IssueForServiceAccount s1) as [[E2 _] _]. rewrite G2 in E2.
  cbn in E2. rewrite <- E2.
  rewrite store_eq in Hk. injection Hk as <- Hk. cbn. unfold PutServiceAccountData in *.
  destruct (as_leader_cases leaderKey [OpPut KeyServiceAccountCert (Text crt);
    OpPut KeyServiceAccountKey (Text key)] (s_etcd (st_sys s2))) as (d & Hd).
  destruct Hd as [(Hd & _ & (rev & _ & _ & Ha))|[(Hd & _)|[Hd _]]]; rewrite Hd in Hk |- *; [|done..].
  cbn [foldl apply_op] in Ha. cbn. rewrite Ha. intros Hok k e rev'.
  rewrite !lookup_insert_Some. intros [[_ [=]]|[_ [[_ [=]]|[_ Hl]]]]. by apply (Hok _ _ _ Hl).
Qed.

(** How a round ends: quietly, with a panic because of an answer of Vault, after a run of the
    addon because there is no configuration, or after a survey and what it leads to. *)
Inductive round_case s : site * outcome bool -> Prop :=
| round_quiet x : quiet_end s x -> round_case s x
| round_infrastructure ts c s1 s' w :
    read_cluster s = (s1, Done (Ok (ts, c))) -> same_world s s' ->
    NewInfrastructure c s1 = (s', Panicked w) -> round_case s (s', Panicked w)
| round_certificate ts c s1 s' w :
    connected_round s = (s1, Done (Ok (ts, c))) -> same_world s s' -> certificate_panics s1 w ->
    round_case s (s', Panicked w)
| round_addon s1 :
    read_cluster s = (s1, Done (Err ErrNotFound)) -> same_world s s1 ->
    round_case s ((_ ← do_addon addon leaderKey None; mret true) s1)
| round_decides ts c s1 s2 cs :
    surveyed_round s = (s2, Done (Ok (ts, c, cs))) ->
    stored_cluster (stored_at s) = Some c -> Validate c false = None ->
    same_world s s1 -> steps_kept s s1 -> GetClusterStatus static c s1 = (s2, Done (Ok cs)) ->
    round_case s (closed (decide_and_run IPAdd cas static max addon leaderKey ts c cs s2)).

Lemma GetCluster_stored d d' c : GetCluster d = (d', Done (Ok c)) -> stored_cluster (kvs d) = Some c.
Proof.
  unfold GetCluster, mbind, sto_bind, stored_cluster.
  destruct (Get_cases KeyCluster d) as (d1 & _ & [->| ->]); [|done].
  destruct (kvs d !! KeyCluster) as [[v rev]|]; [|done]. unfold cluster_of. cbn.
  destruct v; try done. by intros [= _ ->].
Qed.
(** *** A round is its parts one after the other *)
Definition connect_and_run (ts : Z) c : ctl bool :=
  match Validate c false with
  | Some _ => mret true
  | None =>
      inf ← caught (NewInfrastructure c);
      match inf with
      | Err e => if str_contains (Error e) "403" then raise e else mret true
      | Ok _ => closing (survey_and_run IPAdd cas static max addon leaderKey ts c)
      end
  end.
Lemma runOnce_reads s :
  runOnce IPAdd cas static max addon leaderKey s
  = match read_cluster s with
    | (s1, Done (Ok (ts, c))) => connect_and_run ts c s1
    | (s1, Done (Err ErrNotFound)) => (_ ← do_addon addon leaderKey None; mret true) s1
    | (s1, Done (Err e)) => (s1, Done (Err e))
    | (s1, Panicked w) => (s1, Panicked w)
    | (s1, Retrying) => (s1, Retrying)
    end.
Proof.
  unfold runOnce, read_cluster, connect_and_run, caught, mbind, ctl_bind.
  destruct (clock s) as [s0 [[ts|e]|w|]] eqn:Hc; [| |done..].
  - destruct (store GetCluster s0) as [s1 [[c|e]|w|]]; [|by destruct e|done..]. done.
  - exfalso. destruct (clock_asked s) as (? & ? & Hc' & _). congruence.
Qed.
Lemma connect_and_run_surveys ts c s :
  connect_and_run ts c s
  = match Validate c false with
    | Some _ => (s, Done (Ok true))
    | None =>
        match NewInfrastructure c s with
        | (s1, Done (Ok _)) => closed (survey_and_run IPAdd cas static max addon leaderKey ts c s1)
        | (s1, Done (Err e)) => (s1, if str_contains (Error e) "403" then Done (Err e) else Done (Ok true))
        | (s1, Panicked w) => (s1, Panicked w)
        | (s1, Retrying) => (s1, Retrying)
        end
    end.
Proof.
  unfold connect_and_run. destruct (Validate c false); [done|]. unfold mbind, ctl_bind, caught.
  destruct (NewInfrastructure c s) as [s1 [[u|e]|w|]]; [|by destruct (str_contains _ _)|done..].
  unfold closing, closed. by destruct (survey_and_run _ _ _ _ _ _ _ _ _).
Qed.
Lemma survey_and_run_decides ts c s :
  survey_and_run IPAdd cas static max addon leaderKey ts c s
  = match prepare_service_account leaderKey s with
    | (s1, Done (Ok _)) =>
        match GetClusterStatus static c s1 with
        | (s2, Done (Ok cs)) => decide_and_run IPAdd cas static max addon leaderKey ts c cs s2
        | (s2, Done (Err _)) => (s2, Done (Ok true))
        | (s2, Panicked w) => (s2, Panicked w)
        | (s2, Retrying) => (s2, Retrying)
        end
    | (s1, Done (Err e)) => (s1, Done (Err e))
    | (s1, Panicked w) => (s1, Panicked w)
    | (s1, Retrying) => (s1, Retrying)
    end.
Proof.
  unfold survey_and_run, mbind, ctl_bind, caught. destruct (prepare_service_account leaderKey s) as [s1 [[u|e]|w|]]; [|done..].
  by destruct (GetClusterStatus static c s1) as [s2 [[cs|e]|w|]].
Qed.
Lemma decide_and_run_acts ts c cs s :
  decide_and_run IPAdd cas static max addon leaderKey ts c cs s
  = match decision ts c cs s with
    | (s1, Done (Ok (ops, phase))) => act IPAdd cas addon leaderKey cs ops phase s1
    | (s1, Done (Err e)) => (s1, Done (Err e))
    | (s1, Panicked w) => (s1, Panicked w)
    | (s1, Retrying) => (s1, Retrying)
    end.
Proof.
  unfold decide_and_run, decision, mbind, ctl_bind.
  destruct (store GetConstraints s) as [s1 [[cst|e]|w|]]; [|done..].
  destruct (store GetAllResources s1) as [s2 [[rcs|e]|w|]]; [|done..].
  destruct (update_running cs s2) as [s3 [[u|e]|w|]]; [|done..].
  destruct (clock s3) as [s4 [[now|e]|w|]]; [|done..].
  destruct (pure_go _ s4) as [s5 [[[ops phase]|e]|w|]]; [|done..].
  by destruct (store _ s5) as [s6 [[u6|e]|w|]].
Qed.
Lemma surveyed_decides s s2 ts c cs :
  surveyed_round s = (s2, Done (Ok (ts, c, cs))) ->
  runOnce IPAdd cas static max addon leaderKey s
  = closed (decide_and_run IPAdd cas static max addon leaderKey ts c cs s2).
Proof.
  unfold surveyed_round, connected_round. intros (s1 & [ts' c'] & Hc & Hk)%ctl_bind_Ok.
  apply ctl_bind_Ok in Hc as (s0 & [ts0 c0] & Hr & Hc). rewrite runOnce_reads, Hr, connect_and_run_surveys.
  destruct (Validate c0 false); [done|]. apply ctl_bind_Ok in Hc as (s3 & [] & Hi & Hc). injection Hc as <- <- <-.
  rewrite Hi, survey_and_run_decides. apply ctl_bind_Ok in Hk as (s4 & [] & Hp & Hk).
  apply ctl_bind_Ok in Hk as (s5 & cs' & Hg & Hk). injection Hk as <- <- <- <-. by rewrite Hp, Hg.
Qed.

Lemma read_cluster_cases s :
  same_world s (fst (read_cluster s)) /\ stored_at (fst (read_cluster s)) = stored_at s
  /\ (forall w, snd (read_cluster s) <> Panicked w)
  /\ forall ts c, snd (read_cluster s) = Done (Ok (ts, c)) -> stored_cluster (stored_at s) = Some c.
Proof.
  destruct (clock_asked s) as (s0 & ts & Hc & [[Hw _] He]). unfold read_cluster, mbind, ctl_bind. rewrite Hc, store_eq.
  destruct (looks_GetCluster (s_etcd (st_sys s0))) as [Hk Hp].
  destruct (GetCluster (s_etcd (st_sys s0))) as [d [[c|e]|w|]] eqn:Hg; cbn in *; unfold stored_at in *; cbn;
    rewrite Hk, He; (split; [by apply same_world_refl|]); (split; [done|]); split; try done.
  - intros ts' c' [= <- <-]. rewrite <- He. by eapply GetCluster_stored.
  - intros w'. by edestruct Hp.
Qed.
Lemma survey_case ts c s s1 :
  connected_round s = (s1, Done (Ok (ts, c))) -> same_world s s1 -> stored_at s1 = stored_at s ->
  Validate c false = None -> stored_cluster (stored_at s) = Some c ->
  round_case s (closed (survey_and_run IPAdd cas static max addon leaderKey ts c s1)).
Proof.
  intros Hconn Hw Hs Hv Hc. rewrite survey_and_run_decides.
  destruct (prepare_service_account leaderKey s1) as [s2 o] eqn:G1.
  destruct (prepare_service_account_cases _ _ _ G1) as [Hw1 Hp1]. pose proof (same_world_trans _ _ _ Hw Hw1) as Hw2.
  destruct o as [[u|e]|w|]; [|by apply round_quiet| |by apply round_quiet].
  2:{ eapply round_certificate; [done|exact Hw2|by apply Hp1]. }
  destruct (looks_GetClusterStatus static c Hv s2) as [[_ Hw3] Hp3].
  destruct (GetClusterStatus static c s2) as [s3 [[cs|e]|w|]] eqn:Hg; cbn in Hw3, Hp3.
  - eapply (round_decides _ ts c s2); try done.
    + unfold surveyed_round, mbind, ctl_bind. by rewrite Hconn, G1, Hg.
    + intros Hok. rewrite <- Hs in Hok. by eapply steps_prepare_service_account.
  - apply round_quiet. split; [by eapply same_world_trans|done].
  - by edestruct Hp3.
  - apply round_quiet. split; [by eapply same_world_trans|done].
Qed.
Lemma runOnce_cases s : round_case s (runOnce IPAdd cas static max addon leaderKey s).
Proof.
  rewrite runOnce_reads. destruct (read_cluster_cases s) as (Hw & Hs & Hp & Hc).
  destruct (read_cluster s) as [s1 [[[ts c]|e]|w|]] eqn:Hr; cbn in *;
    [| |by edestruct Hp|by apply round_quiet].
  2:{ destruct e; try (apply round_quiet; by split). by apply round_addon. }
  specialize (Hc _ _ eq_refl). rewrite connect_and_run_surveys.
  destruct (Validate c false) eqn:Hv; [by apply round_quiet|].
  destruct (inert_NewInfrastructure c s1) as [W2 E2].
  destruct (NewInfrastructure c s1) as [s2 [[[]|e]|w|]] eqn:Hi; cbn in W2, E2;
    pose proof (same_world_trans _ _ _ Hw W2) as W3.
  - apply survey_case; try done; [|congruence]. unfold connected_round, mbind, ctl_bind. by rewrite Hr, Hv, Hi.
  - apply round_quiet. split; [done|]. by destruct (str_contains _ _).
  - by eapply round_infrastructure.
  - by apply round_quiet.
Qed.

Lemma quiet_update_running cs s : quiet_end s (update_running cs s).
Proof.
  unfold update_running. apply quiet_bind_all.
  - apply quiet_store, looks_calm. unfold IsRebootQueueRunning. apply looks_get_flag.
  - intros s1 b. destruct (Bool.eqb _ _); [apply quiet_mret|apply quiet_store, calm_Put].
Qed.
Lemma surveyed_stored s s2 ts c cs :
  surveyed_round s = (s2, Done (Ok (ts, c, cs))) ->
  stored_cluster (stored_at s) = Some c /\ Validate c false = None /\ same_world s s2.
Proof.
  unfold surveyed_round, connected_round. intros (s1 & [ts' c'] & Hc & Hk)%ctl_bind_Ok.
  apply ctl_bind_Ok in Hc as (s0 & [ts0 c0] & Hr & Hc).
  destruct (read_cluster_cases s) as (Hw & _ & _ & Hst). rewrite Hr in Hw, Hst. specialize (Hst _ _ eq_refl). cbn in Hw.
  destruct (Validate c0 false) eqn:Hv; [done|]. apply ctl_bind_Ok in Hc as (s3 & [] & Hi & Hc). injection Hc as <- <- <-.
  destruct (inert_NewInfrastructure c0 s0) as [Hw1 _]. rewrite Hi in Hw1. cbn in Hw1.
  apply ctl_bind_Ok in Hk as (s4 & [] & Hp & Hk). destruct (prepare_service_account_cases _ _ _ Hp) as [Hw2 _].
  apply ctl_bind_Ok in Hk as (s5 & cs' & Hg & Hk). injection Hk as <- <- <- <-.
  destruct (looks_GetClusterStatus static c0 Hv s4) as [[_ Hw3] _]. rewrite Hg in Hw3. cbn in Hw3.
  split_and!; try done. repeat (eapply same_world_trans; [eassumption|]). by apply same_world_refl.
Qed.

(** A decision changes nothing on the nodes, and panics only where [DecideOps] does. *)
Definition decides c cs s (x : site * outcome (list Operator * OperationPhase)) : Prop :=
  same_world s (fst x)
  /\ match snd x with
     | Done (Ok (ops, phase)) => exists now cst rs, DecideOps static now c cs cst rs max = Ret (ops, phase)
     | Panicked w => exists now cst rs, DecideOps static now c cs cst rs max = Panic w
     | _ => True
     end.
Lemma decides_bind {A} c cs (m : ctl A) k s :
  quiet_end s (m s) -> (forall s1 a, decides c cs s1 (k a s1)) -> decides c cs s ((m ≫= k) s).
Proof.
  intros [Hw Hp] Hk. unfold mbind, ctl_bind. destruct (m s) as [s1 [[a|e]|w|]]; cbn in *; [|done|by edestruct Hp|done].
  destruct (Hk s1 a) as [Hw1 Hx]. split; [by eapply same_world_trans|done].
Qed.
Lemma decision_decides ts c cs s : decides c cs s (decision ts c cs s).
Proof.
  unfold decision. apply decides_bind; [apply quiet_store, looks_calm, looks_GetConstraints|intros s1 constraints].
  apply decides_bind; [apply quiet_store, looks_calm, looks_GetAllResources|intros s2 rcs].
  apply decides_bind; [apply quiet_update_running|intros s3 u].
  apply decides_bind.
  { destruct (clock_asked s3) as (s4 & now & -> & [[Hw _] _]). split; [by apply same_world_refl|done]. }
  intros s4 now. destruct (DecideOps _ _ _ _ _ _ _) as [[ops phase]|w] eqn:Hd;
    [|split; [by apply same_world_refl|by exists now, constraints, rcs]].
  unfold pure_go. rewrite ret_bind. unfold mbind, ctl_bind.
  destruct (quiet_store (SetStatus (mkServerStatus phase ts)) s4 (calm_Put _ _)) as [Hw Hp].
  destruct (store _ s4) as [s5 [[[]|e]|w|]]; cbn in *; [|done|by edestruct Hp|done].
  split; [done|]. by exists now, constraints, rcs.
Qed.

(** Addons that leave containers and volumes alone. *)
Definition addon_harmless : Prop :=
  match addon with
  | Some i => forall st, within (fun _ => False) (addon_Do i leaderKey st)
  | None => True
  end.

Lemma within_do_addon P st : addon_harmless -> within P (do_addon addon leaderKey st).
Proof.
  unfold addon_harmless, do_addon. destruct addon as [i|]; [|intros _; apply within_ret].
  intros Hi s a _. by apply (Hi st s a); intros [].
Qed.
Lemma within_runOp P o :
  (forall n, n ∈ op_nodes o -> P (node_Address n)) -> within P (runOp IPAdd cas leaderKey o).
Proof.
  intros Hn. unfold runOp, clock, update_record. stay_within.
  assert (forall cmds failed files r, (forall cmd files, cmd ∈ cmds -> within P (Run IPAdd cas cmd leaderKey files)) ->
            within P (run_loop IPAdd cas leaderKey o cmds failed files r)) as Hloop.
  { induction cmds as [|cmd cmds IH]; intros failed files r Hc; cbn [run_loop]; unfold clock, update_record.
    - stay_within.
    - apply within_bind; [apply within_net|intros []; [stay_within|]].
      apply within_bind; [apply within_pure_go|intros ?]. apply within_bind; [apply within_store|intros ?].
      apply within_bind; [apply within_caught, Hc; left|intros [[ns files']|e]; [|stay_within]].
      apply IH. intros. apply Hc. by right. }
  apply Hloop. intros cmd files Hc. apply within_Run. intros n Hcn. apply Hn.
  by eapply commands_from_nodes.
Qed.
Lemma within_act c cs P ops phase :
  addon_harmless -> (forall o n, o ∈ ops -> n ∈ op_nodes o -> P (node_Address n)) ->
  within P (act IPAdd cas addon leaderKey cs ops phase).
Proof.
  intros Ha Ho. pose proof (within_do_addon P (Some cs) Ha) as Hd.
  assert (within P (run_ops IPAdd cas leaderKey ops)) as Hr.
  { clear Hd. induction ops as [|o ops IH]; cbn [run_ops]; [apply within_ret|].
    apply within_bind; [apply within_caught, within_runOp; intros; apply (Ho o); [left|done]|].
    intros [?|?]; [|stay_within]. apply IH. intros o' n Hin. apply Ho. by right. }
  unfold act. destruct ops; stay_within.
Qed.

(** C5: a round of the control loop changes containers and volumes only on nodes of the
    stored configuration, which passed validation, that answered over SSH in the survey
    of that round.  On all other hosts they stay as they are, whatever the decision and the
    outcome of the operators, and on all hosts until the survey is over; the rest of the round is
    what follows from the survey.  This holds with no addon, or with one that leaves
    containers and volumes alone. *)
Theorem round_confined s a :
  addon_harmless ->
  (forall s2 ts c cs n, surveyed_round s = (s2, Done (Ok (ts, c, cs))) -> reachable c cs n -> node_Address n <> a) ->
  same_state (st_world s a) (st_world (fst (runOnce IPAdd cas static max addon leaderKey s)) a)
  /\ forall s2 ts c cs, surveyed_round s = (s2, Done (Ok (ts, c, cs))) ->
       stored_cluster (stored_at s) = Some c /\ Validate c false = None /\ same_world s s2
       /\ runOnce IPAdd cas static max addon leaderKey s
          = closed (decide_and_run IPAdd cas static max addon leaderKey ts c cs s2).
Proof.
  intros Hh Hn. split.
  2:{ intros s2 ts c cs Hs. destruct (surveyed_stored _ _ _ _ _ Hs) as (Hc & Hv & Hw). split_and!; try done.
      by apply surveyed_decides. }
  destruct (runOnce_cases s) as [x [Hw _]|ts c s1 s2 w _ Hw _|ts c s1 s2 w _ Hw _|s1 _ Hw|ts c s1 s2 cs Hs Hc Hv Hw _ Hg];
    [apply Hw..| |].
  - eapply same_state_trans; [apply Hw|]. apply (within_bind (fun _ => False)); [|intros; apply within_ret|].
    + by apply within_do_addon.
    + by intros [].
  - destruct (surveyed_stored _ _ _ _ _ Hs) as (_ & _ & Hw2). rewrite decide_and_run_acts.
    destruct (decision_decides ts c cs s2) as [Hw3 Hd]. pose proof (same_world_trans _ _ _ Hw2 Hw3) as Hw4.
    destruct (decision ts c cs s2) as [s3 [[[ops phase]|e]|w|]]; cbn in Hw4, Hd; [|apply Hw4..].
    eapply same_state_trans; [apply Hw4|]. destruct Hd as (now & cst & rs & Hd).
    apply DecideOps_decided, decided_safe in Hd.
    apply (within_act c cs (fun b => exists n, node_Address n = b /\ reachable c cs n)); [done| |].
    + intros o n Ho Hn'. exists n. split; [done|]. by apply (Hd o Ho).
    + intros (n & Ha & Hr). by eapply Hn.
Qed.



End round.
