(* ===== verification/VaultCliProps.v ===== *)
(** * What setting up Vault guarantees

    vault init never changes what is stored, and completes it; a rotated key for Secrets is kept as
    the second one; and a stored private key is the one the server connects to its nodes with. *)

From Stdlib Require Import ZArith Ascii String Lia.
From stdpp Require Import base gmap strings list.
From S2P Require Import Prelude GoLib GoFormat GoPath GoTime K8s Cluster Queue Resource Status Storage StorageProps.
From S2P Require Import Reboot Operators Engine Strategy Survey Pki Files VaultCli Commands Control Samples SurveyProps PkiProps Lab ControlProps.

Section init.
  Context {T : K8sTypes} {K : K8s} `{Runtime} `{!Etcd} `{!Platform} `{!Network} `{Docker} `{!Vault} `{!Encoders}.
  Context `{!VaultAdmin} `{!KeyRing}.

(** From [s], [m] only adds to the store; when it succeeds, [P] holds of the store. *)
Definition adds_at {A} (s : site) (m : ctl A) (P : gmap string KV -> Prop) : Prop :=
  stored_at s ⊆ stored_at (fst (m s)) /\ forall a, snd (m s) = Done (Ok a) -> P (stored_at (fst (m s))).
Definition adds {A} (m : ctl A) (P : gmap string KV -> Prop) : Prop := forall s, adds_at s m P.
Definition grows (P : gmap string KV -> Prop) : Prop := forall M M', P M -> M ⊆ M' -> P M'.

Lemma adds_bind {A B} s (m : ctl A) (k : A -> ctl B) P Q :
  grows P -> adds_at s m P -> (forall a s', m s = (s', Done (Ok a)) -> adds_at s' (k a) Q) ->
  adds_at s (m ≫= k) (fun M => P M /\ Q M).
Proof.
  intros HP [Hm HPm] Hk. unfold adds_at, mbind, ctl_bind.
  destruct (m s) as [s' [[a|e]|w|]] eqn:E; [|by split..]. destruct (Hk a s' eq_refl) as [Hs HQ].
  split; [by etrans|]. intros b Hb. split; [|by eapply HQ]. by eapply HP; [eapply HPm|].
Qed.
Lemma adds_weaken {A} s (m : ctl A) (P Q : gmap string KV -> Prop) :
  adds_at s m P -> (forall M, P M -> Q M) -> adds_at s m Q.
Proof. intros [Hs HP] HQ. split; [done|]. eauto. Qed.
(** A part whose success does not matter. *)
Lemma adds_then {A B} s (m : ctl A) (k : A -> ctl B) Q :
  adds_at s m (fun _ => True) -> (forall a s', m s = (s', Done (Ok a)) -> adds_at s' (k a) Q) -> adds_at s (m ≫= k) Q.
Proof. intros Hm Hk. eapply adds_weaken; [by apply (adds_bind s m k (fun _ => True) Q)|]. by intros M [_ HQ]. Qed.

Lemma stored_net {A} (f : platform -> platform * A) s : stored_at (fst (net f s)) = stored_at s.
Proof. unfold net, on_sys, ask, stored_at. destruct s as [[]]. cbn. by destruct (f _). Qed.
Lemma stored_ask {A} (f : platform -> platform * result A) s : stored_at (fst (ask_vault f s)) = stored_at s.
Proof.
  pose proof (stored_net f s) as Hn. unfold ask_vault, mbind, ctl_bind.
  destruct (net f s) as [s' [[[a|e]|e]|w|]]; done.
Qed.
Lemma adds_same {A} s (m : ctl A) : stored_at (fst (m s)) = stored_at s -> adds_at s m (fun _ => True).
Proof. intros Hs. split; [by rewrite Hs|done]. Qed.

(** Reading a key that may be missing, and writing it when it is. *)
Definition looks_up {A} (key : string) (m : sto A) : Prop :=
  forall d d' r, m d = (d', r) -> kvs d' = kvs d
    /\ (r = Done (Err ErrNotFound) -> kvs d !! key = None) /\ (forall a, r = Done (Ok a) -> is_Some (kvs d !! key)).
Lemma looks_up_Get {A} key (f : KV -> sto A) :
  (forall kv d, fst (f kv d) = d /\ snd (f kv d) <> Done (Err ErrNotFound)) ->
  looks_up key (r ← Get key; match r with None => throw ErrNotFound | Some kv => f kv end).
Proof.
  intros Hf d d' r. unfold mbind, sto_bind. destruct (Get_cases key d) as (d1 & Hd & [-> | ->]).
  - destruct (kvs d !! key) as [kv|].
    + destruct (Hf kv d1) as [E He]. destruct (f kv d1) as [d2 r2]. cbn in E, He. intros [= <- <-]. subst d2.
      split; [done|]. split; [done|]. by eexists.
    + intros [= <- <-]. done.
  - intros [= <- <-]. done.
Qed.
Lemma looks_up_CA name : looks_up (KeyCA +:+ name) (GetCACertificate name).
Proof. apply looks_up_Get. intros [[] rev] d; by split. Qed.
Lemma looks_up_VaultConfig : looks_up KeyVault GetVaultConfig.
Proof. apply (looks_up_Get KeyVault (fun kv => match kv_Value kv with VaultJSON c => mret c | _ => malformed end)).
  intros [[] rev] d; by split. Qed.
(** What is known after such a reading. *)
Lemma caught_looks_up {A} key (m : sto A) s s' r :
  looks_up key m -> caught (store m) s = (s', Done (Ok r)) -> stored_at s' = stored_at s
    /\ (r = Err ErrNotFound -> stored_at s' !! key = None) /\ (forall a, r = Ok a -> is_Some (stored_at s' !! key)).
Proof.
  intros Hm. unfold caught, stored_at. rewrite store_eq.
  destruct (m (s_etcd (st_sys s))) as [d [r'|w|]] eqn:E; [|done..]. intros [= <- <-]. cbn.
  destruct (Hm _ _ _ E) as (-> & Hn & Ho). split; [done|]. split; [intros ->; by apply Hn|].
  intros a ->. by eapply Ho.
Qed.
Lemma adds_looks_up {A} key (m : sto A) s : looks_up key m -> adds_at s (caught (store m)) (fun _ => True).
Proof.
  intros Hm. apply adds_same. unfold caught, stored_at. rewrite store_eq.
  destruct (m (s_etcd (st_sys s))) as [d r] eqn:E. destruct (Hm _ _ _ E) as [Hk _]. by destruct r.
Qed.
Lemma adds_Put s key v :
  stored_at s !! key = None -> adds_at s (store (Put key v)) (fun M => is_Some (M !! key)).
Proof.
  intros Hn. unfold adds_at. rewrite store_eq. unfold stored_at in *. cbn [fst snd st_sys s_etcd].
  set (d := s_etcd (st_sys s)) in *. unfold Put, mbind, sto_bind.
  destruct (Txn_cases [] [OpPut key v] d) as (d' & [(-> & _ & rev & _ & _ & E)|[(-> & Hf & _)|(-> & [E|(_ & rev & _ & _ & E)])]]);
    [| |by split; cbn; rewrite ?E|]; [|done|]; (split; [cbn; rewrite E; by apply insert_subseteq|]); [|done].
  intros _ _. cbn. rewrite E. cbn. rewrite lookup_insert_eq. by eexists.
Qed.

Definition has_key (key : string) (M : gmap string KV) : Prop := is_Some (M !! key).
Lemma has_key_grows key : grows (has_key key).
Proof. intros M M' [kv Hk] Hs. exists kv. by eapply lookup_weaken. Qed.
Lemma adds_raise {A} s e P : adds_at s (raise (A := A) e) P.
Proof. by split. Qed.
Lemma adds_crash {A} s w P : adds_at s (crash (A := A) w) P.
Proof. by split. Qed.
Lemma adds_ask {A} s (f : platform -> platform * result A) : adds_at s (ask_vault f) (fun _ => True).
Proof. apply adds_same, stored_ask. Qed.
Lemma adds_ret {A} s (a : A) (P : gmap string KV -> Prop) : P (stored_at s) -> adds_at s (mret a) P.
Proof. by split. Qed.
Lemma adds_done {A} s (a : A) : adds_at s (mret a) (fun _ => True).
Proof. by apply adds_ret. Qed.
(** Asking Vault leaves the store as it is. *)
Lemma asked {A} (f : platform -> platform * result A) s s' a : ask_vault f s = (s', Done (Ok a)) -> stored_at s' = stored_at s.
Proof. intros Ha. pose proof (stored_ask f s) as Hs. by rewrite Ha in Hs. Qed.
Lemma string_in_same secret key s s' a : string_in secret key s = (s', Done (Ok a)) -> s' = s.
Proof. unfold string_in. repeat case_match; try done. by intros [= <-]. Qed.
Lemma adds_string_in s secret key : adds_at s (string_in secret key) (fun _ => True).
Proof. unfold string_in. repeat case_match; (apply adds_crash || by apply adds_ret). Qed.

Lemma adds_createRootCA vc ca : adds (createRootCA vc ca) (has_key (KeyCA +:+ ca_key ca)).
Proof.
  intros s. unfold createRootCA. eapply adds_then; [by eapply adds_looks_up, looks_up_CA|intros r s1 Hr].
  destruct (caught_looks_up _ _ _ _ _ (looks_up_CA _) Hr) as (_ & Hn & Ho).
  destruct r as [cert|[]]; try apply adds_raise; [apply adds_ret; by eapply Ho|]. specialize (Hn eq_refl).
  eapply adds_then; [apply adds_ask|intros secret s2 Ha]. apply asked in Ha.
  destruct secret as [data|]; [|apply adds_crash]. destruct (data !! "certificate"); [|apply adds_raise].
  eapply adds_then; [apply adds_string_in|intros pem s3 ->%string_in_same].
  apply adds_Put. by rewrite Ha.
Qed.
Lemma adds_for_cas f (P : caParams -> gmap string KV -> Prop) l :
  (forall ca, adds (f ca) (P ca)) -> (forall ca, grows (P ca)) ->
  adds (for_cas f l) (fun M => forall ca, ca ∈ l -> P ca M).
Proof.
  intros Hf Hg. induction l as [|ca l IH]; intros s; cbn [for_cas].
  - apply adds_ret. by intros ca ?%elem_of_nil.
  - eapply adds_weaken; [apply (adds_bind s _ _ (P ca)); [apply Hg|apply Hf|intros; apply IH]|].
    intros M [Hm1 Hm2] ca' [->|Hin]%elem_of_cons; auto.
Qed.
Lemma adds_vault_config vc caCertFile : adds (vault_config vc caCertFile) (has_key KeyVault).
Proof.
  intros s. unfold vault_config. eapply adds_then; [by eapply adds_looks_up, looks_up_VaultConfig|intros r s1 Hr].
  destruct (caught_looks_up _ _ _ _ _ looks_up_VaultConfig Hr) as (_ & Hn & Ho).
  destruct r as [cfg|[]]; try apply adds_raise; [apply adds_ret; by eapply Ho|]. specialize (Hn eq_refl).
  eapply adds_then; [apply adds_ask|intros ? s2 E2%asked].
  eapply adds_then; [apply adds_ask|intros secret s3 E3%asked].
  eapply adds_then; [apply adds_string_in|intros roleID ? ->%string_in_same].
  eapply adds_then; [apply adds_ask|intros secret' s4 E4%asked].
  eapply adds_then; [apply adds_string_in|intros secretID ? ->%string_in_same].
  eapply adds_then; [case_match; [apply adds_done|apply adds_ask]|intros pem s5 E5].
  assert (stored_at s5 = stored_at s4) as E5' by (destruct (caCertFile =? "")%string; [by injection E5 as <-|by apply asked in E5]).
  eapply adds_weaken; [apply (adds_bind s5 _ _ (has_key KeyVault) (fun _ => True)); [apply has_key_grows| |intros; by apply adds_ret]|].
  - apply adds_Put. congruence.
  - by intros M [HM _].
Qed.
Lemma adds_VaultClient cfg : adds (VaultClient cfg) (fun _ => True).
Proof.
  intros s. unfold VaultClient. case_match; [apply adds_raise|]. destruct (NewClient cfg); [|apply adds_raise].
  eapply adds_then; [apply adds_ask|intros [] s' _]; [by apply adds_ret|apply adds_raise].
Qed.
Lemma adds_connectVault endpoint caCertFile : adds (connectVault endpoint caCertFile) (fun _ => True).
Proof.
  intros s. unfold connectVault. eapply adds_then; [apply adds_ask|intros vc s1 _]. case_match; [apply adds_done|].
  eapply adds_then; [apply adds_ask|intros line s2 _]. eapply adds_then; [|intros password s3 _].
  - eapply adds_then; [apply adds_same, stored_net|intros [] s3 _]; [apply adds_ask|apply adds_raise].
  - eapply adds_then; [apply adds_ask|intros [] s4 _]; [apply adds_done|apply adds_crash].
Qed.
Lemma adds_rotate vc : adds (rotateK8sEncryptionKey vc) (fun _ => True).
Proof.
  intros s. unfold rotateK8sEncryptionKey. eapply adds_then; [apply adds_ask|intros secret s1 _].
  eapply adds_then; [repeat case_match; (apply adds_crash || apply adds_raise || apply adds_done)|intros cfg s2 _].
  eapply adds_then; [apply adds_ask|intros newKey s3 _].
  eapply adds_then; [apply adds_same, stored_net|intros now s4 _].
  eapply adds_then; [unfold encoded; case_match; (apply adds_raise || apply adds_done)|intros data s5 _].
  eapply adds_then; [apply adds_ask|intros; apply adds_done].
Qed.

(** C30: vault init may be run again and again: however it ends, everything that was stored before is
    stored afterwards with the same value and revision, so that no certificate authority and no
    configuration of Vault is replaced; and when it succeeds, the configuration of Vault and the
    certificates of all authorities of CKE are stored. *)
Theorem init_keeps_stored endpoint caCertFile s :
  stored_at s ⊆ stored_at (fst (initVault endpoint caCertFile s))
  /\ (snd (initVault endpoint caCertFile s) = Done (Ok tt) ->
      is_Some (stored_at (fst (initVault endpoint caCertFile s)) !! KeyVault)
      /\ forall ca, ca ∈ CAKeys -> is_Some (stored_at (fst (initVault endpoint caCertFile s)) !! (KeyCA +:+ ca))).
Proof.
  assert (adds_at s (initVault endpoint caCertFile) (fun M => has_key KeyVault M
            /\ forall ca, ca ∈ cas -> has_key (KeyCA +:+ ca_key ca) M)) as [Hs Hok].
  { unfold initVault. eapply adds_then; [apply adds_connectVault|intros vc s1 _].
    eapply adds_then; [eapply adds_weaken; [apply (adds_for_cas (createPKI vc) (fun _ _ => True)); [|done]|done]|intros ? s2 _].
    { intros ca s'. unfold createPKI. eapply adds_then; [apply adds_ask|intros mounts s'' _].
      case_match; [apply adds_done|apply adds_ask]. }
    eapply adds_then; [|intros ? s3 _].
    { unfold createKV. eapply adds_then; [apply adds_ask|intros mounts s'' _]. case_match; [apply adds_done|apply adds_ask]. }
    eapply adds_then; [apply adds_ask|intros ? s4 _].
    eapply adds_bind; [apply has_key_grows|apply adds_vault_config|intros cfg s5 _].
    eapply adds_then; [apply adds_VaultClient|intros vc2 s6 _].
    eapply adds_weaken; [eapply adds_bind; [|apply (adds_for_cas (createRootCA vc2)); [intros; apply adds_createRootCA|intros; apply has_key_grows]|]|].
    - intros M M' HM Hsub ca Hin. eapply has_key_grows; [by apply HM|done].
    - intros ? s7 _. eapply (adds_then _ _ _ (fun _ => True)); [apply adds_ask|intros [] s8 _]; [apply adds_done|apply adds_rotate].
    - by intros M [HM _]. }
  split; [done|]. intros Hd. destruct (Hok tt Hd) as [Hv Hc]. split; [done|]. intros ca Hca.
  change CAKeys with (ca_key <$> cas) in Hca. apply list_elem_of_fmap in Hca as (p & -> & Hp). by apply Hc.
Qed.
End init.

(** ** Keys *)
Section keys.
  Context {T : K8sTypes} {K : K8s} `{Runtime} `{!Etcd} `{!Platform} `{!Network} `{Docker} `{!Vault} `{!Encoders}.
  Context `{!VaultAdmin} `{!KeyRing} `{!Agents}.

(** The secrets of CKE in Vault, whichever client reads them: a secret is what was last written.
    Other requests leave them alone. *)
Class VaultSecrets := {
  secrets : platform -> gmap string secret_data;
  secrets_client : forall p, secrets (fst (vault_client p)) = secrets p;
  secrets_login : forall c role secret p, secrets (fst (approle_login c role secret p)) = secrets p;
  secrets_now : forall p, secrets (fst (now_at p)) = secrets p;
  secrets_random : forall n p, secrets (fst (random_bytes n p)) = secrets p;
  secrets_read : forall path p p' r, path = K8sSecret \/ path = SSHSecret -> vault_read path p = (p', Ok r) ->
    r = secrets p !! path /\ secrets p' = secrets p;
  secrets_logical_Read : forall c path p p' r, path = K8sSecret \/ path = SSHSecret ->
    logical_Read c path p = (p', Ok r) -> r = secrets p !! path /\ secrets p' = secrets p;
  secrets_logical_Write : forall c path data p p' r, path = K8sSecret \/ path = SSHSecret ->
    logical_Write c path data p = (p', Ok r) -> secrets p' = <[ path := data ]> (secrets p)
}.
(** The keys of a configuration are a field of it, and JSON is read as it was written. *)
Class KeyRingLaws := {
  keys_with : forall ks cfg, aes_Keys (with_Keys ks cfg) = ks;
  keys_zero : aes_Keys zero_aes = [];
  aes_decode_encode : forall cfg data, encode_aes cfg = Ok data -> decode_aes data = Ok cfg
}.
Context `{!VaultSecrets} `{!KeyRingLaws}.

Definition secrets_at (s : site) : gmap string secret_data := secrets (s_platform (st_sys s)).
(** The keys in use. *)
Definition current_keys (M : gmap string secret_data) : list Key :=
  match M !! K8sSecret ≫= (.!! "aescbc") with
  | Some (SString data) => match decode_aes data with Ok cfg => aes_Keys cfg | Err _ => [] end
  | _ => []
  end.

Lemma net_Ok {A} (f : platform -> platform * A) s s' a :
  net f s = (s', Done (Ok a)) -> f (s_platform (st_sys s)) = (s_platform (st_sys s'), a).
Proof. unfold net, on_sys, ask. destruct s as [[]]. cbn. destruct (f _). by intros [= <- <-]. Qed.
Lemma ask_vault_Ok {A} (f : platform -> platform * result A) s s' a :
  ask_vault f s = (s', Done (Ok a)) -> f (s_platform (st_sys s)) = (s_platform (st_sys s'), Ok a).
Proof.
  intros (s1 & r & Hn%net_Ok & Hr)%ctl_bind_Ok. destruct r; [|done]. injection Hr as <- <-. done.
Qed.
Lemma asked_keeps {A} (f : platform -> platform * result A) s s' a :
  (forall p, secrets (fst (f p)) = secrets p) -> ask_vault f s = (s', Done (Ok a)) -> secrets_at s' = secrets_at s.
Proof. intros Hf Ha%ask_vault_Ok. specialize (Hf (s_platform (st_sys s))). by rewrite Ha in Hf. Qed.

Lemma inf_Vault_keeps s s' vc : inf_Vault s = (s', Done (Ok vc)) -> secrets_at s' = secrets_at s.
Proof.
  intros (s1 & cfg & Hg & Hc)%ctl_bind_Ok.
  assert (secrets_at s1 = secrets_at s) as <-.
  { unfold secrets_at. rewrite store_eq in Hg. by injection Hg as <- _. }
  revert Hc. unfold VaultClient. case_match; [done|]. destruct (NewClient cfg) as [c|]; [|done].
  intros (s2 & r & Ha & Hr)%ctl_bind_Ok. apply (asked_keeps _ _ _ _ (secrets_login _ _ _)) in Ha as <-.
  destruct r; [|done]. by injection Hr as <- _.
Qed.
(** The key a run generates: its 32 random bytes, named after the time it takes them. *)
Definition generated (vc : Client) (s : site) (key : Key) : Prop :=
  exists s1 secret s2 bytes s3 now,
    ask_vault (logical_Read vc K8sSecret) s = (s1, Done (Ok secret))
    /\ ask_vault (random_bytes 32) s1 = (s2, Done (Ok bytes)) /\ net now_at s2 = (s3, Done (Ok now))
    /\ key = mkKey (FormatRFC3339 (mkTime now 0)) (EncodeToString bytes).

Lemma rotate_writes vc s s' :
  rotateK8sEncryptionKey vc s = (s', Done (Ok tt)) ->
  exists new cfg data, generated vc s new
    /\ encode_aes cfg = Ok data /\ aes_Keys cfg = new :: take 1 (current_keys (secrets_at s))
    /\ secrets_at s' = <[ K8sSecret := <[ "aescbc" := SString data ]> (default ∅ (secrets_at s !! K8sSecret)) ]> (secrets_at s).
Proof.
  unfold rotateK8sEncryptionKey. intros (s1 & secret & Hr & Hk)%ctl_bind_Ok.
  pose proof Hr as Hread. apply ask_vault_Ok in Hr. apply secrets_logical_Read in Hr as [-> Hs1]; [|by left].
  apply ctl_bind_Ok in Hk as (s2 & cfg & Hc & Hk).
  assert (s2 = s1 /\ take 1 (aes_Keys cfg) = take 1 (current_keys (secrets_at s))) as [-> Hcur].
  { unfold current_keys, secrets_at. clear Hk. destruct (secrets _ !! K8sSecret) as [d|];
      cbn [from_option id mbind option_bind] in Hc |- *.
    - destruct (d !! "aescbc") as [[data| |]|]; [|done..|by injection Hc as <- <-; rewrite keys_zero].
      destruct (decode_aes data); [by injection Hc as <- <-|done].
    - change ((∅ : secret_data) !! "aescbc") with (@None secret_value) in Hc. injection Hc as <- <-. by rewrite keys_zero. }
  apply ctl_bind_Ok in Hk as (s3 & newKey & Hbytes & Hk).
  pose proof (asked_keeps _ _ _ _ (secrets_random 32) Hbytes) as Hg.
  apply ctl_bind_Ok in Hk as (s4 & now & Hat & Hk). pose proof (net_Ok _ _ _ _ Hat) as Hn.
  pose proof (secrets_now (s_platform (st_sys s3))) as Hnow. rewrite Hn in Hnow. cbn in Hnow.
  apply ctl_bind_Ok in Hk as (s5 & data & He & Hk). unfold encoded in He.
  destruct (encode_aes _) as [data'|] eqn:Henc; [|done]. injection He as <- <-.
  apply ctl_bind_Ok in Hk as (s6 & w & Hw%ask_vault_Ok & Hk). injection Hk as <-.
  apply secrets_logical_Write in Hw; [|by left]. eexists _, _, _.
  split; [by eexists _, _, _, _, _, _|]. split; [exact Henc|]. split.
  - rewrite keys_with, <- Hcur. by destruct (aes_Keys cfg).
  - unfold secrets_at in *. by rewrite Hw, Hnow, Hg, Hs1.
Qed.

(** C32: After a key for Secrets is rotated with ckecli vault enckey, the API servers are configured
    with the key this run has generated, which new values are encrypted with, and the key that was
    current before, so that what is stored can still be decrypted; older keys are removed. *)
Theorem rotation_keeps_key s s1 s2 rc :
  vaultEncKey s = (s1, Done (Ok tt)) -> getEncryptionConfiguration s1 = (s2, Done (Ok rc)) ->
  exists s0 vc cfg new, inf_Vault s = (s0, Done (Ok vc)) /\ generated vc s0 new
    /\ rc = [mkResourceConfiguration ["secrets"] [AESCBC cfg; Identity]]
    /\ aes_Keys cfg = new :: take 1 (current_keys (secrets_at s)).
Proof.
  intros (s0 & vc & Hinf & Hr)%ctl_bind_Ok. pose proof (inf_Vault_keeps _ _ _ Hinf) as Hv.
  destruct (rotate_writes vc s0 s1 Hr) as (new & cfg & data & Hnew & Henc & Hkeys & Hs). rewrite Hv in Hkeys, Hs.
  unfold getEncryptionConfiguration, getEncryptionSecret. intros (s3 & data' & Hg & Hd)%ctl_bind_Ok.
  apply ctl_bind_Ok in Hg as (s4 & ? & Hc%(asked_keeps _ _ _ _ secrets_client) & Hg).
  apply ctl_bind_Ok in Hg as (s5 & secret & Hrd%ask_vault_Ok & Hg).
  apply secrets_read in Hrd as [-> _]; [|by left]. fold (secrets_at s4) in Hg.
  rewrite Hc, Hs, lookup_insert_eq in Hg. unfold secret_data in Hg. cbn [string_in] in Hg.
  rewrite lookup_insert_eq in Hg. unfold secret_data in Hg. rewrite lookup_insert_eq in Hg. injection Hg as <- <-.
  rewrite (aes_decode_encode _ _ Henc) in Hd. injection Hd as <- <-. by exists s0, vc, cfg, new.
Qed.

(** After a private key is stored with ckecli vault ssh-privkey, the server uses it for the host, or, if no
    host is given, for every node without a key of its own. *)
Theorem ssh_key_used host data s s1 s2 privkeys address :
  vaultSSHPrivKey host data s = (s1, Done (Ok tt)) ->
  ask_vault (vault_read SSHSecret) s1 = (s2, Done (Ok privkeys)) ->
  exists keys, privkeys = Some keys
    /\ (address = host \/ host = "" /\ keys !! address = None ->
        private_key keys address s2 = (s2, Done (Ok data))).
Proof.
  intros (s0 & vc & Hv%inf_Vault_keeps & Hk)%ctl_bind_Ok Hrd%ask_vault_Ok.
  apply ctl_bind_Ok in Hk as (s3 & secret & Hr%ask_vault_Ok & Hk).
  apply secrets_logical_Read in Hr as [-> Hs3]; [|by right].
  apply ctl_bind_Ok in Hk as (s4 & w & Hw%ask_vault_Ok & Hk). injection Hk as <-.
  apply secrets_logical_Write in Hw; [|by right].
  apply secrets_read in Hrd as [-> _]; [|by right]. rewrite Hw, lookup_insert_eq. eexists. split; [done|].
  unfold private_key, secret_data. intros [->|[-> Hn]].
  - by rewrite lookup_insert_eq.
  - rewrite Hn. by rewrite lookup_insert_eq.
Qed.
End keys.

(** ** Example *)
#[local] Existing Instance sample_types.
#[local] Existing Instance sample_k8s.
#[local] Existing Instance std_runtime.
#[local] Existing Instance memory_etcd.
#[local] Existing Instance lab_platform.
#[local] Existing Instance lab_network.
#[local] Existing Instance memory_docker.
#[local] Existing Instance lab_vault.

(** Keys are written as a number in binary digits. *)
Fixpoint digits (p : positive) : string :=
  match p with xH => "" | xO p => String "0" (digits p) | xI p => String "1" (digits p) end.
Fixpoint number (s : string) : positive :=
  match s with "" => xH | String c s => if Ascii.eqb c "0" then xO (number s) else xI (number s) end.
Lemma number_digits p : number (digits p) = p.
Proof. induction p as [p IH|p IH|]; cbn; by rewrite ?IH. Qed.

Definition ring_encoders : Encoders := {|
  AESConfiguration := list (string * string);
  decode_aes s := match decode (number s) with Some ks => Ok ks | None => Err (ErrUnexpected "invalid JSON") end;
  encode_encryption l := Ok "";
  encode_scheduler c := Ok "";
  encode_proxy c := Ok "";
  encode_kubelet c := Ok "";
  clientcmd_Write c := Ok ""
|}.
#[local] Existing Instance ring_encoders.
Definition lab_ring : KeyRing :=
  @Build_KeyRing _ lab_platform ring_encoders
    (fun cfg => (fun '(n, s) => mkKey n s) <$> (cfg : list (string * string)))
    (fun ks _ => (fun k => (key_Name k, key_Secret k)) <$> ks)
    []
    (fun cfg => Ok (digits (encode (cfg : list (string * string)))))
    (fun n p => (p, Ok (repeat 7 n))).
#[local] Existing Instance lab_ring.
Definition lab_admin : VaultAdmin := {|
  Client := unit;
  configured_client _ _ p := (p, Ok tt);
  client_Token _ := "root";
  ReadString_newline p := (p, Err (ErrUnexpected "EOF"));
  are_terminals p := (p, false);
  ReadPassword p := (p, Err (ErrUnexpected "EOF"));
  userpass_login _ _ _ p := (p, Ok None);
  os_ReadFile _ p := (p, Ok "pem");
  client_Address _ := "https://vault:8200";
  AppendCertsFromPEM _ := true;
  NewClient _ := Ok tt;
  SetToken _ c := c;
  approle_login _ _ _ p := (p, Ok (Some "token"));
  ListMounts _ p := (p, Ok ∅);
  mount_engine _ _ _ _ p := (p, Ok tt);
  PutPolicy _ _ _ p := (p, Ok tt);
  logical_Read _ path p := (p, Ok (lab_secrets p !! path));
  logical_Write _ path data p :=
    (mkLab (lab_time p) (lab_roles p) (<[ path := data ]> (lab_secrets p)) (lab_objects p), Ok None);
  write_tidy _ _ _ p := (p, Ok (Some [tidy_started]))
|}.
#[local] Existing Instance lab_admin.
Lemma lab_ring_laws : KeyRingLaws.
Proof.
  constructor.
  - intros ks cfg. cbn. rewrite <- list_fmap_compose. induction ks as [|[n s] ks IH]; [done|]. cbn. by rewrite IH.
  - done.
  - intros cfg data [= <-]. cbn. by rewrite number_digits, decode_encode.
Qed.
Definition lab_secrets_laws : VaultSecrets.
Proof.
  refine {| secrets := (lab_secrets : platform -> gmap string secret_data) |}; try done.
  - intros path p p' r [-> | ->] [= <- <-]; done.
  - by intros c path p p' r _ [= <- <-].
  - by intros c path data p p' r _ [= <- _].
Defined.
#[local] Existing Instance lab_ring_laws.
#[local] Existing Instance lab_secrets_laws.

Definition two_old_keys : list (string * string) := [("2026-01-01T00:00:00Z", "b2xk"); ("2025-01-01T00:00:00Z", "b2xkZXI=")].
Definition with_vault_config (d : etcd) : etcd :=
  fst (PutVaultConfig (mkVaultConfig "https://vault:8200" "" "role" "secret") d).
Definition ring_site : site :=
  mkSite (mkSys (with_vault_config lab_store)
    (mkLab (1800000000 * 10 ^ 9) ∅ {[ K8sSecret := {[ "aescbc" := SString (digits (encode two_old_keys)) ]} ]} lab_start)
    [] ∅) (fun _ => bare_node).
Definition rotated : site := fst (vaultEncKey ring_site).
Definition rotated_keys : list (ResourceConfiguration (@AESConfiguration _ ring_encoders)) :=
  [mkResourceConfiguration ["secrets"]
     [AESCBC ([("2027-01-15T08:00:00Z", EncodeToString (repeat 7 32%nat)); ("2026-01-01T00:00:00Z", "b2xk")]
              : @AESConfiguration _ ring_encoders); Identity]].
Lemma rotation_keeps_key_witness :
  exists s0 vc cfg new, generated vc s0 new
    /\ aes_Keys cfg = new :: take 1 (current_keys (secrets_at ring_site))
    /\ take 1 (current_keys (secrets_at ring_site)) = [mkKey "2026-01-01T00:00:00Z" "b2xk"].
Proof.
  destruct (rotation_keeps_key ring_site rotated (fst (getEncryptionConfiguration rotated))
    rotated_keys) as (s0 & vc & cfg & new & _ & Hnew & _ & Hk).
  - apply (ran (vaultEncKey ring_site)). vm_compute. reflexivity.
  - apply (ran (getEncryptionConfiguration rotated)). vm_compute. reflexivity.
  - exists s0, vc, cfg, new. split; [exact Hnew|]. split; [exact Hk|]. vm_compute. reflexivity.
Defined.
