(* ===== verification/Writes.v ===== *)
(** * What the server writes

    Whatever a command, an operator or a round of the control loop does to the storage is a
    sequence of the writes listed here, and the agents only change when the server connects to
    the nodes, starts to reboot one, or disconnects.  What holds of each write then holds of
    every run, of runs that fail half-way too. *)

From Stdlib Require Import ZArith Ascii String Lia.
From stdpp Require Import base gmap strings list sorting.
From S2P Require Import Prelude GoLib GoFormat GoPath K8s Cluster Queue Resource Status Storage StorageProps Reboot Dns.
From S2P Require Import Params NodeFilter Operators Engine Strategy StrategySafety Survey SurveyProps Pki PkiProps.
From S2P Require Import Files FilesProps Commands Control ControlProps.

(** ** Sequences of writes *)
Section does.
  Context {T : K8sTypes} {K : K8s} `{!Etcd} `{!Platform}.
  (** What an addon may do to the storage. *)
  Context (X : etcd -> etcd -> Prop).
  Implicit Types s : sys.

Inductive server_write : Type :=
| WriteReboot (cas : nat) (e : RebootQueueEntry)
| DeleteReboot (leaderKey : string) (index : Z)
| WriteRepair (cas : nat) (e : RepairQueueEntry)
| DeleteRepair (leaderKey : string) (index : Z)
| WriteVersion (leaderKey : string)
| WriteRecord (leaderKey : string) (r : OpRecord)
| AddRecord (leaderKey : string) (r : OpRecord)
| WriteServiceAccount (leaderKey crt key : string)
| WriteStatus (st : ServerStatus)
| WriteRunning (running : bool).

Definition perform (w : server_write) : sto unit :=
  match w with
  | WriteReboot cas e => UpdateRebootsEntry cas e
  | DeleteReboot leaderKey index => DeleteRebootsEntry leaderKey index
  | WriteRepair cas e => UpdateRepairsEntry cas e
  | DeleteRepair leaderKey index => DeleteRepairsEntry leaderKey index
  | WriteVersion leaderKey => PutConfigVersion leaderKey
  | WriteRecord leaderKey r => UpdateRecord leaderKey r
  | AddRecord leaderKey r => RegisterRecord leaderKey r
  | WriteServiceAccount leaderKey crt key => PutServiceAccountData leaderKey crt key
  | WriteStatus st => SetStatus st
  | WriteRunning running => SetRebootQueueRunning running
  end.
Definition with_agents_of (agents : gset string) s : sys :=
  mkSys (s_etcd s) (s_platform s) (s_calls s) agents.

(** Writes, what an addon does, and changes of the agents if [b] is true. *)
Inductive does (b : bool) : sys -> sys -> Prop :=
| does_nothing s s' : same_sys s s' -> does b s s'
| does_write w s1 s2 s3 :
    same_sys s1 s2 -> does b (fst (storage (perform w) s2)) s3 -> does b s1 s3
| does_agents agents s1 s2 s3 :
    same_sys s1 s2 -> b = true -> does b (with_agents_of agents s2) s3 -> does b s1 s3
| does_addon d s1 s2 s3 :
    same_sys s1 s2 -> X (s_etcd s2) d -> does b (mkSys d (s_platform s2) (s_calls s2) (s_agents s2)) s3 ->
    does b s1 s3.

Lemma does_after b s1 s2 s3 : same_sys s1 s2 -> does b s2 s3 -> does b s1 s3.
Proof.
  intros E H2. destruct H2 as [s s' E'|w s t s' E' H1|agents s t s' E' Hb H1|d s t s' E' Hx H1].
  - apply does_nothing. by eapply same_sys_trans.
  - eapply does_write; [|exact H1]. by eapply same_sys_trans.
  - eapply does_agents; [|exact Hb|exact H1]. by eapply same_sys_trans.
  - eapply does_addon; [|exact Hx|exact H1]. by eapply same_sys_trans.
Qed.
Lemma does_trans b s1 s2 s3 : does b s1 s2 -> does b s2 s3 -> does b s1 s3.
Proof.
  induction 1 as [s s' E|w s t s' E H1 IH|agents s t s' E Hb H1 IH|d s t s' E Hx H1 IH]; intros H2.
  - by eapply does_after.
  - eapply does_write; eauto.
  - eapply does_agents; eauto.
  - eapply does_addon; eauto.
Qed.
Lemma does_weaken s s' : does false s s' -> does true s s'.
Proof. induction 1; [by apply does_nothing|by eapply does_write|done|by eapply does_addon]. Qed.
Lemma does_agents_kept s s' : does false s s' -> s_agents s' = s_agents s.
Proof.
  induction 1 as [s s' [_ E]|w s t s' [_ E] H1 IH| |d s t s' [_ E] Hx H1 IH]; [done| |done|by rewrite IH].
  rewrite IH, <- E. unfold storage. by destruct (perform w (s_etcd t)).
Qed.
End does.

(** ** Reading *)
Section reading.
  Context {T : K8sTypes} `{Runtime} `{!Etcd}.

Lemma looks_GetRebootsEntry i : sto_looks (GetRebootsEntry i).
Proof. unfold GetRebootsEntry, GetEntry, entry_of, malformed. sto_looks. Qed.
Lemma looks_NextRecordID : sto_looks NextRecordID.
Proof. unfold NextRecordID, malformed. sto_looks. Qed.
Lemma looks_GetRecords count : sto_looks (GetRecords count).
Proof.
  apply sto_looks_bind; [|intros l].
  { intros d. unfold GetPrefix, request. destruct (etcd_prefix KeyRecords (Some true) count d) as [d' r] eqn:Hg.
    apply prefix_spec in Hg as [Hs _]. by destruct r. }
  induction l as [|[k kv] l IH]; cbn [records_of]; [sto_looks|]. unfold record_of, malformed. sto_looks.
Qed.
Lemma looks_IsRebootQueueRunning : sto_looks IsRebootQueueRunning.
Proof. apply looks_get_flag. Qed.
End reading.
#[export] Hint Resolve looks_GetRebootsEntry looks_NextRecordID looks_GetRecords looks_IsRebootQueueRunning : looks.

(** ** Commands of the queues *)
Section drn_does.
  Context {T : K8sTypes} {K : K8s} `{!Etcd} `{!Platform} (X : etcd -> etcd -> Prop) (b : bool).

Definition drn_does {A} (m : drn A) : Prop := forall s, does X b s (fst (m s)).

Lemma drn_does_ret {A} (a : A) : drn_does (mret a).
Proof. intros s. by apply does_nothing. Qed.
Lemma drn_does_throws {A} e : drn_does (throws (A := A) e).
Proof. intros s. by apply does_nothing. Qed.
Lemma drn_does_panics {A} w : drn_does (panics (A := A) w).
Proof. intros s. by apply does_nothing. Qed.
Lemma drn_does_bind {A B} (m : drn A) (k : A -> drn B) :
  drn_does m -> (forall a, drn_does (k a)) -> drn_does (m ≫= k).
Proof.
  intros Hm Hk s. specialize (Hm s). unfold mbind, drn_bind.
  destruct (m s) as [s1 [[a|e]|w|]]; cbn in *; [|done..].
  eapply does_trans; [exact Hm|apply Hk].
Qed.
Lemma drn_does_attempt {A} (m : drn A) : drn_does m -> drn_does (attempt m).
Proof. intros Hm s. specialize (Hm s). unfold attempt. by destruct (m s) as [s1 []]. Qed.
Lemma drn_does_reads {A} (m : sto A) : sto_looks m -> drn_does (storage m).
Proof.
  intros Hm s. apply does_nothing. destruct (Hm (s_etcd s)) as [E _]. unfold storage.
  by destruct (m (s_etcd s)).
Qed.
Lemma drn_does_perform w : drn_does (storage (perform w)).
Proof. intros s. eapply does_write; [done|by apply does_nothing]. Qed.
Lemma drn_does_WriteReboot cas e : drn_does (storage (UpdateRebootsEntry cas e)).
Proof. apply (drn_does_perform (WriteReboot cas e)). Qed.
Lemma drn_does_DeleteReboot leaderKey i : drn_does (storage (DeleteRebootsEntry leaderKey i)).
Proof. apply (drn_does_perform (DeleteReboot leaderKey i)). Qed.
Lemma drn_does_WriteRepair cas e : drn_does (storage (UpdateRepairsEntry cas e)).
Proof. apply (drn_does_perform (WriteRepair cas e)). Qed.
Lemma drn_does_DeleteRepair leaderKey i : drn_does (storage (DeleteRepairsEntry leaderKey i)).
Proof. apply (drn_does_perform (DeleteRepair leaderKey i)). Qed.
Lemma drn_does_ask {A} (f : platform -> platform * A) : drn_does (ask f).
Proof. intros s. apply does_nothing. unfold ask. by destruct (f (s_platform s)). Qed.
Lemma drn_does_request {A} c (f : platform -> platform * A) : drn_does (request_api c f).
Proof. intros s. apply does_nothing. unfold request_api. by destruct (f (s_platform s)). Qed.
Lemma drn_does_query {A} (f : platform -> platform * option A) : drn_does (query_api f).
Proof. apply drn_does_bind; [apply drn_does_ask|intros []; [apply drn_does_ret|apply drn_does_throws]]. Qed.
Lemma drn_does_for_all {A} (f : A -> drn unit) l : (forall x, drn_does (f x)) -> drn_does (for_all f l).
Proof. intros Hf. induction l as [|x l IH]; cbn [for_all]; [apply drn_does_ret|]. by apply drn_does_bind. Qed.
End drn_does.
Create HintDb does.
#[export] Hint Resolve drn_does_ret drn_does_throws drn_does_panics drn_does_WriteReboot drn_does_DeleteReboot
  drn_does_WriteRepair drn_does_DeleteRepair drn_does_ask drn_does_request drn_does_query : does.
Ltac drn_does :=
  repeat first [ by auto with does | apply drn_does_bind; [|intros ?] | apply drn_does_attempt
               | apply drn_does_for_all; intros ? | apply drn_does_reads; by auto with looks
               | match goal with |- drn_does _ _ (match ?x with _ => _ end) => destruct x end ].

Section drn_commands.
  Context {T : K8sTypes} {K : K8s} `{!Etcd} `{!Platform} (cas : nat) (X : etcd -> etcd -> Prop) (b : bool).

Lemma does_evictPod n dry protected pod : drn_does X b (evictPod n dry protected pod).
Proof. induction n as [|n IH]; cbn [evictPod]; unfold deletePod; drn_does. Qed.
Lemma does_evictions node protected jobs attempts dry :
  drn_does X b (doEvictOrDeleteNodePod node protected jobs attempts dry).
Proof.
  unfold doEvictOrDeleteNodePod, job_selector, enumeratePods, handle_pod, deletePod. drn_does; apply does_evictPod.
Qed.
Lemma does_drainBackOff e : drn_does X b (drainBackOff cas e).
Proof. unfold drainBackOff, current_time. drn_does. Qed.
Lemma does_try_command n t c : drn_does X b (try_command n t c).
Proof. induction n as [|n IH]; cbn [try_command]; unfold runCommand; drn_does. Qed.
#[local] Hint Resolve does_evictions does_drainBackOff does_try_command : does.

Lemma does_start_drain protected jobs e : drn_does X b (start_drain cas protected jobs e).
Proof. unfold start_drain, cordon, dryRunEvictOrDeleteNodePod. drn_does. Qed.
#[local] Hint Resolve does_start_drain : does.
Lemma does_cordon_loop protected jobs entries : drn_does X b (cordon_loop cas protected jobs entries).
Proof. induction entries as [|e entries IH]; cbn [cordon_loop]; unfold current_time; drn_does. Qed.
Lemma does_evict_loop protected jobs attempts entries : drn_does X b (evict_loop cas protected jobs attempts entries).
Proof. induction entries as [|e entries IH]; cbn [evict_loop]; unfold evictOrDeleteNodePod; drn_does. Qed.
Lemma does_delete_loop entries : drn_does X b (delete_loop entries).
Proof.
  induction entries as [|e entries IH]; cbn [delete_loop];
    unfold deleteOnDeleteDaemonSetPod, enumerateOnDeleteDaemonSetPods, deletePod; drn_does.
Qed.
#[local] Hint Resolve does_cordon_loop does_evict_loop does_delete_loop : does.

Lemma does_rebootDrainStart entries ns jobs attempts : drn_does X b (rebootDrainStart_Run cas entries ns jobs attempts).
Proof. unfold rebootDrainStart_Run, K8sClient, listProtectedNamespaces. drn_does. Qed.
Lemma does_rebootDeleteDaemonSetPod entries : drn_does X b (rebootDeleteDaemonSetPod_Run entries).
Proof. unfold rebootDeleteDaemonSetPod_Run, K8sClient. drn_does. Qed.
Lemma does_rebootDrainTimeout entries : drn_does X b (rebootDrainTimeout_Run cas entries).
Proof. unfold rebootDrainTimeout_Run. drn_does. Qed.
Lemma does_rebootUncordon names : drn_does X b (rebootUncordon_Run names).
Proof. unfold rebootUncordon_Run, K8sClient. drn_does. Qed.
Lemma does_rebootDequeue leaderKey entries : drn_does X b (rebootDequeue_Run leaderKey entries).
Proof. unfold rebootDequeue_Run. drn_does. Qed.
Lemma does_repairDrainBackOff e : drn_does X b (repairDrainBackOff cas e).
Proof. unfold repairDrainBackOff, current_time. drn_does. Qed.
#[local] Hint Resolve does_repairDrainBackOff : does.
Lemma does_repairDrainStart e ns jobs attempts : drn_does X b (repairDrainStart_Run cas e ns jobs attempts).
Proof.
  unfold repairDrainStart_Run, K8sClient, listProtectedNamespaces, current_time, start_repair_drain, cordon,
    dryRunEvictOrDeleteNodePod, evictOrDeleteNodePod. drn_does.
Qed.
Lemma does_repairFinish e ok c : drn_does X b (repairFinish cas e ok c).
Proof. unfold repairFinish, success_command, runCommand, current_time. drn_does. Qed.
#[local] Hint Resolve does_repairFinish : does.
Lemma does_repairExecute e command t retries c : drn_does X b (repairExecute_Run cas e command t retries c).
Proof. unfold repairExecute_Run, current_time. drn_does. Qed.
End drn_commands.
#[export] Hint Resolve does_rebootDrainStart does_rebootDeleteDaemonSetPod does_rebootDrainTimeout does_rebootUncordon
  does_rebootDequeue does_repairDrainBackOff does_repairDrainStart does_repairFinish does_repairExecute : does.


Section released.
  Context {T : K8sTypes} {K : K8s} `{!Etcd} `{!Platform} (cas : nat) (X : etcd -> etcd -> Prop).

Lemma does_rebootReboot command t retries entries : drn_does X true (rebootReboot_Run cas command t retries entries).
Proof.
  assert (forall a, drn_does X true (ReleaseAgent a)) as Hr.
  { intros a s. by eapply does_agents, does_nothing. }
  induction entries as [|e entries IH]; cbn [rebootReboot_Run]; unfold reboot_entry_run, current_time; drn_does;
    apply does_try_command.
Qed.
End released.

(** ** Commands *)
Section acts.
  Context {T : K8sTypes} {K : K8s} `{Runtime} `{!Etcd} `{!Platform} `{!Network} `{Docker} `{!Vault}.
  Context `{!Agents} `{!Executor} `{!Tools} `{!Encoders} (X : etcd -> etcd -> Prop) (b : bool).
  Implicit Types (s : site).

Definition acts {A} (m : ctl A) : Prop := forall s, does X b (st_sys s) (st_sys (fst (m s))).

Lemma acts_keeps {A} (m : ctl A) : keeps m -> acts m.
Proof. intros Hm s. apply does_nothing. by destruct (Hm s). Qed.
Lemma acts_looks {A} (m : ctl A) : looks m -> acts m.
Proof. intros Hm. by apply acts_keeps, looks_keeps. Qed.
Lemma acts_bind {A B} (m : ctl A) (k : A -> ctl B) : acts m -> (forall a, acts (k a)) -> acts (m ≫= k).
Proof.
  intros Hm Hk s. specialize (Hm s). unfold mbind, ctl_bind.
  destruct (m s) as [s1 [[a|e]|w|]]; cbn in *; [|done..]. eapply does_trans; [exact Hm|apply Hk].
Qed.
Lemma acts_caught {A} (m : ctl A) : acts m -> acts (caught m).
Proof. intros Hm s. specialize (Hm s). unfold caught. by destruct (m s) as [s1 []]. Qed.
Lemma acts_on_sys {A} (m : drn A) : drn_does X b m -> acts (on_sys m).
Proof. intros Hm s. specialize (Hm (st_sys s)). unfold on_sys. by destruct (m (st_sys s)). Qed.
Lemma acts_reads {A} (m : sto A) : sto_looks m -> acts (store m).
Proof. intros. by apply acts_on_sys, drn_does_reads. Qed.
Lemma acts_perform w : acts (store (perform w)).
Proof. apply acts_on_sys, drn_does_perform. Qed.
Lemma acts_net {A} (f : platform -> platform * A) : acts (net f).
Proof. apply acts_on_sys, drn_does_ask. Qed.
Lemma acts_ret {A} (a : A) : acts (mret a).
Proof. intros s. by apply does_nothing. Qed.
Lemma acts_raise {A} e : acts (raise (A := A) e).
Proof. intros s. by apply does_nothing. Qed.
Lemma acts_crash {A} w : acts (crash (A := A) w).
Proof. intros s. by apply does_nothing. Qed.
Lemma acts_pure_go {A} (m : go A) : acts (pure_go m).
Proof. destruct m; [apply acts_ret|apply acts_crash]. Qed.
Lemma acts_engine {A} a (m : eng A) : acts (engine a m).
Proof.
  intros s. apply does_nothing. unfold engine. destruct (connected a s); [|done]. by destruct (m (st_world s a)).
Qed.
Lemma acts_on_each_node nodes f : acts (on_each_node nodes f).
Proof. intros s. apply does_nothing. unfold on_each_node. by destruct (on_nodes _ _ _). Qed.
Lemma acts_each {A} (f : A -> ctl unit) l : (forall x, acts (f x)) -> acts (each f l).
Proof. intros Hf. induction l as [|x l IH]; cbn [each]; [apply acts_ret|]. by apply acts_bind. Qed.
Lemma acts_with_retries n m : acts m -> acts (with_retries n m).
Proof.
  intros Hm. induction n as [|n IH]; cbn [with_retries]; [done|].
  apply acts_bind; [by apply acts_caught|]. intros [u|e]; [apply acts_ret|].
  apply acts_bind; [apply acts_net|]. intros []; [apply acts_raise|done].
Qed.
Lemma acts_needed {A} (f : platform -> platform * option A) : acts (needed f).
Proof. apply acts_bind; [apply acts_net|intros []; [apply acts_ret|apply acts_raise]]. Qed.
Lemma acts_optional {A} (f : platform -> platform * answer A) : acts (optional f).
Proof. apply acts_bind; [apply acts_net|intros []; first [apply acts_ret|apply acts_raise]]. Qed.
Lemma acts_require c what : acts (require c what).
Proof. destruct c; [apply acts_ret|apply acts_raise]. Qed.
Lemma acts_kube r : acts (kube r).
Proof. apply acts_bind; [apply acts_net|intros; apply acts_require]. Qed.
Lemma acts_K8sClient : acts k8s_client.
Proof. apply acts_on_sys. unfold K8sClient. drn_does. Qed.
Lemma acts_issueCertificate r : acts (issueCertificate r).
Proof. apply acts_keeps, keeps_issueCertificate. Qed.
Lemma acts_GetCACertificate name : acts (store (GetCACertificate name)).
Proof. apply acts_reads, looks_getStringValue. Qed.
End acts.
#[export] Hint Resolve acts_net acts_ret acts_raise acts_crash acts_pure_go acts_engine acts_on_each_node acts_needed
  acts_optional acts_require acts_kube acts_K8sClient acts_issueCertificate acts_GetCACertificate : does.
Ltac acts :=
  repeat first [ by auto with does | apply acts_bind; [|intros ?] | apply acts_caught
               | apply acts_on_sys; by auto with does | apply acts_each; intros ? | apply acts_with_retries
               | match goal with |- acts _ _ (match ?x with _ => _ end) => destruct x end ].

Section command_acts.
  Context {T : K8sTypes} {K : K8s} `{Runtime} `{!Etcd} `{!Platform} `{!Network} `{Docker} `{!Vault}.
  Context `{!Agents} `{!Executor} `{!Tools} `{!Encoders} (IPAdd : list Z -> Z -> list Z).
  Context (cas : nat) (leaderKey : string) (X : etcd -> etcd -> Prop).

Lemma acts_wait_account b n : acts X b (wait_account n).
Proof. induction n as [|n IH]; cbn [wait_account]; acts. Qed.
Lemma acts_retaint_node b n taints name : acts X b (retaint_node n taints name).
Proof. induction n as [|n IH]; cbn [retaint_node]; acts. Qed.
Lemma acts_healthy_members b endpoints eps n : acts X b (healthy_members endpoints eps n).
Proof. revert n. induction eps as [|ep eps IH]; intros; cbn [healthy_members]; acts. Qed.
Lemma acts_ApplyResource b data rev tms force : acts X b (ApplyResource data rev tms force).
Proof. unfold ApplyResource, injectCA, issueCert, converted. acts. Qed.
Lemma acts_version b : acts X b (store (PutConfigVersion leaderKey)).
Proof. apply (acts_perform X b (WriteVersion leaderKey)). Qed.
#[local] Hint Resolve acts_wait_account acts_retaint_node acts_healthy_members acts_ApplyResource acts_version : does.

Lemma acts_run_command b c files : releases c = false -> acts X b (run_command cas c leaderKey files).
Proof.
  intros Hc. destruct c; try done; unfold run_command, no_failures, repairDrainTimeout_Run, repairDequeue_Run; acts;
    unfold waitEtcdSync_Run, etcd_in_sync, setupEtcdAuth_Run, AddUserRole, addMember_Run, ensure_member,
      removeMember_Run, retaintBeforeKubeletBoot_Run, waitForKubeletReady_Run, kubelets_ready, CheckHealthz,
      waitKube_Run, createEndpoints_Run, updateEndpoints_Run, createEndpointSlice_Run,
      updateEndpointSlice_Run, createEtcdService_Run, updateEtcdService_Run, nodeUpdate_Run, nodeRemove_Run,
      remove_node, applyResource_Run, createClusterDNS_Run, createNodeDNS_Run, create_config_map,
      updateConfigMap_Run, new_etcd_client, etcd_do, makeDirs_Run, emptyDir_Run, installCNI_Run,
      FilesBuilder_Run; acts.
Qed.
Lemma acts_Run b c files : b = true \/ releases c = false -> acts X b (Run IPAdd cas c leaderKey files).
Proof.
  intros Hc. apply acts_bind; [apply acts_keeps, keeps_Prepare|intros files'].
  apply acts_bind; [|intros; apply acts_ret].
  destruct (releases c) eqn:Hr; [|by apply acts_run_command].
  destruct Hc as [->|Hc]; [|done]. destruct c; try done. apply acts_on_sys, does_rebootReboot.
Qed.
End command_acts.

(** ** Operators and rounds *)
Section round_acts.
  Context {T : K8sTypes} {K : K8s} `{Runtime} `{!Etcd} `{!Platform} `{!Network} `{Docker} `{!Vault}.
  Context `{!Agents} `{!Executor} `{!Tools} `{!Encoders} (IPAdd : list Z -> Z -> list Z).
  Context (cas : nat) (static : list ResourceDefinition) (max : Z) (addon : option Integrator).
  Context (X : etcd -> etcd -> Prop).
  Implicit Types (leaderKey : string).

Lemma acts_update_record leaderKey r : acts X true (update_record leaderKey r).
Proof. apply (acts_perform X true (WriteRecord leaderKey r)). Qed.
Lemma acts_clock : acts X true clock.
Proof. apply acts_net. Qed.
Lemma acts_Run_any leaderKey c files : acts X true (Run IPAdd cas c leaderKey files).
Proof. apply acts_Run. by left. Qed.
#[local] Hint Resolve acts_update_record acts_clock acts_Run_any : does.

Lemma acts_run_loop leaderKey o cmds failed files r : acts X true (run_loop IPAdd cas leaderKey o cmds failed files r).
Proof.
  revert failed files r. induction cmds as [|c cmds IH]; intros failed files r; cbn [run_loop]; acts.
Qed.
Lemma acts_runOp leaderKey o : acts X true (runOp IPAdd cas leaderKey o).
Proof.
  unfold runOp. acts; [apply acts_reads, looks_NextRecordID| |apply acts_run_loop].
  match goal with |- acts _ _ (store (RegisterRecord _ ?r)) => apply (acts_perform X true (AddRecord leaderKey r)) end.
Qed.
#[local] Hint Resolve acts_runOp : does.
Lemma acts_run_ops leaderKey ops : acts X true (run_ops IPAdd cas leaderKey ops).
Proof. induction ops as [|o ops IH]; cbn [run_ops]; acts. Qed.
Lemma acts_checkLastOp leaderKey : acts X true (checkLastOp leaderKey).
Proof. unfold checkLastOp. acts. apply acts_reads, looks_GetRecords. Qed.
Lemma acts_prepare leaderKey : acts X true (prepare_service_account leaderKey).
Proof.
  unfold prepare_service_account. acts; [apply acts_reads, looks_GetServiceAccountCert|].
  match goal with |- acts _ _ (store (PutServiceAccountData _ ?c ?k)) =>
    apply (acts_perform X true (WriteServiceAccount leaderKey c k)) end.
Qed.
Lemma acts_update_running cs : acts X true (update_running cs).
Proof.
  unfold update_running. acts; [apply acts_reads, looks_IsRebootQueueRunning|].
  match goal with |- acts _ _ (store (SetRebootQueueRunning ?f)) => apply (acts_perform X true (WriteRunning f)) end.
Qed.
Lemma acts_SetStatus st : acts X true (store (SetStatus st)).
Proof. apply (acts_perform X true (WriteStatus st)). Qed.
Lemma acts_NewInfrastructure c : acts X true (NewInfrastructure c).
Proof.
  assert (forall agents, acts X true (set_agents agents)) as Ha.
  { intros agents s. by eapply does_agents, does_nothing. }
  do 2 (apply acts_bind; [apply acts_keeps, keeps_ask_vault|intros ?]).
  acts. apply acts_keeps, keeps_connect_nodes.
Qed.
Lemma acts_closing {A} (m : ctl A) : acts X true m -> acts X true (closing m).
Proof.
  intros Hm s. specialize (Hm s). unfold closing. destruct (m s) as [s1 r]. cbn in *.
  eapply does_trans; [exact Hm|]. by eapply does_agents, does_nothing.
Qed.
#[local] Hint Resolve acts_prepare acts_update_running acts_SetStatus acts_NewInfrastructure acts_run_ops : does.

Hypothesis addon_acts : forall leaderKey st, acts X true (do_addon addon leaderKey st).

Lemma acts_decide_and_run leaderKey ts c cs :
  acts X true (decide_and_run IPAdd cas static max addon leaderKey ts c cs).
Proof.
  unfold decide_and_run, act. acts; [apply acts_reads, looks_GetConstraints|apply acts_reads, looks_GetAllResources].
Qed.
Lemma acts_survey_and_run leaderKey ts c :
  Validate c false = None -> acts X true (survey_and_run IPAdd cas static max addon leaderKey ts c).
Proof.
  intros Hv. apply acts_bind; [apply acts_prepare|intros _].
  apply acts_bind; [apply acts_caught, acts_looks; by apply looks_GetClusterStatus|].
  intros [cs|e]; [apply acts_decide_and_run|apply acts_ret].
Qed.
(** What a round does is a sequence of the writes of the server and of what its addon does;
    that includes rounds that fail or panic. *)
Lemma acts_runOnce leaderKey : acts X true (runOnce IPAdd cas static max addon leaderKey).
Proof.
  apply acts_bind; [apply acts_clock|intros ts].
  apply acts_bind; [apply acts_caught, acts_reads, looks_GetCluster|intros [c|e]].
  - destruct (Validate c false) as [e|] eqn:Hv; [apply acts_ret|].
    apply acts_bind; [apply acts_caught, acts_NewInfrastructure|intros [u|e]].
    + by apply acts_closing, acts_survey_and_run.
    + acts.
  - destruct e; acts.
Qed.
End round_acts.
