(* ===== verification/AgentProps.v ===== *)
(** * Agents

    The server has an agent for a node as long as it could connect to it at the start of the
    round and has not started to reboot it.  No command is run on a node without an agent: that
    would dereference nil in the container engine. *)

From Stdlib Require Import ZArith Ascii String Lia.
From stdpp Require Import base gmap strings list sorting.
From S2P Require Import Prelude GoLib GoFormat GoPath K8s Cluster Queue Resource Status Storage StorageProps Reboot Dns.
From S2P Require Import Params NodeFilter Operators Engine Strategy StrategySafety Survey SurveyProps Pki PkiProps.
From S2P Require Import Files FilesProps Commands Control ControlProps Writes.

(** ** The commands of a decision *)
Section agents.
  Context {T : K8sTypes} {K : K8s} `{Runtime} `{!Etcd} `{!Platform} `{!Network} `{Docker} `{!Vault}.
  Context `{!Agents} `{!Executor} `{!Tools} `{!Encoders} (IPAdd : list Z -> Z -> list Z).
  Context (cas : nat) (leaderKey : string) (static : list ResourceDefinition).
  Implicit Types (s : site) (o : Operator) (cmd : Commander).

Definition agents_at s : gset string := s_agents (st_sys s).

(** [cmd] is started at the site [s1] when the operators are run from the site [s]. *)
Inductive started : list Operator -> site -> Commander -> site -> Prop :=
| started_now o ops before cmd after s files s1 :
    commands o = before ++ cmd :: after -> executed IPAdd cas leaderKey before [] s files s1 ->
    started (o :: ops) s cmd s1
| started_later o ops s s1 cmd s2 :
    runOp IPAdd cas leaderKey o s = (s1, Done (Ok tt)) -> started ops s1 cmd s2 -> started (o :: ops) s cmd s2.

Lemma executed_agents cmds files s files' s' :
  executed IPAdd cas leaderKey cmds files s files' s' -> (forall c, c ∈ cmds -> releases c = false) ->
  agents_at s' = agents_at s.
Proof.
  induction 1 as [|cmds files s s1 files' s' [_ Ha] He IH|c cmds files s files1 s1 files' s' ns Hr He IH]; [done|..].
  - intros Hc. rewrite (IH Hc). exact Ha.
  - intros Hc. rewrite IH by (intros; apply Hc; by right).
    pose proof (acts_Run IPAdd cas leaderKey (fun _ _ => False) false c files (or_intror (Hc c ltac:(left))) s) as Hh.
    rewrite Hr in Hh. exact (does_agents_kept _ _ _ Hh).
Qed.
Lemma calm_commands o c : reboots o = false -> c ∈ commands o -> releases c = false.
Proof. intros Ho Hc. destruct (releases c) eqn:Hr; [|done]. pose proof (commands_from_releases _ _ _ _ Hc Hr). congruence. Qed.
Lemma runOp_agents o s s1 :
  reboots o = false -> runOp IPAdd cas leaderKey o s = (s1, Done (Ok tt)) -> agents_at s1 = agents_at s.
Proof.
  intros Ho (ran & rest & files & s2 & Hc & He & [_ Ha])%runOp_Ok_executed. unfold agents_at. rewrite Ha.
  eapply executed_agents; [done|]. intros c Hin. apply (calm_commands o c Ho). rewrite Hc.
  by apply elem_of_app; left.
Qed.
Lemma started_agents ops s cmd s1 :
  started ops s cmd s1 -> (forall o, o ∈ ops -> reboots o = false) ->
  agents_at s1 = agents_at s /\ exists o, o ∈ ops /\ cmd ∈ commands o.
Proof.
  induction 1 as [o ops before cmd after s files s1 Hc He|o ops s s1 cmd s2 Hr Hs IH]; intros Ho.
  - split; [|exists o; split; [left|rewrite Hc; set_solver]]. eapply executed_agents; [done|].
    intros c Hin. apply (calm_commands o); [apply Ho; left|]. rewrite Hc. by apply elem_of_app; left.
  - destruct IH as [Ha (o' & Ho' & Hcmd)]; [intros; apply Ho; by right|]. split; [|exists o'; split; [by right|done]].
    rewrite Ha. eapply runOp_agents; [|done]. apply Ho. left.
Qed.
Lemma started_op ops s cmd s1 : started ops s cmd s1 -> exists o, o ∈ ops /\ cmd ∈ commands o.
Proof.
  induction 1 as [o ops before cmd after s files s1 Hc He|o ops s s1 cmd s2 Hr Hs (o' & Ho & Hcmd)].
  - exists o. split; [left|]. rewrite Hc. set_solver.
  - exists o'. split; [by right|done].
Qed.

(** A decision to reboot works on no node through its agent. *)
Lemma phase_agents phase ops :
  of_phase phase ops -> (forall o, o ∈ ops -> reboots o = false) \/ (forall o, o ∈ ops -> op_nodes o = []).
Proof.
  intros Hp. destruct (decide (phase = PhaseRebootNodes)) as [->|Hne].
  - right. intros o Ho. specialize (Hp o Ho). by destruct o.
  - left. intros o Ho. specialize (Hp o Ho). destruct o; try done. by destruct phase.
Qed.

(** C7: no command of a decision is run on a node the server has no agent for.  Once a survey
    of a validated configuration has succeeded and the strategy has decided on operators from it,
    whenever one of their commands is started, after whatever commands before it, the server
    has an agent for each node the command works on, so that its container engine is not nil. *)
Theorem commands_have_agents c max now constraints resources ops phase s1 s2 s3 s4 cs cmd n :
  Validate c false = None -> GetClusterStatus static c s1 = (s2, Done (Ok cs)) ->
  DecideOps static now c cs constraints resources max = Ret (ops, phase) ->
  agents_at s3 = agents_at s2 -> started ops s3 cmd s4 -> n ∈ command_nodes cmd ->
  connected (node_Address n) s4 = true.
Proof.
  intros Hv Hg Hd%DecideOps_decided Ha Hst Hn.
  destruct (started_op _ _ _ _ Hst) as (o & Ho & Hcmd).
  pose proof (commands_from_nodes o 10 0 cmd n Hcmd Hn) as Hon.
  destruct (phase_agents _ _ (decided_phase _ _ _ _ _ _ _ _ _ Hd)) as [Hno|Hnone];
    [|rewrite (Hnone o Ho) in Hon; by apply elem_of_nil in Hon].
  destruct (started_agents _ _ _ _ Hst Hno) as [Ha4 _].
  destruct (decided_safe _ _ _ _ _ _ _ _ _ Hd o Ho n Hon) as (Hc & st & Hs & Hssh).
  destruct (GetClusterStatus_Ok _ _ _ _ _ Hv Hg) as (_ & Hall & _). specialize (Hall _ _ Hs).
  pose proof (looks_Ok _ _ _ _ (looks_GetClusterStatus static c Hv) Hg) as [[_ E2] _].
  unfold node_status in Hall. unfold connected in *. unfold agents_at in *. rewrite Ha4, Ha, E2.
  destruct (bool_decide _); [done|]. by subst st.
Qed.
End agents.
