(* ===== verification/StoreTypes.v ===== *)
(** * What the storage holds

    Every key of the storage holds a value of its type: a valid configuration, a valid
    template, entries and records under their own keys, numbers that can be read back.  Every
    transaction of the server, of its sabakan integration and of ckecli keeps it so. *)

From Stdlib Require Import ZArith Ascii String Lia.
From stdpp Require Import base gmap strings list sorting.
From S2P Require Import Prelude GoLib GoFormat GoPath GoTime SabakanQuery K8s Cluster Queue Resource Status Storage.
From S2P Require Import StorageProps Reboot Dns Params NodeFilter Sabakan Integrate Cli Operators Engine Strategy Survey.
From S2P Require Import SurveyProps Pki PkiProps Files FilesProps Commands Control ControlProps Writes.

(** ** Types of values *)
Section types.
  Context {T : K8sTypes} {K : K8s} `{Runtime} `{!Etcd}.
  Implicit Types (m : gmap string KV) (key : string) (v : value).

Definition value_of key v : Prop :=
  if (key =? KeyCluster)%string then exists c, v = ClusterJSON c /\ Validate c false = None
  else if (key =? KeySabakanTemplate)%string then exists c, v = ClusterJSON c /\ ValidateTemplate c = None
  else if (key =? KeyConstraints)%string then exists c, v = ConstraintsJSON c
  else if (key =? KeySabakanQueryVariables)%string || (key =? KeyAutoRepairQueryVariables)%string then
    exists vars, v = VariablesJSON vars /\ QueryVariables_IsValid vars = None
  else if HasPrefix key KeyRebootsPrefix then exists e, v = RebootJSON e /\ key = rebootsEntryKey (rqe_Index e)
  else if HasPrefix key KeyRepairsPrefix then exists e, v = RepairJSON e /\ key = repairsEntryKey (rpe_Index e)
  else if HasPrefix key KeyRecords then exists r, v = RecordJSON r /\ key = recordKey r
  else if Contains [KeyRebootsWriteIndex; KeyRepairsWriteIndex; KeyRecordID] key then
    exists i, v = Text (FormatInt i) /\ int64_range i
  else if (key =? KeyStatus)%string then exists st, v = StatusJSON st
  else if Contains [KeyConfigVersion; KeyClusterRevision; KeyServiceAccountCert; KeyServiceAccountKey;
                    KeyRebootsDisabled; KeyRebootsRunning; KeyRepairsDisabled; KeySabakanDisabled;
                    KeyAutoRepairDisabled; KeySabakanURL] key
          || HasPrefix key KeyCA || HasPrefix key KeyResourcePrefix then exists s, v = Text s
  else True.
Definition typed m : Prop := forall key kv, m !! key = Some kv -> value_of key (kv_Value kv).

(** ** Transactions *)
Definition op_typed (o : Op) : Prop := match o with OpPut key v => value_of key v | _ => True end.

Lemma typed_apply rev m o : typed m -> op_typed o -> typed (apply_op rev m o).
Proof.
  intros Hm Ho key kv. destruct o as [k v|k|from upto]; cbn [apply_op].
  - destruct (decide (k = key)) as [->|Hne].
    + rewrite lookup_insert_eq. by intros [= <-].
    + rewrite lookup_insert_ne by done. apply Hm.
  - rewrite lookup_delete_Some. intros [_ Hk]. by apply Hm.
  - rewrite map_lookup_filter_Some. intros [Hk _]. by apply Hm.
Qed.
Lemma typed_applied ops m m' : typed m -> Forall op_typed ops -> applied ops m m' -> typed m'.
Proof.
  intros Hm Ho (rev & _ & _ & ->). revert m Hm. induction Ho as [|o ops Ho _ IH]; intros m Hm; [done|].
  apply IH. by apply typed_apply.
Qed.

Definition sound {A} (p : sto A) : Prop := forall d, typed (kvs d) -> typed (kvs (fst (p d))).

Lemma sound_ret {A} (a : A) : sound (mret a).
Proof. by intros d. Qed.
Lemma sound_throw {A} e : sound (throw (A := A) e).
Proof. by intros d. Qed.
Lemma sound_bind {A B} (p : sto A) (k : A -> sto B) : sound p -> (forall a, sound (k a)) -> sound (p ≫= k).
Proof.
  intros Hp Hk d Hd. specialize (Hp d Hd). unfold mbind, sto_bind.
  destruct (p d) as [d' [[a|e]|w|]]; cbn in *; [by apply Hk|done..].
Qed.
Lemma sound_reads {A} (p : sto A) : reads p -> sound p.
Proof. intros Hp d Hd. by rewrite Hp. Qed.
Lemma sound_looks {A} (p : sto A) : sto_looks p -> sound p.
Proof. intros Hp d Hd. destruct (Hp d) as [E _]. by rewrite E. Qed.
Lemma sound_Txn cs ops : Forall op_typed ops -> sound (Txn cs ops).
Proof.
  intros Ho d Hd. destruct (Txn_cases cs ops d) as (d' & [(-> & _ & Ha)|[(-> & _ & E)|(-> & [E|[_ Ha]])]]); cbn;
    [|by rewrite E|by rewrite E|]; by eapply typed_applied.
Qed.
Lemma sound_as_leader leaderKey ops : Forall op_typed ops -> sound (as_leader leaderKey ops).
Proof. intros Ho. apply sound_bind; [by apply sound_Txn|intros []; [apply sound_ret|apply sound_throw]]. Qed.
Lemma sound_Put key v : value_of key v -> sound (Put key v).
Proof. intros Hv. apply sound_bind; [by apply sound_Txn; repeat constructor|intros; apply sound_ret]. Qed.
Lemma sound_ignoring p : sound p -> sound (ignoring_NotFound p).
Proof.
  intros Hp d Hd. specialize (Hp d Hd). unfold ignoring_NotFound.
  destruct (p d) as [d' [[a|[]]|w|]]; done.
Qed.
Lemma sound_unless e : sound (unless e).
Proof. destruct e; [apply sound_throw|apply sound_ret]. Qed.
Lemma sound_of_result {A} (r : result A) : sound (of_result r).
Proof. destruct r; [apply sound_ret|apply sound_throw]. Qed.
Lemma sound_parse_index arg : sound (parse_index arg).
Proof. unfold parse_index. destruct (ParseInt arg); [apply sound_ret|apply sound_throw]. Qed.
End types.
Create HintDb sound.
#[export] Hint Resolve sound_ret sound_throw sound_unless sound_of_result sound_parse_index : sound.
Ltac sound :=
  repeat first [ by auto with sound | apply sound_looks; by auto with looks | apply sound_reads; by auto with reads
               | apply sound_bind; [|intros ?] | apply sound_ignoring
               | match goal with |- sound (match ?x with _ => _ end) => destruct x end ].

Section queue_types.
  Context {T : K8sTypes} {K : K8s} `{Runtime} `{!Etcd} {E : Type} `{!QueueEntry E}.

Hypothesis entry_typed : forall e : E, value_of (entry_key (E := E) (entry_index e)) (to_value e).
Hypothesis index_typed : forall i, int64_range i -> value_of write_index (Text (FormatInt i)).

Lemma sound_RegisterEntry n (r : E) : sound (RegisterEntry n r).
Proof.
  induction n as [|n IH]; cbn [RegisterEntry]; [by intros d|].
  apply sound_bind; [apply sound_looks; unfold read_index, malformed; sto_looks|intros [i rev]].
  apply sound_bind; [|intros []; [apply sound_ret|done]]. apply sound_Txn. repeat constructor; cbn [op_typed].
  - rewrite <- (index_with i r) at 1. apply entry_typed.
  - apply index_typed, wrap64_range.
Qed.
Lemma sound_UpdateEntry n (r : E) : sound (UpdateEntry n r).
Proof.
  induction n as [|n IH]; cbn [UpdateEntry]; [by intros d|].
  apply sound_bind; [apply sound_looks; sto_looks|intros [kv|]; [|apply sound_throw]].
  apply sound_bind; [|intros []; [apply sound_ret|done]]. apply sound_Txn. repeat constructor. apply entry_typed.
Qed.
Lemma sound_DeleteEntry leaderKey i : sound (DeleteEntry (E := E) leaderKey i).
Proof. apply sound_as_leader. by repeat constructor. Qed.
End queue_types.

Section write_types.
  Context {T : K8sTypes} {K : K8s} `{Runtime} `{!Etcd}.

Lemma reboot_typed (e : RebootQueueEntry) : value_of (entry_key (E := RebootQueueEntry) (entry_index e)) (to_value e).
Proof.
  pose proof (entry_key_prefix (E := RebootQueueEntry) (entry_index e)) as Hp. hnf. cbn in *. rewrite Hp. by exists e.
Qed.
Lemma repair_typed (e : RepairQueueEntry) : value_of (entry_key (E := RepairQueueEntry) (entry_index e)) (to_value e).
Proof.
  pose proof (entry_key_prefix (E := RepairQueueEntry) (entry_index e)) as Hp. hnf. cbn in *. rewrite Hp. by exists e.
Qed.
Lemma record_typed (r : OpRecord) : value_of (recordKey r) (RecordJSON r).
Proof. pose proof (HasPrefix_app KeyRecords (hex016 (r_ID r))) as Hp. hnf. unfold recordKey. rewrite Hp. by exists r. Qed.

Lemma sound_RegisterReboot n e : sound (RegisterRebootsEntry n e).
Proof. apply sound_RegisterEntry; [apply reboot_typed|]. intros i Hi. hnf. by exists i. Qed.
Lemma sound_RegisterRepair n e : sound (RegisterRepairsEntry n e).
Proof. apply sound_RegisterEntry; [apply repair_typed|]. intros i Hi. hnf. by exists i. Qed.
Lemma sound_UpdateReboot n e : sound (UpdateRebootsEntry n e).
Proof. apply sound_UpdateEntry, reboot_typed. Qed.
Lemma sound_UpdateRepair n e : sound (UpdateRepairsEntry n e).
Proof. apply sound_UpdateEntry, repair_typed. Qed.
Lemma sound_UpdateRecord leaderKey r : sound (UpdateRecord leaderKey r).
Proof. apply sound_as_leader. repeat constructor. apply record_typed. Qed.
Lemma sound_delete_range leaderKey from upto : sound (delete_range leaderKey from upto).
Proof.
  intros d Hd. unfold delete_range. destruct (etcd_txn _ _ d) as [d' r] eqn:Ht. apply txn_spec in Ht.
  assert (forall m', applied [OpDeleteRange from upto] (kvs d) m' -> typed m') as Ha.
  { intros m' Hm. eapply typed_applied; [exact Hd| |exact Hm]. by repeat constructor. }
  destruct r as [[]|]; cbn; [by apply Ha, Ht|destruct Ht as [_ ->]; done|].
  destruct Ht as [->|[_ Hm]]; [done|by apply Ha].
Qed.
Lemma sound_RegisterRecord leaderKey r : sound (RegisterRecord leaderKey r).
Proof.
  apply sound_bind; [|intros _].
  - apply sound_as_leader. repeat constructor; cbn [op_typed]; [apply record_typed|].
    hnf. exists (add64 (r_ID r) 1). split; [done|apply wrap64_range].
  - unfold maintRecords. apply sound_bind; [apply sound_looks, sto_looks_GetPrefix|intros l].
    destruct (len l <=? maxRecords); [apply sound_ret|].
    destruct l as [|[k kv] l]; [by intros d|]. destruct (((k, kv) :: l) !! _) as [[k' kv']|]; [|by intros d].
    apply sound_delete_range.
Qed.

(** Each write of the server is typed. *)
Lemma sound_perform w : sound (perform w).
Proof.
  destruct w; cbn [perform].
  - apply sound_UpdateReboot.
  - apply sound_DeleteEntry.
  - apply sound_UpdateRepair.
  - apply sound_DeleteEntry.
  - apply sound_as_leader. repeat constructor. hnf. by exists ConfigVersion.
  - apply sound_UpdateRecord.
  - apply sound_RegisterRecord.
  - apply sound_as_leader. repeat constructor; hnf; [by exists crt|by exists key].
  - apply sound_Put. hnf. by exists st.
  - apply sound_Put. hnf. by eexists.
Qed.
End write_types.
#[export] Hint Resolve sound_RegisterReboot sound_RegisterRepair sound_UpdateReboot sound_UpdateRepair : sound.

(** ** ckecli *)
Section cli_types.
  Context {T : K8sTypes} {K : K8s} `{Runtime} `{!Etcd} `{Decoder} (cas : nat).

Lemma sound_flag key b : (forall s, value_of key (Text s)) -> sound (put_flag key b).
Proof. intros Hk. apply sound_Put, Hk. Qed.
Lemma sound_current_constraints : sound current_constraints.
Proof.
  intros d Hd. pose proof (sound_looks _ looks_GetConstraints d Hd) as Hc. unfold current_constraints.
  destruct (GetConstraints d) as [d' [[a|[]]|w|]]; done.
Qed.
Lemma looks_GetRebootsEntries : sto_looks GetRebootsEntries.
Proof. apply looks_GetEntries. Qed.
Lemma looks_GetRepairsEntries : sto_looks GetRepairsEntries.
Proof. apply looks_GetEntries. Qed.
Lemma looks_GetRepairsEntry i : sto_looks (GetRepairsEntry i).
Proof. unfold GetRepairsEntry, GetEntry, entry_of, malformed. sto_looks. Qed.
#[local] Hint Resolve looks_GetCluster looks_GetConstraints looks_GetRebootsEntries looks_GetRepairsEntries
  looks_GetRepairsEntry : looks.

Lemma sound_add_reboots nodes : sound (add_reboots cas nodes).
Proof. induction nodes as [|node nodes IH]; cbn [add_reboots]; sound. Qed.
Lemma sound_cancel_entries entries : sound (cancel_entries cas entries).
Proof. induction entries as [|e entries IH]; cbn [cancel_entries]; sound. Qed.
Lemma sound_reset_reboots entries : sound (reset_reboots cas entries).
Proof. induction entries as [|e entries IH]; cbn [reset_reboots]; sound. Qed.
Lemma sound_delete_finished entries : sound (delete_finished cas entries).
Proof. induction entries as [|e entries IH]; cbn [delete_finished]; sound. Qed.
Lemma sound_delete_unfinished entries : sound (delete_unfinished cas entries).
Proof. induction entries as [|e entries IH]; cbn [delete_unfinished]; sound. Qed.
Lemma sound_reset_repairs entries : sound (reset_repairs cas entries).
Proof. induction entries as [|e entries IH]; cbn [reset_repairs]; sound. Qed.
#[local] Hint Resolve sound_add_reboots sound_cancel_entries sound_reset_reboots sound_delete_finished
  sound_delete_unfinished sound_reset_repairs sound_current_constraints : sound.

Lemma sound_unless_bind {A} e (p : sto A) : (e = None -> sound p) -> sound (_ ← unless e; p).
Proof. intros Hp d Hd. destruct e; [done|]. by apply Hp. Qed.
Lemma sound_clusterSet cfg : sound (clusterSet cfg).
Proof.
  apply sound_unless_bind. intros Hv. apply sound_bind; [sound|intros c]. apply sound_unless_bind. intros _.
  apply sound_Put. hnf. by exists cfg.
Qed.
Lemma sound_sabakanSetTemplate tmpl : sound (sabakanSetTemplate tmpl).
Proof. apply sound_unless_bind. intros Hv. apply sound_Put. hnf. by exists tmpl. Qed.
Lemma sound_constraintsSet name arg : sound (constraintsSet name arg).
Proof.
  unfold constraintsSet. destruct (ParseInt arg); [|sound]. destruct (cstrSet _ _ _); [|sound].
  apply sound_bind; [sound|intros c']. apply sound_Put. hnf. by eexists.
Qed.
Lemma sound_resourceSet documents : sound (resourceSet documents).
Proof.
  induction documents as [|data documents IH]; cbn [resourceSet]; [sound|].
  apply sound_bind; [|by intros]. apply sound_bind; [sound|intros key]. apply sound_Put. match goal with |- value_of (_ +:+ ?k) _ =>
    pose proof (HasPrefix_app KeyResourcePrefix k) as Hp end.
  hnf. unfold Contains. cbn [existsb]. rewrite Hp, orb_true_r. by eexists.
Qed.
Lemma sound_resourceDelete documents : sound (resourceDelete documents).
Proof.
  induction documents as [|data documents IH]; cbn [resourceDelete]; [sound|].
  apply sound_bind; [sound|intros key]. apply sound_bind; [|by intros].
  apply sound_bind; [by apply sound_Txn; repeat constructor|sound].
Qed.
Lemma sound_set_variables key vars :
  (forall v, QueryVariables_IsValid v = None -> value_of key (VariablesJSON v)) ->
  sound (_ ← unless (QueryVariables_IsValid vars); Put key (VariablesJSON vars)).
Proof.
  intros Hk. apply sound_unless_bind. intros Hv. by apply sound_Put, Hk.
Qed.

(** Each command of ckecli is typed. *)
Lemma sound_ckecli c : sound (run_ckecli cas c).
Proof.
  destruct c; cbn [run_ckecli];
    unfold rebootQueueAdd, rebootQueueCancel, rebootQueueCancelAll, rebootQueueResetBackoff, repairQueueAdd,
      repairQueueDelete, repairQueueDeleteFinished, repairQueueDeleteUnfinished, repairQueueResetBackoff;
    auto using sound_clusterSet, sound_sabakanSetTemplate, sound_constraintsSet, sound_resourceSet,
      sound_resourceDelete; try by sound.
  1-2, 4, 6: apply sound_flag; intros s; hnf; by exists s.
  all: apply sound_set_variables; intros v Hv; hnf; by exists v.
Qed.
End cli_types.

(** ** The sabakan integration *)
Section sabakan_types.
  Context {T : K8sTypes} {K : K8s} `{Runtime} `{!Etcd}.
  Context (search : string -> option QueryVariables -> result (list Machine)) (now : Z) (waitSecs : option float64).

Lemma sound_runGenerator leaderKey st only : sound (runGenerator search now waitSecs leaderKey st only).
Proof.
  intros d Hd. destruct (runGenerator search now waitSecs leaderKey st only d) as [d' o] eqn:Hr. cbn.
  destruct (runGenerator_cases _ _ _ _ _ _ _ _ _ Hr) as [->|(tmpl & c & rev & rev' & ms & g & p & Hg)]; [done|].
  rewrite (gc_written _ _ _ _ _ _ _ _ _ _ _ _ _ _ _ Hg).
  apply (typed_apply rev' _ (OpPut KeyClusterRevision (Text (FormatInt rev)))); [|hnf; by eexists].
  apply (typed_apply rev' _ (OpPut KeyCluster (ClusterJSON c))); [done|]. hnf. exists c. split; [done|apply Hg].
Qed.
Lemma sound_register_all n entries : sound (register_all n entries).
Proof. induction entries as [|e entries IH]; cbn [register_all]; sound. Qed.
Lemma sound_runRepairer n st : sound (runRepairer search n st).
Proof.
  destruct st as [cs|]; cbn [runRepairer]; [|sound].
  apply sound_bind; [apply sound_looks, looks_get_flag|intros []; [sound|]].
  apply sound_bind; [apply sound_reads; unfold QueryNonHealthy, GetSabakanURL, getStringValue,
    GetAutoRepairQueryVariables, get_variables, text_of, malformed; solve_reads|intros [machines|e]; [|sound]].
  apply sound_bind; [apply sound_looks, looks_GetEntries|intros entries].
  apply sound_bind; [apply sound_looks, looks_GetConstraints|intros c]. apply sound_register_all.
Qed.
Lemma sound_Do n leaderKey st : sound (Do search now waitSecs n leaderKey st).
Proof. apply sound_bind; [apply sound_runGenerator|intros; apply sound_runRepairer]. Qed.
End sabakan_types.

(** ** Reading *)
Section readable.
  Context {T : K8sTypes} {K : K8s} `{Runtime} `{!Etcd}.
  Implicit Types d : etcd.

(** A read gives a good value, finds nothing, or loses the connection. *)
Definition read_ok {A} (good : A -> Prop) (o : outcome A) : Prop :=
  (exists a, o = Done (Ok a) /\ good a) \/ o = Done (Err ErrNotFound) \/ o = Done (Err ErrRequest).

Record readable d : Prop := {
  rd_cluster : read_ok (fun c => Validate c false = None) (snd (GetCluster d));
  rd_template : read_ok (fun '(c, _) => ValidateTemplate c = None) (snd (GetSabakanTemplate d));
  rd_constraints : read_ok (fun _ => True) (snd (GetConstraints d));
  rd_reboots : read_ok (fun es => forall e, e ∈ es -> is_Some (kvs d !! rebootsEntryKey (rqe_Index e)))
                 (snd (GetRebootsEntries d));
  rd_repairs : read_ok (fun es => forall e, e ∈ es -> is_Some (kvs d !! repairsEntryKey (rpe_Index e)))
                 (snd (GetRepairsEntries d));
  rd_records : read_ok (fun rs => forall r, r ∈ rs -> is_Some (kvs d !! recordKey r)) (snd (GetRecords 0 d));
  rd_next : read_ok int64_range (snd (NextRecordID d))
}.

Lemma read_Get {A} (good : A -> Prop) key (k : option KV -> sto A) d :
  (forall d', kvs d' = kvs d -> read_ok good (snd (k (kvs d !! key) d'))) -> read_ok good (snd ((Get key ≫= k) d)).
Proof.
  intros Hk. unfold mbind, sto_bind. destruct (Get_cases key d) as (d' & E & [-> | ->]); [by apply Hk|]. by right; right.
Qed.
(** Keys under a prefix are no other keys. *)
Lemma value_of_prefix key v :
  value_of key v ->
  (HasPrefix key KeyRebootsPrefix = true -> exists e, v = RebootJSON e /\ key = rebootsEntryKey (rqe_Index e))
  /\ (HasPrefix key KeyRepairsPrefix = true -> exists e, v = RepairJSON e /\ key = repairsEntryKey (rpe_Index e))
  /\ (HasPrefix key KeyRecords = true -> exists r, v = RecordJSON r /\ key = recordKey r).
Proof.
  intros Hv. split_and!; intros (x & ->)%HasPrefix_split; hnf in Hv;
    [pose proof (HasPrefix_app KeyRebootsPrefix x) as Hp|pose proof (HasPrefix_app KeyRepairsPrefix x) as Hp
    |pose proof (HasPrefix_app KeyRecords x) as Hp]; cbn in *; by rewrite Hp in Hv.
Qed.
Lemma typed_record (m : gmap string KV) key kv :
  typed m -> m !! key = Some kv -> HasPrefix key KeyRecords = true ->
  exists r, kv_Value kv = RecordJSON r /\ key = recordKey r.
Proof. intros Ht Hk Hp. by apply (value_of_prefix _ _ (Ht _ _ Hk)). Qed.
Lemma typed_reboot (m : gmap string KV) key kv :
  typed m -> m !! key = Some kv -> HasPrefix key KeyRebootsPrefix = true ->
  exists e : RebootQueueEntry, of_value (kv_Value kv) = Some e /\ key = entry_key (E := RebootQueueEntry) (entry_index e).
Proof.
  intros Ht Hk Hp. destruct (value_of_prefix _ _ (Ht _ _ Hk)) as (Hr & _). destruct (Hr Hp) as (e & -> & ->). by exists e.
Qed.
Lemma typed_repair (m : gmap string KV) key kv :
  typed m -> m !! key = Some kv -> HasPrefix key KeyRepairsPrefix = true ->
  exists e : RepairQueueEntry, of_value (kv_Value kv) = Some e /\ key = entry_key (E := RepairQueueEntry) (entry_index e).
Proof.
  intros Ht Hk Hp. destruct (value_of_prefix _ _ (Ht _ _ Hk)) as (_ & Hr & _). destruct (Hr Hp) as (e & -> & ->). by exists e.
Qed.
Lemma entries_readable {E} `{!QueueEntry E} d :
  (forall key kv, kvs d !! key = Some kv -> HasPrefix key data_prefix = true ->
     exists e : E, of_value (kv_Value kv) = Some e /\ key = entry_key (E := E) (entry_index e)) ->
  read_ok (fun es : list E => forall e, e ∈ es -> is_Some (kvs d !! entry_key (E := E) (entry_index e)))
    (snd (GetEntries (E := E) d)).
Proof.
  intros Ht. unfold GetEntries, mbind, sto_bind.
  destruct (GetPrefix_cases data_prefix (Some false) d) as (d' & E' & [(l & -> & [Hl _])| ->]); [|by right; right].
  left. assert (forall k kv, (k, kv) ∈ l -> kvs d !! k = Some kv /\ HasPrefix k data_prefix = true) as Hin.
  { intros k kv Hk. rewrite Hl in Hk. by apply elem_of_prefixed in Hk. }
  clear Hl. induction l as [|[k kv] l IH]; [exists []; split; [done|by intros e ?%elem_of_nil]|].
  destruct IH as (es & He & Hes); [intros; apply Hin; by right|].
  destruct (Hin k kv) as [Hk Hp]; [left|]. destruct (Ht k kv Hk Hp) as (e & Hv & ->).
  exists (e :: es). split.
  - cbn [entries_of]. unfold mbind, sto_bind, entry_of. rewrite Hv. unfold mret, sto_ret.
    destruct (entries_of l d') as [d2 o]. cbn in He. by subst o.
  - intros e' [->|He']%elem_of_cons; [by eexists|by apply Hes].
Qed.
Lemma read_records d :
  typed (kvs d) ->
  read_ok (fun rs => forall r, r ∈ rs -> is_Some (kvs d !! recordKey r)) (snd (GetRecords 0 d)).
Proof.
  intros Ht. unfold GetRecords, mbind, sto_bind.
  destruct (GetPrefix_cases KeyRecords (Some true) d) as (d' & E' & [(l & -> & [Hl _])| ->]); [|by right; right].
  left. assert (forall k kv, (k, kv) ∈ l -> kvs d !! k = Some kv /\ HasPrefix k KeyRecords = true) as Hin.
  { intros k kv Hk. rewrite Hl in Hk. by apply elem_of_prefixed in Hk. }
  clear Hl. induction l as [|[k kv] l IH]; [exists []; split; [done|by intros e ?%elem_of_nil]|].
  destruct IH as (rs & Hr & Hrs); [intros; apply Hin; by right|].
  destruct (Hin k kv) as [Hk Hp]; [left|]. destruct (typed_record _ _ _ Ht Hk Hp) as (r & Hv & ->).
  exists (r :: rs). split.
  - cbn [records_of]. unfold mbind, sto_bind, record_of. rewrite Hv. unfold mret, sto_ret.
    destruct (records_of l d') as [d2 o]. cbn in Hr. by subst o.
  - intros r' [->|Hr']%elem_of_cons; [by eexists|by apply Hrs].
Qed.

Lemma typed_readable d : typed (kvs d) -> readable d.
Proof.
  intros Ht. split.
  - apply read_Get. intros d' E. destruct (kvs d !! KeyCluster) as [kv|] eqn:Hk; [|by right; left].
    destruct (Ht _ _ Hk) as (c & Hv & Hc). left. exists c. unfold cluster_of. by rewrite Hv.
  - apply read_Get. intros d' E. destruct (kvs d !! KeySabakanTemplate) as [kv|] eqn:Hk; [|by right; left].
    destruct (Ht _ _ Hk) as (c & Hv & Hc). left. exists (c, kv_ModRevision kv). unfold cluster_of. by rewrite Hv.
  - apply read_Get. intros d' E. destruct (kvs d !! KeyConstraints) as [kv|] eqn:Hk; [|by right; left].
    destruct (Ht _ _ Hk) as (c & Hv). left. exists c. by rewrite Hv.
  - exact (entries_readable (E := RebootQueueEntry) d (fun key kv => typed_reboot _ key kv Ht)).
  - exact (entries_readable (E := RepairQueueEntry) d (fun key kv => typed_repair _ key kv Ht)).
  - by apply read_records.
  - apply read_Get. intros d' E. destruct (kvs d !! KeyRecordID) as [kv|] eqn:Hk.
    + destruct (Ht _ _ Hk) as (i & Hv & Hi). left. exists i. unfold text_of. rewrite Hv.
      unfold mbind, sto_bind, mret, sto_ret. by rewrite ParseInt_FormatInt.
    + left. by exists 1.
Qed.
End readable.

(** ** The whole system *)
Section system.
  Context {T : K8sTypes} {K : K8s} `{Runtime} `{!Etcd} `{!Platform} `{!Network} `{Docker} `{!Vault} `{Decoder}.
  Context `{!Agents} `{!Executor} `{!Tools} `{!Encoders} (IPAdd : list Z -> Z -> list Z).
  Context (cas : nat) (static : list ResourceDefinition) (max : Z).
  Context (ask_sabakan : platform -> platform * (string -> option QueryVariables -> result (list Machine))).
  Implicit Types s : site.

Definition KeyLeader : string := "leader/".
Definition with_etcd (d : etcd) s : site :=
  mkSite (mkSys d (s_platform (st_sys s)) (s_calls (st_sys s)) (s_agents (st_sys s))) (st_world s).

(** What happens one after the other: users run ckecli, a server becomes the leader, a leader
    runs a round, elections and leases put and delete keys of leaders and delete other keys,
    and the machines and the rest of the world change. *)
Inductive happens : site -> site -> Prop :=
| happens_ckecli c s : happens s (with_etcd (fst (run_ckecli cas c (s_etcd (st_sys s)))) s)
| happens_lead leaderKey s :
    happens s (fst (lead IPAdd cas static max (Some (NewIntegrator cas ask_sabakan)) 0 leaderKey s))
| happens_round leaderKey s :
    happens s (fst (runOnce IPAdd cas static max (Some (NewIntegrator cas ask_sabakan)) leaderKey s))
| happens_lease d s :
    (forall key kv, kvs d !! key = Some kv -> HasPrefix key KeyLeader = true \/ kvs (s_etcd (st_sys s)) !! key = Some kv) ->
    happens s (with_etcd d s)
| happens_world p calls agents w s : happens s (mkSite (mkSys (s_etcd (st_sys s)) p calls agents) w).

Definition sabakan_may (d d' : etcd) : Prop := typed (kvs d) -> typed (kvs d').

Lemma does_typed b (u1 u2 : sys) : does sabakan_may b u1 u2 -> typed (kvs (s_etcd u1)) -> typed (kvs (s_etcd u2)).
Proof.
  induction 1 as [s s' [E _]|w s t s' [E _] _ IH|agents s t s' [E _] Hb _ IH|d s t s' [E _] Hx _ IH]; intros Ht.
  - by rewrite E.
  - apply IH. rewrite <- E in Ht. pose proof (sound_perform w _ Ht) as Hs. unfold storage.
    by destruct (perform w (s_etcd t)).
  - apply IH. cbn. by rewrite E.
  - apply IH. cbn. apply Hx. by rewrite E.
Qed.
Lemma acts_sound {A} (p : sto A) : sound p -> acts sabakan_may true (store p).
Proof.
  intros Hp s. unfold store, on_sys, storage. destruct (p (s_etcd (st_sys s))) as [d o] eqn:Hd. cbn.
  eapply (does_addon _ _ d); [apply same_sys_refl| |by apply does_nothing].
  intros Ht. specialize (Hp _ Ht). by rewrite Hd in Hp.
Qed.
Lemma acts_Do leaderKey st : acts sabakan_may true (do_addon (Some (NewIntegrator cas ask_sabakan)) leaderKey st).
Proof.
  cbn [do_addon NewIntegrator addon_Do]. apply acts_bind; [apply acts_net|intros search].
  apply acts_bind; [apply acts_net|intros now]. apply acts_sound, sound_Do.
Qed.
Lemma acts_lead leaderKey :
  acts sabakan_may true (lead IPAdd cas static max (Some (NewIntegrator cas ask_sabakan)) 0 leaderKey).
Proof.
  unfold lead. apply acts_bind; [|intros; apply acts_bind; [apply acts_checkLastOp|intros; apply acts_ret]].
  cbn [NewIntegrator addon_Init]. apply acts_bind; [apply acts_net|intros search].
  apply acts_bind; [apply acts_net|intros now]. apply acts_sound, sound_runGenerator.
Qed.

Lemma step_typed s s' : happens s s' -> typed (stored_at s) -> typed (stored_at s').
Proof.
  intros [c s0|leaderKey s0|leaderKey s0|d s0 Hd|p calls agents w s0] Ht.
  - by apply sound_ckecli.
  - eapply does_typed; [apply acts_lead|done].
  - eapply does_typed; [apply acts_runOnce, acts_Do|done].
  - intros key kv Hk. destruct (Hd key kv Hk) as [Hp|Hold]; [|by apply Ht].
    apply HasPrefix_split in Hp as (x & ->). exact I.
  - done.
Qed.

(** C8: whatever users, servers and sabakan do, the storage keeps its types.  From a typed
    store, after any sequence of commands of ckecli, elections, rounds of the server with its
    sabakan integration, and changes of the world, the store is typed; so reading the
    configuration gives a valid one, reading the template a valid one, and constraints, queues
    and records can be decoded, entries and records being stored under their own indexes. *)
Theorem store_stays_typed s0 s :
  typed (stored_at s0) -> rtc happens s0 s -> typed (stored_at s) /\ readable (s_etcd (st_sys s)).
Proof.
  intros Ht Hs. assert (typed (stored_at s)) as Hts; [|split; [done|by apply typed_readable]].
  induction Hs as [|s0 s1 s2 Hst _ IH]; [done|]. apply IH. by eapply step_typed.
Qed.
End system.
