(* ===== verification/LocalProxyProps.v ===== *)
(** * What the local proxy does

    It works on its own machine only and never writes to the storage.  It remembers the API
    server it meant to use even when it could not restart kube-proxy. *)

From Stdlib Require Import ZArith Ascii String Lia.
From stdpp Require Import base gmap strings list.
From S2P Require Import Prelude GoLib GoFormat K8s Cluster Queue Resource Status Storage StorageProps Reboot Dns Params Cli.
From S2P Require Import Operators Engine Strategy Survey SurveyProps Pki PkiProps Files FilesProps Commands Control.
From S2P Require Import ControlProps LocalProxy Lab.

Section local_only.
  Context {T : K8sTypes} {K : K8s} `{Runtime} `{!Etcd} `{!Platform} `{!Network} `{Docker} `{!Vault}.
  Context `{!Agents} `{!Executor} `{!Tools} `{!Encoders} (IPAdd : list Z -> Z -> list Z) (cas : nat).
  Context `{!LocalHost}.
  Implicit Types s : site.

(** The storage and the other machines are as they were. *)
Definition same_elsewhere s s' : Prop :=
  stored_at s' = stored_at s /\ forall a, a <> "localhost" -> same_state (st_world s a) (st_world s' a).
Definition local_only {A} (m : ctl A) : Prop := forall s, same_elsewhere s (fst (m s)).

Lemma same_elsewhere_refl s : same_elsewhere s s.
Proof. split; [done|]. intros. apply same_state_refl. Qed.
Lemma local_only_ret {A} (a : A) : local_only (mret a).
Proof. intros s. apply same_elsewhere_refl. Qed.
Lemma local_only_keeps {A} (m : ctl A) : keeps m -> local_only m.
Proof. intros Hm s. destruct (Hm s) as [[E _] Hw]. split; [exact E|]. intros a _. apply Hw. Qed.
Lemma local_only_bind {A B} (m : ctl A) (k : A -> ctl B) :
  local_only m -> (forall a, local_only (k a)) -> local_only (m ≫= k).
Proof.
  intros Hm Hk s. destruct (Hm s) as [E1 W1]. unfold mbind, ctl_bind.
  destruct (m s) as [s1 [[a|e]|w|]]; cbn in *; [|done..]. destruct (Hk a s1) as [E2 W2].
  split; [congruence|]. intros x Hx. eapply same_state_trans; [by apply W1|by apply W2].
Qed.
Lemma local_only_caught {A} (m : ctl A) : local_only m -> local_only (caught m).
Proof. intros Hm s. specialize (Hm s). unfold caught. by destruct (m s) as [s1 []]. Qed.
Lemma local_only_engine {A} (m : eng A) : local_only (engine "localhost" m).
Proof.
  intros s. unfold engine. destruct (connected _ s); [|apply same_elsewhere_refl].
  destruct (m (st_world s "localhost")) as [d r]. split; [done|]. intros a Ha. cbn. unfold set_daemon.
  destruct (String.eqb_spec a "localhost"); [done|apply same_state_refl].
Qed.
Lemma local_only_agents agents : local_only (set_agents agents).
Proof. intros s. split; [done|]. intros. apply same_state_refl. Qed.
Lemma local_only_on_local f : local_only (on_each_node ckeNodes f).
Proof.
  intros s. unfold on_each_node. cbn [ckeNodes with_agents]. destruct (connected _ s).
  - cbn [on_nodes on_node]. unfold on_node. destruct (f localNode _) as [d [u|e]]; cbn; (split; [done|]);
      intros a Ha; cbn; unfold set_daemon; (destruct (String.eqb_spec a "localhost"); [done|apply same_state_refl]).
  - split; [done|]. intros. apply same_state_refl.
Qed.
Lemma local_only_needed_service ns name : local_only (needed_service ns name).
Proof.
  apply local_only_bind; [|intros []; [apply local_only_ret|by intros s; apply same_elsewhere_refl]].
  apply local_only_keeps, looks_keeps, looks_optional.
Qed.
Lemma local_only_raise {A} e : local_only (raise (A := A) e).
Proof. intros s. apply same_elsewhere_refl. Qed.
End local_only.
Create HintDb localproxy.
#[export] Hint Resolve local_only_ret local_only_raise local_only_engine local_only_agents local_only_on_local
  local_only_needed_service : localproxy.
Ltac local_only :=
  repeat first [ by auto with localproxy | apply local_only_bind; [|intros ?] | apply local_only_caught
               | match goal with |- local_only (match ?x with _ => _ end) => destruct x end ].

Section rounds.
  Context {T : K8sTypes} {K : K8s} `{Runtime} `{!Etcd} `{!Platform} `{!Network} `{Docker} `{!Vault}.
  Context `{!Agents} `{!Executor} `{!Tools} `{!Encoders} (IPAdd : list Z -> Z -> list Z) (cas : nat).
  Context `{!LocalHost}.
  Implicit Types s : site.

Lemma looks_GetVaultConfig : sto_looks GetVaultConfig.
Proof. unfold GetVaultConfig. sto_looks. Qed.
Lemma local_only_dial_all nodes : local_only (dial_all nodes).
Proof.
  induction nodes as [|n nodes IH]; cbn [dial_all]; local_only. apply local_only_keeps, keeps_net.
Qed.
Lemma local_only_getStatus : local_only getStatus.
Proof.
  unfold getStatus. apply local_only_bind; [apply local_only_keeps, looks_keeps, looks_store, looks_GetCluster|intros c].
  apply local_only_bind; [apply local_only_dial_all|intros [|a l]; [local_only|]].
  apply local_only_bind; [local_only|intros [pr pi]]. apply local_only_bind; [local_only|intros conf].
  apply local_only_bind; [apply local_only_keeps, looks_keeps, looks_k8s_client|intros _].
  apply local_only_bind; [local_only|intros svc]. destruct (svc_ClusterIP svc =? "")%string; [local_only|].
  apply local_only_bind; [apply local_only_keeps, keeps_pure_go|intros kc].
  apply local_only_bind; [|intros servers; apply local_only_bind; [local_only|intros [ur ui]; local_only]].
  unfold local_dns_servers. local_only.
Qed.

(** The commands of the operators of the local proxy work on its machine. *)
Definition local_command (c : Commander) : Prop :=
  match c with
  | ImagePullCommand nodes _ | FilesBuilder nodes | RunContainerCommand nodes _ _ _ _ _ _ => nodes = ckeNodes
  | prepareProxyFilesCommand _ _ _ _ => True
  | _ => False
  end.
Lemma local_only_Run c files : local_command c -> local_only (local_Run IPAdd cas c files).
Proof.
  intros Hc. destruct c; try done; cbn in Hc; subst; cbn [local_Run].
  - apply local_only_bind; [|intros [? ?]; local_only]. unfold Run. cbn [Prepare run_command]. unfold no_failures.
    local_only.
  - local_only.
  - apply local_only_bind; [|intros [? ?]; local_only]. unfold Run. cbn [Prepare run_command].
    unfold no_failures, FilesBuilder_Run. local_only.
  - apply local_only_bind; [apply local_only_keeps, looks_keeps, looks_store, looks_GetVaultConfig|intros ?].
    apply local_only_bind; [|intros [? ?]; local_only]. unfold Run.
    apply local_only_bind; [apply local_only_keeps, keeps_Prepare|intros files'; cbn [run_command]; local_only].
Qed.
Lemma local_only_run_commands cmds files : Forall local_command cmds -> local_only (run_local_commands IPAdd cas cmds files).
Proof.
  intros Hc. revert files. induction Hc as [|c cmds Hc _ IH]; intros files; cbn [run_local_commands]; [local_only|].
  apply local_only_bind; [apply local_only_keeps, keeps_net|intros []; [local_only|]].
  apply local_only_bind; [by apply local_only_Run|intros; apply IH].
Qed.
Lemma decideOps_local c ap st o : o ∈ snd (decideOps c ap st) -> Forall local_command (local_commands o).
Proof.
  unfold decideOps. destruct (lp_apiServers st) as [|a l]; [by intros ?%elem_of_nil|]. cbn [snd].
  intros [Ho|Ho]%elem_of_app.
  - repeat case_match; try (by apply elem_of_nil in Ho); apply list_elem_of_singleton in Ho as ->; by repeat constructor.
  - repeat case_match; try (by apply elem_of_nil in Ho); apply list_elem_of_singleton in Ho as ->; by repeat constructor.
Qed.

(** C28: the local proxy keeps to itself.  Whatever it finds and however its operators end, a round
    changes nothing in the storage, and no container and no volume on another machine. *)
Theorem localproxy_confined ap s : same_elsewhere s (fst (local_runOnce IPAdd cas ap s)).
Proof.
  revert s. change (local_only (local_runOnce IPAdd cas ap)). unfold local_runOnce.
  apply local_only_bind; [apply local_only_agents|intros _].
  apply local_only_bind; [apply local_only_caught, local_only_keeps, looks_keeps, looks_store, looks_GetCluster|].
  intros [c|e]; [|destruct e; local_only].
  apply local_only_bind; [apply local_only_caught, local_only_getStatus|intros [st|e]; [|local_only]].
  pose proof (fun o => decideOps_local c ap st o) as Hl. destruct (decideOps c ap st) as [ap' ops]. cbn in Hl.
  destruct ops as [|o ops]; [local_only|]. apply local_only_bind; [|intros; local_only].
  induction (o :: ops) as [|o' ops' IH]; cbn [run_all_ops]; [local_only|].
  apply local_only_bind; [|intros; apply IH; intros; apply Hl; by right].
  apply local_only_caught, local_only_run_commands, Hl. left.
Qed.

Lemma Contains_true l x : Contains l x = true <-> x ∈ l.
Proof.
  unfold Contains. rewrite List.existsb_exists. split.
  - intros (y & Hin & ->%String.eqb_eq). by apply list_elem_of_In.
  - intros Hin. exists x. split; [by apply list_elem_of_In|apply String.eqb_refl].
Qed.

(** A restart of kube-proxy that fails is not tried again.  When the API server of kube-proxy
    does not answer any more, and everything else is as it should be, a round decides to restart
    kube-proxy with another API server; however the restart ends, a later round that finds the same
    status decides to do nothing, though kube-proxy may still use the API server that is gone. *)
Theorem failed_restart_not_retried ap ap' s s1 s2 s3 s' c st :
  newInfrastructure s = (s1, Done (Ok tt)) -> store GetCluster s1 = (s2, Done (Ok c)) ->
  getStatus s2 = (s3, Done (Ok st)) -> ap ∉ lp_apiServers st ->
  lp_proxyRunning st = true -> lp_proxyImage st = KubernetesImage -> lp_unboundRunning st = true ->
  lp_unboundImage st = UnboundImage -> lp_unboundConf st = lp_desiredUnboundConf st ->
  lp_apiServers st <> [] -> local_runOnce IPAdd cas ap s = (s', Done (Ok ap')) ->
  snd (decideOps c ap st)
    = [ProxyOp (KubeProxyRestartOp ckeNodes (c_Name c) ("https://" +:+ ap' +:+ ":6443") (opt_Proxy (c_Options c)))]
  /\ decideOps c ap' st = (ap', []).
Proof.
  intros Hn Hc Hg Hap Hpr Hpi Hur Hui Hconf Hne Hr. destruct (lp_apiServers st) as [|first l] eqn:Hl; [done|].
  assert (decideOps c ap st = (first, [ProxyOp (KubeProxyRestartOp ckeNodes (c_Name c)
            ("https://" +:+ first +:+ ":6443") (opt_Proxy (c_Options c)))])) as Hd.
  { unfold decideOps. rewrite Hl, Hpr, Hpi, Hur, Hui, Hconf, !String.eqb_refl.
    assert (Contains (first :: l) ap = false) as ->.
    { apply not_true_iff_false. by rewrite Contains_true. }
    destruct (String.eqb_spec first ap) as [->|]; [|done]. exfalso. apply Hap. left. }
  assert (ap' = first) as ->.
  { unfold local_runOnce in Hr. unfold mbind at 1, ctl_bind at 1 in Hr. rewrite Hn in Hr.
    unfold mbind at 1, ctl_bind at 1, caught at 1 in Hr. rewrite Hc in Hr.
    unfold mbind at 1, ctl_bind at 1, caught at 1 in Hr. rewrite Hg, Hd in Hr.
    unfold mbind, ctl_bind in Hr. destruct (run_all_ops _ _ _ s3) as [s4 [[u|]| |]]; try done. by injection Hr. }
  split; [by rewrite Hd|]. unfold decideOps. rewrite Hl, Hpr, Hpi, Hur, Hui, Hconf, !String.eqb_refl.
  assert (Contains (first :: l) first = true) as -> by (apply Contains_true; left). by rewrite String.eqb_refl.
Qed.
End rounds.

(** ** Example

    Kube-proxy runs with the API server of 10.0.0.11, which is gone; without the certificate of
    the authority in the storage it cannot be restarted. *)
#[local] Existing Instances sample_types sample_k8s std_runtime memory_etcd memory_docker lab_platform lab_network.
#[local] Existing Instances lab_vault lab_agents lab_tools lab_encoders lab_executor.

Definition lab_conf : string := unbound_conf "10.68.0.10" "cluster.local" (c_DNSServers lab_cluster) false.
Definition local_lab : LocalHost := {|
  docker_ps_output d := (d, Some (Join ["kube-proxy " +:+ KubernetesImage; "cke-unbound " +:+ UnboundImage; ""]
                                    (String newline "")));
  read_file _ d := (d, Found lab_conf);
  dial_api_server a p := (p, negb (a =? "10.0.0.11:6443")%string)
|}.
#[local] Existing Instance local_lab.
Definition local_site : site :=
  mkSite (mkSys (<[ KeyVault := (VaultJSON (mkVaultConfig "https://vault" "" "role" "secret"), 1%positive) ]>
                   {[ KeyCluster := (ClusterJSON lab_cluster, 1%positive) ]} : etcd)
            (mkLab (1800000000 * 10 ^ 9) ∅ lab_stored lab_start) [] ∅) (fun _ => bare_node).
Definition local_inf : site := fst (newInfrastructure local_site).
Definition local_read : site * outcome Cluster := store GetCluster local_inf.
Definition local_status : site * outcome status := getStatus (fst local_read).
Definition lab_status : status :=
  mkStatus ["10.0.0.12"; "10.0.0.13"] true KubernetesImage lab_conf lab_conf true UnboundImage.
Definition local_ran : site * outcome string := local_runOnce lab_IPAdd 3 "10.0.0.11" local_site.
Definition restart_op : Operator :=
  KubeProxyRestartOp ckeNodes (c_Name lab_cluster) "https://10.0.0.12:6443" (opt_Proxy (c_Options lab_cluster)).
Lemma failed_restart_not_retried_witness :
  snd (local_runOp lab_IPAdd 3 (ProxyOp restart_op) (fst local_status)) = Done (Err ErrNotFound)
  /\ snd (decideOps lab_cluster "10.0.0.11" lab_status) = [ProxyOp restart_op]
  /\ decideOps lab_cluster "10.0.0.12" lab_status = ("10.0.0.12", []).
Proof.
  split; [vm_compute; reflexivity|].
  apply (failed_restart_not_retried lab_IPAdd 3 "10.0.0.11" "10.0.0.12" local_site local_inf (fst local_read)
           (fst local_status) (fst local_ran) lab_cluster lab_status);
    [reflexivity|apply (ran local_read); vm_compute; reflexivity|apply (ran local_status); vm_compute; reflexivity
    |by apply (bool_decide_unpack _)|reflexivity..|done|apply (ran local_ran); vm_compute; reflexivity].
Defined.
