(* ===== verification/LabRuns.v ===== *)
(** * Runs of the laboratory

    The theorems on the survey, on certificates, on files and on the control loop, at the
    site of [Lab], and the run in which the control loop makes a cluster of five machines
    that have nothing on them. *)

From Stdlib Require Import ZArith Ascii String Lia.
From stdpp Require Import base gmap strings list sorting.
From S2P Require Import Prelude GoLib GoFormat GoPath K8s Cluster Queue Resource Status Storage StorageProps Reboot Dns.
From S2P Require Import Params NodeFilter Integrate Operators Engine Strategy Survey Pki Files Commands Control.
From S2P Require Import SabakanQuery Sabakan Cli CliProps StrategySafety SurveyProps PkiProps Lab FilesProps ControlProps AgentProps StoreTypes.

#[local] Existing Instances sample_types sample_k8s std_runtime memory_etcd memory_docker lab_platform lab_network.
#[local] Existing Instances lab_vault lab_vault_laws lab_agents lab_tools lab_encoders lab_executor cli_decoder.

(** ** From bare machines to a cluster *)
Definition lab_rounds (n : nat) : site := fst (rounds lab_IPAdd 3 [] 2 None n "leader/1" lab_site).
Definition phase_at (s : site) : option OperationPhase :=
  match kvs (s_etcd (st_sys s)) !! KeyStatus with
  | Some (mkKV (StatusJSON st) _) => Some (ss_Phase st)
  | _ => None
  end.
(** The containers on a machine. *)
Definition containers_at (s : site) (a : string) : list string :=
  merge_sort (fun x y => negb (str_less y x)) (map_to_list (mem_containers (st_world s a))).*1.

(** Ten rounds of the control loop are enough: then the services of the control plane run
    on the three machines for it and those of a node on all five, and the phase is the
    last one. *)
Example lab_completes :
  phase_at (lab_rounds 10) = Some PhaseCompleted
  /\ containers_at (lab_rounds 10) "10.0.0.11"
     = ["etcd"; "etcd-rivers"; "kube-apiserver"; "kube-controller-manager"; "kube-proxy"; "kube-scheduler";
        "kubelet"; "rivers"]
  /\ containers_at (lab_rounds 10) "10.0.0.101" = ["kube-proxy"; "kubelet"; "rivers"].
Proof. vm_compute. done. Qed.

Definition succeeded {A} (x : outcome A) : bool := match x with Done (Ok _) => true | _ => false end.

(** ** The survey *)
(** The cluster the ten rounds have made, with agents for its nodes. *)
Definition lab_connected : site := fst (NewInfrastructure lab_cluster (lab_rounds 10)).
Lemma survey_exact_witness :
  connected "10.0.0.11" lab_connected = true
  /\ succeeded (snd (GetClusterStatus [] lab_cluster lab_connected)) = true
  /\ kept_site lab_connected (fst (GetClusterStatus [] lab_cluster lab_connected))
  /\ (forall w, snd (GetClusterStatus [] lab_cluster lab_connected) <> Panicked w)
  /\ forall cs, snd (GetClusterStatus [] lab_cluster lab_connected) = Done (Ok cs) ->
       forall n, n ∈ c_Nodes lab_cluster -> exists ns, cs_NodeStatuses cs !! node_Address n = Some ns
         /\ node_status lab_cluster (connected (node_Address n) lab_connected)
              (st_world lab_connected (node_Address n)) ns.
Proof.
  split; [vm_compute; reflexivity|]. split; [vm_compute; reflexivity|].
  apply (survey_exact [] lab_cluster lab_connected). vm_compute. reflexivity.
Defined.

(** ** Certificates *)
Definition node1 : Node := sample_node "10.0.0.11" true.
Definition kubelet1 : Request := KubernetesCA_IssueForKubelet node1.
Definition kubelet_crt : string := "CA=kubernetes O=system:nodes CN=system:node:10.0.0.11".
Lemma certificates_as_requested_witness :
  snd (issueCertificate kubelet1 lab_site) = Done (Ok (kubelet_crt, "key of " +:+ kubelet_crt))
  /\ signed (rq_ca kubelet1) (rq_roleOpts kubelet1) (rq_certOpts kubelet1) kubelet_crt
  /\ roles_ok lab_IPAdd (roles_at (fst (issueCertificate kubelet1 lab_site))).
Proof.
  assert (snd (issueCertificate kubelet1 lab_site) = Done (Ok (kubelet_crt, "key of " +:+ kubelet_crt))) as E
    by (vm_compute; reflexivity).
  split; [exact E|].
  eapply (certificates_as_requested lab_IPAdd kubelet1 lab_site); [by exists (Kubelet node1)| |apply (ran _ _ E)|reflexivity].
  intros r o _ Ho. vm_compute in Ho. discriminate Ho.
Defined.

(** A request for a viewer with a lifetime Vault refuses leaves the role behind; then an
    administrator gets a certificate of a viewer. *)
Definition refused : Request := KubernetesCA_IssueUserCert "guest" "viewers" "junk".
Definition after_refusal : site := fst (issueCertificate refused lab_site).
Definition admin_crt : string := "CA=kubernetes O=viewers CN=root".
Lemma user_gets_left_role_witness :
  succeeded (snd (issueCertificate refused lab_site)) = false
  /\ snd (issueCertificate (KubernetesCA_IssueUserCert "root" AdminGroup "2h") after_refusal)
     = Done (Ok (admin_crt, "key of " +:+ admin_crt))
  /\ signed CAKubernetes (rq_roleOpts refused) (rq_certOpts (KubernetesCA_IssueUserCert "root" AdminGroup "2h")) admin_crt.
Proof.
  assert (snd (issueCertificate (KubernetesCA_IssueUserCert "root" AdminGroup "2h") after_refusal)
          = Done (Ok (admin_crt, "key of " +:+ admin_crt))) as E by (vm_compute; reflexivity).
  split; [vm_compute; reflexivity|]. split; [exact E|].
  eapply (user_gets_left_role lab_IPAdd "root" AdminGroup "2h" _ after_refusal); [vm_compute; reflexivity|apply (ran _ _ E)].
Defined.

(** ** Files *)
(** The kubelets of two nodes of the control plane get their files. *)
Definition kubelet_nodes : list Node := [node1; sample_node "10.0.0.12" true].
Definition kubelet_files : Commander :=
  prepareKubeletFilesCommand "lab" (opt_Kubelet sample_options)
    (list_to_map ((fun n => (node_Address n, zero_NodeStatus)) <$> kubelet_nodes)) kubelet_nodes.
Definition kubelet_plan : list entry :=
  match plan_of lab_IPAdd kubelet_files with Some (_, plan) => plan | None => [] end.
Definition connected_site : site := fst (NewInfrastructure lab_cluster lab_site).
Definition prepared : site * outcome (list fileData) := Prepare lab_IPAdd kubelet_files [] connected_site.
Definition prepared_files : list fileData := match snd prepared with Done (Ok files) => files | _ => [] end.
Definition written : site := fst (FilesBuilder_Run kubelet_nodes prepared_files (fst prepared)).
Lemma service_files_written_witness :
  host_files (st_world written "10.0.0.11") !! K8sPKIPath "kubelet.crt" = Some kubelet_crt
  /\ (forall n e, n ∈ kubelet_nodes -> e ∈ kubelet_plan ->
       entry_ok (kvs (s_etcd (st_sys connected_site)))
         (fun name data => host_files (st_world written (node_Address n)) !! name = Some data) n e)
  /\ forall a, untouched (kubelet_plan ≫= names_of) (host_files (st_world (fst prepared) a)) (host_files (st_world written a)).
Proof.
  split; [vm_compute; reflexivity|].
  apply (service_files_written lab_IPAdd kubelet_files kubelet_nodes kubelet_plan connected_site (fst prepared)
           prepared_files written); [reflexivity|by vm_compute|by apply (bool_decide_unpack _)|apply (ran prepared)
           |apply (ran (FilesBuilder_Run kubelet_nodes prepared_files (fst prepared)))]; vm_compute; reflexivity.
Defined.

(** ** The control loop *)
(** A record of an operation that ran when its leader stopped. *)
Definition orphan : OpRecord :=
  mkOpRecord 1 StatusRunning "etcd-boot" (mkCommand "make-dirs" "") ["10.0.0.11"] "" "" 0 zero_time.
Definition with_store (d : etcd) : site := mkSite (mkSys d (s_platform (st_sys lab_site)) [] ∅) (fun _ => bare_node).
Definition orphan_site : site := with_store (<[ recordKey orphan := (RecordJSON orphan, 1%positive) ]> lab_store).
Definition keyed_record (x : string * KV) : bool :=
  match kv_Value (snd x) with RecordJSON r => (recordKey r =? fst x)%string | _ => true end.
Lemma keyed_records (m : gmap string KV) : forallb keyed_record (map_to_list m) = true -> records_keyed m.
Proof.
  rewrite List.forallb_forall. intros Hall key kv r _ Hk Hv.
  specialize (Hall (key, kv)). rewrite <- list_elem_of_In, elem_of_map_to_list in Hall.
  specialize (Hall Hk). unfold keyed_record in Hall. cbn in Hall. rewrite Hv in Hall. by apply String.eqb_eq.
Qed.
Definition adopted : site := fst (checkLastOp "leader/1" orphan_site).
Lemma orphan_closed_witness :
  (exists r, kv_Value <$> stored_at adopted !! recordKey orphan = Some (RecordJSON r) /\ r_Status r = StatusCancelled)
  /\ st_world adopted = st_world orphan_site
  /\ (forall key kv, newest_record (stored_at adopted) key kv ->
       (exists r, kv_Value kv = RecordJSON r /\ finished r)
       /\ forall key', key' <> key -> stored_at adopted !! key' = stored_at orphan_site !! key').
Proof.
  split; [eexists; split; vm_compute; reflexivity|].
  apply (orphan_closed "leader/1" orphan_site adopted tt);
    [apply keyed_records; vm_compute; reflexivity|apply ran; vm_compute; reflexivity].
Defined.

(** A node that does not answer: the round boots the proxies of the nodes that do, and leaves it alone. *)
Definition deaf_agents : Agents := {| SSHAgent n _ p := (p, negb (node_Address n =? "10.0.0.12")%string) |}.
Section deaf.
#[local] Existing Instance deaf_agents.
Definition answers {A} (x : outcome (A * ClusterStatus)) (a : string) : bool :=
  match x with
  | Done (Ok (_, cs)) => match cs_NodeStatuses cs !! a with Some st => ns_SSHConnected st | None => false end
  | _ => false
  end.
Definition deaf_round : site := fst (runOnce lab_IPAdd 3 [] 2 None "leader/1" lab_site).
Definition deaf_survey : site * outcome (Z * Cluster * ClusterStatus) :=
  surveyed_round [] "leader/1" lab_site.
Lemma deaf_unreachable s2 ts c cs n :
  deaf_survey = (s2, Done (Ok (ts, c, cs))) -> reachable c cs n -> node_Address n <> "10.0.0.12".
Proof.
  intros Hs (_ & st & Hst & Hssh) Ha.
  assert (answers (snd deaf_survey) "10.0.0.12" = false) as Hno by (vm_compute; reflexivity).
  rewrite Hs in Hno. cbn in Hno. by rewrite <- Ha, Hst, Hssh in Hno.
Qed.
Lemma round_confined_witness :
  answers (snd deaf_survey) "10.0.0.11" = true
  /\ containers_at deaf_round "10.0.0.11" = ["etcd-rivers"; "rivers"]
  /\ same_state (st_world lab_site "10.0.0.12") (st_world deaf_round "10.0.0.12").
Proof.
  split; [vm_compute; reflexivity|]. split; [vm_compute; reflexivity|].
  apply (round_confined lab_IPAdd 3 [] 2 None "leader/1" lab_site "10.0.0.12");
    [exact I|exact deaf_unreachable].
Defined.
End deaf.


(** The first round surveys the bare machines and decides to boot the node proxies; the
    second operator pulls an image after the first has booted. *)
Definition surveyed : site * outcome ClusterStatus := GetClusterStatus [] lab_cluster connected_site.
Definition decision (x : outcome ClusterStatus) : option (ClusterStatus * list Operator * OperationPhase) :=
  match x with
  | Done (Ok cs) => match DecideOps [] 0 lab_cluster cs DefaultConstraints [] 2 with
                    | Ret (ops, phase) => Some (cs, ops, phase) | _ => None end
  | _ => None
  end.
Lemma decision_Some x cs ops phase :
  decision x = Some (cs, ops, phase) ->
  x = Done (Ok cs) /\ DecideOps [] 0 lab_cluster cs DefaultConstraints [] 2 = Ret (ops, phase).
Proof.
  destruct x as [[cs'|]| |]; try done. cbn [decision]. destruct (DecideOps _ _ _ cs' _ _ _) as [[ops' phase']|] eqn:E; [|done].
  intros [= -> -> ->]. done.
Qed.
Definition booted (o : Operator) : site * outcome unit := runOp lab_IPAdd 3 "leader/1" o (fst surveyed).
Definition second_command (d : option (ClusterStatus * list Operator * OperationPhase)) : option (Operator * Commander) :=
  match d with
  | Some (_, o1 :: o2 :: _, _) => match commands o2 with cmd :: _ => Some (o1, cmd) | [] => None end
  | _ => None
  end.
Lemma second_command_Some d o1 cmd :
  second_command d = Some (o1, cmd) ->
  exists cs o2 ops phase after, d = Some (cs, o1 :: o2 :: ops, phase) /\ commands o2 = [] ++ cmd :: after.
Proof.
  destruct d as [[[cs [|o [|o2 ops]]] phase]|]; try done. cbn [second_command].
  destruct (commands o2) as [|cmd' after] eqn:E; [done|]. intros [= -> ->]. naive_solver.
Qed.
Lemma commands_have_agents_witness :
  (forall o1 cmd, second_command (decision (snd surveyed)) = Some (o1, cmd) ->
     forall n, n ∈ command_nodes cmd -> connected (node_Address n) (fst (booted o1)) = true)
  /\ match second_command (decision (snd surveyed)) with
     | Some (_, cmd) => node_Address <$> command_nodes cmd = ["10.0.0.11"; "10.0.0.12"]
     | None => False
     end.
Proof.
  split; [|vm_compute; reflexivity]. intros o1 cmd Hc n Hn.
  assert (match second_command (decision (snd surveyed)) with
          | Some (o1, _) => snd (booted o1) = Done (Ok tt) | _ => True end) as Hb by (vm_compute; reflexivity).
  rewrite Hc in Hb.
  destruct (second_command_Some _ _ _ Hc) as (cs & o2 & ops & phase & after & Hd & Hcmd).
  destruct (decision_Some _ _ _ _ Hd) as [Hs Hdec].
  apply (commands_have_agents lab_IPAdd 3 "leader/1" [] lab_cluster 2 0 DefaultConstraints [] (o1 :: o2 :: ops) phase
           connected_site (fst surveyed) (fst surveyed) (fst (booted o1)) cs cmd n);
    [vm_compute; reflexivity|exact (ran surveyed _ Hs)|exact Hdec|exact eq_refl| |exact Hn].
  apply (started_later _ _ _ _ _ _ (fst (booted o1))); [exact (ran (booted o1) _ Hb)|].
  exact (started_now _ _ _ _ _ _ _ _ _ _ _ Hcmd (executed_nil _ _ _ _ _)).
Defined.

(** Users set the constraints and the configuration in an empty storage, and the server runs a
    round; sabakan does not answer. *)
Definition no_sabakan {P} (p : P) : P * (string -> option QueryVariables -> result (list Machine)) :=
  (p, fun _ _ => Err (ErrUnexpected "no such host")).
Definition user_runs (c : ckecli) (s : site) : site :=
  with_etcd (fst (run_ckecli 3 c (s_etcd (st_sys s)))) s.
Definition configured : site :=
  user_runs (ClusterSet lab_cluster) (user_runs (ConstraintsSet "control-plane-count" "3") (with_store ∅)).
Definition ran_round : site :=
  fst (runOnce lab_IPAdd 3 [] 2 (Some (NewIntegrator 3 no_sabakan)) "leader/1" configured).
Definition holds_cluster (s : site) : bool :=
  match stored_cluster (stored_at s) with Some c => (c_Name c =? c_Name lab_cluster)%string | None => false end.
Lemma store_stays_typed_witness :
  holds_cluster ran_round = true /\ typed (stored_at ran_round) /\ readable (s_etcd (st_sys ran_round)).
Proof.
  split; [vm_compute; reflexivity|].
  apply (store_stays_typed lab_IPAdd 3 [] 2 no_sabakan (with_store ∅)); [by intros key kv|].
  eapply rtc_l; [apply happens_ckecli with (c := ConstraintsSet "control-plane-count" "3")|].
  eapply rtc_l; [apply happens_ckecli with (c := ClusterSet lab_cluster)|].
  eapply rtc_l; [apply happens_round with (leaderKey := "leader/1")|]. apply rtc_refl.
Defined.
