(* ===== verification/StrategyProps.v ===== *)
(** * Properties of the strategy

    What an administrator relies on: [DecideOps] always decides, it works on
    reachable nodes only, it touches etcd, the API servers and the queues only
    when the rest of the control plane is in order, and it respects the limits
    of the configuration.  The witnesses run on the cluster of [Samples]. *)

From Stdlib Require Import ZArith Ascii String Lia.
From stdpp Require Import base gmap strings list.
From S2P Require Import Prelude GoLib K8s Cluster Queue Resource Status Dns Params NodeFilter.
From S2P Require Import Operators Strategy Samples StrategyTotal StrategySafety.

(** ** The decision as a whole *)
Section decision.
  Context {T : K8sTypes} {K : K8s} `{Runtime}.
  Context (static : list ResourceDefinition) (now : Z) (c : Cluster) (cs : ClusterStatus).
  Context (constraints : Constraints) (resources : list ResourceDefinition) (max : Z).
  Local Abbreviation nf := (NewNodeFilter c cs).
  Local Abbreviation cp := (ControlPlaneNodes (NewNodeFilter c cs)).

(** C1: for a configuration that passes validation, a status with an entry for
    every node of it and a limit that is not negative, [DecideOps] returns
    operators and a phase: no nil pointer is dereferenced, no slice is cut out
    of bounds, no configuration generator panics and the loop over the repair
    steps stops. *)
Theorem decide_ops_never_panics :
  Validate c false = None -> complete_status c cs -> 0 <= max ->
  exists ops phase, DecideOps static now c cs constraints resources max = Ret (ops, phase).
Proof.
  intros Hv%Validate_ok Hs Hmax. pose proof (NewNodeFilter_wf _ _ Hv Hs) as Hwf.
  destruct (DecideOps_filter_returns c cs nf Hwf (NewNodeFilter_cluster c cs)
              (NewNodeFilter_status c cs) max Hmax static now constraints resources
              eq_refl (st_steps _ _ Hs)) as [[ops phase] Hd].
  eauto.
Qed.

(** C2: every command of every operator decided on works, through agents, only
    on nodes of the configuration that answered over SSH in the survey. *)
Theorem commands_on_reachable_nodes ops phase o cmd n :
  DecideOps static now c cs constraints resources max = Ret (ops, phase) ->
  o ∈ ops -> cmd ∈ commands o -> n ∈ command_nodes cmd ->
  n ∈ c_Nodes c
  /\ exists st, cs_NodeStatuses cs !! node_Address n = Some st /\ ns_SSHConnected st = true.
Proof.
  intros Hd%DecideOps_decided%decided_safe Ho Hcmd Hn. apply (Hd o Ho n).
  by eapply commands_from_nodes.
Qed.

(** C35: the steps that an unreachable control plane node could corrupt (the
    upgrade of the stored data, the creation of the etcd cluster and every
    change of its membership) are only taken when all control plane nodes
    are reachable. *)
Theorem control_plane_reachable ops phase n :
  DecideOps static now c cs constraints resources max = Ret (ops, phase) ->
  phase = PhaseUpgrade \/ phase = PhaseEtcdBoot \/ phase = PhaseEtcdMaintain ->
  n ∈ c_Nodes c -> node_ControlPlane n = true -> reachable c cs n.
Proof.
  intros Hd%DecideOps_decided Hphase Hn Hcp.
  assert (n ∈ cp) as Hin.
  { rewrite NewNodeFilter_cp. unfold ControlPlanes, filterNodes. by apply elem_of_filterb. }
  destruct Hd; try naive_solver; by apply reachable_cp.
Qed.

(** Each phase issues only its own operators: the table [allowed] lists
    them, and the aborted, waiting-for-nothing and completed phases have none. *)
Theorem operators_of_phase ops phase :
  DecideOps static now c cs constraints resources max = Ret (ops, phase) ->
  Forall (fun o => allowed phase o = true) ops.
Proof. intros Hd%DecideOps_decided%decided_phase. by apply Forall_forall. Qed.

(** The phases come in order.  Once Kubernetes is started or maintained, or
    nodes are cleaned, uncordoned, repaired or rebooted, the stored data has
    the current version, no node proxy needs work, etcd is bootstrapped and
    healthy; and in the phases after the start of Kubernetes the start has
    nothing left to do. *)
Theorem phases_in_order ops phase :
  DecideOps static now c cs constraints resources max = Ret (ops, phase) ->
  phase ∈ [PhaseK8sStart; PhaseEtcdMaintain; PhaseK8sMaintain; PhaseStopCP; PhaseUncordonNodes;
           PhaseRepairMachines; PhaseRebootNodes; PhaseCompleted] ->
  cs_ConfigVersion cs = ConfigVersion /\ riversOps c nf max = Ret []
  /\ EtcdBootstrapped nf = Ret true /\ es_IsHealthy (cs_Etcd cs) = true
  /\ (phase <> PhaseK8sStart -> k8sOps c nf cs max = Ret []).
Proof.
  intros Hd%DecideOps_decided Hphase.
  assert (past_etcd c cs max /\ (phase <> PhaseK8sStart -> k8sOps c nf cs max = Ret []))
    as [((Hver & Hr) & Hb & _ & Hh) Hk]; [|by split_and!].
  rewrite !elem_of_cons, elem_of_nil in Hphase.
  destruct Hd; try (exfalso; clear -Hphase; naive_solver discriminate);
    unfold past_maint, past_k8s in *; split; intros; tauto || congruence.
Qed.

(** C3: an API server that serves is never stopped at the expense of
    availability.  Whenever a restart of API servers is decided on, either
    every one of the restarted servers was stopped or unhealthy, or a single
    server is restarted and all control plane nodes are reachable with a
    healthy API server. *)
Theorem api_server_restarts ops phase nodes subnet params domain :
  DecideOps static now c cs constraints resources max = Ret (ops, phase) ->
  APIServerRestartOp nodes subnet params domain ∈ ops ->
  (forall n, n ∈ nodes -> api_down cs n)
  \/ exists n, nodes = [n] /\ n ∈ ControlPlanes (c_Nodes c)
        /\ forall m, m ∈ ControlPlanes (c_Nodes c) -> reachable c cs m /\ api_healthy cs m.
Proof.
  intros Hd%DecideOps_decided Ho. rewrite <- (NewNodeFilter_cp c cs).
  pose proof (decided_restart _ _ _ _ _ _ _ _ _ _ Hd Ho eq_refl) as Hk.
  assert (exists aops skip, api_decision c cs aops skip
            /\ APIServerRestartOp nodes subnet params domain ∈ aops) as (aops & skip & Ha & Hin).
  { apply k8sOps_decision in Hk as [Ha|(aops & rest & Ha & -> & Hrest)]; [by eauto|].
    apply elem_of_app in Ho as [Ho|Ho]; [by eauto|]. by destruct (Hrest _ Ho). }
  by apply (api_decision_restart c cs aops skip nodes subnet params domain).
Qed.

(** The controller managers, schedulers, kubelets and proxies, which all
    depend on the API servers, are started, restarted or stopped at the start
    of Kubernetes only when every control plane node is reachable, its API
    server is healthy and none of the API servers is outdated. *)
Theorem components_after_api_servers ops o :
  DecideOps static now c cs constraints resources max = Ret (ops, PhaseK8sStart) ->
  o ∈ ops -> component_op o = true ->
  (forall m, m ∈ ControlPlanes (c_Nodes c) -> reachable c cs m /\ api_healthy cs m)
  /\ APIServerOutdated nf cp = Ret [].
Proof.
  intros Hd%DecideOps_decided Ho Hc. rewrite <- (NewNodeFilter_cp c cs).
  inversion Hd as [| | | | | | |ops' Hpe Hk Hne| | | | | | | | |]; subst.
  assert (forall aops skip, api_decision c cs aops skip -> o ∈ aops -> False) as Hapi.
  { intros aops skip Ha Hin. apply (api_decision_ops _ _ _ _ _ Ha) in Hin
      as [(marked & mops & Hm & Hin)|Hr]; [|by destruct o].
    destruct (masterEndpointOps_api _ _ _ _ _ Hm Hin) as [(? & ? & ?) _]. by destruct o. }
  apply k8sOps_decision in Hk as [Ha|(aops & rest & Ha & -> & Hrest)]; [by destruct (Hapi _ _ Ha Ho)|].
  by inversion Ha; subst.
Qed.

(** No operator of the phases that touch every node (the node proxies, the
    kubelets and the kube-proxies) works on more than [max-concurrent-updates]
    nodes at once. *)
Theorem concurrent_updates_bounded ops phase o :
  DecideOps static now c cs constraints resources max = Ret (ops, phase) -> 0 <= max ->
  phase = PhaseRivers \/ phase = PhaseK8sStart ->
  o ∈ ops -> limited_op o = true -> len (op_nodes o) <= max.
Proof.
  intros Hd%DecideOps_decided Hmax Hphase Ho Hl. rewrite <- (Z.max_r 0 max) by done.
  destruct Hphase as [->| ->].
  - inversion Hd; subst. by eapply riversOps_limited.
  - inversion Hd as [| | | | | | |ops' Hpe Hk Hne| | | | | | | | |]; subst.
    apply k8sOps_decision in Hk as [Ha|(aops & rest & Ha & -> & Hrest)];
      [|apply elem_of_app in Ho as [Ho|Ho]; [|by apply (Hrest o Ho)]];
    (apply (api_decision_ops _ _ _ _ _ Ha) in Ho as [(marked & mops & Hm & Hin)|Hr];
      [|by destruct o]);
    destruct (masterEndpointOps_api _ _ _ _ _ Hm Hin) as [(? & ? & ?) _]; by destruct o.
Qed.

(** ** etcd *)

(** What may be done to the etcd cluster: the members that are not in sync
    come first; a member in sync is removed, or a member added or restarted,
    only while every member is in sync. *)
Definition etcd_change (o : Operator) : Prop :=
  let es := cs_Etcd cs in
  let in_sync a := lookup_bool (es_InSyncMembers es) a = true in
  match o with
  | EtcdRemoveMemberOp _ members => forall m, m ∈ members -> exists a,
      es_Members es !! a = Some m /\ ~ (a ∈ node_Address <$> c_Nodes c)
      /\ (in_sync a -> EtcdIsGood nf = true)
  | EtcdDestroyMemberOp _ _ ids => forall id, id ∈ ids -> exists a m n,
      es_Members es !! a = Some m /\ mem_ID m = id
      /\ n ∈ c_Nodes c /\ node_Address n = a /\ node_ControlPlane n = false
      /\ (in_sync a -> EtcdIsGood nf = true)
  | EtcdAddMemberOp _ n _ => n ∈ ControlPlanes (c_Nodes c)
      /\ ((exists m, es_Members es !! node_Address n = Some m /\ mem_Name m = EmptyString)
          \/ (es_Members es !! node_Address n = None /\ EtcdIsGood nf = true))
  | EtcdMarkMemberOp nodes => forall n, n ∈ nodes ->
      n ∈ ControlPlanes (c_Nodes c) /\ in_sync (node_Address n)
  | EtcdRestartOp _ n _ => n ∈ ControlPlanes (c_Nodes c) /\ EtcdIsGood nf = true
  | _ => False
  end.

Lemma EtcdNonClusterMembers_change b m :
  m ∈ EtcdNonClusterMembers nf b -> exists a,
    es_Members (cs_Etcd cs) !! a = Some m /\ ~ (a ∈ node_Address <$> c_Nodes c)
    /\ lookup_bool (es_InSyncMembers (cs_Etcd cs)) a = b.
Proof.
  unfold EtcdNonClusterMembers. rewrite NewNodeFilter_status.
  intros ([a m'] & -> & [Hin [Hout Hb]%andb_true_iff]%elem_of_filterb)%list_elem_of_fmap.
  exists a. split; [by apply elem_of_range|]. split; [|by apply eqb_prop].
  intros Ha%(InCluster_spec c cs). by rewrite Ha in Hout.
Qed.

Lemma EtcdNonCPMembers_change b nodes ids id :
  EtcdNonCPMembers nf b = (nodes, ids) -> id ∈ ids -> exists a m n,
    es_Members (cs_Etcd cs) !! a = Some m /\ mem_ID m = id
    /\ n ∈ c_Nodes c /\ node_Address n = a /\ node_ControlPlane n = false
    /\ lookup_bool (es_InSyncMembers (cs_Etcd cs)) a = b.
Proof.
  unfold EtcdNonCPMembers. rewrite NewNodeFilter_status. intros [= _ <-].
  intros ([n id'] & -> & ([a m] & Hin & Hm)%list_elem_of_omap)%list_elem_of_fmap.
  apply elem_of_range in Hin. destruct (nf_nodeMap nf !! a) as [x|] eqn:Hx; [|done].
  apply NewNodeFilter_nodeMap in Hx as [Hx Ha]. destruct (node_ControlPlane x) eqn:Hcp; [done|].
  destruct (Bool.eqb _ b) eqn:Hb; [|done]. injection Hm as <- <-.
  exists a, m, x. split_and!; try done. by apply eqb_prop.
Qed.

Lemma EtcdUnstartedMembers_change n :
  n ∈ EtcdUnstartedMembers nf ->
  exists m, es_Members (cs_Etcd cs) !! node_Address n = Some m /\ mem_Name m = EmptyString.
Proof.
  unfold EtcdUnstartedMembers. rewrite NewNodeFilter_status.
  intros ([a m] & Hin & Hm)%list_elem_of_omap. apply elem_of_range in Hin.
  destruct (nf_nodeMap nf !! a) as [x|] eqn:Hx; [|done].
  apply NewNodeFilter_nodeMap in Hx as [_ <-]. destruct (node_ControlPlane x); [|done].
  destruct (mem_Name m) eqn:Hname; simpl in Hm; [|done]. injection Hm as <-. eauto.
Qed.

Lemma unmarked_members_change l r n :
  unmarked_members nf l = Ret r -> n ∈ r -> (node_Address n, true) ∈ l.
Proof.
  revert r. induction l as [|[a b] l IH]; intros r Hd Hn; cbn [unmarked_members] in Hd.
  { injection Hd as <-. by apply elem_of_nil in Hn. }
  destruct b; cbn [negb] in Hd; [|right; by eapply IH].
  destruct (nf_nodeMap nf !! a) as [x|] eqn:Hx; [|right; by eapply IH].
  destruct (node_ControlPlane x); cbn [negb] in Hd; [|right; by eapply IH].
  apply bind_Ret_inv in Hd as (st & _ & Hd).
  destruct (etcd_IsAddedMember _); [right; by eapply IH|]. go_inv Hd.
  apply elem_of_cons in Hn as [->|Hn]; [|right; by eapply IH].
  apply NewNodeFilter_nodeMap in Hx as [_ <-]. left.
Qed.

Lemma EtcdUnmarkedMembers_change r n :
  EtcdUnmarkedMembers nf = Ret r -> n ∈ r ->
  lookup_bool (es_InSyncMembers (cs_Etcd cs)) (node_Address n) = true.
Proof.
  unfold EtcdUnmarkedMembers. intros Hr Hn. pose proof (unmarked_members_change _ _ _ Hr Hn) as Hin.
  rewrite NewNodeFilter_status in Hin. apply elem_of_range in Hin.
  unfold lookup_bool. by rewrite Hin.
Qed.

Lemma EtcdNewMembers_change n :
  n ∈ EtcdNewMembers nf -> es_Members (cs_Etcd cs) !! node_Address n = None.
Proof.
  unfold EtcdNewMembers. rewrite NewNodeFilter_status. intros [_ Hn]%elem_of_filterb.
  by destruct (es_Members _ !! _).
Qed.

Lemma etcdMaintOp_change o : etcdMaintOp c nf = Ret (Some o) -> etcd_change o.
Proof.
  unfold etcdMaintOp. intros Hd.
  go_inv_cases Hd; try done; simpl; rewrite <- ?(NewNodeFilter_cp c cs);
    rewrite ?negb_false_iff in *;
    repeat match goal with
    | He : EtcdNonClusterMembers nf _ = _ :: _ |- _ => rewrite <- He; clear He
    | He : EtcdNewMembers nf = ?x :: _ |- _ =>
        assert (x ∈ EtcdNewMembers nf) by (rewrite He; left); clear He
    | He : EtcdUnstartedMembers nf = ?x :: _ |- _ =>
        assert (x ∈ EtcdUnstartedMembers nf) by (rewrite He; left); clear He
    end.
  - split; [|done]. apply (go_filter_sub _ _ _ _ Hv0). left.
  - intros id Hid. edestruct EtcdNonCPMembers_change as (a & mem & x & ? & ? & ? & ? & ? & Hs); [done|done|].
    exists a, mem, x. rewrite Hs. by split_and!.
  - intros mem (a & ? & ? & Hs)%EtcdNonClusterMembers_change. exists a. rewrite Hs. by split_and!.
  - split; [by apply EtcdNewMembers_cp|right]. split; [by apply EtcdNewMembers_change|done].
  - intros x Hx. split; [by eapply unmarked_members_cp|by eapply EtcdUnmarkedMembers_change].
  - split; [by apply EtcdUnstartedMembers_cp|left]. by apply EtcdUnstartedMembers_change.
  - intros id Hid. edestruct EtcdNonCPMembers_change as (a & mem & x & ? & ? & ? & ? & ? & Hs); [done|done|].
    exists a, mem, x. rewrite Hs. by split_and!.
  - intros mem (a & ? & ? & Hs)%EtcdNonClusterMembers_change. exists a. rewrite Hs. by split_and!.
Qed.

(** C4: in the maintenance of etcd one operator is decided on, and it is safe
    for the quorum: members outside the configuration or on worker nodes are
    removed, members that are not in sync first; a member that is in sync is
    removed, and a control plane node added or restarted, only when etcd is
    healthy with all of its members in sync (a member that was added but has
    not started yet is added again). *)
Theorem etcd_maintenance_safe ops :
  DecideOps static now c cs constraints resources max = Ret (ops, PhaseEtcdMaintain) ->
  exists o, ops = [o] /\ etcd_change o.
Proof.
  intros Hd%DecideOps_decided. inversion Hd; subst. eauto using etcdMaintOp_change.
Qed.

(** ** Targets of operators *)

Lemma first_healthy_None l n :
  first_healthy nf l = Ret None -> n ∈ l -> ~ api_healthy cs n.
Proof.
  induction l as [|x l IH]; intros Hd Hn; [by apply elem_of_nil in Hn|].
  simpl in Hd. apply bind_Ret_inv in Hd as (st & Hst & Hd).
  destruct (nodeStatus nf x) as [st'|] eqn:Hx; [|done]. injection Hst as ->.
  rewrite nodeStatus_nf in Hx.
  destruct (kcs_IsHealthy (ns_APIServer st)) eqn:Hh; [done|].
  apply elem_of_cons in Hn as [->|Hn]; [|by apply IH]. intros (st' & Hst' & Hh'). congruence.
Qed.

Lemma EtcdBootstrapped_cp : EtcdBootstrapped nf = Ret true -> exists n, n ∈ cp.
Proof. unfold EtcdBootstrapped. destruct cp as [|n l]; [done|]. exists n. left. Qed.

Lemma healthy_api_some api :
  (exists n, n ∈ cp) -> (forall n, n ∈ cp -> reachable c cs n /\ api_healthy cs n) ->
  HealthyAPIServer nf = Ret api -> is_Some api.
Proof.
  intros [n Hn] Hall Hapi. destruct api as [a|]; [done|]. exfalso.
  apply (first_healthy_None _ n Hapi Hn). by apply Hall.
Qed.

(** The endpoints of the API servers are only written through a healthy one. *)
Lemma api_decision_api aops skip o api :
  EtcdBootstrapped nf = Ret true -> api_decision c cs aops skip -> o ∈ aops ->
  apiserver_of o = Some api -> is_Some api.
Proof.
  intros Hboot%EtcdBootstrapped_cp Hd Ho Hapi.
  assert (forall marked ops, masterEndpointOps cs nf marked = Ret ops -> o ∈ ops ->
            HealthyAPIServer nf = Ret api) as Hm.
  { intros marked ops Hm Hin. destruct (masterEndpointOps_api _ _ _ _ _ Hm Hin) as [(a & ? & ?) _].
    congruence. }
  assert (forall ops, master_ops_if_healthy cs nf = Ret ops -> o ∈ ops -> is_Some api) as Hif.
  { unfold master_ops_if_healthy. intros ops Hops Hin. go_inv_cases Hops;
      [|by apply elem_of_nil in Hin]. specialize (Hm _ _ Hops Hin).
    rewrite Hv in Hm. injection Hm as <-. by eexists. }
  destruct Hd as [? ? ? _ Hops Hr|? Hops|? ? ? _ Hall Hops Hr|? Hall _ Hops];
    try apply elem_of_app in Ho as [Ho|Ho%list_elem_of_singleton]; eauto;
    try (eapply healthy_api_some; by eauto);
    apply apiserver_restart_inv in Hr as (? & ->); by subst.
Qed.

Lemma Targets_returns url_host o :
  (forall api, apiserver_of o = Some api -> is_Some api) -> returns (Targets url_host o).
Proof.
  intros Hapi. unfold Targets. destruct (apiserver_of o) as [api|]; [|by eexists].
  destruct (Hapi api eq_refl) as [n ->]. by eexists.
Qed.

(** The targets of an operator, which are recorded before it runs, can be
    computed without dereferencing a nil API server, in every phase, provided
    that in the maintenance of Kubernetes there is a healthy API server. *)
Theorem targets_never_panic url_host ops phase o :
  DecideOps static now c cs constraints resources max = Ret (ops, phase) -> o ∈ ops ->
  (phase = PhaseK8sMaintain -> exists n, HealthyAPIServer nf = Ret (Some n)) ->
  exists ts, Targets url_host o = Ret ts.
Proof.
  intros Hd%DecideOps_decided Ho Hhealthy. apply Targets_returns. intros api Hapi.
  pose proof (decided_phase _ _ _ _ _ _ _ _ _ Hd _ Ho) as Ha.
  destruct phase; try (by destruct o).
  - inversion Hd as [| | | | | | |ops' ((_ & _) & Hb & _) Hk Hne| | | | | | | | |]; subst.
    apply k8sOps_decision in Hk as [Hk|(aops & rest & Hk & -> & Hrest)];
      [by eapply api_decision_api|].
    apply elem_of_app in Ho as [Ho|Ho]; [by eapply api_decision_api|].
    destruct (Hrest _ Ho) as [Hc _]. by destruct o.
  - destruct (Hhealthy eq_refl) as [n Hn].
    inversion Hd as [| | | | | | | | |ops' Hpk Hk Hne| | | | | | |]; subst.
    destruct (k8sMaintOps_ops _ _ _ _ _ _ Hn Hk o Ho) as [[Heq|Heq] _];
      rewrite Heq in Hapi; [injection Hapi as <-; by eexists|done].
Qed.

(** ** Resources *)

(** The Node objects that are ready. *)
Definition ready_nodes : Z := len (List.filter node_is_ready (ks_Nodes (cs_Kubernetes cs))).

Lemma IsReady_majority :
  IsReady (cs_Kubernetes cs) c = true <->
  ks_IsControlPlaneReady (cs_Kubernetes cs) = true /\ len (c_Nodes c) < 2 * ready_nodes
  /\ c_Nodes c <> [].
Proof.
  unfold IsReady, ready_nodes. cbv zeta. rewrite foldl_count, Z.add_0_l.
  destruct (ks_IsControlPlaneReady _); simpl; [|intuition congruence].
  destruct (c_Nodes c) as [|n l]; [split; [done|by intros (_ & _ & ?)]|].
  set (r := len (List.filter _ _)). unfold len. cbn [length].
  rewrite (proj2 (Z.eqb_neq _ 0)) by lia. rewrite Z.ltb_lt.
  pose proof (Z.div_mod (Z.of_nat (S (length l))) 2).
  pose proof (Z.mod_pos_bound (Z.of_nat (S (length l))) 2).
  split; [intros; split_and!; [done|lia|done]|intros (_ & ? & _); lia].
Qed.

Lemma resource_op_exact api mappings ks isReady res o :
  o ∈ resource_op api mappings ks isReady res <->
  NeedUpdate res (ks_ResourceStatuses ks !! rd_Key res) = true
  /\ (rd_Kind res = KindDeployment -> isReady = true)
  /\ exists force, o = ResourceApplyOp api res force mappings
      /\ force = negb (match ks_ResourceStatuses ks !! rd_Key res with
                       | Some st => rs_HasBeenSSA st | None => false end).
Proof.
  unfold resource_op. cbv zeta.
  destruct (String.eqb_spec (rd_Kind res) KindDeployment) as [Hk|Hk]; simpl.
  - destruct isReady; simpl; [|rewrite elem_of_nil; naive_solver].
    destruct (NeedUpdate _ _); rewrite ?list_elem_of_singleton, ?elem_of_nil; naive_solver.
  - destruct (NeedUpdate _ _); rewrite ?list_elem_of_singleton, ?elem_of_nil; naive_solver.
Qed.

(** A resource is applied exactly when it is one of the built-in or
    user-defined resources and needs an update, except that Deployments wait
    until the control plane is ready and more than half of the nodes of the
    configuration are; conflicts are forced until the resource has been
    applied server-side. *)
Theorem resources_applied_exact api o :
  let ks := cs_Kubernetes cs in
  o ∈ decideResourceOps static api (c_TrustedRESTMappings c) ks resources (IsReady ks c) <->
  exists res, res ∈ static ++ resources
    /\ NeedUpdate res (ks_ResourceStatuses ks !! rd_Key res) = true
    /\ (rd_Kind res = KindDeployment ->
         ks_IsControlPlaneReady ks = true /\ len (c_Nodes c) < 2 * ready_nodes /\ c_Nodes c <> [])
    /\ o = ResourceApplyOp api res
             (negb (match ks_ResourceStatuses ks !! rd_Key res with
                    | Some st => rs_HasBeenSSA st | None => false end))
             (c_TrustedRESTMappings c).
Proof.
  cbv zeta. unfold decideResourceOps. rewrite elem_of_app, !list_elem_of_bind.
  setoid_rewrite resource_op_exact. setoid_rewrite IsReady_majority.
  setoid_rewrite elem_of_app. naive_solver.
Qed.
End decision.

(** ** Witnesses *)
#[local] Existing Instance sample_types.
#[local] Existing Instance sample_k8s.
#[local] Existing Instance std_runtime.

Local Ltac each_node Hn tac :=
  repeat (apply elem_of_cons in Hn as [->|Hn]; [tac|]); by apply elem_of_nil in Hn.

Lemma sample_complete : complete_status sample_cluster1 sample_status.
Proof.
  split.
  - intros n Hn. each_node Hn ltac:(vm_compute; by eexists).
  - by intros e ?%elem_of_nil.
Qed.

Lemma decide_ops_never_panics_witness :
  Validate sample_cluster1 false = None
  /\ exists ops phase, sample_decide sample_status = Ret (ops, phase).
Proof.
  split; [vm_compute; reflexivity|]. unfold sample_decide.
  apply (decide_ops_never_panics [] sample_now sample_cluster1 sample_status DefaultConstraints [] 10);
    [vm_compute; reflexivity|apply sample_complete|lia].
Defined.

(** Two outdated API servers. *)
Definition outdated_apis : ClusterStatus :=
  sample_status_on [("10.0.0.12", old_apiserver); ("10.0.0.13", old_apiserver)].

Lemma commands_on_reachable_nodes_witness :
  sample_node "10.0.0.12" true ∈ c_Nodes sample_cluster1
  /\ exists st, cs_NodeStatuses outdated_apis !! "10.0.0.12" = Some st
                /\ ns_SSHConnected st = true.
Proof.
  eapply (commands_on_reachable_nodes [] sample_now sample_cluster1 outdated_apis
            DefaultConstraints [] 10 _ _ _ (ImagePullCommand [sample_node "10.0.0.12" true] KubernetesImage)
            (sample_node "10.0.0.12" true));
    [vm_compute; reflexivity|right; right; left|vm_compute; left|left].
Defined.

Lemma control_plane_reachable_witness :
  reachable sample_cluster1 (sample_status_on no_etcd_on_cp) (sample_node "10.0.0.13" true).
Proof.
  eapply (control_plane_reachable [] sample_now sample_cluster1 (sample_status_on no_etcd_on_cp)
            DefaultConstraints [] 10 _ PhaseEtcdBoot);
    [vm_compute; reflexivity|by right; left|by right; right; left|reflexivity].
Defined.

Lemma operators_of_phase_witness :
  exists ops, sample_decide outdated_apis = Ret (ops, PhaseK8sStart)
    /\ Forall (fun o => allowed PhaseK8sStart o = true) ops /\ length ops = 3%nat.
Proof.
  eexists. split; [vm_compute; reflexivity|]. split; [|reflexivity].
  eapply (operators_of_phase [] sample_now sample_cluster1 outdated_apis DefaultConstraints [] 10).
  vm_compute. reflexivity.
Defined.

Lemma phases_in_order_witness :
  riversOps sample_cluster1 (NewNodeFilter sample_cluster1 sample_status) 10 = Ret []
  /\ es_IsHealthy (cs_Etcd sample_status) = true.
Proof.
  edestruct (phases_in_order [] sample_now sample_cluster1 sample_status DefaultConstraints [] 10
               [] PhaseCompleted) as (_ & Hr & _ & Hh & _);
    [vm_compute; reflexivity|vm_compute; do 7 right; left|].
  split; [exact Hr|exact Hh].
Defined.

Lemma api_server_restarts_witness :
  exists n, [sample_node "10.0.0.12" true] = [n]
    /\ forall m, m ∈ ControlPlanes (c_Nodes sample_cluster1) ->
         reachable sample_cluster1 outdated_apis m /\ api_healthy outdated_apis m.
Proof.
  edestruct (api_server_restarts [] sample_now sample_cluster1 outdated_apis DefaultConstraints
               [] 10) as [Hdown|(n & Hn & _ & Hall)];
    [vm_compute; reflexivity|right; right; left| |by exists n].
  destruct (Hdown (sample_node "10.0.0.12" true) ltac:(left)) as (st & Hst & Hd).
  vm_compute in Hst. injection Hst as <-. by destruct Hd.
Defined.

(** The proxy of every node stopped, or the controller manager of one. *)
Definition without_rivers (st : NodeStatus) : NodeStatus :=
  mkNodeStatus (ns_SSHConnected st) (ns_Etcd st) zero_ServiceStatus (ns_EtcdRivers st)
    (ns_APIServer st) (ns_ControllerManager st) (ns_Scheduler st) (ns_Proxy st) (ns_Kubelet st).
Definition without_controller_manager (st : NodeStatus) : NodeStatus :=
  mkNodeStatus (ns_SSHConnected st) (ns_Etcd st) (ns_Rivers st) (ns_EtcdRivers st)
    (ns_APIServer st) (mkKubeComponentStatus zero_ServiceStatus false) (ns_Scheduler st)
    (ns_Proxy st) (ns_Kubelet st).
Definition old_etcd (st : NodeStatus) : NodeStatus :=
  let svc := etcd_Service (ns_Etcd st) in
  with_etcd (mkEtcdStatus (mkServiceStatus true "ghcr.io/cybozu/etcd:3.5.0" (ss_BuiltInParams svc)
    (ss_ExtraParams svc)) true true) st.

Lemma components_after_api_servers_witness :
  let cs := sample_status_on [("10.0.0.12", without_controller_manager)] in
  APIServerOutdated (NewNodeFilter sample_cluster1 cs)
    (ControlPlaneNodes (NewNodeFilter sample_cluster1 cs)) = Ret [].
Proof.
  cbv zeta.
  eapply (components_after_api_servers [] sample_now sample_cluster1
            (sample_status_on [("10.0.0.12", without_controller_manager)]) DefaultConstraints [] 10);
    [vm_compute; reflexivity|left|reflexivity].
Defined.

Lemma concurrent_updates_bounded_witness :
  exists o,
    DecideOps [] sample_now sample_cluster1
      (sample_status_on ((fun n => (node_Address n, without_rivers)) <$> sample_nodes))
      DefaultConstraints [] 2 = Ret ([o], PhaseRivers)
    /\ len (op_nodes o) <= 2 /\ length sample_nodes = 5%nat.
Proof.
  eexists. split; [vm_compute; reflexivity|]. split; [|reflexivity].
  eapply (concurrent_updates_bounded [] sample_now sample_cluster1
            (sample_status_on ((fun n => (node_Address n, without_rivers)) <$> sample_nodes))
            DefaultConstraints [] 2 _ PhaseRivers);
    [vm_compute; reflexivity|lia|by left|left|reflexivity].
Defined.

Lemma etcd_maintenance_safe_witness :
  exists o, etcd_change sample_cluster1 (sample_status_on [("10.0.0.13", old_etcd)]) o
    /\ o = EtcdRestartOp (ControlPlanes sample_nodes) (sample_node "10.0.0.13" true)
             (opt_Etcd sample_options).
Proof.
  edestruct (etcd_maintenance_safe [] sample_now sample_cluster1
               (sample_status_on [("10.0.0.13", old_etcd)]) DefaultConstraints [] 10)
    as (o & Ho & Hc); [vm_compute; reflexivity|].
  exists o. split; [exact Hc|]. injection Ho as <-. vm_compute. reflexivity.
Defined.

Definition sample_host (_ : string) : result string := Err (ErrUnexpected "no host").

Lemma targets_never_panic_witness :
  exists ts, Targets sample_host
    (APIServerRestartOp [sample_node "10.0.0.12" true] "10.68.0.0/16" (opt_APIServer sample_options)
       "cluster.local") = Ret ts.
Proof.
  eapply (targets_never_panic [] sample_now sample_cluster1 outdated_apis DefaultConstraints [] 10
            sample_host _ PhaseK8sStart); [vm_compute; reflexivity|right; right; left|discriminate].
Defined.

(** ** No healthy API server *)

Definition sick_apis : list (string * (NodeStatus -> NodeStatus)) :=
  (fun n => (node_Address n, sick_apiserver)) <$> ControlPlanes sample_nodes.
Definition waiting_k8s : KubernetesClusterStatus :=
  let ks := good_k8s sample_cluster1 in
  mkKubernetesClusterStatus false (ks_Nodes ks) (ks_DNSService ks) (ks_ClusterDNS ks)
    (ks_NodeDNS ks) (ks_MasterEndpoints ks) (ks_MasterEndpointSlice ks) (ks_EtcdService ks)
    (ks_EtcdEndpoints ks) (ks_EtcdEndpointSlice ks) (ks_ResourceStatuses ks).
Definition no_api_status : ClusterStatus :=
  let cs := sample_status_on sick_apis in
  mkClusterStatus (cs_ConfigVersion cs) (cs_NodeStatuses cs) (cs_Etcd cs) waiting_k8s
    (cs_RepairQueue cs) (cs_RebootQueue cs).

(** While every API server runs but fails its health check, the operator that
    waits for Kubernetes is created without an API server, and its targets
    dereference a nil pointer. *)
Theorem no_healthy_api_server_panics :
  sample_decide no_api_status = Ret ([KubeWaitOp None], PhaseK8sMaintain)
  /\ Targets sample_host (KubeWaitOp (T:=sample_types) None) 
     = Panic "invalid memory address or nil pointer dereference".
Proof. vm_compute. auto. Qed.
