(* ===== verification/QueueProps.v ===== *)
(** * Reboots and repairs

    When the strategy drains, repairs and uncordons machines, and the findings
    on the loop over the repair queue. *)

From Stdlib Require Import ZArith Ascii String Lia.
From stdpp Require Import base gmap strings list.
From S2P Require Import Prelude GoLib K8s Cluster Queue Resource Status Dns Params NodeFilter.
From S2P Require Import Operators Strategy Samples StrategyTotal StrategySafety.

Section queues.
  Context {T : K8sTypes} {K : K8s} `{Runtime}.
  Context (static : list ResourceDefinition) (now : Z) (c : Cluster) (cs : ClusterStatus).
  Context (constraints : Constraints) (resources : list ResourceDefinition) (max : Z).
  Local Abbreviation nf := (NewNodeFilter c cs).

(** ** Reboots *)

Lemma rebootOps_drain ops api entries config :
  rebootOps c cs constraints nf = Ret ops -> RebootDrainStartOp api entries config ∈ ops ->
  rbs_Enabled (cs_RebootQueue cs) = true
  /\ entries = rbs_NextCandidates (cs_RebootQueue cs)
  /\ exists unreachable,
       SSHNotConnected nf (List.filter (fun n => negb (rebootProcessing cs (node_Address n)))
                             (c_Nodes c)) = Ret unreachable
       /\ len unreachable <= RebootMaximumUnreachable constraints.
Proof.
  unfold rebootOps. cbv zeta. intros Hd Ho.
  match type of Hd with match ?qs with _ => _ end = _ =>
    assert (forall o, o ∈ qs -> match o with RebootDrainStartOp _ _ _ => False | _ => True end)
      as Hq; [|destruct qs] end.
  { intros o [Hq|Hq]%elem_of_app; revert Hq; split_match;
      rewrite ?elem_of_nil, ?list_elem_of_singleton; first [by intros ->|done]. }
  2: { injection Hd as <-. by destruct (Hq _ Ho). }
  clear Hq. go_inv_cases Hd; try by apply elem_of_nil in Ho.
  rewrite !elem_of_app in Ho. destruct Ho as [Ho|[Ho|Ho]].
  - go_inv_cases Hv; rewrite ?elem_of_cons, ?elem_of_nil in Ho; naive_solver.
  - go_inv_cases Hv0; rewrite ?elem_of_cons, ?elem_of_nil in Ho; try naive_solver.
    destruct Ho as [[= -> -> ->]|[]]. rewrite NewNodeFilter_nodes in Hv1.
    apply negb_false_iff in Heqb. apply Z.ltb_ge in Heqb3. eauto.
  - destruct (rbs_DrainTimedout _); rewrite ?elem_of_cons, ?elem_of_nil in Ho; naive_solver.
Qed.

(** C22: draining of nodes for a reboot starts only for the candidates of an
    enabled queue, with etcd healthy and all of its members in sync, nothing
    to repair, nothing left to maintain in Kubernetes, and no more unreachable
    nodes (apart from those being rebooted) than the constraint allows. *)
Theorem reboot_drain_guarded ops phase api entries config :
  DecideOps static now c cs constraints resources max = Ret (ops, phase) ->
  RebootDrainStartOp api entries config ∈ ops ->
  rbs_Enabled (cs_RebootQueue cs) = true
  /\ entries = rbs_NextCandidates (cs_RebootQueue cs)
  /\ EtcdIsGood nf = true
  /\ (exists rops, repairOps c cs nf now = Ret (rops, false))
  /\ k8sOps c nf cs max = Ret [] /\ k8sMaintOps static c cs resources nf = Ret []
  /\ exists unreachable,
       SSHNotConnected nf (List.filter (fun n => negb (rebootProcessing cs (node_Address n)))
                             (c_Nodes c)) = Ret unreachable
       /\ len unreachable <= RebootMaximumUnreachable constraints.
Proof.
  intros Hd%DecideOps_decided Ho. pose proof (decided_phase _ _ _ _ _ _ _ _ _ Hd _ Ho) as Ha.
  destruct phase; try done. inversion Hd; subst; [by apply elem_of_nil in Ho|].
  match goal with Hp : past_maint _ _ _ _ _ |- _ => destruct Hp as ([_ Hk] & _ & Hm & _) end.
  match goal with Hr : rebootOps _ _ _ _ = Ret _ |- _ =>
    destruct (rebootOps_drain _ _ _ _ Hr Ho) as (? & ? & ?) end.
  split_and!; eauto.
Qed.

Lemma CordonedNodes_spec kn :
  kn ∈ CordonedNodes nf <->
  kn ∈ ks_Nodes (cs_Kubernetes cs) /\ kn_Unschedulable kn = true
  /\ kn_Annotations kn !! CKEAnnotationReboot = Some "true".
Proof.
  unfold CordonedNodes. rewrite NewNodeFilter_status, elem_of_filterb, andb_true_iff.
  destruct (kn_Annotations kn !! CKEAnnotationReboot) as [v|]; [|naive_solver].
  rewrite String.eqb_eq. naive_solver.
Qed.

Lemma rebootUncordonOp_names api names :
  rebootUncordonOp cs nf = Ret (Some (RebootUncordonOp api names)) ->
  names = kn_Name <$> List.filter (fun n => negb (rebootProcessing cs (kn_Name n)
                                                  || repairProcessing cs (kn_Name n)))
                        (CordonedNodes nf).
Proof.
  unfold rebootUncordonOp. destruct (List.filter _ _) as [|k l]; [done|].
  intros (api' & _ & [= _ <-])%bind_Ret_inv. done.
Qed.

(** A node is uncordoned after a reboot exactly when it is a Node object
    that was cordoned with the reboot annotation of CKE and is neither being
    drained or rebooted nor being repaired. *)
Theorem uncordon_exact ops phase api names :
  DecideOps static now c cs constraints resources max = Ret (ops, phase) ->
  RebootUncordonOp api names ∈ ops ->
  forall name, name ∈ names <->
    (exists kn, kn ∈ ks_Nodes (cs_Kubernetes cs) /\ kn_Name kn = name
       /\ kn_Unschedulable kn = true /\ kn_Annotations kn !! CKEAnnotationReboot = Some "true")
    /\ rebootProcessing cs name = false /\ repairProcessing cs name = false.
Proof.
  intros Hd%DecideOps_decided Ho. pose proof (decided_phase _ _ _ _ _ _ _ _ _ Hd _ Ho) as Ha.
  destruct phase; try done. inversion Hd as [| | | | | | | | | | |o Hpk Hcl Hun| | | | |]; subst.
  apply list_elem_of_singleton in Ho as <-. apply rebootUncordonOp_names in Hun as ->.
  intros name. rewrite list_elem_of_fmap.
  setoid_rewrite elem_of_filterb. setoid_rewrite CordonedNodes_spec.
  setoid_rewrite negb_true_iff. setoid_rewrite orb_false_iff. naive_solver.
Qed.

(** ** Repairs *)

(** [run_step] issues at most one operator, for the entry at its current or at
    its next step. *)
Definition entry_of (o : Operator) : option RepairQueueEntry :=
  match o with
  | RepairDequeueOp e | RepairDrainStartOp _ e _ | RepairDrainTimeoutOp e
  | RepairExecuteOp e _ _ | RepairFinishOp e _ _ => Some e
  | _ => None
  end.
Definition address_of (o : Operator) : option string := rpe_Address <$> entry_of o.

Lemma run_step_ops_of fuel lim e r :
  run_step fuel c cs nf now lim e = Ret r ->
  (length (fst r) <= 1)%nat /\ forall o, o ∈ fst r -> address_of o = Some (rpe_Address e).
Proof.
  revert e r. induction fuel as [|fuel IH]; intros e r Hd; cbn [run_step] in Hd;
    go_inv_cases Hd; simpl; try (apply IH in Hv0; exact Hv0);
    (split; [lia|]); intros o; rewrite ?list_elem_of_singleton, ?elem_of_nil;
    first [by intros ->|done].
Qed.

(** The loop starts at most [lim_maxConcurrentRepairs] minus the number of
    entries already counted, and at most one on an API server. *)
Definition on_api (servers : gset string) (o : Operator) : bool :=
  match address_of o with Some a => bool_decide (a ∈ servers) | None => false end.

Lemma rebooting_guard (X : gset string) a b :
  ((2 <=? size X)%nat || ((size X =? 1)%nat && negb (bool_decide (a ∈ X)))) = false ->
  b ∈ X -> b = a.
Proof.
  intros [Hs Ha]%orb_false_iff Hb. apply Nat.leb_gt in Hs.
  assert (size X <> 0)%nat by (intros ?%size_empty_inv; set_solver).
  assert (size X = 1)%nat as H1 by lia. rewrite H1 in Ha. simpl in Ha.
  apply negb_false_iff, bool_decide_eq_true in Ha. by apply (size_singleton_inv X).
Qed.

Lemma filter_on_api servers e ops :
  (length ops <= 1)%nat -> (forall o, o ∈ ops -> address_of o = Some (rpe_Address e)) ->
  len (List.filter (on_api servers) ops)
    <= if bool_decide (rpe_Address e ∈ servers) then 1 else 0.
Proof.
  unfold len. destruct ops as [|o [|]]; simpl; [|intros _ Ha|lia].
  - intros _ _. case_bool_decide; lia.
  - unfold on_api. rewrite (Ha o) by left. case_bool_decide; simpl; lia.
Qed.

(** The guard of the loop on an entry whose machine is a control plane node. *)
Definition api_guard (lim : repair_limits) (m : Z) (e : RepairQueueEntry) : bool :=
  bool_decide (rpe_Address e ∈ lim_apiServers lim)
  && ((maxConcurrentApiServerRepairs <=? m)
      || (2 <=? size (lim_rebootingApiServers lim))%nat
      || ((size (lim_rebootingApiServers lim) =? 1)%nat
          && negb (bool_decide (rpe_Address e ∈ lim_rebootingApiServers lim)))).

Lemma repair_loop_cons lim n m e es r :
  repair_loop c cs nf now lim n m (e :: es) = Ret r ->
  r = ([], false)
  \/ repair_loop c cs nf now lim n m es = Ret r
  \/ exists r1 r2, n < lim_maxConcurrentRepairs lim /\ api_guard lim m e = false
      /\ run_step run_step_fuel c cs nf now (lim_evictionStartLimit lim) e = Ret r1
      /\ repair_loop c cs nf now lim (n + 1)
           (if bool_decide (rpe_Address e ∈ lim_apiServers lim) then m + 1 else m) es = Ret r2
      /\ r = (fst r1 ++ fst r2, snd r1 || snd r2).
Proof.
  cbn [repair_loop]. cbv zeta. fold (api_guard lim m e). intros Hd.
  destruct (Z.leb_spec (lim_maxConcurrentRepairs lim) n); [injection Hd as <-; auto|].
  destruct (lookup_bool _ _); [auto|]. destruct (api_guard lim m e); [auto|].
  right; right. go_inv Hd. eauto 10.
Qed.

Lemma repair_loop_bounds lim n m es r :
  repair_loop c cs nf now lim n m es = Ret r ->
  len (fst r) <= Z.max 0 (lim_maxConcurrentRepairs lim - n)
  /\ len (List.filter (on_api (lim_apiServers lim)) (fst r)) <= Z.max 0 (1 - m).
Proof.
  revert n m r. induction es as [|e es IH]; intros n m r.
  { intros [= <-]. unfold len. simpl. lia. }
  intros [->|[Hd|(r1 & r2 & Hn & Hg & Hr1 & Hr2 & ->)]]%repair_loop_cons;
    [unfold len; simpl; lia|by apply IH|].
  apply run_step_ops_of in Hr1 as [Hl1 Ha1]. apply IH in Hr2 as [Hl2 Hf2].
  pose proof (filter_on_api (lim_apiServers lim) e (fst r1) Hl1 Ha1) as Hf1.
  unfold api_guard, maxConcurrentApiServerRepairs in Hg. unfold len in *. simpl.
  rewrite List.filter_app, !length_app.
  destruct (bool_decide (rpe_Address e ∈ lim_apiServers lim)); simpl in Hg; [|lia].
  rewrite !orb_false_iff, Z.leb_gt in Hg. lia.
Qed.

Lemma repair_loop_guard lim n m es r o a :
  repair_loop c cs nf now lim n m es = Ret r -> o ∈ fst r ->
  on_api (lim_apiServers lim) o = true -> a ∈ lim_rebootingApiServers lim ->
  address_of o = Some a.
Proof.
  revert n m r. induction es as [|e es IH]; intros n m r.
  { by intros [= <-] ?%elem_of_nil. }
  intros [->|[Hd|(r1 & r2 & Hn & Hg & Hr1 & Hr2 & ->)]]%repair_loop_cons Ho Hapi Ha;
    [by apply elem_of_nil in Ho|by eapply IH|].
  simpl in Ho. apply elem_of_app in Ho as [Ho|Ho]; [|by eapply IH].
  apply run_step_ops_of in Hr1 as [_ Ha1]. specialize (Ha1 o Ho). rewrite Ha1. f_equal.
  unfold on_api in Hapi. rewrite Ha1 in Hapi. unfold api_guard in Hg. rewrite Hapi in Hg.
  simpl in Hg. rewrite <- orb_assoc, orb_false_iff in Hg. symmetry.
  exact (rebooting_guard _ _ _ (proj2 Hg) Ha).
Qed.

(** The operators that work on a machine, as opposed to those that only
    update the queue. *)
Definition repair_work (o : Operator) : bool :=
  match o with
  | RepairDrainStartOp _ _ _ | RepairDrainTimeoutOp _ | RepairExecuteOp _ _ _ => true
  | _ => false
  end.
Definition cp_addresses : gset string := list_to_set (node_Address <$> ControlPlanes (c_Nodes c)).

Lemma first_loop_no_work servers o :
  o ∈ first_loop_ops c cs servers now -> repair_work o = false.
Proof.
  unfold first_loop_ops. rewrite list_elem_of_bind. intros (e & Ho & _). revert Ho.
  split_match; rewrite ?elem_of_nil, ?list_elem_of_singleton; first [by intros ->|done].
Qed.

Lemma repairOps_work ops b :
  repairOps c cs nf now = Ret (ops, b) ->
  exists r, repair_loop c cs nf now (repair_limits_of c cs nf now) 0 0
              (sortedEntries cs cp_addresses now) = Ret r
    /\ List.filter repair_work ops = List.filter repair_work (fst r).
Proof.
  unfold repairOps. intros Hd. go_inv Hd. exists v. split.
  - unfold cp_addresses. rewrite <- (NewNodeFilter_cp c cs). exact Hv.
  - rewrite List.filter_app.
    rewrite (proj2 (filterb_nil repair_work (first_loop_ops c cs _ now))); [done|].
    intros o. apply first_loop_no_work.
Qed.

Lemma filter_filter_le (p q : Operator -> bool) ops :
  len (List.filter p (List.filter q ops)) <= len (List.filter p ops).
Proof.
  unfold len. induction ops as [|o ops IH]; simpl; [lia|].
  destruct (q o); simpl; destruct (p o); simpl; lia.
Qed.

(** C21: repairs are limited.  In one decision no more machines are drained or
    repaired than [max_concurrent_repairs] allows, at most one of them is a
    control plane node, and none is while another control plane node that is named
    after its address is being rebooted ([repair_beside_reboot] shows that a host
    name hides the reboot). *)
Theorem repairs_limited ops :
  DecideOps static now c cs constraints resources max = Ret (ops, PhaseRepairMachines) ->
  let work := List.filter repair_work ops in
  len work <= Z.max 0 (default DefaultMaxConcurrentRepairs (rp_MaxConcurrentRepairs (c_Repair c)))
  /\ len (List.filter (on_api cp_addresses) work) <= 1
  /\ forall o n, o ∈ work -> on_api cp_addresses o = true ->
       n ∈ ControlPlanes (c_Nodes c) -> Nodename n = node_Address n ->
       rebootProcessing cs (node_Address n) = true ->
       address_of o = Some (node_Address n).
Proof.
  intros Hd%DecideOps_decided.
  assert (ops = [] \/ repairOps c cs nf now = Ret (ops, true)) as [->|Hr]
    by (inversion Hd; auto).
  { unfold len. simpl. split_and!; [lia|lia|]. by intros o n ?%elem_of_nil. }
  apply repairOps_work in Hr as (r & Hr & ->).
  assert (lim_apiServers (repair_limits_of c cs nf now) = cp_addresses) as Hcp.
  { unfold cp_addresses. rewrite <- (NewNodeFilter_cp c cs). done. }
  destruct (repair_loop_bounds _ _ _ _ _ Hr) as [Hlen Hapi]. rewrite Hcp in Hapi. simpl in Hlen.
  split_and!.
  - pose proof (filterb_length_le repair_work (fst r)). unfold len in *. lia.
  - pose proof (filter_filter_le (on_api cp_addresses) repair_work (fst r)). lia.
  - intros o n [Ho _]%elem_of_filterb Hon Hn Hname Hb. rewrite <- Hcp in Hon.
    apply (repair_loop_guard _ _ _ _ _ _ _ Hr Ho Hon). simpl.
    rewrite elem_of_list_to_set, (NewNodeFilter_cp c cs).
    apply list_elem_of_fmap_2, elem_of_filterb. by rewrite Hname.
Qed.

(** ** etcd and repairs *)
Lemma count_in_sync_spec l k k' :
  count_in_sync nf l k = Ret (Some k') ->
  k' = k + len (List.filter snd l)
  /\ forall a, (a, false) ∈ l -> exists n st, n ∈ c_Nodes c /\ node_Address n = a
       /\ node_ControlPlane n = true /\ cs_NodeStatuses cs !! a = Some st
       /\ ns_SSHConnected st = false.
Proof.
  revert k. induction l as [|[a b] l IH]; intros k Hd; cbn [count_in_sync] in Hd.
  { injection Hd as <-. unfold len. simpl. split; [lia|]. by intros a ?%elem_of_nil. }
  destruct b.
  { apply IH in Hd as [-> Hin]. split; [unfold len; simpl; lia|].
    intros a' [?|?]%elem_of_cons; [done|auto]. }
  destruct (nf_nodeMap nf !! a) as [n|] eqn:Hn; [|done].
  destruct (node_ControlPlane n) eqn:Hcp; [|done]. simpl in Hd.
  apply NewNodeFilter_nodeMap in Hn as [Hn <-].
  apply bind_Ret_inv in Hd as (st & Hst & Hd). rewrite nodeStatus_nf in Hst.
  destruct (cs_NodeStatuses cs !! node_Address n) as [st'|] eqn:Hs; [|done].
  injection Hst as ->. destruct (ns_SSHConnected st) eqn:Hssh; [done|].
  apply IH in Hd as [-> Hin]. split; [done|].
  intros a' [[= ->]|?]%elem_of_cons; [|auto]. exists n, st. done.
Qed.

Lemma EtcdIsGoodForRepair_spec k :
  EtcdIsGoodForRepair nf k = Ret true ->
  let es := cs_Etcd cs in
  es_IsHealthy es = true
  /\ k - 1 <= len (List.filter snd (map_to_list (es_InSyncMembers es)))
  /\ forall a, es_InSyncMembers es !! a = Some false -> exists n st, n ∈ c_Nodes c
       /\ node_Address n = a /\ node_ControlPlane n = true
       /\ cs_NodeStatuses cs !! a = Some st /\ ns_SSHConnected st = false.
Proof.
  unfold EtcdIsGoodForRepair. rewrite NewNodeFilter_status. cbv zeta.
  destruct (es_IsHealthy _); [|done]. simpl.
  intros ([k'|] & Hc & Hd)%bind_Ret_inv; [|done]. injection Hd as Hle%Z.leb_le.
  apply count_in_sync_spec in Hc as [-> Hin]. split; [done|]. split.
  - unfold len in *. rewrite <- range_perm. lia.
  - intros a Ha. apply Hin. by apply elem_of_range.
Qed.

(** Machines are only repaired, and repair entries only updated, while
    etcd is healthy with members in sync on all but one of the control plane
    nodes it should have, and the only members out of sync are on control
    plane nodes that cannot be reached. *)
Theorem repair_needs_etcd ops o :
  DecideOps static now c cs constraints resources max = Ret (ops, PhaseRepairMachines) ->
  o ∈ ops ->
  let es := cs_Etcd cs in
  es_IsHealthy es = true
  /\ ControlPlaneCount constraints - 1 <= len (List.filter snd (map_to_list (es_InSyncMembers es)))
  /\ forall a, es_InSyncMembers es !! a = Some false -> exists n st, n ∈ c_Nodes c
       /\ node_Address n = a /\ node_ControlPlane n = true
       /\ cs_NodeStatuses cs !! a = Some st /\ ns_SSHConnected st = false.
Proof.
  intros Hd%DecideOps_decided Ho. apply EtcdIsGoodForRepair_spec.
  inversion Hd; subst; [by apply elem_of_nil in Ho|done].
Qed.

(** ** A disabled repair queue *)
Definition starts_repair (o : Operator) : bool :=
  match o with RepairDrainStartOp _ _ _ | RepairExecuteOp _ _ _ => true | _ => false end.

Lemma run_step_disabled fuel lim e r o :
  rps_Enabled (cs_RepairQueue cs) = false ->
  run_step fuel c cs nf now lim e = Ret r -> o ∈ fst r -> starts_repair o = false.
Proof.
  intros Hen. revert e r. induction fuel as [|fuel IH]; intros e r Hd; cbn [run_step] in Hd;
    rewrite Hen in Hd; cbn [negb] in Hd; go_inv_cases Hd; simpl; eauto;
    rewrite ?list_elem_of_singleton, ?elem_of_nil; first [by intros ->|done].
Qed.

Lemma repair_loop_disabled lim n m es r o :
  rps_Enabled (cs_RepairQueue cs) = false ->
  repair_loop c cs nf now lim n m es = Ret r -> o ∈ fst r -> starts_repair o = false.
Proof.
  intros Hen. revert n m r. induction es as [|e es IH]; intros n m r.
  { by intros [= <-] ?%elem_of_nil. }
  intros [->|[Hd|(r1 & r2 & _ & _ & Hr1 & Hr2 & ->)]]%repair_loop_cons Ho;
    [by apply elem_of_nil in Ho|by eapply IH|].
  simpl in Ho. apply elem_of_app in Ho as [Ho|Ho]; [by eapply run_step_disabled|by eapply IH].
Qed.

(** While the repair queue is disabled, no machine is drained for a repair
    and no repair command is executed, in any phase. *)
Theorem disabled_repair_queue ops phase o :
  DecideOps static now c cs constraints resources max = Ret (ops, phase) ->
  rps_Enabled (cs_RepairQueue cs) = false -> o ∈ ops -> starts_repair o = false.
Proof.
  intros Hd%DecideOps_decided Hen Ho.
  pose proof (decided_phase _ _ _ _ _ _ _ _ _ Hd _ Ho) as Ha.
  destruct (starts_repair o) eqn:Hs; [|done]. exfalso.
  assert (phase = PhaseRepairMachines) as -> by (destruct phase; first [done|by destruct o]).
  assert (repairOps c cs nf now = Ret (ops, true)) as Hr
    by (inversion Hd; subst; [by apply elem_of_nil in Ho|done]).
  apply repairOps_work in Hr as (r & Hr & Hw).
  assert (o ∈ List.filter repair_work (fst r)) as [Hin _]%elem_of_filterb.
  { rewrite <- Hw. apply elem_of_filterb. split; [done|]. by destruct o. }
  by rewrite (repair_loop_disabled _ _ _ _ _ _ Hen Hr Hin) in Hs.
Qed.
End queues.

(** ** Witnesses *)
#[local] Existing Instance sample_types.
#[local] Existing Instance sample_k8s.
#[local] Existing Instance std_runtime.

Definition queues_status (repairs : RepairQueueStatus) (reboots : RebootQueueStatus)
    : ClusterStatus :=
  status_with sample_cluster1 (good_statuses sample_cluster1) repairs reboots.

(** One worker is to be rebooted. *)
Definition reboot_status : ClusterStatus :=
  let e := NewRebootQueueEntry "10.0.0.101" in
  queues_status no_repairs (mkRebootQueueStatus true [e] [e] [] [] [] []).

Lemma reboot_drain_guarded_witness :
  EtcdIsGood (NewNodeFilter sample_cluster1 reboot_status) = true
  /\ k8sOps sample_cluster1 (NewNodeFilter sample_cluster1 reboot_status) reboot_status 10 = Ret [].
Proof.
  edestruct (reboot_drain_guarded [] sample_now sample_cluster1 reboot_status DefaultConstraints
               [] 10) as (_ & _ & Hg & _ & Hk & _);
    [vm_compute; reflexivity|left|split; [exact Hg|exact Hk]].
Defined.

(** A worker was cordoned for a reboot that is over. *)
Definition cordoned_k8s : KubernetesClusterStatus :=
  let ks := good_k8s sample_cluster1 in
  mkKubernetesClusterStatus (ks_IsControlPlaneReady ks)
    ((fun kn => if (kn_Name kn =? "10.0.0.102")%string
                then mkKubeNode (kn_Name kn) (kn_Labels kn)
                       (<[ CKEAnnotationReboot := "true" ]> (kn_Annotations kn))
                       (kn_Taints kn) true (kn_Conditions kn) (kn_Deleted kn)
                else kn) <$> ks_Nodes ks)
    (ks_DNSService ks) (ks_ClusterDNS ks) (ks_NodeDNS ks) (ks_MasterEndpoints ks)
    (ks_MasterEndpointSlice ks) (ks_EtcdService ks) (ks_EtcdEndpoints ks)
    (ks_EtcdEndpointSlice ks) (ks_ResourceStatuses ks).
Definition cordoned_status : ClusterStatus :=
  mkClusterStatus ConfigVersion (good_statuses sample_cluster1) (good_etcd sample_cluster1)
    cordoned_k8s no_repairs no_reboots.

Lemma uncordon_exact_witness :
  sample_decide cordoned_status
    = Ret ([RebootUncordonOp (Some (sample_node "10.0.0.11" true)) ["10.0.0.102"]],
           PhaseUncordonNodes)
  /\ rebootProcessing cordoned_status "10.0.0.102" = false.
Proof.
  split; [vm_compute; reflexivity|].
  eapply (uncordon_exact [] sample_now sample_cluster1 cordoned_status DefaultConstraints [] 10);
    [vm_compute; reflexivity|left|left].
Defined.

(** Three machines to be repaired, one of them a control plane node, with a
    limit of two. *)
Definition repair_entry (i : Z) (addr op : string) : RepairQueueEntry :=
  mkRepairQueueEntry i addr addr "" "server" op RepairStatusQueued 0 RepairStepStatusWaiting false
    zero_time 0 zero_time.
Definition repair_status : ClusterStatus :=
  queues_status (mkRepairQueueStatus true
    [repair_entry 1 "10.0.0.101" "unreachable"; repair_entry 2 "10.0.0.12" "unreachable";
     repair_entry 3 "10.0.0.102" "unreachable"] ∅ ∅) no_reboots.

Lemma repairs_limited_witness :
  exists ops, sample_decide repair_status = Ret (ops, PhaseRepairMachines)
    /\ length ops = 2%nat /\ len (List.filter repair_work ops) <= 2.
Proof.
  eexists. split; [vm_compute; reflexivity|]. split; [reflexivity|].
  eapply (repairs_limited [] sample_now sample_cluster1 repair_status DefaultConstraints [] 10).
  vm_compute. reflexivity.
Defined.

(** The reboot queue holds addresses, but the repairs look for the names of the Node
    objects: while one control plane node is being rebooted another one is repaired if
    the first has a host name, and not if it is named after its address. *)
Definition hosted_cluster (hostname : string) : Cluster :=
  sample_cluster (mkNode "10.0.0.11" hostname "cybozu" true ∅ ∅ [] :: tail sample_nodes) (Some 2).
Definition rebooting_status (c : Cluster) : ClusterStatus :=
  let e := mkRebootQueueEntry 1 "10.0.0.11" RebootStatusRebooting 0 0 zero_time in
  status_with c (good_statuses c)
    (mkRepairQueueStatus true [repair_entry 1 "10.0.0.12" "unreachable"] ∅ ∅)
    (mkRebootQueueStatus true [e] [] [] [] [] []).

Example repair_beside_reboot :
  let repairs hostname := let c := hosted_cluster hostname in let cs := rebooting_status c in
    repairOps c cs (NewNodeFilter c cs) sample_now in
  (exists o b, repairs "node1" = Ret ([o], b) /\ repair_work o = true)
  /\ exists b, repairs "" = Ret ([], b).
Proof. vm_compute. split; [eexists _, _; split; reflexivity|eexists; reflexivity]. Qed.

Lemma repair_needs_etcd_witness : es_IsHealthy (cs_Etcd repair_status) = true.
Proof.
  eapply (repair_needs_etcd [] sample_now sample_cluster1 repair_status DefaultConstraints [] 10);
    [vm_compute; reflexivity|left].
Defined.

(** A machine being drained when the queue is disabled: the drain is given up. *)
Definition disabled_status : ClusterStatus :=
  queues_status (mkRepairQueueStatus false
    [sample_repair_entry "10.0.0.101" 1 RepairStepStatusDraining;
     repair_entry 2 "10.0.0.102" "unreachable"] ∅ ∅) no_reboots.

Lemma disabled_repair_queue_witness :
  exists o, sample_decide disabled_status = Ret ([o], PhaseRepairMachines)
    /\ starts_repair o = false.
Proof.
  eexists. split; [vm_compute; reflexivity|].
  eapply (disabled_repair_queue [] sample_now sample_cluster1 disabled_status DefaultConstraints
            [] 10); [vm_compute; reflexivity|reflexivity|left].
Defined.

(** ** Findings *)

(** Two entries for one machine. *)
Definition twice_queued : ClusterStatus :=
  queues_status (mkRepairQueueStatus true
    [repair_entry 1 "10.0.0.101" "unreachable"; repair_entry 2 "10.0.0.101" "unreachable"] ∅ ∅)
    no_reboots.

(** The set of machines already handled is never filled: with a limit of
    two, two entries for one machine are executed at the same time, although
    one machine must not be repaired by two entries at a time. *)
Theorem same_machine_repaired_twice :
  exists e1 e2, rpe_Address e1 = rpe_Address e2
    /\ sample_decide twice_queued
       = Ret ([RepairExecuteOp e1 sample_step sample_cluster1;
               RepairExecuteOp e2 sample_step sample_cluster1], PhaseRepairMachines).
Proof.
  exists (repair_entry 1 "10.0.0.101" "unreachable"), (repair_entry 2 "10.0.0.101" "unreachable").
  split; [reflexivity|]. vm_compute. reflexivity.
Qed.

(** An entry with an operation that is not configured, before another one. *)
Definition starving_status : ClusterStatus :=
  status_with (sample_cluster sample_nodes None) (good_statuses sample_cluster1)
    (mkRepairQueueStatus true
      [repair_entry 1 "10.0.0.101" "no-such-operation"; repair_entry 2 "10.0.0.102" "unreachable"]
      ∅ ∅) no_reboots.

(** An entry whose repair operation is not configured takes a slot without
    doing anything: with the default limit of one, the entry behind it is not
    repaired, and the server considers its work completed. *)
Theorem unknown_operation_starves_queue :
  DecideOps [] sample_now (sample_cluster sample_nodes None) starving_status DefaultConstraints [] 10
  = Ret ([], PhaseCompleted).
Proof. vm_compute. reflexivity. Qed.
