(* ===== verification/NodeAttrs.v ===== *)
(** * Attributes of Node objects

    The labels, annotations and taints CKE keeps on the Node objects of
    Kubernetes: an update brings an object to a state the filter accepts, and
    leaves what other parties put on it. *)

From Stdlib Require Import ZArith Ascii String Lia.
From stdpp Require Import base gmap strings list.
From S2P Require Import Prelude GoLib K8s Cluster Queue Resource Status Params NodeFilter.

(** ** Maps filled by a loop *)

Lemma taint_map_from l (m : gmap string Taint) k :
  (forall t, t ∈ l -> taint_Key t <> k) ->
  foldl (fun m t => <[ taint_Key t := t ]> m) m l !! k = m !! k.
Proof.
  revert m. induction l as [|t l IH]; intros m Hl; simpl; [done|].
  rewrite IH; [|intros t' Ht'; apply Hl; by right].
  apply lookup_insert_ne, Hl. left.
Qed.

Lemma taint_map_app l1 l2 :
  taint_map (l1 ++ l2) = foldl (fun m t => <[ taint_Key t := t ]> m) (taint_map l1) l2.
Proof. apply foldl_app. Qed.

Lemma taint_map_None l k : taint_map l !! k = None <-> forall t, t ∈ l -> taint_Key t <> k.
Proof.
  split.
  - induction l as [|x l IH] using rev_ind; [by intros _ t ?%elem_of_nil|].
    rewrite taint_map_app. simpl. rewrite lookup_insert_None. intros [Hl Hx] t.
    rewrite elem_of_app, list_elem_of_singleton. intros [?| ->]; auto.
  - intros Hl. unfold taint_map. rewrite taint_map_from by done. apply lookup_empty.
Qed.

(** The last taint with the key is the one found. *)
Lemma taint_map_last l1 t l2 :
  (forall t', t' ∈ l2 -> taint_Key t' <> taint_Key t) ->
  taint_map (l1 ++ t :: l2) !! taint_Key t = Some t.
Proof.
  intros Hl. rewrite taint_map_app. simpl. rewrite taint_map_from by done.
  apply lookup_insert_eq.
Qed.

Lemma taint_map_has l k : has_key (taint_map l) k = true <-> k ∈ taint_Key <$> l.
Proof.
  unfold has_key. destruct (taint_map l !! k) as [x|] eqn:Hk; split; try done.
  - intros _. destruct (decide (k ∈ taint_Key <$> l)) as [|Hn]; [done|].
    rewrite (proj2 (taint_map_None l k)) in Hk; [done|].
    intros t Ht <-. by apply Hn, list_elem_of_fmap_2.
  - intros (t & -> & Ht)%list_elem_of_fmap.
    by destruct (proj1 (taint_map_None l (taint_Key t)) Hk t Ht).
Qed.

Section attrs.
  Context `{Runtime}.
  Implicit Types (n : Node) (k : string).

Lemma drop_internal_from n l (m : gmap string string) k v :
  NoDup l.*1 -> (forall k', k' ∈ l.*1 -> m !! k' = None) ->
  foldl (fun acc '(k, v) => if isInternal k n then acc else <[ k := v ]> acc) m l !! k = Some v
  <-> m !! k = Some v \/ ((k, v) ∈ l /\ isInternal k n = false).
Proof.
  revert m. induction l as [|[x y] l IH]; intros m Hnd Hm; simpl.
  { rewrite elem_of_nil. naive_solver. }
  apply NoDup_cons in Hnd as [Hx Hnd]. simpl in Hx.
  assert (m !! x = None) as Hmx by (apply Hm; left).
  rewrite IH; [|done|].
  2: { intros k' Hk'. assert (k' <> x) by (by intros ->).
       destruct (isInternal x n); [|rewrite lookup_insert_ne by done]; apply Hm; by right. }
  rewrite elem_of_cons. destruct (isInternal x n) eqn:Hint.
  { split; [intros [?|[??]]; auto|intros [?|[[[= -> ->]|?] ?]]; [auto|congruence|auto]]. }
  destruct (decide (k = x)) as [->|Hne].
  - rewrite lookup_insert_eq. split.
    + intros [[= ->]|[Hin _]]; [auto|]. destruct Hx. by apply (list_elem_of_fmap_2 fst) in Hin.
    + intros [?|[[[= ->]|Hin] _]]; [congruence|auto|].
      destruct Hx. by apply (list_elem_of_fmap_2 fst) in Hin.
  - rewrite lookup_insert_ne by done. split; [intros [?|[??]]; auto|].
    intros [?|[[[= ? ?]|?] ?]]; [auto|congruence|auto].
Qed.

(** The entries other parties own. *)
Lemma lookup_drop_internal n (m : gmap string string) k v :
  drop_internal n m !! k = Some v <-> m !! k = Some v /\ isInternal k n = false.
Proof.
  unfold drop_internal. rewrite drop_internal_from.
  - rewrite lookup_empty, elem_of_range. split; [by intros [?|?]|auto].
  - rewrite range_perm. apply NoDup_fst_map_to_list.
  - intros k' _. apply lookup_empty.
Qed.

Lemma drop_internal_None n (m : gmap string string) k :
  isInternal k n = true -> drop_internal n m !! k = None.
Proof.
  intros Hk. destruct (drop_internal n m !! k) as [v|] eqn:Hv; [|done].
  apply lookup_drop_internal in Hv as [_ Hv]. congruence.
Qed.

Lemma lookup_drop_external n (m : gmap string string) k :
  isInternal k n = false -> drop_internal n m !! k = m !! k.
Proof.
  intros Hk. apply option_eq. intros v. rewrite lookup_drop_internal. naive_solver.
Qed.

Lemma master_internal n : isInternal CKELabelMaster n = true.
Proof. done. Qed.

Lemma missing_entry_false (want have : gmap string string) :
  missing_entry want have = false <-> want ⊆ have.
Proof.
  unfold missing_entry. rewrite existsb_false_elem_of, map_subseteq_spec. split.
  - intros Hf k v Hk. specialize (Hf (k, v)). rewrite elem_of_range in Hf.
    specialize (Hf Hk). simpl in Hf. destruct (have !! k) as [cv|]; [|done].
    apply negb_false_iff, String.eqb_eq in Hf. congruence.
  - intros Hs [k v] Hk%elem_of_range. rewrite (Hs k v Hk). simpl.
    by rewrite String.eqb_refl.
Qed.

(** ** The update *)
Section update.
  Context (n : Node) (current : KubeNode) (taintCP : bool).
Let updated := updated_attrs n current taintCP.

(** The name CKE reserves for itself is not used by the administrator, who
    gives at most one taint per key. *)
Definition plain_attributes : Prop :=
  node_Labels n !! CKELabelMaster = None
  /\ ~ (CKETaintMaster ∈ taint_Key <$> node_Taints n)
  /\ NoDup (taint_Key <$> node_Taints n).

Lemma updated_labels k :
  kn_Labels updated !! k =
    if node_ControlPlane n && (k =? CKELabelMaster)%string then Some "true"
    else (node_Labels n ∪ drop_internal n (kn_Labels current)) !! k.
Proof.
  unfold updated, updated_attrs. cbn [kn_Labels].
  destruct (node_ControlPlane n); simpl; [|done].
  destruct (String.eqb_spec k CKELabelMaster) as [->|Hne];
    [apply lookup_insert_eq|by apply lookup_insert_ne].
Qed.

(** The taints another party put on the node. *)
Definition foreign_taints : list Taint :=
  List.filter (fun t => negb (isInternal (taint_Key t) n
                              || bool_decide (taint_Key t ∈ (list_to_set (taint_Key <$> node_Taints n)
                                                             : gset string)))) (kn_Taints current).

Lemma foreign_taints_spec t :
  t ∈ foreign_taints <->
  t ∈ kn_Taints current /\ isInternal (taint_Key t) n = false
  /\ ~ (taint_Key t ∈ taint_Key <$> node_Taints n).
Proof.
  unfold foreign_taints.
  by rewrite elem_of_filterb, negb_true_iff, orb_false_iff, bool_decide_eq_false,
    elem_of_list_to_set.
Qed.

Definition master_taint : list Taint :=
  if taintCP && node_ControlPlane n
  then [mkTaint CKETaintMaster "" TaintEffectPreferNoSchedule] else [].

Lemma updated_taints : kn_Taints updated = node_Taints n ++ foreign_taints ++ master_taint.
Proof.
  unfold updated, updated_attrs, foreign_taints, master_taint. cbn [kn_Taints].
  destruct (taintCP && node_ControlPlane n);
    by rewrite ?app_nil_r, <- ?app_assoc.
Qed.

Lemma updated_taint_own t :
  plain_attributes -> t ∈ node_Taints n -> taint_map (kn_Taints updated) !! taint_Key t = Some t.
Proof.
  intros (_ & Hm & Hnd) Ht. rewrite updated_taints.
  pose proof Ht as (l1 & l2 & Hl)%list_elem_of_split. rewrite Hl, <- app_assoc.
  apply taint_map_last. intros t'. rewrite !elem_of_app.
  rewrite Hl, fmap_app, fmap_cons in Hnd. apply NoDup_app in Hnd as (_ & _ & Hnd).
  apply NoDup_cons in Hnd as [Hnd _].
  assert (taint_Key t ∈ taint_Key <$> node_Taints n) as Hk by (by apply list_elem_of_fmap_2).
  intros [Ht'|[Ht'|Ht']] Heq.
  - apply Hnd. rewrite <- Heq. by apply list_elem_of_fmap_2.
  - apply foreign_taints_spec in Ht' as (_ & _ & Hf). by rewrite Heq in Hf.
  - unfold master_taint in Ht'. destruct (taintCP && _); [|by apply elem_of_nil in Ht'].
    apply list_elem_of_singleton in Ht' as ->. apply Hm. by rewrite <- Heq in Hk.
Qed.

Lemma not_master_taint t :
  plain_attributes -> t ∈ node_Taints n ++ foreign_taints -> taint_Key t <> CKETaintMaster.
Proof.
  intros (_ & Hm & _) [Ht|Ht]%elem_of_app Heq.
  - apply Hm. rewrite <- Heq. by apply list_elem_of_fmap_2.
  - apply foreign_taints_spec in Ht as (_ & Hi & _). by rewrite Heq in Hi.
Qed.

Lemma updated_has_labels : plain_attributes -> node_Labels n ⊆ kn_Labels updated.
Proof.
  intros (Hl & _ & _). apply map_subseteq_spec. intros k v Hk. rewrite updated_labels.
  destruct (String.eqb_spec k CKELabelMaster) as [->|_]; [congruence|].
  rewrite andb_false_r. by apply lookup_union_Some_l.
Qed.

Lemma updated_annotations_own : node_Annotations n ⊆ kn_Annotations updated.
Proof. apply map_union_subseteq_l. Qed.

(** A name of CKE that is on the updated object comes from the configuration. *)
Lemma internal_from_config (own cur : gmap string string) k v :
  (own ∪ drop_internal n cur) !! k = Some v -> isInternal k n = true -> has_key own k = true.
Proof.
  intros Hv Hi. unfold has_key. destruct (own !! k) eqn:Ho; [done|].
  by rewrite lookup_union_r, drop_internal_None in Hv.
Qed.

Lemma updated_master_label :
  plain_attributes ->
  kn_Labels updated !! CKELabelMaster = if node_ControlPlane n then Some "true" else None.
Proof.
  intros (Hl & _ & _). rewrite updated_labels. destruct (node_ControlPlane n); [done|].
  simpl. by rewrite lookup_union_r, drop_internal_None.
Qed.

Lemma updated_master_taint :
  plain_attributes ->
  taint_map (kn_Taints updated) !! CKETaintMaster =
    if taintCP && node_ControlPlane n
    then Some (mkTaint CKETaintMaster "" TaintEffectPreferNoSchedule) else None.
Proof.
  intros Hp. rewrite updated_taints, app_assoc. unfold master_taint.
  destruct (taintCP && node_ControlPlane n).
  - apply (taint_map_last _ (mkTaint CKETaintMaster "" TaintEffectPreferNoSchedule) []).
    by intros t ?%elem_of_nil.
  - rewrite app_nil_r. apply taint_map_None. intros t. by apply not_master_taint.
Qed.

Lemma updated_internal_taint t :
  t ∈ kn_Taints updated -> isInternal (taint_Key t) n = true -> taint_Key t <> CKETaintMaster ->
  has_key (taint_map (node_Taints n)) (taint_Key t) = true.
Proof.
  rewrite updated_taints, !elem_of_app. intros [Ht|[Ht|Ht]] Hi Hm.
  - apply taint_map_has. by apply list_elem_of_fmap_2.
  - apply foreign_taints_spec in Ht as (_ & Hf & _). congruence.
  - unfold master_taint in Ht. destruct (taintCP && _); [|by apply elem_of_nil in Ht].
    by apply list_elem_of_singleton in Ht as ->.
Qed.

(** An update of a Node object converges: the object it writes is not
    outdated, provided that the administrator gives the node at most one taint
    per key and does not use the reserved master label and taint. *)
Theorem node_update_converges :
  plain_attributes -> nodeIsOutdated n (updated_attrs n current taintCP) taintCP = false.
Proof.
  intros Hp. fold updated. unfold nodeIsOutdated. cbv zeta.
  rewrite (proj2 (missing_entry_false _ _) (updated_has_labels Hp)).
  rewrite (updated_master_label Hp), (updated_master_taint Hp).
  rewrite (proj2 (missing_entry_false _ _) updated_annotations_own).
  rewrite (proj2 (existsb_false_elem_of _ (range (kn_Labels updated)))).
  2: { intros [k v] Hk%elem_of_range. rewrite updated_labels in Hk.
       destruct (String.eqb_spec k CKELabelMaster) as [->|Hne]; [by rewrite andb_false_r|].
       rewrite andb_false_r in Hk. destruct (isInternal k n) eqn:Hi; [|done].
       by rewrite (internal_from_config _ _ _ _ Hk Hi). }
  rewrite (proj2 (existsb_false_elem_of _ (range (kn_Annotations updated)))).
  2: { intros [k v] Hk%elem_of_range. destruct (isInternal k n) eqn:Hi; [|done].
       by rewrite (internal_from_config _ _ _ _ Hk Hi). }
  rewrite (proj2 (existsb_false_elem_of _ (node_Taints n))).
  2: { intros t Ht. rewrite (updated_taint_own t Hp Ht). by rewrite !String.eqb_refl. }
  rewrite (proj2 (existsb_false_elem_of _ (kn_Taints updated))).
  2: { intros t Ht. destruct (isInternal (taint_Key t) n) eqn:Hi; [|done].
       destruct (String.eqb_spec (taint_Key t) CKETaintMaster); [done|].
       by rewrite (updated_internal_taint t). }
  unfold has_key. rewrite (updated_master_label Hp), (updated_master_taint Hp).
  destruct (node_ControlPlane n), taintCP; done.
Qed.

(** An update only touches what CKE owns.  Labels and annotations that are
    not CKE's and not configured keep their values, those of CKE that are not
    configured any more disappear, and the taints afterwards are the
    configured ones, the foreign ones that were there and, on a control plane
    node to be tainted, the master taint. *)
Theorem node_update_preserves :
  let updated := updated_attrs n current taintCP in
  kn_Name updated = kn_Name current /\ kn_Unschedulable updated = kn_Unschedulable current
  /\ (forall k, isInternal k n = false -> node_Labels n !! k = None ->
        kn_Labels updated !! k = kn_Labels current !! k)
  /\ (forall k, isInternal k n = true -> k <> CKELabelMaster ->
        kn_Labels updated !! k = node_Labels n !! k)
  /\ (forall k, kn_Annotations updated !! k =
        match node_Annotations n !! k with
        | Some v => Some v
        | None => if isInternal k n then None else kn_Annotations current !! k
        end)
  /\ (forall t, t ∈ kn_Taints updated <->
        t ∈ node_Taints n
        \/ (t ∈ kn_Taints current /\ isInternal (taint_Key t) n = false
            /\ ~ (taint_Key t ∈ taint_Key <$> node_Taints n))
        \/ (taintCP && node_ControlPlane n = true
            /\ t = mkTaint CKETaintMaster "" TaintEffectPreferNoSchedule)).
Proof.
  cbv zeta. fold updated. split_and!; try done.
  - intros k Hi Hn. rewrite updated_labels.
    destruct (String.eqb_spec k CKELabelMaster) as [->|_]; [done|]. rewrite andb_false_r.
    by rewrite lookup_union_r, lookup_drop_external.
  - intros k Hi Hn. rewrite updated_labels, (proj2 (String.eqb_neq _ _) Hn), andb_false_r.
    rewrite lookup_union, drop_internal_None by done. by destruct (node_Labels n !! k).
  - intros k. unfold updated, updated_attrs. cbn [kn_Annotations]. rewrite lookup_union.
    destruct (isInternal k n) eqn:Hi;
      [rewrite drop_internal_None by done|rewrite lookup_drop_external by done];
      destruct (node_Annotations n !! k), (kn_Annotations current !! k); done.
  - intros t. rewrite updated_taints, !elem_of_app, foreign_taints_spec. unfold master_taint.
    destruct (taintCP && node_ControlPlane n);
      rewrite ?list_elem_of_singleton, ?elem_of_nil; intuition congruence.
Qed.
End update.

(** A configuration may give a node two taints with the same key and
    different effects, as Kubernetes allows and the validation accepts; but
    then the node counts as outdated whatever its Node object is, so the
    update is repeated forever. *)
Theorem duplicate_taint_never_converges n t1 t2 :
  t1 ∈ node_Taints n -> t2 ∈ node_Taints n -> taint_Key t1 = taint_Key t2 ->
  taint_Effect t1 <> taint_Effect t2 ->
  forall current taintCP, nodeIsOutdated n current taintCP = true.
Proof.
  intros H1 H2 Hk He current taintCP. unfold nodeIsOutdated. cbv zeta.
  match goal with |- context [existsb ?q (node_Taints n)] =>
    destruct (existsb q (node_Taints n)) eqn:Hq end.
  - repeat match goal with |- (if ?b then true else _) = true => destruct b; [done|] end. done.
  - exfalso. rewrite existsb_false_elem_of in Hq.
    pose proof (Hq t1 H1) as Hq1. pose proof (Hq t2 H2) as Hq2. cbv beta in Hq1, Hq2.
    rewrite <- Hk in Hq2. destruct (taint_map _ !! taint_Key t1) as [cv|]; [|done].
    rewrite orb_false_iff, !negb_false_iff, !String.eqb_eq in Hq1.
    rewrite orb_false_iff, !negb_false_iff, !String.eqb_eq in Hq2. destruct Hq1, Hq2. congruence.
Qed.
End attrs.

(** ** Samples *)
Section attrs_samples.
  Existing Instance sample_types.
  Existing Instance sample_k8s.
  Existing Instance std_runtime.

Definition labelled_node : Node :=
  mkNode "10.0.0.11" "" "cybozu" true {[ "node-role.kubernetes.io/cs" := "true" ]} ∅
    [mkTaint "example.com/dedicated" "infra" "NoSchedule"].
Definition stale_object : KubeNode :=
  mkKubeNode "10.0.0.11" (<[ "cke.cybozu.com/old" := "1" ]> {[ "topology" := "rack1" ]}) ∅
    [mkTaint "cke.cybozu.com/drain" "" "NoExecute"; mkTaint "example.com/lock" "" "NoSchedule"]
    false [] false.
Definition twice_tainted_node : Node :=
  mkNode "10.0.0.103" "" "cybozu" false ∅ ∅
    [mkTaint "example.com/dedicated" "infra" "NoSchedule";
     mkTaint "example.com/dedicated" "infra" "NoExecute"].

Lemma node_update_converges_witness :
  nodeIsOutdated labelled_node stale_object true = true
  /\ nodeIsOutdated labelled_node (updated_attrs labelled_node stale_object true) true = false.
Proof.
  split; [vm_compute; reflexivity|].
  apply (node_update_converges labelled_node stale_object true).
  split_and!; [reflexivity| |apply NoDup_singleton].
  intros [Hin|Hin]%elem_of_cons; [discriminate|by apply elem_of_nil in Hin].
Defined.

Lemma duplicate_taint_never_converges_witness :
  Validate (sample_cluster (twice_tainted_node :: sample_nodes) None) false = None
  /\ nodeIsOutdated twice_tainted_node (updated_attrs twice_tainted_node stale_object true) true
     = true.
Proof.
  split; [vm_compute; reflexivity|].
  apply (duplicate_taint_never_converges twice_tainted_node
           (mkTaint "example.com/dedicated" "infra" "NoSchedule")
           (mkTaint "example.com/dedicated" "infra" "NoExecute"));
    [left|right; left|reflexivity|discriminate].
Defined.
End attrs_samples.
