(* ===== verification/EndpointProps.v ===== *)
(** * Endpoints of the API servers and of etcd

    What the Endpoints and EndpointSlice objects CKE maintains contain, and
    that their updates converge. *)

From Stdlib Require Import ZArith Ascii String Lia.
From stdpp Require Import base gmap strings list.
From S2P Require Import Prelude GoLib K8s Cluster Queue Resource Status Dns Params NodeFilter.
From S2P Require Import Operators Strategy Samples StrategyTotal StrategySafety.

(** ** Maps and lists of addresses *)

Lemma foldl_insert_const {V} (b : V) l (m : gmap string V) k :
  foldl (fun m ip => <[ ip := b ]> m) m l !! k = if bool_decide (k ∈ l) then Some b else m !! k.
Proof.
  revert m. induction l as [|x l IH]; intros m; simpl; [done|]. rewrite IH.
  destruct (decide (k = x)) as [->|Hne].
  - rewrite lookup_insert_eq, (bool_decide_true (x ∈ x :: l)) by left. by case_bool_decide.
  - rewrite lookup_insert_ne by done.
    by rewrite (bool_decide_ext (k ∈ x :: l) (k ∈ l)) by (rewrite elem_of_cons; naive_solver).
Qed.

Lemma address_missing_spec expect actual :
  address_missing expect actual = false <-> forall a, a ∈ actual -> a ∈ expect.
Proof.
  unfold address_missing. rewrite existsb_false_elem_of.
  apply forall_proper. intros a. rewrite negb_false_iff, bool_decide_eq_true.
  by rewrite elem_of_list_to_set.
Qed.

(** The check the loops make, length and membership, is equality up to order
    when the addresses are distinct. *)
Lemma same_addresses (expect actual : list string) :
  length actual = length expect -> address_missing expect actual = false -> NoDup actual ->
  actual ≡ₚ expect.
Proof.
  intros Hlen Hin Hnd. rewrite address_missing_spec in Hin.
  apply submseteq_length_Permutation; [by apply NoDup_submseteq|lia].
Qed.

Lemma index_0 {A} (x : A) l : index (x :: l) 0 = Ret x.
Proof. done. Qed.

Section endpoints.
  Context {T : K8sTypes} {K : K8s} `{Runtime}.
  Implicit Types (c : Cluster) (cs : ClusterStatus).

Lemma label_differs_refl m : label_differs m m = false.
Proof.
  unfold label_differs. apply existsb_false_elem_of. intros [k v] Hk%elem_of_range.
  rewrite Hk. simpl. by rewrite String.eqb_refl.
Qed.

(** ** The slice that is written *)

Lemma expected_slice_endpoints p e :
  e ∈ eps_Endpoints (expected_slice p) <->
  exists ip, ip ∈ epp_readyIPs p ++ epp_notReadyIPs p
    /\ e = mkEndpoint [ip] (Some (bool_decide (ip ∈ epp_readyIPs p)
                                  && negb (bool_decide (ip ∈ epp_notReadyIPs p)))).
Proof.
  unfold expected_slice. cbn [eps_Endpoints]. rewrite list_elem_of_fmap.
  apply exist_proper. intros ip. rewrite elem_of_Compact, sort_strings_perm.
  unfold lookup_bool. rewrite foldl_insert_const, foldl_insert_const, lookup_empty.
  case_bool_decide; case_bool_decide; simpl; naive_solver.
Qed.

Lemma expected_slice_NoDup p : NoDup (eps_Endpoints (expected_slice p)).
Proof.
  unfold expected_slice. cbn [eps_Endpoints]. apply NoDup_fmap_2_strong.
  - intros x y _ _ [=]. done.
  - apply Compact_sorted_NoDup, sort_strings_sorted.
Qed.

(** ** Convergence *)

Lemma decideEpOp_refl p api : decideEpOp (expected_endpoints p) (Some (expected_endpoints p)) api = Ret None.
Proof.
  unfold decideEpOp, expected_endpoints. cbn [ep_Subsets ep_Labels ss_Ports ss_Addresses
    ss_NotReadyAddresses]. rewrite label_differs_refl, index_0. cbn [mbind go_bind ss_Ports].
  rewrite index_0. cbn [mbind go_bind snd ss_Addresses ss_NotReadyAddresses].
  rewrite Z.eqb_refl, !Nat.eqb_refl. cbn [negb orb].
  by rewrite !(proj2 (address_missing_spec _ _)).
Qed.

Lemma endpoint_differs_refl e : is_Some (e_Ready e) -> endpoint_differs e e = Ret false.
Proof.
  intros [b Hb]. unfold endpoint_differs. rewrite Hb. cbn. rewrite eqb_reflx, Nat.eqb_refl. cbn.
  by rewrite (proj2 (address_missing_spec _ _)).
Qed.

Lemma endpoints_differ_refl l :
  (forall e, e ∈ l -> is_Some (e_Ready e)) ->
  go_existsb (fun '(a, e) => endpoint_differs a e) (zip l l) = Ret false.
Proof.
  induction l as [|e l IH]; intros Hl; [done|]. simpl.
  rewrite endpoint_differs_refl by (apply Hl; left). simpl. apply IH. intros e' He'. apply Hl. by right.
Qed.

Lemma decideEpsOp_refl p api : decideEpsOp (expected_slice p) (Some (expected_slice p)) api = Ret None.
Proof.
  unfold decideEpsOp. rewrite label_differs_refl, String.eqb_refl, Nat.eqb_refl. cbn [negb].
  rewrite endpoints_differ_refl.
  2: { intros e (ip & _ & ->)%expected_slice_endpoints. by eexists. }
  unfold expected_slice. cbn [mbind go_bind eps_Ports]. rewrite index_0.
  cbn [mbind go_bind fst snd deref]. by rewrite String.eqb_refl, Z.eqb_refl.
Qed.

(** The updates of endpoints converge: once the Endpoints and the
    EndpointSlice are the ones CKE writes, nothing is decided any more. *)
Theorem endpoints_converge p api :
  decideEpEpsOps p (Some (expected_endpoints p)) (Some (expected_slice p)) api = Ret [].
Proof. unfold decideEpEpsOps. by rewrite decideEpOp_refl, decideEpsOp_refl. Qed.

Lemma decideEpOp_None p ep api :
  decideEpOp (expected_endpoints p) (Some ep) api = Ret None ->
  exists sub name, ep_Subsets ep = [sub] /\ ss_Ports sub = [(name, epp_port p)]
    /\ (NoDup (ss_Addresses sub) -> ss_Addresses sub ≡ₚ epp_readyIPs p)
    /\ (NoDup (ss_NotReadyAddresses sub) -> ss_NotReadyAddresses sub ≡ₚ epp_notReadyIPs p).
Proof.
  unfold decideEpOp. intros Hd.
  destruct (ep_Subsets ep) as [|sub [|]]; cbv zeta in Hd; try done.
  split_match_in Hd; [done|]. unfold expected_endpoints in Hd.
  cbn [ep_Subsets] in Hd. rewrite index_0 in Hd. cbn [mbind go_bind ss_Ports] in Hd.
  rewrite index_0 in Hd. cbn [mbind go_bind snd ss_Addresses ss_NotReadyAddresses] in Hd.
  destruct (ss_Ports sub) as [|[name port] [|]] eqn:Hports; try done.
  destruct (Z.eqb_spec port (epp_port p)) as [->|]; [|done]. cbn [negb] in Hd.
  destruct (length (ss_Addresses sub) =? _)%nat eqn:Hl1; [|done].
  destruct (length (ss_NotReadyAddresses sub) =? _)%nat eqn:Hl2; [|done]. cbn [negb orb] in Hd.
  destruct (address_missing (epp_readyIPs p) _) eqn:Hm1; [done|].
  destruct (address_missing (epp_notReadyIPs p) _) eqn:Hm2; [done|].
  apply Nat.eqb_eq in Hl1, Hl2. exists sub, name. split_and!; try done; by apply same_addresses.
Qed.

Lemma endpoint_differs_false a ip ready :
  endpoint_differs a (mkEndpoint [ip] (Some ready)) = Ret false ->
  a = mkEndpoint [ip] (Some ready).
Proof.
  unfold endpoint_differs. destruct a as [addrs [r|]]; [|done].
  cbn [e_Ready mbind go_bind deref e_Addresses]. intros [= Hd].
  rewrite !orb_false_iff, !negb_false_iff, address_missing_spec in Hd.
  destruct Hd as [[->%eqb_prop Hl] Hin]. destruct addrs as [|x [|]]; try done.
  assert (x ∈ [ip]) as ->%list_elem_of_singleton; [|done]. apply Hin. left.
Qed.

Lemma endpoints_equal actual expect :
  length actual = length expect ->
  (forall e, e ∈ expect -> exists ip ready, e = mkEndpoint [ip] (Some ready)) ->
  go_existsb (fun '(a, e) => endpoint_differs a e) (zip actual expect) = Ret false ->
  actual = expect.
Proof.
  revert expect. induction actual as [|a actual IH]; intros [|e expect] Hl He Hd; try done.
  simpl in Hd. destruct (He e ltac:(left)) as (ip & ready & ->).
  apply bind_Ret_inv in Hd as ([|] & Ha & Hd); [done|].
  apply endpoint_differs_false in Ha as ->. f_equal. apply IH; [by injection Hl| |done].
  intros e' He'. apply He. by right.
Qed.

Lemma decideEpsOp_None p eps api :
  decideEpsOp (expected_slice p) (Some eps) api = Ret None ->
  eps_AddressType eps = "IPv4" /\ eps_Endpoints eps = eps_Endpoints (expected_slice p)
  /\ eps_Ports eps = [(Some (epp_portName p), Some (epp_port p))].
Proof.
  unfold decideEpsOp. intros Hd. cbv zeta in Hd. split_match_in Hd; [done|].
  destruct (String.eqb_spec (eps_AddressType eps) (eps_AddressType (expected_slice p)))
    as [Ht|]; [|done]. cbn [negb] in Hd.
  destruct (length (eps_Endpoints eps) =? _)%nat eqn:Hl; [|done]. cbn [negb] in Hd.
  apply bind_Ret_inv in Hd as ([|] & He & Hd); [done|]. cbv beta iota in Hd.
  split; [done|]. split.
  { apply endpoints_equal; [by apply Nat.eqb_eq| |done].
    intros e (ip & _ & ->)%expected_slice_endpoints. eauto. }
  destruct (eps_Ports eps) as [|[aname aport] [|]]; try done.
  unfold expected_slice in Hd. cbn [eps_Ports] in Hd. rewrite index_0 in Hd.
  cbn [mbind go_bind fst snd deref] in Hd. destruct aname as [aname|]; [|done].
  destruct (String.eqb_spec aname (epp_portName p)) as [->|]; [|done]. cbn [negb] in Hd.
  destruct aport as [aport|]; [|done].
  destruct (Z.eqb_spec aport (epp_port p)) as [Hp|]; [by rewrite Hp|done].
Qed.

(** When nothing is decided on the endpoints of a service, the objects say
    what they should: the Endpoints object has the expected ready and not
    ready addresses (if it repeats none) and the expected port, and the
    EndpointSlice has exactly the expected endpoints with their readiness and
    the expected port. *)
Theorem endpoints_settled p ep eps api :
  decideEpEpsOps p (Some ep) (Some eps) api = Ret [] ->
  (exists sub name, ep_Subsets ep = [sub] /\ ss_Ports sub = [(name, epp_port p)]
    /\ (NoDup (ss_Addresses sub) -> ss_Addresses sub ≡ₚ epp_readyIPs p)
    /\ (NoDup (ss_NotReadyAddresses sub) -> ss_NotReadyAddresses sub ≡ₚ epp_notReadyIPs p))
  /\ eps_AddressType eps = "IPv4" /\ eps_Endpoints eps = eps_Endpoints (expected_slice p)
  /\ eps_Ports eps = [(Some (epp_portName p), Some (epp_port p))].
Proof.
  unfold decideEpEpsOps. intros (epOp & Hep & Hd)%bind_Ret_inv.
  apply bind_Ret_inv in Hd as (epsOp & Heps & Hd). injection Hd as [H1 H2]%app_eq_nil.
  destruct epOp; [done|]. destruct epsOp; [done|].
  split; [by eapply decideEpOp_None|by eapply decideEpsOp_None].
Qed.

(** ** The endpoints of the API servers *)

(** An API server that answers and is neither being rebooted nor marked. *)
Definition serving cs (marked : list string) (n : Node) : bool :=
  match cs_NodeStatuses cs !! node_Address n with
  | Some st => kcs_IsHealthy (ns_APIServer st)
               && negb (rebootProcessing cs (node_Address n)
                        || Contains marked (node_Address n))
  | None => false
  end.

Section master.
  Context (c : Cluster) (cs : ClusterStatus) (marked : list string).
  Hypothesis Haddr : NoDup (node_Address <$> c_Nodes c).
  Local Abbreviation nf := (NewNodeFilter c cs).
  Local Abbreviation cp := (ControlPlaneNodes (NewNodeFilter c cs)).
Let mark n := rebootProcessing cs (node_Address n) || Contains marked (node_Address n).

Lemma cp_address_inj n m : n ∈ cp -> m ∈ cp -> node_Address n = node_Address m -> n = m.
Proof.
  intros [Hn _]%cp_nodes [Hm _]%cp_nodes. by apply (NoDup_fmap_elem_inj node_Address (c_Nodes c)).
Qed.

Lemma ready_ips healthy n :
  APIServerHealthy nf cp = Ret healthy -> n ∈ cp ->
  node_Address n ∈ node_Address <$> List.filter (fun n => negb (mark n)) healthy
  <-> serving cs marked n = true.
Proof.
  intros Hh Hn. rewrite list_elem_of_fmap. unfold serving. split.
  - intros (m & Heq & [Hm Hmark]%elem_of_filterb).
    apply (filter_status_inv _ _ _ _ Hh) in Hm as (Hm & st & Hst & Hp).
    rewrite (cp_address_inj n m) by done. rewrite nodeStatus_nf in Hst. rewrite Hst, Hp. done.
  - destruct (cs_NodeStatuses cs !! node_Address n) as [st|] eqn:Hst; [|done].
    intros [Hp Hmark]%andb_true_iff. exists n. split; [done|]. apply elem_of_filterb.
    split; [|done]. apply (filter_status_inv _ _ _ _ Hh). split; [done|].
    exists st. by rewrite nodeStatus_nf.
Qed.

Lemma not_ready_ips healthy unhealthy n :
  APIServerHealthy nf cp = Ret healthy -> APIServerUnhealthy nf cp = Ret unhealthy -> n ∈ cp ->
  node_Address n ∈ (node_Address <$> List.filter mark healthy) ++ (node_Address <$> unhealthy)
  <-> serving cs marked n = false.
Proof.
  intros Hh Hu Hn. rewrite elem_of_app, !list_elem_of_fmap. unfold serving. split.
  - intros [(m & Heq & [Hm Hmark]%elem_of_filterb)|(m & Heq & Hm)].
    + apply (filter_status_inv _ _ _ _ Hh) in Hm as (Hm & st & Hst & Hp).
      rewrite (cp_address_inj n m) by done. rewrite nodeStatus_nf in Hst.
      rewrite Hst, Hp. fold (mark m). by rewrite Hmark.
    + apply (filter_status_inv _ _ _ _ Hu) in Hm as (Hm & st & Hst & Hp).
      rewrite (cp_address_inj n m) by done. rewrite nodeStatus_nf in Hst.
      rewrite Hst. apply negb_true_iff in Hp. by rewrite Hp.
  - destruct (filter_status_has _ _ _ _ Hh n Hn) as [st Hst].
    rewrite nodeStatus_nf in Hst. rewrite Hst. fold (mark n).
    destruct (kcs_IsHealthy (ns_APIServer st)) eqn:Hp.
    + intros Hmark%negb_false_iff. left. exists n. split; [done|]. apply elem_of_filterb.
      split; [|done]. apply (filter_status_inv _ _ _ _ Hh). split; [done|].
      exists st. by rewrite nodeStatus_nf.
    + intros _. right. exists n. split; [done|]. apply (filter_status_inv _ _ _ _ Hu).
      split; [done|]. exists st. rewrite nodeStatus_nf. by rewrite Hp.
Qed.

Lemma listed_ips healthy unhealthy ip :
  APIServerHealthy nf cp = Ret healthy -> APIServerUnhealthy nf cp = Ret unhealthy ->
  ip ∈ (node_Address <$> List.filter (fun n => negb (mark n)) healthy)
       ++ (node_Address <$> List.filter mark healthy) ++ (node_Address <$> unhealthy)
  <-> ip ∈ node_Address <$> cp.
Proof.
  intros Hh Hu. rewrite (list_elem_of_fmap node_Address cp). split.
  - rewrite !elem_of_app, !list_elem_of_fmap.
    intros [(m & -> & [Hm _]%elem_of_filterb)|[(m & -> & [Hm _]%elem_of_filterb)|(m & -> & Hm)]];
      exists m; split; try done; eauto using filter_status_sub.
  - intros (n & -> & Hn). apply elem_of_app. destruct (serving cs marked n) eqn:Hs.
    + left. by apply ready_ips.
    + right. by apply not_ready_ips.
Qed.

Lemma ready_flag healthy unhealthy n :
  APIServerHealthy nf cp = Ret healthy -> APIServerUnhealthy nf cp = Ret unhealthy -> n ∈ cp ->
  bool_decide (node_Address n ∈ node_Address <$> List.filter (fun n => negb (mark n)) healthy)
  && negb (bool_decide (node_Address n ∈ (node_Address <$> List.filter mark healthy)
                                         ++ (node_Address <$> unhealthy)))
  = serving cs marked n.
Proof.
  intros Hh Hu Hn.
  rewrite (bool_decide_ext _ _ (ready_ips healthy n Hh Hn)).
  rewrite (bool_decide_ext _ _ (not_ready_ips healthy unhealthy n Hh Hu Hn)).
  by destruct (serving cs marked n).
Qed.
End master.

(** C37: the endpoints of the Kubernetes service are exact.  With distinct node
    addresses, an EndpointSlice written for the API servers lists every
    control plane node once, and nothing else; a node is ready in it exactly
    when its API server answers, it is not being drained or rebooted, and it
    is not marked (about to be restarted, or next to be rebooted). *)
Theorem master_endpoints_exact c cs marked ops api eps :
  NoDup (node_Address <$> c_Nodes c) ->
  masterEndpointOps cs (NewNodeFilter c cs) marked = Ret ops ->
  KubeEndpointSliceCreateOp api eps ∈ ops \/ KubeEndpointSliceUpdateOp api eps ∈ ops ->
  NoDup (eps_Endpoints eps)
  /\ forall e, e ∈ eps_Endpoints eps <->
       exists n, n ∈ ControlPlanes (c_Nodes c)
         /\ e = mkEndpoint [node_Address n] (Some (serving cs marked n)).
Proof.
  intros Hnd Hd Ho. unfold masterEndpointOps in Hd.
  apply bind_Ret_inv in Hd as (healthy & Hh & Hd).
  apply bind_Ret_inv in Hd as (unhealthy & Hu & Hd). cbv zeta in Hd.
  apply bind_Ret_inv in Hd as (api' & _ & Hd).
  match type of Hd with decideEpEpsOps ?p _ _ _ = _ => set (p0 := p) in Hd end.
  assert (eps = expected_slice p0) as ->.
  { destruct Ho as [Ho|Ho]; apply (decideEpEpsOps_shape _ _ _ _ _ _ Hd) in Ho;
      rewrite !elem_of_cons, elem_of_nil in Ho; naive_solver. }
  split; [apply expected_slice_NoDup|]. intros e. rewrite expected_slice_endpoints.
  rewrite <- (NewNodeFilter_cp c cs). unfold p0. cbn [epp_readyIPs epp_notReadyIPs]. split.
  - intros (ip & Hip & ->). apply (listed_ips c cs marked Hnd _ _ _ Hh Hu) in Hip.
    apply list_elem_of_fmap in Hip as (n & -> & Hn). exists n. split; [done|].
    do 2 f_equal. by apply (ready_flag c cs marked Hnd).
  - intros (n & Hn & ->). exists (node_Address n). split.
    + apply (listed_ips c cs marked Hnd _ _ _ Hh Hu). by apply list_elem_of_fmap_2.
    + do 2 f_equal. symmetry. by apply (ready_flag c cs marked Hnd).
Qed.
End endpoints.

(** ** Witnesses *)
#[local] Existing Instance sample_types.
#[local] Existing Instance sample_k8s.
#[local] Existing Instance std_runtime.

Definition sample_params : endpointParams :=
  mkEndpointParams "default" "kubernetes" ["10.0.0.11"; "10.0.0.12"] ["10.0.0.13"] 6443 "https"
    "kubernetes".
(** The same object with its addresses in another order. *)
Definition sample_endpoints : Endpoints :=
  mkEndpoints "default" "kubernetes" {[ "endpointslice.kubernetes.io/skip-mirror" := "true" ]}
    [mkEndpointSubset ["10.0.0.12"; "10.0.0.11"] ["10.0.0.13"] [("https", 6443)]].

Lemma endpoints_settled_witness :
  exists sub name, ep_Subsets sample_endpoints = [sub] /\ ss_Ports sub = [(name, 6443)]
    /\ (NoDup (ss_Addresses sub) -> ss_Addresses sub ≡ₚ ["10.0.0.11"; "10.0.0.12"])
    /\ (NoDup (ss_NotReadyAddresses sub) -> ss_NotReadyAddresses sub ≡ₚ ["10.0.0.13"]).
Proof.
  apply (endpoints_settled sample_params sample_endpoints (expected_slice sample_params) None).
  vm_compute. reflexivity.
Defined.

(** One of two outdated API servers is about to be restarted. *)
Definition restarting_status : ClusterStatus :=
  sample_status_on [("10.0.0.12", old_apiserver); ("10.0.0.13", sick_apiserver)].

Lemma master_endpoints_exact_witness :
  exists api eps ops,
    masterEndpointOps restarting_status (NewNodeFilter sample_cluster1 restarting_status)
      ["10.0.0.12"] = Ret ops
    /\ KubeEndpointSliceUpdateOp api eps ∈ ops
    /\ (mkEndpoint ["10.0.0.12"] (Some false) ∈ eps_Endpoints eps
        <-> exists n, n ∈ ControlPlanes sample_nodes
            /\ mkEndpoint ["10.0.0.12"] (Some false)
               = mkEndpoint [node_Address n] (Some (serving restarting_status ["10.0.0.12"] n))).
Proof.
  eexists _, _, _. split; [vm_compute; reflexivity|]. split; [right; left|].
  eapply (master_endpoints_exact sample_cluster1 restarting_status ["10.0.0.12"]);
    [|vm_compute; reflexivity|right; right; left].
  apply (bool_decide_unpack (NoDup (node_Address <$> c_Nodes sample_cluster1))).
  vm_compute. exact I.
Defined.
