(* ===== verification/OpRuns.v ===== *)
(** * What operators leave on the nodes

    The commands the server executes for an operator that starts or restarts a service end
    with the container of the service running on each node of the operator, and with its
    configuration file there; and what the next survey of a node reads of them. *)

From Stdlib Require Import ZArith Ascii String Lia.
From stdpp Require Import base gmap strings list.
From S2P Require Import Prelude GoLib GoFormat GoPath K8s Cluster Queue Resource Status Storage StorageProps Reboot.
From S2P Require Import Dns Params NodeFilter Operators Engine Strategy Survey Pki Files Commands Control.
From S2P Require Import StrategyTotal SurveyProps PkiProps FilesProps StrategySafety ControlProps.

(** ** What is assumed of the nodes

    [cat] prints files.  A container started for a service does not change the configuration
    files of the services, and neither do the other commands of docker; a container of
    tools changes only files in the directories it mounts.  A configuration that has been
    encoded is decoded to the same one, with its type. *)
Definition config_paths : list string := [SchedulerConfigPath; proxyConfigPath; kubeletConfigPath].
Definition service_images : list string := [ToolsImage; EtcdImage; KubernetesImage].

Section hosts.
  Context {T : K8sTypes} {K : K8s} `{Runtime} `{!Platform} `{!Network} `{Docker} `{!Tools} `{!Encoders}.
  Implicit Types (d : daemon).

Definition configs_kept d d' : Prop :=
  forall path, path ∈ config_paths -> host_files d' !! path = host_files d !! path.
Global Instance configs_kept_preorder : PreOrder configs_kept.
Proof. split; [by intros d path|]. intros d1 d2 d3 K1 K2 path Hp. by rewrite K2, K1. Qed.

Definition scheduler_as (tm : TypeMeta) (c : KubeSchedulerConfiguration) : KubeSchedulerConfiguration :=
  mkKubeSchedulerConfiguration tm (sc_ClientConnection_Kubeconfig c) (sc_LeaderElect c) (sc_rest c).
Definition proxy_as (tm : TypeMeta) (c : KubeProxyConfiguration) : KubeProxyConfiguration :=
  mkKubeProxyConfiguration tm (pc_HostnameOverride c) (pc_MetricsBindAddress c) (pc_TCPEstablishedTimeout c)
    (pc_TCPCloseWaitTimeout c) (pc_Mode c) (pc_ClientConnection_Kubeconfig c) (pc_rest c).
Definition kubelet_as (tm : TypeMeta) (c : KubeletConfiguration) : KubeletConfiguration :=
  mkKubeletConfiguration tm (kc_ClusterDomain c) (kc_RuntimeRequestTimeout c) (kc_HealthzBindAddress c)
    (kc_VolumePluginDir c) (kc_TLSCertFile c) (kc_TLSPrivateKeyFile c) (kc_Authentication c)
    (kc_AuthorizationMode c) (kc_ClusterDNS c) (kc_RegisterWithTaints c) (kc_Cgroups c) (kc_rest c).

Class HostLaws := {
  cat_reads : forall path d d' data, run_cat path d = (d', Some data) -> host_files d !! path = Some data;
  cat_configs : forall path d, configs_kept d (fst (run_cat path d));
  ps_configs : forall names d, configs_kept d (fst (docker_ps names d));
  inspect_configs : forall ids d, configs_kept d (fst (docker_inspect ids d));
  volume_list_configs : forall d, configs_kept d (fst (docker_volume_list d));
  rm_configs : forall name d, configs_kept d (fst (docker_rm name d));
  kill_configs : forall name d, configs_kept d (fst (docker_kill name d));
  tee_configs : forall l d, configs_kept d (fst (tee_label l d));
  run_configs : forall r d, dr_image r ∈ service_images -> configs_kept d (fst (docker_run r d));
  tool_configs : forall t d path,
    (forall src dst writable, (src, dst, writable) ∈ dt_volumes t -> HasPrefix path (src +:+ "/") = false) ->
    host_files (fst (docker_tool t d)) !! path = host_files d !! path;
  scheduler_yaml : forall c data, encode_scheduler c = Ok data ->
    decode_scheduler data
      = Some (scheduler_as (mkTypeMeta "kubescheduler.config.k8s.io/v1" "KubeSchedulerConfiguration") c);
  proxy_yaml : forall c data, encode_proxy c = Ok data ->
    decode_proxy data
      = Some (proxy_as (mkTypeMeta "kubeproxy.config.k8s.io/v1alpha1" "KubeProxyConfiguration") c);
  kubelet_yaml : forall c data, encode_kubelet c = Ok data ->
    decode_kubelet data
      = Some (kubelet_as (mkTypeMeta "kubelet.config.k8s.io/v1beta1" "KubeletConfiguration") c)
}.
Context `{!HostLaws}.

(** *** Commands on a node *)
Lemma kept_getID name : eng_rel configs_kept (getID name).
Proof.
  apply eng_rel_bind; [apply _|apply eng_rel_query, ps_configs|intros; apply eng_rel_ret; apply _].
Qed.
Lemma kept_runContainer address name img opts ps extra restart :
  img ∈ service_images -> eng_rel configs_kept (runContainer address name img opts ps extra restart).
Proof.
  intros Himg. unfold runContainer, RunSystem, Exists, Kill, Remove.
  repeat first [ apply kept_getID | apply eng_rel_bind; [apply _| |intros ?]
               | apply eng_rel_ret; apply _ | apply eng_rel_run, rm_configs | apply eng_rel_run, kill_configs
               | apply eng_rel_run, tee_configs | apply eng_rel_run; intros ?; by apply run_configs
               | match goal with |- eng_rel _ (if ?b then _ else _) => destruct b end ].
Qed.

(** *** The configurations are generated without a type *)
Lemma GenerateScheduler_untyped params c :
  GenerateSchedulerConfiguration params = Ret c -> sc_TypeMeta c = no_type_meta.
Proof.
  unfold GenerateSchedulerConfiguration, SchedulerParams_MergeConfig. destruct (sched_Config params) as [u|].
  - do 2 (destruct (negb _); [done|]). destruct (json_scheduler u _) as [x|[]]; [|done..]. by intros [= <-].
  - by intros [= <-].
Qed.
Lemma GenerateProxy_untyped params n c :
  GenerateProxyConfiguration params n = Ret c -> pc_TypeMeta c = no_type_meta.
Proof.
  unfold GenerateProxyConfiguration, ProxyParams_MergeConfig. destruct (proxy_Config params) as [u|].
  - do 2 (destruct (negb _); [done|]). destruct (json_proxy u _) as [x|[]]; [|done..]. by intros [= <-].
  - by intros [= <-].
Qed.
Lemma GenerateKubelet_untyped params a running c :
  GenerateKubeletConfiguration params a running = Ret c -> kc_TypeMeta c = no_type_meta.
Proof.
  unfold GenerateKubeletConfiguration, KubeletParams_MergeConfig. destruct (kubelet_Config params) as [u|].
  - do 2 (destruct (negb _); [done|]). destruct (json_kubelet u _) as [x|[]]; [|done..]. by intros [= <-].
  - by intros [= <-].
Qed.

(** The survey reads what has been generated and encoded. *)
Lemma scheduler_read params data :
  encoded_by (GenerateSchedulerConfiguration params) encode_scheduler = Ret (Ok data) ->
  exists c, GenerateSchedulerConfiguration params = Ret c /\ scheduler_config data = Some c.
Proof.
  destruct (GenerateSchedulerConfiguration params) as [c|] eqn:Hg; [|done]. intros [= Hd%scheduler_yaml].
  exists c. split; [done|]. unfold scheduler_config. rewrite Hd. cbn.
  rewrite <- (GenerateScheduler_untyped _ _ Hg). by destruct c.
Qed.
Lemma proxy_read params n data :
  encoded_by (GenerateProxyConfiguration params n) encode_proxy = Ret (Ok data) ->
  exists c, GenerateProxyConfiguration params n = Ret c /\ proxy_config data = Some c.
Proof.
  destruct (GenerateProxyConfiguration params n) as [c|] eqn:Hg; [|done]. intros [= Hd%proxy_yaml].
  exists c. split; [done|]. unfold proxy_config. rewrite Hd. cbn.
  rewrite <- (GenerateProxy_untyped _ _ _ Hg). by destruct c.
Qed.
Lemma kubelet_read params a running data :
  encoded_by (GenerateKubeletConfiguration params a running) encode_kubelet = Ret (Ok data) ->
  exists c, GenerateKubeletConfiguration params a running = Ret c /\ kubelet_config data = Some c.
Proof.
  destruct (GenerateKubeletConfiguration params a running) as [c|] eqn:Hg; [|done]. intros [= Hd%kubelet_yaml].
  exists c. split; [done|]. unfold kubelet_config. rewrite Hd. cbn.
  rewrite <- (GenerateKubelet_untyped _ _ _ _ Hg). by destruct c.
Qed.
End hosts.

(** ** The survey of a node *)
Section survey_configs.
  Context {T : K8sTypes} {K : K8s} `{Runtime} `{!Etcd} `{!Platform} `{!Network} `{Docker} `{!Tools} `{!Encoders}.
  Context `{!HostLaws}.
  Implicit Types (s : site) (n : Node) (c : Cluster) (ns : NodeStatus).

(** Computations that do nothing on the nodes. *)
Definition stays {A} (m : ctl A) : Prop := forall s, st_world (fst (m s)) = st_world s.
Lemma stays_ret {A} (a : A) : stays (mret a).
Proof. done. Qed.
Lemma stays_raise {A} e : stays (raise (A := A) e).
Proof. done. Qed.
Lemma stays_on_sys {A} (m : drn A) : stays (on_sys m).
Proof. intros s. apply on_sys_world. Qed.
Lemma stays_bind {A B} (m : ctl A) (k : A -> ctl B) : stays m -> (forall a, stays (k a)) -> stays (m ≫= k).
Proof.
  intros Hm Hk s. specialize (Hm s). unfold mbind, ctl_bind.
  destruct (m s) as [s1 [[a|e]|w|]]; cbn in *; [by rewrite Hk|done..].
Qed.
Lemma stays_caught {A} (m : ctl A) : stays m -> stays (caught m).
Proof. intros Hm s. specialize (Hm s). unfold caught. by destruct (m s) as [s1 []]. Qed.
Lemma stays_net {A} (f : platform -> platform * A) : stays (net f).
Proof. apply stays_on_sys. Qed.
End survey_configs.
Create HintDb stays.
#[export] Hint Resolve stays_ret stays_raise stays_on_sys stays_net : stays.
Ltac stays :=
  repeat first [ by auto with stays | apply stays_bind; [|intros ?] | apply stays_caught
               | match goal with |- stays (match ?x with _ => _ end) => destruct x end ].

Section survey_reads.
  Context {T : K8sTypes} {K : K8s} `{Runtime} `{!Etcd} `{!Platform} `{!Network} `{Docker} `{!Tools} `{!Encoders}.
  Context `{!HostLaws}.
  Implicit Types (s : site) (n : Node) (c : Cluster) (ns : NodeStatus).

Lemma stays_health st check : stays check -> stays (health st check).
Proof. intros Hc. unfold health. stays. Qed.
Lemma stays_CheckHealthz a port : stays (CheckHealthz a port).
Proof. unfold CheckHealthz. stays. Qed.
Lemma stays_checkSecureHealthz a port : stays (checkSecureHealthz a port).
Proof. unfold checkSecureHealthz. stays. Qed.
Lemma stays_checkAPIServerHealth n : stays (checkAPIServerHealth n).
Proof. unfold checkAPIServerHealth, failed_request. stays. Qed.
Lemma stays_world {A} (m : ctl A) s s' o : stays m -> m s = (s', o) -> st_world s' = st_world s.
Proof. intros Hm Hs. specialize (Hm s). by rewrite Hs in Hm. Qed.

Lemma engine_rel {A} R a (m : eng A) s s' o :
  eng_rel R m -> engine a m s = (s', Done o) -> R (st_world s a) (st_world s' a).
Proof.
  intros Hm. specialize (Hm (st_world s a)). unfold engine. destruct (connected a s); [|done].
  destruct (m (st_world s a)) as [d r]. intros [= <- _]. cbn in *. unfold set_daemon. by rewrite String.eqb_refl.
Qed.
Lemma cat_Ok a path s s' data :
  cat a path s = (s', Done (Ok data)) ->
  configs_kept (st_world s a) (st_world s' a)
  /\ forall text, data = Some text -> host_files (st_world s a) !! path = Some text.
Proof.
  intros Hc. split.
  - eapply engine_rel; [|exact Hc]. intros d. pose proof (cat_configs path d) as Hk. by destruct (run_cat path d).
  - intros text ->. apply engine_Ok in Hc as (_ & d & Hd).
    destruct (run_cat path (st_world s a)) as [d1 o] eqn:Hr. injection Hd as -> ->. by eapply cat_reads.
Qed.

(** The configuration of a service that runs, in the file or not read. *)
Definition config_from {A} s a (path : string) (read : string -> option A) (cfg : option A) : Prop :=
  exists text, host_files (st_world s a) !! path = Some text /\ cfg = read text.

Lemma scheduler_status_reads a st s s' r :
  scheduler_status a st s = (s', Done (Ok r)) ->
  configs_kept (st_world s a) (st_world s' a)
  /\ (ss_Running st = true -> config_from s a SchedulerConfigPath scheduler_config (scs_Config r)).
Proof.
  intros (s1 & b & Hh & Hk)%ctl_bind_Ok.
  apply stays_world in Hh; [|apply stays_health, stays_checkSecureHealthz].
  destruct (ss_Running st); [|injection Hk as <- _; by rewrite Hh].
  apply ctl_bind_Ok in Hk as (s2 & [data|] & [Hc Hd]%cat_Ok & Hk); [|done]. injection Hk as <- <-.
  rewrite Hh in Hc, Hd. split; [done|]. intros _. exists data. split; [by apply Hd|done].
Qed.
Lemma proxy_status_reads a st s s' r :
  proxy_status a st s = (s', Done (Ok r)) ->
  configs_kept (st_world s a) (st_world s' a)
  /\ (pxs_Config r <> None -> config_from s a proxyConfigPath proxy_config (pxs_Config r)).
Proof.
  intros (s1 & b & Hh & Hk)%ctl_bind_Ok.
  apply stays_world in Hh; [|apply stays_health, stays_CheckHealthz].
  destruct (ss_Running st); [|injection Hk as <- <-; by rewrite Hh].
  apply ctl_bind_Ok in Hk as (s2 & [data|] & [Hc Hd]%cat_Ok & Hk); injection Hk as <- <-;
    rewrite Hh in Hc, Hd; (split; [done|]); [|done]. intros _. exists data. split; [by apply Hd|done].
Qed.
Lemma kubelet_status_reads a st s s' r :
  kubelet_status a st s = (s', Done (Ok r)) ->
  configs_kept (st_world s a) (st_world s' a)
  /\ (kls_Config r <> None -> config_from s a kubeletConfigPath kubelet_config (kls_Config r)).
Proof.
  intros (s1 & b & Hh & Hk)%ctl_bind_Ok.
  apply stays_world in Hh; [|apply stays_health, stays_CheckHealthz].
  destruct (ss_Running st); [|injection Hk as <- <-; by rewrite Hh].
  apply ctl_bind_Ok in Hk as (s2 & [data|] & [Hc Hd]%cat_Ok & Hk); injection Hk as <- <-;
    rewrite Hh in Hc, Hd; (split; [done|]); [|done]. intros _. exists data. split; [by apply Hd|done].
Qed.

Lemma config_from_kept {A} s s1 a path (read : string -> option A) cfg :
  path ∈ config_paths -> configs_kept (st_world s a) (st_world s1 a) ->
  config_from s1 a path read cfg -> config_from s a path read cfg.
Proof. intros Hp Hk (text & Ht & ->). exists text. by rewrite <- (Hk path Hp). Qed.

Lemma GetNodeStatus_configs n c s s' ns :
  GetNodeStatus n c s = (s', Done (Ok ns)) -> connected (node_Address n) s = true ->
  (ss_Running (scs_Service (ns_Scheduler ns)) = true ->
     config_from s (node_Address n) SchedulerConfigPath scheduler_config (scs_Config (ns_Scheduler ns)))
  /\ (pxs_Config (ns_Proxy ns) <> None ->
       config_from s (node_Address n) proxyConfigPath proxy_config (pxs_Config (ns_Proxy ns)))
  /\ (kls_Config (ns_Kubelet ns) <> None ->
       config_from s (node_Address n) kubeletConfigPath kubelet_config (kls_Config (ns_Kubelet ns))).
Proof.
  unfold GetNodeStatus. set (a := node_Address n).
  intros (s1 & b & G1 & Hk)%ctl_bind_Ok Hc. injection G1 as <- <-. rewrite Hc in Hk. cbn [negb] in Hk.
  apply ctl_bind_Ok in Hk as (s2 & ss & G2 & Hk). apply ctl_bind_Ok in Hk as (s3 & b3 & G3 & Hk).
  apply ctl_bind_Ok in Hk as (s4 & b4 & G4 & Hk). apply ctl_bind_Ok in Hk as (s5 & b5 & G5 & Hk).
  apply ctl_bind_Ok in Hk as (s6 & b6 & G6 & Hk). apply ctl_bind_Ok in Hk as (s7 & r7 & G7 & Hk).
  apply ctl_bind_Ok in Hk as (s8 & r8 & G8 & Hk). apply ctl_bind_Ok in Hk as (s9 & r9 & G9 & Hk).
  injection Hk as _ <-. cbn.
  apply (engine_rel configs_kept) in G2; [|apply eng_rel_Inspect; [apply _|apply ps_configs|apply inspect_configs]].
  apply (engine_rel configs_kept) in G3; [|apply eng_rel_VolumeExists; [apply _|apply volume_list_configs]].
  apply (engine_rel configs_kept) in G4; [|apply eng_rel_VolumeExists; [apply _|apply volume_list_configs]].
  apply stays_world in G5; [|apply stays_health, stays_checkAPIServerHealth].
  apply stays_world in G6; [|apply stays_health, stays_checkSecureHealthz].
  assert (configs_kept (st_world s a) (st_world s6 a)) as K6 by (rewrite G6, G5; by do 2 (etransitivity; [eassumption|])).
  pose proof (scheduler_status_Ok _ _ _ _ _ G7) as [E7 _].
  apply scheduler_status_reads in G7 as [K7 R7]. apply proxy_status_reads in G8 as [K8 R8].
  apply kubelet_status_reads in G9 as [_ R9].
  assert (configs_kept (st_world s a) (st_world s7 a)) as K67 by (by etransitivity).
  assert (configs_kept (st_world s a) (st_world s8 a)) as K68 by (by etransitivity).
  rewrite E7. split_and!; intros Hr.
  - eapply (config_from_kept s s6); [|done|by apply R7]. by apply (bool_decide_unpack _).
  - eapply (config_from_kept s s7); [|done|by apply R8]. by apply (bool_decide_unpack _).
  - eapply (config_from_kept s s8); [|done|by apply R9]. by apply (bool_decide_unpack _).
Qed.
End survey_reads.

(** ** The commands of an operator *)
Section runs.
  Context {T : K8sTypes} {K : K8s} `{Runtime} `{!Etcd} `{!Platform} `{!Network} `{Docker} `{!Vault}.
  Context `{!Agents} `{!Executor} `{!Tools} `{!Encoders} `{!HostLaws} (IPAdd : list Z -> Z -> list Z).
  Context (cas : nat) (leaderKey : string).
  Local Abbreviation executed := (executed IPAdd cas leaderKey).
  Implicit Types (o : Operator) (c : Cluster) (n : Node) (s : site).

(** The container an operator runs. *)
Definition service_run o : option (string * string * RunParams * ServiceParams) :=
  match o with
  | RiversBootOp _ ups params name up lp | RiversRestartOp _ ups params name up lp =>
      Some (name, ToolsImage, SameParams (RiversParams ups up lp), params)
  | EtcdBootOp nodes params =>
      Some (EtcdContainerName, EtcdImage,
            params_map (fun n => etcd_BuiltInParams n (initial_cluster nodes) "new") nodes,
            etcd_ServiceParams params)
  | EtcdStartOp nodes params =>
      Some (EtcdContainerName, EtcdImage,
            params_map (fun n => etcd_BuiltInParams n [] EmptyString) nodes,
            etcd_ServiceParams params)
  | EtcdRestartOp cp target params =>
      Some (EtcdContainerName, EtcdImage,
            SameParams (etcd_BuiltInParams target (initial_cluster cp) "new"),
            etcd_ServiceParams params)
  | APIServerRestartOp nodes subnet params domain =>
      Some ("kube-apiserver", KubernetesImage,
            params_map (fun n => apiserver_params (node_Address n) subnet (AuditLogEnabled params)
                                   (AuditLogPolicy params) (AuditLogPath params) domain) nodes,
            api_ServiceParams params)
  | ControllerManagerBootOp _ cluster subnet params
  | ControllerManagerRestartOp _ cluster subnet params =>
      Some ("kube-controller-manager", KubernetesImage,
            SameParams (ControllerManagerParams cluster subnet), params)
  | SchedulerBootOp _ _ params | SchedulerRestartOp _ _ params =>
      Some ("kube-scheduler", KubernetesImage, SameParams scheduler_params,
            sched_ServiceParams params)
  | KubeletBootOp nodes _ _ _ params _ | KubeletRestartOp nodes _ params _ =>
      Some ("kubelet", KubernetesImage, params_map (fun n => KubeletServiceParams n params) nodes,
            kubelet_ServiceParams params)
  | KubeProxyBootOp nodes _ _ params | KubeProxyRestartOp nodes _ _ params =>
      Some ("kube-proxy", KubernetesImage, params_map (fun _ => proxy_params) nodes,
            proxy_ServiceParams params)
  | _ => None
  end.

(** It is run last, apart from commands that leave containers alone. *)
Definition leaves_containers (cmd : Commander) : bool :=
  match cmd with
  | waitEtcdSyncCommand _ _ | setupEtcdAuthCommand _ | VolumeCreateCommand _ _ | waitForKubeletReadyCommand _ => true
  | _ => false
  end.
Definition runs (cmds : list Commander) (nodes : list Node) (name img : string) (ps : RunParams)
    (extra : ServiceParams) : Prop :=
  exists pre opts restart post,
    cmds = pre ++ RunContainerCommand nodes name img opts ps extra restart :: post
    /\ Forall (fun cmd => leaves_containers cmd = true) post.

Lemma runs_here nodes name img opts ps extra restart post :
  Forall (fun cmd => leaves_containers cmd = true) post ->
  runs (RunContainerCommand nodes name img opts ps extra restart :: post) nodes name img ps extra.
Proof. intros Hq. by exists [], opts, restart, post. Qed.
Lemma runs_later cmd cmds nodes name img ps extra :
  runs cmds nodes name img ps extra -> runs (cmd :: cmds) nodes name img ps extra.
Proof. intros (pre & opts & restart & post & -> & Hq). by exists (cmd :: pre), opts, restart, post. Qed.

Lemma commands_run o name img ps extra :
  service_run o = Some (name, img, ps, extra) ->
  runs (commands o) (op_nodes o) name img ps extra.
Proof.
  destruct o; intros Hs; try discriminate Hs; injection Hs as <- <- <- <-;
    unfold commands; cbn -[runs params_map RiversParams];
    repeat match goal with |- context [if ?b then _ else _] => destruct b; cbn -[runs params_map] end;
    repeat first [apply runs_here; repeat constructor | apply runs_later].
Qed.

(** The configuration file an operator writes, and what it generates for it. *)
Definition config_of o : option (string * (Node -> go (result string))) :=
  match o with
  | SchedulerBootOp _ _ params | SchedulerRestartOp _ _ params =>
      Some (SchedulerConfigPath, fun _ => encoded_by (GenerateSchedulerConfiguration params) encode_scheduler)
  | KubeletBootOp _ _ _ _ params statuses | KubeletRestartOp _ _ params statuses =>
      Some (kubeletConfigPath, fun n =>
        encoded_by (GenerateKubeletConfiguration params (node_Address n)
                      (ns ← statuses !! node_Address n; kls_Config (ns_Kubelet ns))) encode_kubelet)
  | KubeProxyBootOp _ _ _ params | KubeProxyRestartOp _ _ _ params =>
      Some (proxyConfigPath, fun n => encoded_by (GenerateProxyConfiguration params n) encode_proxy)
  | _ => None
  end.
(** It is written before commands that leave it alone. *)
Definition leaves_configs (cmd : Commander) : bool :=
  match cmd with
  | installCNICommand _ | retaintBeforeKubeletBootCommand _ _ _ | waitForKubeletReadyCommand _ => true
  | RunContainerCommand _ _ img _ _ _ _ => bool_decide (img ∈ service_images)
  | _ => false
  end.
Definition writes (cmds : list Commander) (nodes : list Node) (path : string) (f : Node -> go (result string))
    : Prop :=
  exists pre prepare plan post,
    cmds = pre ++ prepare :: FilesBuilder nodes :: post
    /\ Forall (fun cmd => plan_of IPAdd cmd = None) pre
    /\ plan_of IPAdd prepare = Some (nodes, plan) /\ File path (Generated f) ∈ plan
    /\ Forall (fun cmd => leaves_configs cmd = true) post.

Lemma writes_here prepare nodes post path f plan :
  plan_of IPAdd prepare = Some (nodes, plan) -> File path (Generated f) ∈ plan ->
  Forall (fun cmd => leaves_configs cmd = true) post ->
  writes (prepare :: FilesBuilder nodes :: post) nodes path f.
Proof. intros Hp Hin Hq. by exists [], prepare, plan, post. Qed.
Lemma writes_later cmd cmds nodes path f :
  plan_of IPAdd cmd = None -> writes cmds nodes path f -> writes (cmd :: cmds) nodes path f.
Proof.
  intros Hc (pre & prepare & plan & post & -> & Hpre & Hq). exists (cmd :: pre), prepare, plan, post.
  split; [done|]. split; [by constructor|done].
Qed.

Lemma commands_write o path f :
  config_of o = Some (path, f) -> writes (commands o) (op_nodes o) path f.
Proof.
  destruct o; intros Hs; try discriminate Hs; injection Hs as <- <-;
    unfold commands; cbn -[writes params_map service_images];
    repeat match goal with |- context [if ?b then _ else _] => destruct b; cbn -[writes params_map service_images] end;
    repeat first [ eapply writes_here; [reflexivity| |repeat constructor] | apply writes_later; [done|] ];
    repeat (rewrite elem_of_app; right); unfold kubelet_config_plan; repeat first [left|right].
Qed.
(** ** What the commands do *)
Lemma stays_each {A} (f : A -> ctl unit) l : (forall x, stays (f x)) -> stays (each f l).
Proof. intros Hf. induction l as [|x l IH]; cbn [each]; stays. Qed.
Lemma stays_with_retries m try : stays try -> stays (with_retries m try).
Proof. intros Ht. induction m as [|m IH]; cbn [with_retries]; stays. Qed.
Lemma stays_healthy_members endpoints eps m : stays (healthy_members endpoints eps m).
Proof. revert m. induction eps as [|ep eps IH]; intros m; cbn [healthy_members]; stays. Qed.
Lemma stays_retaint_node m taints name : stays (retaint_node m taints name).
Proof. induction m as [|m IH]; cbn [retaint_node]; stays. Qed.
Lemma stays_waits cmd files :
  match cmd with
  | waitEtcdSyncCommand _ _ | setupEtcdAuthCommand _ | waitForKubeletReadyCommand _
  | retaintBeforeKubeletBootCommand _ _ _ => True
  | _ => False
  end -> stays (run_command cas cmd leaderKey files).
Proof.
  destruct cmd; try done; intros _; cbn [run_command]; apply stays_bind; try (intros; apply stays_ret);
    unfold waitEtcdSync_Run, setupEtcdAuth_Run, waitForKubeletReady_Run, retaintBeforeKubeletBoot_Run, kubelets_ready,
      etcd_in_sync, AddUserRole, new_etcd_client, etcd_do, require, k8s_client, CheckHealthz;
    repeat first [ progress stays | apply stays_with_retries | apply stays_each; intros ?
                 | apply stays_healthy_members | apply stays_retaint_node ].
Qed.

Lemma no_failures_Ok m s s' ns : no_failures m s = (s', Done (Ok ns)) -> m s = (s', Done (Ok tt)).
Proof. intros (s1 & [] & Hm & Hk)%ctl_bind_Ok. by injection Hk as -> _. Qed.
Lemma on_each_node_rel R `{!PreOrder R} nodes (f : Node -> eng unit) s s' :
  on_each_node nodes f s = (s', Done (Ok tt)) -> (forall n d d' u, f n d = (d', Ok u) -> R d d') ->
  forall a, R (st_world s a) (st_world s' a).
Proof.
  intros (w & Hon & ->)%on_each_node_Ok Hf. apply (on_nodes_rel R nodes f (st_world s) w); [reflexivity| | |done].
  - intros d1 d2 d3. apply transitivity.
  - intros n d d' u _. apply Hf.
Qed.
Lemma Run_Ok cmd files s s' ns files' :
  Run IPAdd cas cmd leaderKey files s = (s', Done (Ok (ns, files'))) ->
  exists s1, Prepare IPAdd cmd files s = (s1, Done (Ok files'))
    /\ run_command cas cmd leaderKey files s1 = (s', Done (Ok ns)).
Proof.
  intros (s1 & f & Hp & Hk)%ctl_bind_Ok. apply ctl_bind_Ok in Hk as (s2 & x & Hr & Hk).
  injection Hk as -> -> ->. eauto.
Qed.
Lemma Run_plain cmd files s s' ns files' :
  plan_of IPAdd cmd = None -> Run IPAdd cas cmd leaderKey files s = (s', Done (Ok (ns, files'))) ->
  files' = files /\ run_command cas cmd leaderKey files s = (s', Done (Ok ns)).
Proof.
  intros Hp (s1 & Hprep & Hr)%Run_Ok.
  assert (Prepare IPAdd cmd files = mret files) as E by (by destruct cmd). rewrite E in Hprep.
  by injection Hprep as -> ->.
Qed.

Definition same_containers (d d' : daemon) : Prop := ps_a d = ps_a d'.
#[local] Instance same_containers_preorder : PreOrder same_containers.
Proof. split; [done|]. intros d1 d2 d3 E1 E2. unfold same_containers in *. congruence. Qed.

Lemma leaves_containers_Ok cmd files s s' ns files' a :
  leaves_containers cmd = true -> Run IPAdd cas cmd leaderKey files s = (s', Done (Ok (ns, files'))) ->
  ps_a (st_world s' a) = ps_a (st_world s a).
Proof.
  intros Hl [_ Hr]%Run_plain; [|by destruct cmd]. destruct cmd; try discriminate Hl.
  2-4: by (apply stays_world in Hr; [rewrite Hr|apply stays_waits]).
  apply no_failures_Ok in Hr. symmetry. revert a. apply (on_each_node_rel same_containers _ _ _ _ Hr).
  intros n d d' u Hd%run_Ok%volume_create_spec. by destruct Hd.
Qed.
Lemma leaves_configs_Ok cmd files s s' ns files' a :
  leaves_configs cmd = true -> Run IPAdd cas cmd leaderKey files s = (s', Done (Ok (ns, files'))) ->
  configs_kept (st_world s a) (st_world s' a).
Proof.
  intros Hl [_ Hr]%Run_plain; [|by destruct cmd]. destruct cmd; try discriminate Hl;
    try by (apply stays_world in Hr; [rewrite Hr|apply stays_waits]).
  - apply bool_decide_eq_true in Hl. apply no_failures_Ok in Hr. revert a.
    apply (on_each_node_rel configs_kept _ _ _ _ Hr).
    intros n d d' u Hd. eapply eng_rel_end; [exact Hd|]. by apply kept_runContainer.
  - apply no_failures_Ok in Hr. revert a. apply (on_each_node_rel configs_kept _ _ _ _ Hr).
    intros n d d' u Hd%run_Ok path Hpath. set (t := mkDockerTool _ _ _ _ _) in Hd.
    pose proof (tool_configs t d path) as Ht. rewrite Hd in Ht. apply Ht. clear -Hpath. intros src dst w.
    cbn. rewrite !elem_of_cons, elem_of_nil. intros Hv.
    assert (forallb (fun p => negb (HasPrefix p (cniBinDir +:+ "/")) && negb (HasPrefix p (cniConfDir +:+ "/")))
              config_paths = true) as Hall by (vm_compute; reflexivity).
    rewrite List.forallb_forall in Hall. apply list_elem_of_In, Hall in Hpath.
    apply andb_prop in Hpath as [Hbin%negb_true_iff Hconf%negb_true_iff].
    by destruct Hv as [[= -> -> ->]|[[= -> -> ->]|?]].
Qed.

(** ** What the executed commands have done *)
Lemma executed_cons_inv cmd cmds files s files' s' :
  executed (cmd :: cmds) files s files' s' ->
  exists s0 s1 ns files1, same_nodes s s0 /\ Run IPAdd cas cmd leaderKey files s0 = (s1, Done (Ok (ns, files1)))
    /\ executed cmds files1 s1 files' s'.
Proof.
  remember (cmd :: cmds) as l eqn:Hl. intros Hex. revert Hl.
  induction Hex as [|l files s s1 files' s' Hn Hex IH|c1 l files s files1 s1 files' s' ns Hr Hex _]; [done| |].
  - intros E. destruct (IH E) as (s2 & s3 & ns & files1 & Hn2 & Hr & Hex2). exists s2, s3, ns, files1.
    split; [|done]. destruct Hn, Hn2. split; congruence.
  - intros [= -> ->]. by exists s, s1, ns, files1.
Qed.
Lemma executed_app_inv l1 l2 files s files' s' :
  executed (l1 ++ l2) files s files' s' ->
  exists files1 s1, executed l1 files s files1 s1 /\ executed l2 files1 s1 files' s'.
Proof.
  revert files s. induction l1 as [|cmd l1 IH]; intros files s Hex; [by eexists _, _; split; [constructor|]|].
  cbn in Hex. apply executed_cons_inv in Hex as (s0 & s1 & ns & files1 & Hn & Hr & Hex).
  destruct (IH _ _ Hex) as (files2 & s2 & Hex1 & Hex2). exists files2, s2. split; [|done].
  eapply executed_record; [done|]. by eapply executed_command.
Qed.
Lemma executed_rel (R : daemon -> daemon -> Prop) `{!PreOrder R} (leaves : Commander -> bool) a cmds files s files' s' :
  (forall cmd files s s' ns files', leaves cmd = true ->
     Run IPAdd cas cmd leaderKey files s = (s', Done (Ok (ns, files'))) -> R (st_world s a) (st_world s' a)) ->
  Forall (fun cmd => leaves cmd = true) cmds -> executed cmds files s files' s' ->
  R (st_world s a) (st_world s' a).
Proof.
  intros HR Hall Hex. induction Hex as [|l files s s1 files' s' [Hw _] _ IH|cmd l files s files1 s1 files' s' ns Hr _ IH].
  - reflexivity.
  - rewrite <- Hw. by apply IH.
  - apply Forall_cons in Hall as [Hl Hall]. etransitivity; [by eapply HR|by apply IH].
Qed.
Lemma executed_plain cmds files s files' s' :
  Forall (fun cmd => plan_of IPAdd cmd = None) cmds -> executed cmds files s files' s' -> files' = files.
Proof.
  intros Hall Hex. induction Hex as [|l files s s1 files' s' _ _ IH|cmd l files s files1 s1 files' s' ns Hr _ IH]; [done|by apply IH|].
  apply Forall_cons in Hall as [Hp Hall]. apply Run_plain in Hr as [-> _]; [|done]. by apply IH.
Qed.

(** The container of the service runs on every node. *)
Lemma service_running o name img ps extra files s files' s' n :
  service_run o = Some (name, img, ps, extra) -> executed (commands o) files s files' s' -> n ∈ op_nodes o ->
  exists id, ps_a (st_world s' (node_Address n)) !! name
    = Some (mkContainer id true img (Some (mkLabel (params_for ps (node_Address n)) extra))).
Proof.
  intros (pre & opts & restart & post & -> & Hpost)%commands_run Hex Hn.
  apply executed_app_inv in Hex as (files1 & s1 & _ & Hex).
  apply executed_cons_inv in Hex as (s2 & s3 & ns & files2 & _ & [_ Hr]%Run_plain & Hex); [|done].
  assert (ps_a (st_world s3 (node_Address n)) = ps_a (st_world s' (node_Address n))) as <-.
  { eapply (executed_rel same_containers); [|exact Hpost|exact Hex].
    intros. symmetry. by eapply leaves_containers_Ok. }
  apply no_failures_Ok, on_each_node_Ok in Hr as (w & Hon & ->). cbn.
  refine (on_nodes_post (fun d => exists id, ps_a d !! name = Some (mkContainer id true img (Some (mkLabel
            (params_for ps (node_Address n)) extra)))) _ _ _ _ _ _ Hon _); [|by apply list_elem_of_fmap_2].
  intros n' d d' u _ Ha Hd%runContainer_Ok. rewrite Ha in Hd. by destruct Hd.
Qed.

(** Its configuration file is on every node. *)
Lemma config_written o path f s files' s' n :
  config_of o = Some (path, f) -> path ∈ config_paths -> executed (commands o) [] s files' s' ->
  by_address (op_nodes o) -> (forall cmd, cmd ∈ commands o -> cni_name_ok cmd) -> n ∈ op_nodes o ->
  exists data, f n = Ret (Ok data) /\ host_files (st_world s' (node_Address n)) !! path = Some data.
Proof.
  intros (pre & prepare & plan & post & Hcmds & Hpre & Hp & Hin & Hpost)%commands_write Hpath Hex Hby Hcni Hn.
  assert (good_names (plan ≫= names_of)) as Hgood.
  { eapply plans_good; [exact Hp|]. apply Hcni. rewrite Hcmds, elem_of_app, elem_of_cons. auto. }
  rewrite Hcmds in Hex. apply executed_app_inv in Hex as (files1 & s1 & Hex1 & Hex).
  apply executed_plain in Hex1 as ->; [|done].
  apply executed_cons_inv in Hex as (s2 & s3 & ns & files2 & _ & (s4 & Hprep & _)%Run_Ok & Hex).
  destruct (Prepare_collects IPAdd _ prepare _ plan [] Hp Hby s2 s4 files2 eq_refl Hprep) as (new & -> & Hnames & Hall).
  apply executed_cons_inv in Hex as (s5 & s6 & ns2 & files3 & _ & [_ Hr]%Run_plain & Hex); [|done].
  apply no_failures_Ok in Hr. cbn [app] in Hr. rewrite <- Hnames in Hgood.
  destruct (FilesBuilder_writes _ _ _ _ Hgood Hr) as [Hw _].
  destruct (Hall n _ Hn Hin) as (data & (fd & Hfd & <- & Hd) & Hf). exists data. split; [exact Hf|].
  assert (configs_kept (st_world s6 (node_Address n)) (st_world s' (node_Address n))) as Hk.
  { eapply (executed_rel configs_kept); [|exact Hpost|exact Hex]. intros. by eapply leaves_configs_Ok. }
  by rewrite (Hk _ Hpath), (Hw n fd Hn Hfd), Hd.
Qed.

(** All commands of an operation whose record is completed have been executed. *)
Lemma completed_executed o s s0 r0 s1 r :
  register leaderKey o s = (s0, Done (Ok r0)) -> runOp IPAdd cas leaderKey o s = (s1, Done (Ok tt)) ->
  recorded s1 r -> r_ID r = r_ID r0 -> r_Status r = StatusCompleted ->
  exists files s', executed (commands o) [] s0 files s' /\ st_world s1 = st_world s'.
Proof.
  intros Hreg Hrun [rev Hrec] Hid Hst. rewrite runOp_register, Hreg in Hrun.
  destruct (register_Ok _ _ _ _ _ Hreg) as [Hop _].
  pose proof (run_loop_outcome IPAdd cas leaderKey r0 o (commands o) [] [] r0 s0 Hop) as Ho. rewrite Hrun in Ho.
  inversion Ho as [p s' s2 r' res Hp [Hw _] [rev' Hrec'] Ht Hres| | | |]; subst.
  destruct Ht as (Hid' & _ & _ & _ & Ht).
  assert (recordKey r' = recordKey r) as E by (unfold recordKey; congruence).
  rewrite E, Hrec in Hrec'. injection Hrec' as <- <-.
  inversion Hp; subst; [by eauto| |done|]; destruct Ht as (Ht & _); by rewrite Hst in Ht.
Qed.
End runs.
