(* ===== verification/Converge.v ===== *)
(** * Operators bring services up to date

    From the decision of the strategy through the commands that the server executes for an
    operator, the containers and files on the nodes, and the next survey, back to the
    filters: once the record of an operator that starts or restarts a service is
    completed, the filters for stopped and for outdated services leave its nodes alone. *)

From Stdlib Require Import ZArith Ascii String Lia.
From stdpp Require Import base gmap strings list.
From S2P Require Import Prelude GoLib GoFormat GoPath K8s Cluster Queue Resource Status Storage StorageProps Reboot.
From S2P Require Import Dns Params NodeFilter Operators Engine Strategy Survey Pki Files Commands Control.
From S2P Require Import Samples StrategyTotal SurveyProps PkiProps Lab FilesProps StrategySafety ControlProps OpRuns.

(** ** Convergence *)
Section converge.
  Context {T : K8sTypes} {K : K8s} `{Runtime} `{!Etcd} `{!Platform} `{!Network} `{Docker} `{!Vault}.
  Context `{!Agents} `{!Executor} `{!Tools} `{!Encoders} `{!HostLaws} (IPAdd : list Z -> Z -> list Z).
  Context (cas : nat) (leaderKey : string).
  Implicit Types (o : Operator) (c : Cluster) (n : Node) (s : site) (nf : NodeFilter).

(** *** Operators are built from the configuration *)
Definition from_config c o : Prop :=
  let opts := c_Options c in
  match o with
  | RiversBootOp _ ups params name up lp | RiversRestartOp _ ups params name up lp =>
      ups = ControlPlanes (c_Nodes c)
      /\ ((name, params, up, lp)
            = (RiversContainerName, opt_Rivers opts, RiversUpstreamPort, RiversListenPort)
          \/ (name, params, up, lp)
            = (EtcdRiversContainerName, opt_EtcdRivers opts, EtcdRiversUpstreamPort,
               EtcdRiversListenPort))
  | EtcdBootOp _ params | EtcdStartOp _ params | EtcdRestartOp _ _ params => params = opt_Etcd opts
  | APIServerRestartOp _ subnet params domain =>
      subnet = c_ServiceSubnet c /\ params = opt_APIServer opts
      /\ exists kc, GenerateKubeletConfiguration (opt_Kubelet opts) "0.0.0.0" None = Ret kc
                    /\ domain = kc_ClusterDomain kc
  | ControllerManagerBootOp _ cluster subnet params
  | ControllerManagerRestartOp _ cluster subnet params =>
      cluster = c_Name c /\ subnet = c_ServiceSubnet c /\ params = opt_ControllerManager opts
  | SchedulerBootOp _ _ params | SchedulerRestartOp _ _ params => params = opt_Scheduler opts
  | KubeletBootOp _ _ _ _ params _ | KubeletRestartOp _ _ params _ => params = opt_Kubelet opts
  | KubeProxyBootOp _ _ _ params | KubeProxyRestartOp _ _ _ params => params = opt_Proxy opts
  | _ => True
  end.

Section shapes.
  Context (c : Cluster) (cs : ClusterStatus).
  Local Abbreviation nf := (NewNodeFilter c cs).
  Local Abbreviation built ops := (forall o, o ∈ ops -> from_config c o).

Lemma built_app ops1 ops2 : built ops1 -> built ops2 -> built (ops1 ++ ops2).
Proof. intros H1' H2' o [?|?]%elem_of_app; auto. Qed.

Lemma op_for_built nodes mk : (forall ns, from_config c (mk ns)) -> built (op_for nodes mk).
Proof.
  intros Hmk o. destruct nodes; simpl; [by intros ?%elem_of_nil|].
  by intros ->%list_elem_of_singleton.
Qed.

Lemma limited_op_for_built max nodes mk ops :
  limited_op_for max nodes mk = Ret ops -> (forall ns, from_config c (mk ns)) -> built ops.
Proof.
  intros [->|(sub & -> & _)]%limited_op_for_inv Hmk o; [by intros ?%elem_of_nil|].
  by intros ->%list_elem_of_singleton.
Qed.

Lemma riversOps_built max ops : riversOps c nf max = Ret ops -> built ops.
Proof.
  unfold riversOps. intros Hd. go_inv Hd. rewrite (NewNodeFilter_cp c cs) in *.
  repeat apply built_app; (eapply limited_op_for_built; [eassumption|]);
    intros ns; simpl; auto.
Qed.

Lemma api_decision_built aops skip : api_decision c cs aops skip -> built aops.
Proof.
  intros Hd o Ho. apply (api_decision_ops _ _ _ _ _ Hd) in Ho as Hs.
  destruct Hs as [(marked & mops & Hm & Hin)|Hr].
  { destruct (masterEndpointOps_api _ _ _ _ _ Hm Hin) as [(api & _ & Ha) _]. by destruct o. }
  assert (forall nodes restart, apiserver_restart c nodes = Ret restart -> from_config c restart)
    as Hrestart.
  { unfold apiserver_restart. intros nodes restart Ha. go_inv Ha. simpl. eauto. }
  destruct Hd as [? ? ? _ Hm Ha|? Hm|? ? ? _ _ Hm Ha|? _ _ Hm];
    try apply elem_of_app in Ho as [Ho| ->%list_elem_of_singleton]; eauto;
    [unfold master_ops_if_healthy in Hm; go_inv_cases Hm; [|by apply elem_of_nil in Ho]..| |];
    by destruct (no_master_restart _ _ _ _ _ Hm Ho Hr).
Qed.

Lemma k8sOps_built max ops : k8sOps c nf cs max = Ret ops -> built ops.
Proof.
  unfold k8sOps. intros Hd. apply bind_Ret_inv in Hd as ([aops [|]] & Ha & Hd).
  { injection Hd as <-. by eapply api_decision_built, apiserverOps_decision. }
  go_inv Hd. repeat apply built_app; try (by apply op_for_built);
    try (by eapply limited_op_for_built); [by eapply api_decision_built, apiserverOps_decision|].
  match goal with Hi : (if InPlaceUpdate _ then _ else _) = _ |- _ =>
    destruct (InPlaceUpdate _); [|injection Hi as <-; by intros o ?%elem_of_nil] end.
  by eapply limited_op_for_built.
Qed.

Lemma decided_built static now constraints resources max ops phase :
  decided static now c cs constraints resources max ops phase -> built ops.
Proof.
  intros Hd o Ho. pose proof (decided_phase _ _ _ _ _ _ _ _ _ Hd o Ho) as Ha.
  destruct Hd; try (by apply elem_of_nil in Ho); try (by destruct o);
    eauto using riversOps_built, k8sOps_built;
    try (by apply list_elem_of_singleton in Ho as ->).
  apply list_elem_of_singleton in Ho as ->. unfold etcdMaintOp in *.
  match goal with Hm : _ = Ret (Some _) |- _ => go_inv_cases Hm end; done.
Qed.
End shapes.

(** *** The filters *)
Lemma service_outdated_refl img b e : service_outdated img b e (mkServiceStatus true img b e) = false.
Proof.
  unfold service_outdated. simpl. by rewrite String.eqb_refl, !ServiceParams_Equal_refl.
Qed.

Lemma params_for_map f nodes n :
  n ∈ nodes -> (forall m, m ∈ nodes -> node_Address m = node_Address n -> m = n) ->
  params_for (params_map f nodes) (node_Address n) = f n.
Proof.
  intros Hn Hinj. unfold params_for, params_map.
  assert (forall m : gmap string ServiceParams,
            foldl (fun m n => <[ node_Address n := f n ]> m) m nodes !! node_Address n = Some (f n))
    as Hl; [|by rewrite Hl].
  revert Hn Hinj. induction nodes as [|x nodes IH]; intros Hn Hinj m; [by apply elem_of_nil in Hn|].
  simpl. destruct (decide (n ∈ nodes)) as [Hin|Hout].
  { apply IH; [done|]. intros y Hy. apply Hinj. by right. }
  apply elem_of_cons in Hn as [->|?]; [|done].
  assert (forall l (m : gmap string ServiceParams), ~ (node_Address x ∈ node_Address <$> l) ->
            foldl (fun m n => <[ node_Address n := f n ]> m) m l !! node_Address x
            = m !! node_Address x) as Hskip.
  { clear. induction l as [|y l IHl]; intros m Hl; simpl; [done|].
    rewrite fmap_cons, elem_of_cons in Hl. rewrite IHl by naive_solver.
    apply lookup_insert_ne. naive_solver. }
  rewrite Hskip; [apply lookup_insert_eq|].
  intros (y & Hy & Hin)%list_elem_of_fmap. apply Hout.
  rewrite <- (Hinj y); [done|by right|done].
Qed.

(** The flags etcd only reads when it starts for the first time do not count. *)
Lemma drop_initial_flags n initial state :
  drop_initial (ExtraArguments (etcd_BuiltInParams n initial state))
  = drop_initial (ExtraArguments (etcd_BuiltInParams n [] "new")).
Proof. by destruct initial. Qed.

Lemma etcdEqualParams_initial n initial state :
  etcdEqualParams (etcd_BuiltInParams n initial state) (etcd_BuiltInParams n [] "new") = true.
Proof.
  unfold etcdEqualParams. rewrite drop_initial_flags.
  assert (ExtraBinds (etcd_BuiltInParams n initial state)
          = ExtraBinds (etcd_BuiltInParams n [] "new")) as -> by (by destruct initial).
  assert (ExtraEnvvar (etcd_BuiltInParams n initial state)
          = ExtraEnvvar (etcd_BuiltInParams n [] "new")) as -> by (by destruct initial).
  apply ServiceParams_Equal_refl.
Qed.

Lemma etcdEqualParams_refl params : etcdEqualParams params params = true.
Proof. apply ServiceParams_Equal_refl. Qed.

(** A filter leaves a node alone, whatever nodes it is given. *)
Definition spared n (filter : list Node -> go (list Node)) : Prop :=
  filter [n] = Ret [] /\ forall targets l, filter targets = Ret l -> ~ n ∈ l.

Lemma go_filter_spared n (p : Node -> go bool) : p n = Ret false -> spared n (go_filter p).
Proof.
  intros Hp. split; [cbn; by rewrite Hp|]. intros targets l Hl Hn.
  induction targets as [|x targets IH] in l, Hl, Hn |- *; [injection Hl as <-; by apply elem_of_nil in Hn|].
  cbn in Hl. go_inv Hl. destruct (decide (n = x)) as [->|Hx].
  - rewrite Hp in *. simplify_eq. by eapply IH.
  - case_match; [apply elem_of_cons in Hn as [?|Hn]; [done|]|]; by eapply IH.
Qed.
Lemma spared_none n : spared n (fun _ => Ret []).
Proof. split; [done|]. by intros targets l [= <-] ?%elem_of_nil. Qed.

(** The filters for stopped and for outdated services leave the node of the service alone. *)
Definition settled c nf n o : Prop :=
  match o with
  | RiversBootOp _ _ _ name _ _ | RiversRestartOp _ _ _ name _ _ =>
      if (name =? RiversContainerName)%string
      then spared n (RiversStopped nf) /\ spared n (RiversOutdated nf)
      else spared n (EtcdRiversStopped nf) /\ spared n (EtcdRiversOutdated nf)
  | EtcdBootOp _ _ | EtcdStartOp _ _ | EtcdRestartOp _ _ _ =>
      spared n (EtcdStopped nf) /\ forall l, EtcdOutdatedMembers nf = Ret l -> ~ n ∈ l
  | APIServerRestartOp _ _ _ _ => spared n (APIServerStopped nf) /\ spared n (APIServerOutdated nf)
  | ControllerManagerBootOp _ _ _ _ | ControllerManagerRestartOp _ _ _ _ =>
      spared n (ControllerManagerStopped nf) /\ spared n (ControllerManagerOutdated nf)
  | SchedulerBootOp _ _ _ | SchedulerRestartOp _ _ _ =>
      spared n (SchedulerStopped nf)
      /\ spared n (fun targets => SchedulerOutdated nf targets (opt_Scheduler (c_Options c)))
  | KubeletBootOp _ _ _ _ _ _ | KubeletRestartOp _ _ _ _ =>
      spared n (KubeletStopped nf) /\ spared n (KubeletOutdated nf)
  | KubeProxyBootOp _ _ _ _ | KubeProxyRestartOp _ _ _ _ =>
      spared n (ProxyStopped nf) /\ spared n (fun targets => ProxyOutdated nf targets (opt_Proxy (c_Options c)))
  | _ => True
  end.
(** What the survey tells of the service. *)
Definition surveyed (ns : NodeStatus) (name img : string) (b e : ServiceParams) : Prop :=
  forall st, (name, st) ∈ services_of ns -> st = mkServiceStatus true img b e.
(** The configuration it read is the one that was generated for the node. *)
Definition config_surveyed o n (ns : NodeStatus) : Prop :=
  match o with
  | SchedulerBootOp _ _ params | SchedulerRestartOp _ _ params =>
      exists cfg, GenerateSchedulerConfiguration params = Ret cfg /\ scs_Config (ns_Scheduler ns) = Some cfg
  | KubeletBootOp _ _ _ _ params _ | KubeletRestartOp _ _ params _ =>
      exists running cfg, GenerateKubeletConfiguration params (node_Address n) running = Ret cfg
        /\ kls_Config (ns_Kubelet ns) = Some cfg
  | KubeProxyBootOp _ _ _ params | KubeProxyRestartOp _ _ _ params =>
      exists cfg, GenerateProxyConfiguration params n = Ret cfg /\ pxs_Config (ns_Proxy ns) = Some cfg
  | _ => True
  end.

(** A service of a node is in the list of its services. *)
Local Ltac in_services := repeat first [apply list_elem_of_here | apply list_elem_of_further].

Section filters.
  Context (c : Cluster) (cs : ClusterStatus) (n : Node) (ns : NodeStatus).
  Context (Hns : cs_NodeStatuses cs !! node_Address n = Some ns).
  Local Abbreviation nf := (NewNodeFilter c cs).

Lemma filter_spared (p : NodeStatus -> bool) : p ns = false -> spared n (filter_status nf p).
Proof.
  intros Hp. apply go_filter_spared. unfold nodeStatus. rewrite NewNodeFilter_status, Hns. cbn. by rewrite Hp.
Qed.
Lemma status_of : nodeStatus nf n = Some ns.
Proof. unfold nodeStatus. by rewrite NewNodeFilter_status. Qed.

Lemma etcd_spared image initial state :
  etcd_Service (ns_Etcd ns)
    = mkServiceStatus true image (etcd_BuiltInParams n initial state) (etcd_ServiceParams (opt_Etcd (c_Options c))) ->
  image = EtcdImage ->
  spared n (EtcdStopped nf) /\ forall l, EtcdOutdatedMembers nf = Ret l -> ~ n ∈ l.
Proof.
  intros Hst ->. split.
  - apply go_filter_spared. rewrite status_of. cbn. rewrite Hst. cbn. by repeat case_match.
  - apply (go_filter_spared n (fun n => _)). rewrite status_of, NewNodeFilter_cluster. cbn. rewrite Hst. cbn.
    by rewrite etcdEqualParams_initial, etcdEqualParams_refl.
Qed.
Lemma apiserver_spared kc :
  GenerateKubeletConfiguration (opt_Kubelet (c_Options c)) "0.0.0.0" None = Ret kc ->
  kcs_Service (ns_APIServer ns)
    = mkServiceStatus true KubernetesImage
        (apiserver_params (node_Address n) (c_ServiceSubnet c) (AuditLogEnabled (opt_APIServer (c_Options c)))
           (AuditLogPolicy (opt_APIServer (c_Options c))) (AuditLogPath (opt_APIServer (c_Options c)))
           (kc_ClusterDomain kc)) (api_ServiceParams (opt_APIServer (c_Options c))) ->
  spared n (APIServerStopped nf) /\ spared n (APIServerOutdated nf).
Proof.
  intros Hkc Hst. split; [apply filter_spared; by rewrite Hst|].
  unfold APIServerOutdated. rewrite NewNodeFilter_cluster, Hkc. apply (go_filter_spared n (fun n => _)).
  rewrite status_of. cbn. by rewrite Hst, service_outdated_refl.
Qed.
Lemma manager_spared :
  kcs_Service (ns_ControllerManager ns)
    = mkServiceStatus true KubernetesImage (ControllerManagerParams (c_Name c) (c_ServiceSubnet c))
        (opt_ControllerManager (c_Options c)) ->
  spared n (ControllerManagerStopped nf) /\ spared n (ControllerManagerOutdated nf).
Proof.
  intros Hst. split; apply filter_spared; rewrite Hst; [done|]. by rewrite NewNodeFilter_cluster, service_outdated_refl.
Qed.
Lemma scheduler_spared cfg :
  GenerateSchedulerConfiguration (opt_Scheduler (c_Options c)) = Ret cfg ->
  scs_Config (ns_Scheduler ns) = Some cfg ->
  scs_Service (ns_Scheduler ns)
    = mkServiceStatus true KubernetesImage scheduler_params (sched_ServiceParams (opt_Scheduler (c_Options c))) ->
  spared n (SchedulerStopped nf)
  /\ spared n (fun targets => SchedulerOutdated nf targets (opt_Scheduler (c_Options c))).
Proof.
  intros Hcfg Hr Hst. split; [apply filter_spared; by rewrite Hst|].
  unfold SchedulerOutdated. rewrite Hcfg. apply filter_spared.
  by rewrite Hst, NewNodeFilter_cluster, service_outdated_refl, Hr, scheduler_DeepEqual_refl.
Qed.
Lemma kubelet_spared running cfg :
  GenerateKubeletConfiguration (opt_Kubelet (c_Options c)) (node_Address n) running = Ret cfg ->
  kls_Config (ns_Kubelet ns) = Some cfg ->
  kls_Service (ns_Kubelet ns)
    = mkServiceStatus true KubernetesImage (KubeletServiceParams n (opt_Kubelet (c_Options c)))
        (kubelet_ServiceParams (opt_Kubelet (c_Options c))) ->
  spared n (KubeletStopped nf) /\ spared n (KubeletOutdated nf).
Proof.
  intros (_ & _ & Hcfg)%GenerateKubeletConfiguration_running Hr Hst. split; [apply filter_spared; by rewrite Hst|].
  apply (go_filter_spared n (fun n => _)). rewrite status_of, NewNodeFilter_cluster. cbn. rewrite Hr, Hcfg. cbn.
  rewrite Hst, service_outdated_refl, kubelet_DeepEqual_refl. cbn. by rewrite andb_false_r.
Qed.
Lemma proxy_spared cfg :
  GenerateProxyConfiguration (opt_Proxy (c_Options c)) n = Ret cfg -> pxs_Config (ns_Proxy ns) = Some cfg ->
  pxs_Service (ns_Proxy ns)
    = mkServiceStatus true KubernetesImage proxy_params (proxy_ServiceParams (opt_Proxy (c_Options c))) ->
  spared n (ProxyStopped nf) /\ spared n (fun targets => ProxyOutdated nf targets (opt_Proxy (c_Options c))).
Proof.
  intros Hcfg Hr Hst. unfold ProxyStopped, ProxyOutdated. rewrite NewNodeFilter_cluster.
  destruct (proxy_Disable _); [split; apply spared_none|]. split; [apply filter_spared; by rewrite Hst|].
  apply (go_filter_spared n (fun n => _)). rewrite status_of. cbn. rewrite Hcfg. cbn.
  by rewrite Hst, service_outdated_refl, Hr, proxy_DeepEqual_refl.
Qed.

Lemma run_settled o name img ps extra :
  service_run o = Some (name, img, ps, extra) -> from_config c o -> n ∈ op_nodes o -> by_address (op_nodes o) ->
  surveyed ns name img (params_for ps (node_Address n)) extra -> config_surveyed o n ns -> settled c nf n o.
Proof.
  intros Hs Hc Hn Hby Hsv Hcfg. unfold surveyed, services_of in Hsv.
  assert (forall m, m ∈ op_nodes o -> node_Address m = node_Address n -> m = n) as Hinj by (intros; by apply Hby).
  destruct o; try discriminate Hs; injection Hs as <- <- <- <-; cbn [from_config op_nodes config_surveyed settled] in *;
    rewrite ?params_for_map in Hsv by done; cbn [params_for] in Hsv.
  1-2: destruct Hc as [-> [Hc|Hc]]; injection Hc as -> -> -> ->; cbn;
    [pose proof (Hsv (ns_Rivers ns) ltac:(in_services)) as Hst|pose proof (Hsv (ns_EtcdRivers ns) ltac:(in_services)) as Hst];
    split; apply filter_spared; rewrite Hst, ?NewNodeFilter_cluster, ?NewNodeFilter_cp, ?service_outdated_refl; done.
  3: apply list_elem_of_singleton in Hn; subst target.
  1-3: subst params; eapply etcd_spared; [apply Hsv; in_services|done].
  - destruct Hc as (-> & -> & kc & Hkc & ->). eapply apiserver_spared; [done|apply Hsv; in_services].
  - destruct Hc as (-> & -> & ->). apply manager_spared, Hsv. in_services.
  - destruct Hc as (-> & -> & ->). apply manager_spared, Hsv. in_services.
  - subst params. destruct Hcfg as (cfg & Hg & Hcfg). eapply scheduler_spared; [done..|apply Hsv; in_services].
  - subst params. destruct Hcfg as (cfg & Hg & Hcfg). eapply scheduler_spared; [done..|apply Hsv; in_services].
  - subst params. destruct Hcfg as (running & cfg & Hg & Hcfg). eapply kubelet_spared; [done..|apply Hsv; in_services].
  - subst params. destruct Hcfg as (running & cfg & Hg & Hcfg). eapply kubelet_spared; [done..|apply Hsv; in_services].
  - subst params. destruct Hcfg as (cfg & Hg & Hcfg). eapply proxy_spared; [done..|apply Hsv; in_services].
  - subst params. destruct Hcfg as (cfg & Hg & Hcfg). eapply proxy_spared; [done..|apply Hsv; in_services].
Qed.
End filters.

(** Nothing the survey looks at has changed on a node. *)
Definition unchanged (d d' : daemon) : Prop := same_state d d' /\ configs_kept d d'.
(** The survey could read the configuration files of the kubelet and of the proxy, which it does not insist on. *)
Definition config_readable o (ns : NodeStatus) : Prop :=
  match o with
  | KubeletBootOp _ _ _ _ _ _ | KubeletRestartOp _ _ _ _ => kls_Config (ns_Kubelet ns) <> None
  | KubeProxyBootOp _ _ _ _ | KubeProxyRestartOp _ _ _ _ => pxs_Config (ns_Proxy ns) <> None
  | _ => True
  end.

Lemma config_text o path f s files s1 s2 n {A} (read : string -> option A) cfg :
  config_of o = Some (path, f) -> path ∈ config_paths ->
  executed IPAdd cas leaderKey (commands o) [] s files s1 -> by_address (op_nodes o) ->
  (forall cmd, cmd ∈ commands o -> cni_name_ok cmd) -> n ∈ op_nodes o ->
  configs_kept (st_world s1 (node_Address n)) (st_world s2 (node_Address n)) ->
  config_from s2 (node_Address n) path read cfg -> exists data, f n = Ret (Ok data) /\ cfg = read data.
Proof.
  intros Hf Hp Hex Hby Hcni Hn Hk (text & Ht & ->).
  destruct (config_written IPAdd cas leaderKey o path f s files s1 n Hf Hp Hex Hby Hcni Hn) as (data & Hd & Hw).
  rewrite (Hk _ Hp), Hw in Ht. injection Ht as <-. eauto.
Qed.
Lemma config_settled o s files s1 s2 s3 c n ns :
  executed IPAdd cas leaderKey (commands o) [] s files s1 -> by_address (op_nodes o) ->
  (forall cmd, cmd ∈ commands o -> cni_name_ok cmd) -> n ∈ op_nodes o ->
  configs_kept (st_world s1 (node_Address n)) (st_world s2 (node_Address n)) ->
  GetNodeStatus n c s2 = (s3, Done (Ok ns)) -> connected (node_Address n) s2 = true ->
  (forall name img ps extra st, service_run o = Some (name, img, ps, extra) -> (name, st) ∈ services_of ns ->
     ss_Running st = true) ->
  config_readable o ns -> config_surveyed o n ns.
Proof.
  intros Hex Hby Hcni Hn Hk Hst Hc Hrun Hrd.
  destruct (GetNodeStatus_configs _ _ _ _ _ Hst Hc) as (Rs & Rp & Rk).
  pose proof (fun path f A (read : string -> option A) cfg Hf Hp =>
    config_text o path f s files s1 s2 n read cfg Hf Hp Hex Hby Hcni Hn Hk) as Htext.
  clear Hex Hcni Hst. destruct o; try done; cbn [config_readable config_surveyed] in *.
  1-2: destruct (Htext _ _ _ _ _ eq_refl ltac:(by apply (bool_decide_unpack _)) (Rs ltac:(eapply Hrun; [reflexivity|in_services])))
    as (data & Hd & ->); by apply scheduler_read.
  1-2: destruct (Htext _ _ _ _ _ eq_refl ltac:(by apply (bool_decide_unpack _)) (Rk Hrd)) as (data & Hd & ->);
    eexists; by apply kubelet_read.
  1-2: destruct (Htext _ _ _ _ _ eq_refl ltac:(by apply (bool_decide_unpack _)) (Rp Hrd)) as (data & Hd & ->);
    by apply proxy_read.
Qed.

(** C18: operators bring services up to date.  Let the strategy decide on an operator that starts or restarts a
    service (rivers, etcd-rivers, etcd, the API server, the controller manager, the scheduler, the kubelet or the
    proxy), and let the server run it to a completed record.  As long as nothing changes on a node of the
    operator, the survey of that node reports the service as running, with the image and the parameters of the
    configuration; and the filters for stopped and for outdated services, the comparison with the configuration file
    on the node included, do not select the node, whatever the survey tells about other nodes.  The survey has to
    reach the node and, for the kubelet and the proxy, to read the file; the name of the configuration file for CNI,
    if there is one, has to be that of a file. *)
Theorem services_converge static now c cs constraints resources max ops phase o name img ps extra
    s s0 r0 s1 r n s2 s3 ns cs' :
  DecideOps static now c cs constraints resources max = Ret (ops, phase) -> o ∈ ops ->
  NoDup (node_Address <$> c_Nodes c) -> (forall cmd, cmd ∈ commands o -> cni_name_ok cmd) ->
  service_run o = Some (name, img, ps, extra) ->
  register leaderKey o s = (s0, Done (Ok r0)) -> runOp IPAdd cas leaderKey o s = (s1, Done (Ok tt)) ->
  recorded s1 r -> r_ID r = r_ID r0 -> r_Status r = StatusCompleted ->
  n ∈ op_nodes o -> unchanged (st_world s1 (node_Address n)) (st_world s2 (node_Address n)) ->
  GetNodeStatus n c s2 = (s3, Done (Ok ns)) -> ns_SSHConnected ns = true -> config_readable o ns ->
  cs_NodeStatuses cs' !! node_Address n = Some ns ->
  surveyed ns name img (params_for ps (node_Address n)) extra /\ settled c (NewNodeFilter c cs') n o.
Proof.
  intros Hd%DecideOps_decided Ho Hnd Hcni Hs Hreg Hrun Hrec Hid Hst Hn [[Hps _] Hk] Hns Hssh Hrd Hcs.
  pose proof (decided_built _ _ _ _ _ _ _ _ _ Hd o Ho) as Hc.
  assert (by_address (op_nodes o)) as Hby.
  { intros x x' Hx Hx'. pose proof (decided_safe _ _ _ _ _ _ _ _ _ Hd o Ho) as Hsafe.
    apply (NoDup_by_address _ Hnd); by apply Hsafe. }
  destruct (completed_executed _ _ _ _ _ _ _ _ _ Hreg Hrun Hrec Hid Hst) as (files & s' & Hex & Hw). rewrite Hw in Hps, Hk.
  pose proof (GetNodeStatus_Ok _ _ _ _ _ Hns) as Hrep. unfold node_status in Hrep.
  destruct (connected (node_Address n) s2) eqn:Hconn; [|by subst ns]. destruct Hrep as [_ Hrep].
  destruct (service_running _ _ _ _ _ _ _ _ _ _ _ _ _ Hs Hex Hn) as [id Hct]. rewrite <- Hps in Hct.
  assert (surveyed ns name img (params_for ps (node_Address n)) extra) as Hsv.
  { intros st Hin. apply (rp_services _ _ _ Hrep) in Hin. unfold container_status in Hin. rewrite Hct in Hin.
    by destruct Hin as (l & [= <-] & ->). }
  split; [done|]. eapply run_settled; try done. eapply config_settled; try done.
  intros name' img' ps' extra' st E Hin. rewrite E in Hs. injection Hs as -> -> -> ->. by rewrite (Hsv st Hin).
Qed.
End converge.

(** ** A witness: a kubelet is started *)
#[local] Existing Instances sample_types sample_k8s std_runtime memory_etcd memory_docker lab_platform lab_network.
#[local] Existing Instances lab_vault lab_agents lab_tools lab_encoders lab_executor.

Lemma HasPrefix_slash dir name : HasPrefix (dir +:+ "/" +:+ name) (dir +:+ "/") = true.
Proof. change (dir +:+ "/" +:+ name) with (dir +:+ ("/" +:+ name)). rewrite string_app_assoc. apply HasPrefix_app. Qed.
(** The program that writes files only writes below the directories it mounts. *)
Lemma host_path_below vols p q : host_path vols p = Some q -> exists src dst w, (src, dst, w) ∈ vols /\ HasPrefix q (src +:+ "/") = true.
Proof.
  unfold host_path. destruct (List.find _ _) as [[[src dst] w]|] eqn:Hf; [|done]. intros [= <-].
  apply List.find_some in Hf as [Hin%list_elem_of_In _]. exists src, dst, w. split; [done|apply HasPrefix_slash].
Qed.
Lemma write_files_outside vols prefix (files : archive) fs fs' path :
  write_files vols prefix files fs = Some fs' ->
  (forall src dst w, (src, dst, w) ∈ vols -> HasPrefix path (src +:+ "/") = false) -> fs' !! path = fs !! path.
Proof.
  intros Hw Hp. assert (forall p q, host_path vols p = Some q -> q <> path) as Hne.
  { intros p q Hq ->. destruct (host_path_below _ _ _ Hq) as (src & dst & w & Hin & Ht).
    by rewrite (Hp _ _ _ Hin) in Ht. }
  revert fs Hw. induction files as [|[name data] files IH]; intros fs; cbn [write_files]; [by intros [= <-]|].
  unfold copyFile. destruct (host_path vols (_ +:+ ".tmp")) as [t|] eqn:Ht; cbn; [|done].
  destruct (host_path vols (path_Join [prefix; name])) as [q|] eqn:Hq; cbn; [|done].
  intros Hw. rewrite (IH _ Hw). apply Hne in Ht. apply Hne in Hq.
  by rewrite lookup_insert_ne, lookup_delete_ne, lookup_insert_ne.
Qed.
Definition lab_hosts : HostLaws.
Proof.
  split; try done.
  - by intros path d d' data [= <- ?].
  - intros name d. cbn. unfold mem_rm. by repeat case_match.
  - intros name d. cbn. unfold mem_kill. by repeat case_match.
  - intros r d _. cbn. unfold mem_run. by case_match.
  - intros t d path Hp. cbn. unfold lab_tool. repeat case_match; try done. cbn. by eapply write_files_outside.
  - intros c data. cbn. unfold known_as. case_match; [|done]. intros _. by apply bool_decide_eq_true in H.
  - intros c data. cbn. unfold known_as. case_match; [|done]. intros [= <-]. by apply bool_decide_eq_true in H.
  - intros c data. cbn. unfold known_as. case_match; [|done]. intros [= <-]. by apply bool_decide_eq_true in H.
Qed.
#[local] Existing Instance lab_hosts.

(** The kubelet of a worker is gone. *)
Definition no_kubelet (st : NodeStatus) : NodeStatus :=
  mkNodeStatus (ns_SSHConnected st) (ns_Etcd st) (ns_Rivers st) (ns_EtcdRivers st) (ns_APIServer st)
    (ns_ControllerManager st) (ns_Scheduler st) (ns_Proxy st) (mkKubeletStatus zero_ServiceStatus false None).
Definition lost_kubelet : ClusterStatus := sample_status_on [("10.0.0.101", no_kubelet)].
Definition worker : Node := sample_node "10.0.0.101" false.
Definition start_op : Operator :=
  KubeletBootOp [worker] [worker] (Some (sample_node "10.0.0.11" true)) (c_Name sample_cluster1)
    (opt_Kubelet sample_options) (cs_NodeStatuses lost_kubelet).
Definition start_params : RunParams :=
  params_map (fun n => KubeletServiceParams n (opt_Kubelet sample_options)) [worker].
Definition start_site : site := fst (NewInfrastructure lab_cluster lab_site).
Definition started : site * outcome unit := runOp lab_IPAdd 3 "leader/1" start_op start_site.
Definition start_record : OpRecord :=
  match stored_at (fst started) !! (KeyRecords +:+ hex016 1) with
  | Some (mkKV (RecordJSON r) _) => r
  | _ => NewRecord 0 0 "" []
  end.
Definition worker_survey : site * outcome NodeStatus := GetNodeStatus worker lab_cluster (fst started).
Definition worker_status : NodeStatus :=
  match snd worker_survey with Done (Ok ns) => ns | _ => zero_NodeStatus end.
Definition found_kubelet : ClusterStatus := sample_status_on [("10.0.0.101", fun _ => worker_status)].

Lemma services_converge_witness :
  snd started = Done (Ok tt) /\ r_Status start_record = StatusCompleted
  /\ surveyed worker_status "kubelet" KubernetesImage (params_for start_params "10.0.0.101")
       (kubelet_ServiceParams (opt_Kubelet sample_options))
  /\ spared worker (KubeletStopped (NewNodeFilter lab_cluster found_kubelet))
  /\ spared worker (KubeletOutdated (NewNodeFilter lab_cluster found_kubelet)).
Proof.
  split; [vm_compute; reflexivity|]. split; [vm_compute; reflexivity|].
  eapply (services_converge lab_IPAdd 3 "leader/1" [] sample_now lab_cluster lost_kubelet DefaultConstraints [] 10
            [start_op] PhaseK8sStart start_op "kubelet" KubernetesImage start_params _ start_site
            (fst (register "leader/1" start_op start_site)) _ (fst started) start_record worker (fst started)
            (fst worker_survey) worker_status found_kubelet);
    [vm_compute; reflexivity|left| | |reflexivity|apply (ran (register "leader/1" start_op start_site)); vm_compute; reflexivity
    |apply (ran started); vm_compute; reflexivity| |vm_compute; reflexivity|vm_compute; reflexivity|left|done
    |apply (ran worker_survey); vm_compute; reflexivity|vm_compute; reflexivity|vm_compute; done|vm_compute; reflexivity].
  - apply (bool_decide_unpack (NoDup (node_Address <$> c_Nodes lab_cluster))). vm_compute. exact I.
  - apply Forall_forall. unfold commands. repeat (apply Forall_cons; split; [by vm_compute|]). by apply Forall_nil.
  - eexists. vm_compute. reflexivity.
Defined.
