(* ===== verification/Backup.v ===== *)
(** * Backups of etcd (pkg/ckecli/cmd/etcd_localbackup.go)

    The command local-backup of ckecli: a snapshot of etcd is saved in a directory, and old
    backups are removed.  Times are ordered as the names of backups made from them, for which the
    file has the order of dates.  Closing files and what is printed are left out. *)

From Stdlib Require Import ZArith Ascii String Lia.
From stdpp Require Import base gmap list numbers strings sorting pretty.
From S2P Require Import Prelude GoLib GoPath GoTime K8s Cluster Storage StorageProps.

(** ** Names *)

(** [t.UTC().Format("20060102-150405")] *)
Definition FormatBackup (t : Time) : string :=
  let '(year, month, day) := date (mkTime (t_nanoseconds t) 0) in
  let s := local_seconds (mkTime (t_nanoseconds t) 0) mod 86400 in
  padded 4 year +:+ padded 2 month +:+ padded 2 day +:+ "-"
    +:+ padded 2 (s / 3600) +:+ padded 2 (s / 60 mod 60) +:+ padded 2 (s mod 60).
Definition backupFilename (t : Time) : string := "etcd-" +:+ FormatBackup t +:+ ".backup".
Example backup_name : backupFilename (mkTime (1709221385 * 10 ^ 9) 32400) = "etcd-20240229-154305.backup".
Proof. vm_compute. reflexivity. Qed.
(** [strings.HasSuffix] *)
Definition HasSuffix (s suffix : string) : bool :=
  (String.length suffix <=? String.length s)%nat
  && (String.substring (String.length s - String.length suffix) (String.length suffix) s =? suffix)%string.
Definition is_backup (name : string) : bool := HasPrefix name "etcd-" && HasSuffix name ".backup".

(** ** The directory

    What is at the path of the directory, and how many requests to the system have been made.
    The directory has files and other directories, which are empty or not. *)
Inductive dir_entry : Type :=
| Regular (content : string)
| Folder (empty : bool).
Inductive at_path : Type :=
| Missing
| NotDirectory
| Directory (files : gmap string dir_entry).
Record disk := mkDisk { dk_path : at_path; dk_requests : nat }.
Definition files_of (d : disk) : gmap string dir_entry :=
  match dk_path d with Directory files => files | _ => ∅ end.

Section backup.
(** Which requests fail; [torn] is what a failed copy leaves in the file, [snapshot] what etcd
    sends, and [verified] whether it is a database. *)
  Context (fails : nat -> bool) (torn snapshot : string) (verified : bool).

Definition bak (A : Type) : Type := disk -> disk * outcome A.
#[export] Instance bak_ret : MRet bak := fun A a d => (d, Done (Ok a)).
#[export] Instance bak_bind : MBind bak := fun A B k m d =>
  match m d with
  | (d', Done (Ok a)) => k a d'
  | (d', Done (Err e)) => (d', Done (Err e))
  | (d', Panicked w) => (d', Panicked w)
  | (d', Retrying) => (d', Retrying)
  end.
Definition fail_bak {A} (msg : string) : bak A := fun d => (d, Done (Err (ErrUnexpected msg))).
Definition panic_bak {A} (why : string) : bak A := fun d => (d, Panicked why).
(** A request, with its effect when it succeeds and when it fails. *)
Definition request_to (whole partial : at_path -> at_path) : bak unit := fun d =>
  let n := dk_requests d in
  if fails n then (mkDisk (partial (dk_path d)) (S n), Done (Err (ErrUnexpected "input/output error")))
  else (mkDisk (whole (dk_path d)) (S n), Done (Ok tt)).
Definition request_only : bak unit := request_to id id.
Definition on_files (f : gmap string dir_entry -> gmap string dir_entry) (p : at_path) : at_path :=
  match p with Directory files => Directory (f files) | p => p end.
Definition path_now : bak at_path := fun d => (d, Done (Ok (dk_path d))).
(** [if err != nil { os.Remove(fullName); return err }] *)
Definition or_remove (fname : string) (m : bak unit) : bak unit := fun d =>
  match m d with
  | (d1, Done (Err e)) => (fst (request_to (on_files (delete fname)) id d1), Done (Err e))
  | r => r
  end.

(** ** The command *)
Definition make_directory : bak unit :=
  _ ← request_only;
  p ← path_now;
  match p with
  | Directory _ => mret tt
  | NotDirectory => fail_bak "not a directory"
  | Missing => request_to (fun _ => Directory ∅) id
  end.
(** [os.Create]: a file that exists is truncated, a directory is not. *)
Definition create_file (fname : string) : bak unit :=
  p ← path_now;
  match p with
  | Directory files =>
      match files !! fname with
      | Some (Folder _) => fail_bak "is a directory"
      | _ => request_to (on_files (insert fname (Regular ""))) id
      end
  | _ => fail_bak "no such file or directory"
  end.
Definition backup (now : Time) : bak unit :=
  _ ← request_only;
  _ ← make_directory;
  let fname := backupFilename now in
  _ ← create_file fname;
  _ ← or_remove fname (request_to (on_files (insert fname (Regular snapshot))) (on_files (insert fname (Regular torn))));
  _ ← or_remove fname request_only;
  or_remove fname (if verified then request_only else fail_bak "failed to check status of the new backup").

(** [os.Remove(filepath.Join(config.dir, name))], which does not remove a directory with something in it; with
    no name it is the directory of the backups, which is not empty. *)
Definition remove_file (name : string) : bak unit :=
  p ← path_now;
  match p with
  | Directory files =>
      match files !! name with
      | Some (Regular _) | Some (Folder true) => request_to (on_files (delete name)) id
      | _ => fail_bak "failed to remove"
      end
  | _ => fail_bak "failed to remove"
  end.
Fixpoint remove_files (names : list string) : bak unit :=
  match names with
  | [] => mret tt
  | name :: rest => _ ← remove_file name; remove_files rest
  end.
(** [names[0:n]]: a slice may be extended up to its capacity. *)
Definition slice_of (names : list string) (cap : nat) (n : Z) : bak (list string) :=
  if Z.of_nat cap <? n then panic_bak "slice bounds out of range"
  else mret (take (Z.to_nat n) (names ++ repeat "" (cap - length names)%nat)).
Definition removeOldBackups (maxBackups : Z) : bak unit :=
  _ ← request_only;
  p ← path_now;
  match p with
  | Directory files =>
      let fis := sort_strings (fst <$> map_to_list files) in
      let names := sort_strings (List.filter is_backup fis) in
      let toRemove := len names - maxBackups in
      _ ← (if 0 <? toRemove then
             names ← slice_of names (length fis) toRemove; remove_files names
           else mret tt);
      _ ← request_only; request_only
  | _ => fail_bak "not a directory"
  end.
Definition etcdLocalBackup (maxBackups : Z) (now : Time) : bak unit :=
  _ ← request_only; _ ← backup now; removeOldBackups maxBackups.
End backup.

(** ** The order of names

    A property of the numbers up to a bound, by evaluation. *)
Lemma checked_upto (f : Z -> bool) n : forallb f (seqZ 0 n) = true -> forall z, 0 <= z < n -> f z = true.
Proof. rewrite forallb_forall. intros Hf z Hz. apply Hf, list_elem_of_In, elem_of_seqZ. lia. Qed.

(** *** The calendar *)
Definition year_of_era (doe : Z) : Z := (doe - doe / 1460 + doe / 36524 - doe / 146096) / 365.
Definition year_start (yoe : Z) : Z := 365 * yoe + yoe / 4 - yoe / 100 + yoe / 400.
Definition in_year (doy : Z) : Z * Z * Z :=
  let mp := (5 * doy + 2) / 153 in
  let month := if mp <? 10 then mp + 3 else mp - 9 in
  ((if month <=? 2 then 1 else 0), month, doy - (153 * mp + 2) / 5 + 1).
(** Dates are compared lexicographically. *)
Definition date_less (a b : Z * Z * Z) : bool :=
  let '(y1, m1, d1) := a in let '(y2, m2, d2) := b in
  (y1 <? y2) || ((y1 =? y2) && ((m1 <? m2) || ((m1 =? m2) && (d1 <? d2)))).
Lemma date_less_trans a b c : date_less a b = true -> date_less b c = true -> date_less a c = true.
Proof. destruct a as [[y1 m1] d1], b as [[y2 m2] d2], c as [[y3 m3] d3]. unfold date_less. lia. Qed.

Lemma div_step d n : 0 < n -> (d + 1) / n = d / n \/ (d + 1) / n = d / n + 1 /\ (d + 1) mod n = 0.
Proof. intros Hn. Z.to_euclidean_division_equations. nia. Qed.
Lemma year_of_era_step d : 0 <= d < 146096 -> year_of_era d <= year_of_era (d + 1).
Proof.
  intros Hd. apply Z.div_le_mono; [lia|].
  assert (d / 36524 <= (d + 1) / 36524) by (apply Z.div_le_mono; lia).
  assert (d / 146096 = 0) by (apply Z.div_small; lia).
  destruct (div_step d 1460) as [?|[? Hm]]; [lia| |].
  - destruct (div_step d 146096) as [?|[? _]]; lia.
  - assert ((d + 1) / 146096 = 0); [|lia]. apply Z.div_small.
    assert (d + 1 <> 146096) by (intros E; rewrite E in Hm; discriminate). lia.
Qed.
Lemma year_of_era_mono d e : 0 <= d <= e -> e < 146097 -> year_of_era d <= year_of_era e.
Proof.
  intros [Hd Hle] He. revert e Hle He. apply (Zlt_lower_bound_ind (fun e => e < 146097 -> year_of_era d <= year_of_era e)).
  intros e IH Hle He. destruct (Z.eq_dec d e) as [->|Hne]; [done|].
  etrans; [apply (IH (e - 1)); lia|]. replace e with (e - 1 + 1) at 2 by lia. apply year_of_era_step. lia.
Qed.
Lemma year_bounds y : 0 <= y < 400 ->
  year_of_era (year_start y) = y /\ year_of_era (year_start (y + 1) - 1) = y
  /\ 365 <= year_start (y + 1) - year_start y <= 366.
Proof.
  intros Hy. pose proof (checked_upto (fun z => (year_of_era (year_start z) =? z) && (year_of_era (year_start (z + 1) - 1) =? z)
    && (365 <=? year_start (z + 1) - year_start z) && (year_start (z + 1) - year_start z <=? 366)) 400
    ltac:(vm_compute; reflexivity) y Hy) as Hc. cbv beta in Hc. lia.
Qed.
Lemma year_of_era_range d : 0 <= d < 146097 -> 0 <= year_of_era d < 400.
Proof.
  intros Hd. split; [change 0 with (year_of_era 0); apply year_of_era_mono; lia|].
  enough (year_of_era d <= 399) by lia. change 399 with (year_of_era 146096). apply year_of_era_mono; lia.
Qed.
(** The year of a day of an era is the one that has begun and not ended. *)
Lemma day_in_year d : 0 <= d < 146097 ->
  year_start (year_of_era d) <= d < year_start (year_of_era d + 1).
Proof.
  intros Hd. pose proof (year_of_era_range d Hd) as Hy. set (y := year_of_era d) in *.
  destruct (year_bounds y Hy) as (Hs & He & _). split; apply Znot_gt_le || apply Znot_ge_lt; intros Hc.
  - assert (0 < y) by (destruct (Z.eq_dec y 0) as [E|]; [rewrite E in Hc; change (year_start 0) with 0 in Hc; lia|lia]).
    destruct (year_bounds (y - 1)) as (_ & Hp & _); [lia|]. replace (y - 1 + 1) with y in Hp by lia.
    pose proof (year_of_era_mono d (year_start y - 1)) as Hm. fold y in Hm.
    assert (year_start y - 1 < 146097). { unfold year_start. Z.to_euclidean_division_equations. lia. } lia.
  - destruct (Z.eq_dec y 399) as [E|Hne]; [rewrite E in Hc; change (year_start (399 + 1)) with 146097 in Hc; lia|].
    destruct (year_bounds (y + 1)) as (Hn & _); [lia|].
    pose proof (year_of_era_mono (year_start (y + 1)) d) as Hm. fold y in Hm.
    assert (0 <= year_start (y + 1)). { unfold year_start. Z.to_euclidean_division_equations. lia. } lia.
Qed.

Definition plus_years (n : Z) (d : Z * Z * Z) : Z * Z * Z := let '(y, m, d) := d in (n + y, m, d).
Lemma civil_in_year days :
  let era := (days + 719468) / 146097 in let doe := (days + 719468) mod 146097 in
  civil days = plus_years (400 * era + year_of_era doe) (in_year (doe - year_start (year_of_era doe))).
Proof.
  cbv zeta. set (doe := (days + 719468) mod 146097). 
  assert (year_of_era doe / 400 = 0) as E by (apply Z.div_small, year_of_era_range, Z.mod_pos_bound; lia).
  unfold year_start. rewrite E, Z.add_0_r. unfold civil, in_year, plus_years. fold doe. fold (year_of_era doe).
  cbn zeta beta. do 2 f_equal; lia.
Qed.
Lemma in_year_less a b : 0 <= a < b -> b <= 365 -> date_less (in_year a) (in_year b) = true.
Proof.
  intros [Ha Hab] Hb. revert b Hab Hb. 
  pose proof (checked_upto (fun z => date_less (in_year z) (in_year (z + 1))) 365 ltac:(vm_compute; reflexivity)) as Hs.
  intros b Hab. replace b with (b - 1 + 1) by lia. assert (a <= b - 1) as Hle by lia. revert Hle. generalize (b - 1). clear b Hab.
  apply (Zlt_lower_bound_ind (fun e => e + 1 <= 365 -> date_less (in_year a) (in_year (e + 1)) = true)).
  intros e IH Hle He. destruct (Z.eq_dec a e) as [->|Hne]; [apply Hs; lia|].
  eapply date_less_trans; [apply (IH (e - 1)); lia|]. replace (e - 1 + 1) with e by lia. apply Hs. lia.
Qed.
Lemma in_year_bounds a : 0 <= a <= 365 -> let '(y, m, d) := in_year a in 
  0 <= y <= 1 /\ (y = 1 -> m <= 2) /\ (y = 0 -> 3 <= m) /\ 1 <= m <= 12 /\ 1 <= d <= 31.
Proof.
  intros Ha. pose proof (checked_upto (fun z => let '(y, m, d) := in_year z in (0 <=? y) && (y <=? 1)
    && ((y =? 0) || (m <=? 2)) && ((y =? 1) || (3 <=? m)) && (1 <=? m) && (m <=? 12) && (1 <=? d) && (d <=? 31)) 366
    ltac:(vm_compute; reflexivity) a) as Hc. cbv beta in Hc. destruct (in_year a) as [[y m] d]. lia.
Qed.
Lemma plus_years_less n a b : date_less a b = true -> date_less (plus_years n a) (plus_years n b) = true.
Proof. destruct a as [[y1 m1] d1], b as [[y2 m2] d2]. unfold date_less, plus_years. lia. Qed.

(** Later days have later dates. *)
Lemma civil_less a b : a < b -> date_less (civil a) (civil b) = true.
Proof.
  intros Hab. rewrite (civil_in_year a), (civil_in_year b).
  set (ea := (a + 719468) / 146097). set (eb := (b + 719468) / 146097).
  set (da := (a + 719468) mod 146097). set (db := (b + 719468) mod 146097).
  assert (0 <= da < 146097) as Hda by (apply Z.mod_pos_bound; lia). 
  assert (0 <= db < 146097) as Hdb by (apply Z.mod_pos_bound; lia). 
  assert (146097 * ea + da < 146097 * eb + db) as Hlt by (unfold ea, da, eb, db; rewrite <- !Z.div_mod; lia).
  clearbody ea eb da db. clear a b Hab.
  pose proof (day_in_year da Hda) as Ha. pose proof (day_in_year db Hdb) as Hb.
  pose proof (year_of_era_range da Hda) as Ya. pose proof (year_of_era_range db Hdb) as Yb.
  destruct (year_bounds _ Ya) as (_ & _ & La). destruct (year_bounds _ Yb) as (_ & _ & Lb).
  destruct (Z.eq_dec ea eb) as [->|He]; [destruct (Z.eq_dec (year_of_era da) (year_of_era db)) as [E|Hne]|].
  - rewrite E in *. apply plus_years_less, in_year_less; lia.
  - assert (year_of_era da <= year_of_era db) by (apply year_of_era_mono; lia).
    pose proof (in_year_bounds (da - year_start (year_of_era da)) ltac:(lia)) as Ba.
    pose proof (in_year_bounds (db - year_start (year_of_era db)) ltac:(lia)) as Bb.
    destruct (in_year _) as [[y1 m1] d1]. destruct (in_year (db - _)) as [[y2 m2] d2]. unfold date_less, plus_years. lia.
  - pose proof (in_year_bounds (da - year_start (year_of_era da)) ltac:(lia)) as Ba.
    pose proof (in_year_bounds (db - year_start (year_of_era db)) ltac:(lia)) as Bb.
    destruct (in_year _) as [[y1 m1] d1]. destruct (in_year (db - _)) as [[y2 m2] d2]. unfold date_less, plus_years. lia.
Qed.

(** *** Digits *)
Definition digit (n : Z) : ascii := ascii_of_nat (Z.to_nat (48 + n)).
Lemma padded_2 z : 0 <= z < 100 -> padded 2 z = String (digit (z / 10)) (String (digit (z mod 10)) EmptyString).
Proof.
  intros Hz. apply String.eqb_eq. revert z Hz.
  apply (checked_upto (fun z => (padded 2 z =? String (digit (z / 10)) (String (digit (z mod 10)) EmptyString))%string)).
  vm_compute. reflexivity.
Qed.
Lemma pretty_go_app n s : pretty_N_go n s = pretty_N_go n "" +:+ s.
Proof.
  revert s. induction (N.lt_wf_0 n) as [n _ IH]; intros s. destruct (decide (0 < n)%N) as [Hn|Hn].
  - assert (n / 10 < n)%N as Hlt by (by apply N.div_lt). rewrite !(pretty_N_go_step n) by done.
    rewrite (IH _ Hlt (String _ s)), (IH _ Hlt (String _ "")). by rewrite <- string_app_assoc.
  - assert (n = 0%N) as -> by lia. by rewrite !pretty_N_go_0.
Qed.
Lemma FormatInt_N z : 0 < z -> FormatInt z = pretty_N_go (Z.to_N z) "".
Proof. intros Hz. destruct z as [|p|p]; [lia| |lia]. done. Qed.
Lemma char_digit n : (n < 10)%N -> pretty_N_char n = digit (Z.of_N n).
Proof. intros Hn. destruct n as [|p]; [done|]. do 4 (destruct p as [p|p|]; try done; try lia). Qed.
Lemma FormatInt_step z : 10 <= z -> FormatInt z = FormatInt (z / 10) +:+ String (digit (z mod 10)) EmptyString.
Proof.
  intros Hz. rewrite !FormatInt_N by (try (apply Z.div_str_pos); lia).
  rewrite pretty_N_go_step, pretty_go_app by lia. rewrite char_digit by (apply N.mod_lt; lia).
  by rewrite N2Z.inj_mod, Z2N.id, Z2N.inj_div by lia.
Qed.
Lemma zeros_S w : zeros (S w) = zeros w +:+ "0".
Proof. induction w as [|w IH]; [done|]. cbn [zeros] in *. by rewrite IH at 1. Qed.
Lemma FormatInt_digit z : 0 <= z < 10 -> FormatInt z = String (digit z) EmptyString.
Proof.
  intros Hz. apply String.eqb_eq. revert z Hz.
  apply (checked_upto (fun z => (FormatInt z =? String (digit z) EmptyString)%string)). vm_compute. reflexivity.
Qed.
Lemma length_string_app x y : String.length (x +:+ y) = (String.length x + String.length y)%nat.
Proof. induction x as [|c x IH]; [done|]. change (S (String.length (x +:+ y)) = S (String.length x) + String.length y)%nat. by rewrite IH. Qed.
(** The last digit of a number that is padded. *)
Lemma padded_S w z : 0 <= z -> (1 <= w)%nat ->
  padded (S w) z = padded w (z / 10) +:+ String (digit (z mod 10)) EmptyString.
Proof.
  intros Hz Hw. unfold padded. rewrite !Z.abs_eq by (try apply Z.div_pos; lia).
  rewrite (proj2 (Z.ltb_ge z 0)), (proj2 (Z.ltb_ge (z / 10) 0)) by (try apply Z.div_pos; lia).
  change ("" +:+ ?x) with x. destruct (decide (z < 10)) as [Hs|Hs].
  - rewrite Z.div_small, Z.mod_small, !FormatInt_digit by lia. destruct w as [|w]; [lia|].
    replace (S (S w) - _)%nat with (S w) by (cbn; lia). replace (S w - _)%nat with w by (cbn; lia).
    by rewrite zeros_S, <- !string_app_assoc.
  - rewrite (FormatInt_step z), length_string_app by lia. cbn [String.length].
    replace (S w - (_ + 1))%nat with (w - String.length (FormatInt (z / 10)))%nat by lia. by rewrite <- !string_app_assoc.
Qed.
Lemma padded_4 z : 0 <= z < 10000 -> padded 4 z = padded 2 (z / 100) +:+ padded 2 (z mod 100).
Proof.
  intros Hz. rewrite (padded_2 (z mod 100)) by (apply Z.mod_pos_bound; lia).
  rewrite (padded_S 3), (padded_S 2) by (try apply Z.div_pos; lia). rewrite Z.div_div by lia.
  replace (z / 10 mod 10) with (z mod 100 / 10) by (Z.to_euclidean_division_equations; lia).
  replace (z mod 10) with (z mod 100 mod 10) by (Z.to_euclidean_division_equations; lia).
  by rewrite <- string_app_assoc.
Qed.
Definition same_comparison (c c' : comparison) : bool :=
  match c, c' with Eq, Eq | Lt, Lt | Gt, Gt => true | _, _ => false end.
Lemma digits_compare a b : 0 <= a < 10 -> 0 <= b < 10 -> Ascii.compare (digit a) (digit b) = (a ?= b).
Proof.
  intros Ha Hb.
  pose proof (checked_upto (fun a => forallb (fun b => same_comparison (Ascii.compare (digit a) (digit b)) (a ?= b)) (seqZ 0 10)) 10
    ltac:(vm_compute; reflexivity) a Ha) as Hc. cbv beta in Hc. apply (checked_upto _ 10) with (z := b) in Hc; [|done].
  by destruct (Ascii.compare _ _), (a ?= b).
Qed.
Lemma str_less_char c c' x y :
  str_less (String c x) (String c' y) = match Ascii.compare c c' with Eq => str_less x y | Lt => true | Gt => false end.
Proof. unfold str_less. cbn [String.compare]. by destruct (Ascii.compare c c'). Qed.
Lemma app_two c c' x : String c (String c' EmptyString) +:+ x = String c (String c' x).
Proof. reflexivity. Qed.
(** Numbers of two digits are compared before what follows. *)
Lemma less_padded a b x y : 0 <= a < 100 -> 0 <= b < 100 ->
  str_less (padded 2 a +:+ x) (padded 2 b +:+ y) = (a <? b) || ((a =? b) && str_less x y).
Proof.
  intros Ha Hb. rewrite !padded_2 by done.
  rewrite !app_two, !str_less_char, !digits_compare by (split; [|]; Z.to_euclidean_division_equations; lia).
  destruct (str_less x y), (Z.compare_spec (a / 10) (b / 10)), (Z.compare_spec (a mod 10) (b mod 10)); Z.to_euclidean_division_equations; lia.
Qed.

(** *** Names and times *)
Lemma str_less_app p x y : str_less (p +:+ x) (p +:+ y) = str_less x y.
Proof.
  induction p as [|c p IH]; [done|]. change (str_less (String c (p +:+ x)) (String c (p +:+ y)) = str_less x y).
  rewrite str_less_char. replace (Ascii.compare c c) with Eq; [done|]. unfold Ascii.compare. by rewrite N.compare_refl.
Qed.
Lemma less_year a b x y : 0 <= a < 10000 -> 0 <= b < 10000 ->
  str_less (padded 4 a +:+ x) (padded 4 b +:+ y) = (a <? b) || ((a =? b) && str_less x y).
Proof.
  intros Ha Hb. rewrite !padded_4, <- !string_app_assoc by done.
  rewrite !less_padded by (split; Z.to_euclidean_division_equations; lia).
  destruct (str_less x y); Z.to_euclidean_division_equations; lia.
Qed.
(** The time of a day. *)
Lemma less_time a b x : 0 <= a < b -> b < 86400 ->
  str_less (padded 2 (a / 3600) +:+ padded 2 (a / 60 mod 60) +:+ padded 2 (a mod 60) +:+ x)
           (padded 2 (b / 3600) +:+ padded 2 (b / 60 mod 60) +:+ padded 2 (b mod 60) +:+ x) = true.
Proof.
  intros Ha Hb. rewrite !less_padded by (split; Z.to_euclidean_division_equations; lia).
  rewrite str_less_irrefl. Z.to_euclidean_division_equations. lia.
Qed.
Lemma civil_bounds days : let '(_, month, day) := civil days in 1 <= month <= 12 /\ 1 <= day <= 31.
Proof.
  rewrite civil_in_year. set (doe := (days + 719468) mod 146097).
  assert (0 <= doe < 146097) as Hd by (apply Z.mod_pos_bound; lia).
  pose proof (day_in_year doe Hd). destruct (year_bounds _ (year_of_era_range doe Hd)) as (_ & _ & Hl).
  pose proof (in_year_bounds (doe - year_start (year_of_era doe)) ltac:(lia)) as Hb.
  destruct (in_year _) as [[y m] d]. cbn. lia.
Qed.
Definition seconds (t : Time) : Z := t_nanoseconds t / 10 ^ 9.
(** The names of backups are in the order of their times, up to the end of the year 9999. *)
Lemma names_in_order t1 t2 :
  seconds t1 < seconds t2 -> 0 <= Year (mkTime (t_nanoseconds t1) 0) -> Year (mkTime (t_nanoseconds t2) 0) <= 9999 ->
  str_less (backupFilename t1) (backupFilename t2) = true.
Proof.
  unfold backupFilename, FormatBackup, Year, date, local_seconds, seconds. cbn [t_nanoseconds t_offset].
  rewrite !Z.add_0_r. set (s1 := t_nanoseconds t1 / _). set (s2 := t_nanoseconds t2 / _). clearbody s1 s2. intros Hs.
  assert (s1 / 86400 < s2 / 86400 /\ date_less (civil (s1 / 86400)) (civil (s2 / 86400)) = true
          \/ s1 / 86400 = s2 / 86400 /\ s1 mod 86400 < s2 mod 86400) as Hd.
  { destruct (decide (s1 / 86400 < s2 / 86400)); [left; auto using civil_less|right].
    Z.to_euclidean_division_equations. lia. }
  pose proof (Z.mod_pos_bound s1 86400 ltac:(lia)) as B1. pose proof (Z.mod_pos_bound s2 86400 ltac:(lia)) as B2.
  pose proof (civil_bounds (s1 / 86400)) as C1. pose proof (civil_bounds (s2 / 86400)) as C2.
  generalize dependent (s1 mod 86400). generalize dependent (s2 mod 86400). intros r2 B2 r1. revert C1 C2.
  assert (s1 / 86400 = s2 / 86400 -> civil (s1 / 86400) = civil (s2 / 86400)) as Hf by congruence. revert Hf.
  generalize (s1 / 86400) (s2 / 86400). intros D1 D2.
  destruct (civil D1) as [[y1 m1] d1], (civil D2) as [[y2 m2] d2]. intros Hf C1 C2 Hd B1 Hy1 Hy2.
  assert (y1 <= y2) by (destruct Hd as [[_ Hl]|[Hl _]]; [unfold date_less in Hl; lia|specialize (Hf Hl); congruence || (injection Hf; lia)]).
  rewrite str_less_app, <- !string_app_assoc, less_year, !less_padded, str_less_app by lia.
  destruct Hd as [[_ Hd]|[E Hr]].
  - unfold date_less in Hd. match goal with |- context [str_less ?x ?y] => destruct (str_less x y) end; lia.
  - injection (Hf E) as -> -> ->. rewrite less_time by lia. lia.
Qed.

(** ** What the command does *)
Section exact.
  Context (fails : nat -> bool) (torn snapshot : string) (verified : bool).

Lemma bak_bind_Ok {A B} (m : bak A) (k : A -> bak B) d d' b :
  (m ≫= k) d = (d', Done (Ok b)) -> exists d1 a, m d = (d1, Done (Ok a)) /\ k a d1 = (d', Done (Ok b)).
Proof. unfold mbind, bak_bind. destruct (m d) as [d1 [[a|e]|w|]]; try done. eauto. Qed.
Lemma request_Ok whole partial d d' u :
  request_to fails whole partial d = (d', Done (Ok u)) -> dk_path d' = whole (dk_path d).
Proof. unfold request_to. destruct (fails _); [done|]. by intros [= <- _]. Qed.
Lemma or_remove_Ok fname m d d' u : or_remove fails fname m d = (d', Done (Ok u)) -> m d = (d', Done (Ok u)).
Proof. unfold or_remove. destruct (m d) as [d1 [[[]|e]|w|]]; try done. Qed.

Lemma make_directory_Ok d d' u :
  make_directory fails d = (d', Done (Ok u)) -> dk_path d' = Directory (files_of d).
Proof.
  intros (d1 & [] & E1%request_Ok & Hk)%bak_bind_Ok. unfold files_of. change (dk_path d1 = dk_path d) in E1. rewrite <- E1. revert Hk.
  unfold mbind, bak_bind, path_now. destruct (dk_path d1) as [| |files] eqn:Hp; [|done|].
  - by intros ->%request_Ok.
  - by intros [= <- _].
Qed.
Lemma create_file_Ok fname d d' u files :
  dk_path d = Directory files -> create_file fails fname d = (d', Done (Ok u)) ->
  dk_path d' = Directory (<[ fname := Regular "" ]> files).
Proof.
  intros Hd. unfold create_file, mbind, bak_bind, path_now. rewrite Hd.
  destruct (files !! fname) as [[c|b]|]; [|done|]; intros Hr%request_Ok; by rewrite Hd in Hr.
Qed.
(** A backup that succeeds is one more file. *)
Lemma backup_Ok now d d' u :
  backup fails torn snapshot verified now d = (d', Done (Ok u)) ->
  dk_path d' = Directory (<[ backupFilename now := Regular snapshot ]> (files_of d)).
Proof.
  intros (d1 & [] & E1%request_Ok & Hk)%bak_bind_Ok. apply bak_bind_Ok in Hk as (d2 & [] & E2%make_directory_Ok & Hk).
  apply bak_bind_Ok in Hk as (d3 & [] & E3%(create_file_Ok _ _ _ _ _ E2) & Hk).
  apply bak_bind_Ok in Hk as (d4 & [] & E4%or_remove_Ok%request_Ok & Hk).
  apply bak_bind_Ok in Hk as (d5 & [] & E5%or_remove_Ok%request_Ok & Hk).
  apply or_remove_Ok in Hk. destruct verified; [|done]. apply request_Ok in Hk.
  assert (files_of d1 = files_of d) as Ef by (unfold files_of; by rewrite E1).
  rewrite Hk, E5, E4, E3, Ef. cbn. by rewrite insert_insert_eq.
Qed.
(** Computations that leave the file with a name alone, however they end. *)
Definition leaves {A} (name : string) (m : bak A) : Prop :=
  forall d, files_of (fst (m d)) !! name = files_of d !! name.
Lemma leaves_bind {A B} name (m : bak A) (k : A -> bak B) :
  leaves name m -> (forall a d d', m d = (d', Done (Ok a)) -> files_of (fst (k a d')) !! name = files_of d' !! name) ->
  leaves name (m ≫= k).
Proof.
  intros Hm Hk d. specialize (Hm d). unfold mbind, bak_bind. destruct (m d) as [d1 [[a|e]|w|]] eqn:E; cbn in Hm; try done.
  rewrite <- Hm. by eapply Hk.
Qed.
Lemma leaves_request name whole partial :
  (forall p n, files_of (mkDisk (whole p) n) !! name = files_of (mkDisk p n) !! name) ->
  (forall p n, files_of (mkDisk (partial p) n) !! name = files_of (mkDisk p n) !! name) ->
  leaves name (request_to fails whole partial).
Proof. intros Hw Hp [p n]. unfold request_to. cbn. destruct (fails _); [apply (Hp p (S n))|apply (Hw p (S n))]. Qed.
Lemma leaves_on name f partial : (forall files, f files !! name = files !! name) ->
  (partial = id \/ exists g, partial = on_files g /\ forall files, g files !! name = files !! name) ->
  leaves name (request_to fails (on_files f) partial).
Proof.
  intros Hf Hp. apply leaves_request; [by intros [| |files] n; cbn|].
  destruct Hp as [->|(g & -> & Hg)]; [done|]. by intros [| |files] n; cbn.
Qed.
Lemma leaves_or_remove name fname m : name <> fname -> leaves name m -> leaves name (or_remove fails fname m).
Proof.
  intros Hne Hm d. specialize (Hm d). unfold or_remove. destruct (m d) as [d1 [[a|e]|w|]]; try done. cbn in Hm.
  rewrite <- Hm. apply leaves_on; [|by left]. intros files. by apply lookup_delete_ne.
Qed.
Lemma leaves_create name fname : name <> fname -> leaves name (create_file fails fname).
Proof.
  intros Hne d. unfold create_file, mbind, bak_bind, path_now. destruct (dk_path d) as [| |files]; [done..|].
  destruct (files !! fname) as [[c|b]|]; [|done|];
    (apply leaves_on; [|by left]; intros; by apply lookup_insert_ne).
Qed.
(** However a backup ends, no other file is touched. *)
Lemma backup_others now name :
  name <> backupFilename now -> leaves name (backup fails torn snapshot verified now).
Proof.
  intros Hne. assert (leaves name (request_only fails)) as Hreq by (by apply leaves_request).
  unfold backup. apply leaves_bind; [done|intros [] s1 d1 _]. apply leaves_bind.
  { apply leaves_bind; [done|intros [] s2 d2 _]. unfold mbind, bak_bind, path_now. destruct (dk_path d2) as [| |files] eqn:Hp; [|done..].
    unfold request_to. destruct (fails _); cbn; unfold files_of; cbn; by rewrite Hp. }
  intros [] s2 d2 _. apply leaves_bind; [by apply leaves_create|intros [] s3 d3 _].
  apply leaves_bind; [apply leaves_or_remove; [done|]|intros [] s4 d4 _].
  { apply leaves_on; [|right; eexists; split; [done|]]; intros; by apply lookup_insert_ne. }
  apply leaves_bind; [by apply leaves_or_remove|intros [] s5 d5 _]. apply leaves_or_remove; [done|]. by destruct verified.
Qed.

(** Removing files. *)
Lemma remove_files_Ok names : forall d d' u files,
  dk_path d = Directory files -> remove_files fails names d = (d', Done (Ok u)) ->
  exists files', dk_path d' = Directory files'
    /\ forall name, files' !! name = if bool_decide (name ∈ names) then None else files !! name.
Proof.
  induction names as [|n names IH]; intros d d' u files Hd; cbn [remove_files].
  - intros [= <- _]. by exists files.
  - intros (d1 & [] & Hr & Hk)%bak_bind_Ok. unfold remove_file, mbind, bak_bind, path_now in Hr. rewrite Hd in Hr.
    assert (request_to fails (on_files (delete n)) id d = (d1, Done (Ok tt))) as Hr'%request_Ok
      by (by destruct (files !! n) as [[c|[]]|]). clear Hr. rename Hr' into Hr. rewrite Hd in Hr.
    destruct (IH d1 d' u _ Hr Hk) as (files' & Hf & Hl). exists files'. split; [done|]. intros name. rewrite Hl.
    destruct (decide (name = n)) as [->|Hne].
    + rewrite lookup_delete_eq, (bool_decide_eq_true_2 (n ∈ n :: names)) by set_solver. by case_bool_decide.
    + rewrite lookup_delete_ne by done. by rewrite (bool_decide_ext (name ∈ n :: names) (name ∈ names)) by set_solver.
Qed.
(** The backups of a directory, oldest name first. *)
Definition backups_in (files : gmap string dir_entry) : list string :=
  sort_strings (List.filter is_backup (sort_strings (fst <$> map_to_list files))).
Lemma elem_of_backups files name :
  name ∈ backups_in files <-> is_backup name = true /\ is_Some (files !! name).
Proof.
  unfold backups_in. rewrite sort_strings_perm, list_elem_of_In, filter_In, <- list_elem_of_In, sort_strings_perm.
  rewrite list_elem_of_fmap. split.
  - intros [([n c] & -> & Hin%elem_of_map_to_list) Hb]. split; [done|]. by exists c.
  - intros [Hb [c Hc]]. split; [|done]. exists (name, c). split; [done|]. by apply elem_of_map_to_list.
Qed.
Lemma backups_NoDup files : NoDup (backups_in files).
Proof.
  unfold backups_in. rewrite sort_strings_perm. apply NoDup_ListNoDup, List.NoDup_filter, NoDup_ListNoDup.
  rewrite sort_strings_perm. apply NoDup_fst_map_to_list.
Qed.
Lemma backups_sorted files : StronglySorted (fun a b => str_less a b = true) (backups_in files).
Proof.
  pose proof (backups_NoDup files) as Hn. pose proof (sort_strings_sorted (List.filter is_backup (sort_strings (fst <$> map_to_list files)))) as Hs.
  fold (backups_in files) in Hs. revert Hn Hs. unfold sorted_by. induction (backups_in files) as [|x l IH]; intros Hn Hs; [constructor|].
  apply NoDup_cons in Hn as [Hx Hn]. inversion Hs as [|? ? Hs' Hf]; subst. constructor; [auto|].
  rewrite Forall_forall in Hf |- *. intros y Hy. specialize (Hf y Hy). cbn in Hf.
  destruct (str_less x y) eqn:E; [done|]. exfalso. apply Hx. by rewrite (str_less_total x y E Hf).
Qed.
Lemma removeOldBackups_Ok max d d' u files :
  0 <= max -> dk_path d = Directory files -> removeOldBackups fails max d = (d', Done (Ok u)) ->
  let removed := take (Z.to_nat (len (backups_in files) - max)) (backups_in files) in
  exists files', dk_path d' = Directory files'
    /\ forall name, files' !! name = if bool_decide (name ∈ removed) then None else files !! name.
Proof.
  intros Hm Hd (d1 & [] & E1%request_Ok & Hk)%bak_bind_Ok removed. change (dk_path d1 = dk_path d) in E1.
  rewrite Hd in E1. unfold path_now in Hk. unfold mbind at 1, bak_bind at 1 in Hk. rewrite E1 in Hk.
  fold (backups_in files) in Hk.
  apply bak_bind_Ok in Hk as (d2 & [] & Hr & Hk).
  apply bak_bind_Ok in Hk as (d3 & [] & E3%request_Ok & E4%request_Ok).
  change (dk_path d3 = dk_path d2) in E3. change (dk_path d' = dk_path d3) in E4. rewrite E4, E3. clear E3 E4 d3 d'.
  destruct (0 <? _) eqn:Hpos.
  - apply bak_bind_Ok in Hr as (d3 & names & Hsl & Hr). unfold slice_of in Hsl. case_match; [done|].
    injection Hsl as <- <-. rewrite take_app_le in Hr by (unfold len; lia). by eapply remove_files_Ok.
  - injection Hr as <-. exists files. split; [done|]. intros name.
    unfold removed. replace (Z.to_nat _) with 0%nat by lia. by rewrite bool_decide_eq_false_2 by (cbn; set_solver).
Qed.

Lemma substring_end x y : String.substring (String.length x) (String.length y) (x +:+ y) = y.
Proof.
  induction x as [|c x IH]; [|exact IH]. change (String.substring 0 (String.length y) y = y).
  induction y as [|c y IHy]; [done|]. cbn. by rewrite IHy.
Qed.
Lemma HasSuffix_app x y : HasSuffix (x +:+ y) y = true.
Proof.
  unfold HasSuffix. rewrite length_string_app. replace (_ + _ - _)%nat with (String.length x) by lia.
  rewrite substring_end, String.eqb_refl, andb_true_r. apply Nat.leb_le. lia.
Qed.
Lemma backupFilename_is_backup t : is_backup (backupFilename t) = true.
Proof.
  unfold is_backup. apply andb_true_intro. split; [apply HasPrefix_app|].
  unfold backupFilename. rewrite string_app_assoc. apply HasSuffix_app.
Qed.

Lemma str_less_asym a b : str_less a b = true -> str_less b a = false.
Proof.
  intros Hab. destruct (str_less b a) eqn:E; [|done]. pose proof (str_less_trans _ _ _ Hab E) as Hc.
  by rewrite str_less_irrefl in Hc.
Qed.
Lemma less_sorted l : StronglySorted (fun a b => str_less a b = true) l -> sorted_by str_less l.
Proof.
  induction 1 as [|x l Hs IH Hf]; constructor; [done|]. eapply Forall_impl; [done|]. intros b. apply str_less_asym.
Qed.
(** What is left of the backups when the first ones are removed. *)
Lemma kept_backups all files' n :
  (forall name, files' !! name = if bool_decide (name ∈ take n (backups_in all)) then None else all !! name) ->
  backups_in files' = drop n (backups_in all).
Proof.
  intros Hl. pose proof (backups_NoDup all) as Hn. pose proof (backups_sorted all) as Hs.
  rewrite <- (take_drop n (backups_in all)) in Hn, Hs. apply NoDup_app in Hn as (_ & Hdis & Hn).
  apply sorted_strings_unique; [apply sort_strings_sorted| |].
  - by apply less_sorted, StronglySorted_app_1_r in Hs.
  - apply NoDup_Permutation; [apply backups_NoDup|done|]. intros name. rewrite elem_of_backups, Hl. split.
    + intros [Hb Hi]. case_bool_decide as Ht; [by destruct Hi|].
      assert (name ∈ backups_in all) as Hin by (by apply elem_of_backups).
      rewrite <- (take_drop n (backups_in all)) in Hin. by apply elem_of_app in Hin as [?|?].
    + intros Hd. assert (name ∈ backups_in all) as [Hb Hi]%elem_of_backups
        by (rewrite <- (take_drop n (backups_in all)); apply elem_of_app; by right).
      split; [done|]. rewrite bool_decide_eq_false_2; [done|]. intros Ht. by apply (Hdis name).
Qed.
Lemma removed_before all files' n old kept :
  (forall name, files' !! name = if bool_decide (name ∈ take n (backups_in all)) then None else all !! name) ->
  old ∈ backups_in all -> files' !! old = None -> kept ∈ backups_in files' -> str_less old kept = true.
Proof.
  intros Hl [_ [c Hc]]%elem_of_backups Hnone Hk. rewrite (kept_backups _ _ _ Hl) in Hk. rewrite Hl in Hnone.
  case_bool_decide as Ht; [|congruence]. pose proof (backups_sorted all) as Hs.
  rewrite <- (take_drop n (backups_in all)) in Hs. exact (StronglySorted_app_1_elem_of _ _ _ _ _ Hs Ht Hk).
Qed.

(** C33: When ckecli etcd local-backup succeeds, the files of the directory are those there were and the new backup,
    less the backups it removed; files that are not named like a backup are as they were; as many backups are left
    as the maximum allows; and every backup that was removed has a name before those that are kept.
    If the older backups have names made from earlier times, the new one is among those kept. *)
Theorem local_backup_exact max now d d' u :
  0 <= max -> etcdLocalBackup fails torn snapshot verified max now d = (d', Done (Ok u)) ->
  let all := <[ backupFilename now := Regular snapshot ]> (files_of d) in
  files_of d' ⊆ all
  /\ (forall name, is_backup name = false -> files_of d' !! name = files_of d !! name)
  /\ len (backups_in (files_of d')) = Z.min max (len (backups_in all))
  /\ (forall old kept, old ∈ backups_in all -> files_of d' !! old = None -> kept ∈ backups_in (files_of d') ->
        str_less old kept = true)
  /\ (0 < max -> Year (mkTime (t_nanoseconds now) 0) <= 9999 ->
      (forall name, name ∈ backups_in (files_of d) ->
         exists t, name = backupFilename t /\ seconds t < seconds now /\ 0 <= Year (mkTime (t_nanoseconds t) 0)) ->
      files_of d' !! backupFilename now = Some (Regular snapshot)).
Proof.
  intros Hm (d1 & [] & E1%request_Ok & Hk)%bak_bind_Ok all. apply bak_bind_Ok in Hk as (d2 & [] & Hb%backup_Ok & Hr).
  assert (files_of d1 = files_of d) as Ef by (unfold files_of; by rewrite E1). rewrite Ef in Hb. fold all in Hb.
  destruct (removeOldBackups_Ok _ _ _ _ _ Hm Hb Hr) as (files' & Hd' & Hl).
  set (n := Z.to_nat (len (backups_in all) - max)) in Hl.
  assert (files_of d' = files') as -> by (unfold files_of; by rewrite Hd').
  pose proof (kept_backups _ _ _ Hl) as Hkept.
  assert (len (backups_in files') = Z.min max (len (backups_in all))) as Hlen
    by (rewrite Hkept; unfold len, n; rewrite length_drop; unfold len; lia).
  pose proof (removed_before all files' n) as Hord. split_and!; [| |done|by eauto|].
  - apply map_subseteq_spec. intros name c. rewrite Hl. by case_bool_decide.
  - intros name Hn. rewrite Hl, bool_decide_eq_false_2.
    + apply lookup_insert_ne. intros <-. by rewrite backupFilename_is_backup in Hn.
    + intros Ht. assert (name ∈ backups_in all) as [Hb' _]%elem_of_backups
        by (rewrite <- (take_drop n (backups_in all)); apply elem_of_app; by left). congruence.
  - intros Hpos Hy Hold. rewrite Hl. case_bool_decide as Ht; [exfalso|apply lookup_insert_eq].
    assert (backupFilename now ∈ backups_in all) as Hin
      by (rewrite <- (take_drop n (backups_in all)); apply elem_of_app; by left).
    destruct (backups_in files') as [|kept l] eqn:Hf.
    { destruct (backups_in all); [by apply not_elem_of_nil in Hin|]. unfold len in Hlen. cbn in Hlen. lia. }
    assert (kept ∈ backups_in files') as Hkin by (rewrite Hf; constructor).
    assert (files' !! backupFilename now = None) as Hnone by (by rewrite Hl, bool_decide_eq_true_2).
    pose proof (removed_before all files' n _ _ Hl Hin Hnone Hkin) as Hlt. apply elem_of_backups in Hkin as [Hkb [c Hc]].
    assert (kept <> backupFilename now) as Hne by congruence.
    destruct (Hold kept) as (t & -> & Ht' & Hy').
    { apply elem_of_backups. split; [done|]. exists c. rewrite Hl in Hc. case_bool_decide; [done|].
      unfold all in Hc. by rewrite lookup_insert_ne in Hc by congruence. }
    rewrite (str_less_asym _ _ (names_in_order t now Ht' Hy' Hy)) in Hlt. done.
Qed.
End exact.

(** The tenth of January: two backups, an empty directory with the name of one, and a note, with a maximum of two. *)
Definition january (day : Z) : Time := mkTime ((1767225600 + (day - 1) * 86400) * 10 ^ 9) 0.
Definition three_backups : disk :=
  mkDisk (Directory (<[ "README" := Regular "note" ]> (<[ backupFilename (january 3) := Regular "third" ]>
    (<[ backupFilename (january 2) := Regular "second" ]> {[ backupFilename (january 1) := Folder true ]})))) 0.
Definition after_backup : disk := fst (etcdLocalBackup (fun _ => false) "" "tenth" true 2 (january 10) three_backups).
Lemma local_backup_exact_witness :
  files_of after_backup !! backupFilename (january 10) = Some (Regular "tenth")
  /\ files_of after_backup !! "README" = Some (Regular "note") /\ len (backups_in (files_of after_backup)) = 2.
Proof.
  destruct (local_backup_exact (fun _ => false) "" "tenth" true 2 (january 10) three_backups after_backup tt)
    as (_ & Hothers & Hlen & _ & Hnew); [lia|vm_compute; reflexivity|].
  split; [|split; [rewrite Hothers by (vm_compute; reflexivity); vm_compute; reflexivity|]].
  - apply Hnew; [lia|vm_compute; discriminate|]. intros name Hin.
    assert (backups_in (files_of three_backups) = backupFilename <$> [january 1; january 2; january 3]) as E
      by (vm_compute; reflexivity).
    rewrite E in Hin. apply list_elem_of_fmap in Hin as (t & -> & Ht). exists t. split; [reflexivity|].
    revert t Ht. apply Forall_forall. apply Forall_cons. split; [split; [vm_compute; reflexivity|vm_compute; discriminate]|].
    apply Forall_cons. split; [split; [vm_compute; reflexivity|vm_compute; discriminate]|].
    apply Forall_singleton. split; [vm_compute; reflexivity|vm_compute; discriminate].
  - rewrite Hlen. vm_compute. reflexivity.
Defined.

(** With a negative maximum the command panics after it has saved the snapshot. *)
Definition only_backups : disk := mkDisk (Directory {[ backupFilename (january 1) := Regular "first" ]}) 0.
Example negative_maximum :
  snd (etcdLocalBackup (fun _ => false) "" "tenth" true (-1) (january 10) only_backups)
  = Panicked "slice bounds out of range".
Proof. vm_compute. reflexivity. Qed.
